(* ===== verification/_CoqProject ===== *)
-Q . S2P
Prelude.v
PyVal.v
Interfaces.v
Text.v
Json.v
Effects.v
Resumption.v
Tasks.v
Crypto.v
Samples.v
Protocol.v
Auth.v
Identity.v
Table.v
Storage.v
Transport.v
Router.v
Gossip.v
Node.v
Network.v
Spread.v
Rounds.v
Lifecycle.v
Interleaving.v
Races.v
Client.v
Relay.v
Sessions.v
Repl.v
Cli.v
Flowables.v
Presentation.v
