(* ===== verification/Prelude.v ===== *)
(** * Nevod: a verification library for the node, the wire protocol and the cell client

    Nevod is a network of nodes that carry end-to-end encrypted messages between
    cells.  A node ([node/node.py]) keeps a SQLite database, talks to other nodes
    and to cells over WebSockets, and gossips about the nodes it knows.  A cell
    ([node/client.py]) connects to a node, registers itself and exchanges
    messages; [nevod.py] is the command line that runs either.  A script of its own,
    [generate_zki_v2.py], draws a presentation of the project as a PDF document.

    ** Files

    - [Prelude]: this header, bytes, the libraries all files use.
    - [PyVal]: Python values of dynamic type, exceptions, and the built-ins that
      the source applies to decoded documents.
    - [Interfaces]: the libraries the program calls (MessagePack, Ed25519, X25519,
      HKDF, ChaCha20-Poly1305), as classes of operations and classes of laws.
    - [Text]: texts as sequences of characters, UTF-8 and its lenient decoding;
      [Json]: printing and parsing of JSON as [json.dump] and [json.load] do it.
    - [Effects]: what the coroutines do (state, exceptions, a trace of what is
      written and printed, a stream of answers of the outside world) as classes of
      operations; the monad [M] that runs them to their end, [wp]; the rules for
      what an operation may change, [pres], and for what it knows about what it has
      read, [knows].
    - [Resumption]: the monad [Res] that runs the same operations and stops at
      every [await]; [Tasks]: the tasks of an event loop, for any object.
    - [Crypto] ([node/crypto.py]), [Protocol] ([node/protocol.py]), [Auth]
      ([node/auth.py]), [Identity] ([node/identity.py]).
    - [Table]: SQL tables with a primary key, and their view as finite maps;
      [Storage] ([node/storage.py]): the four tables, the statements [stmt], the
      methods, the abstract database [AbsDB], the invariant [db_inv], and policies,
      which say what statements a computation may run on what databases.
    - [Transport] ([node/transport.py]): [NodeState], the registry of connections,
      the handshake [do_auth], the receive loop, the server.
    - [Router] ([node/router.py]), [Gossip] ([node/gossip.py]), [Node]
      ([node/node.py]): the rest of a node; [Node] ends with the events of a
      running node, [on_event].
    - [Network]: gossip between two nodes; [Spread]: gossip among any number of
      nodes, and what a node knows as a set; [Rounds]: a round of gossip over live
      connections.
    - [Lifecycle]: a node from its creation to [stop].
    - [Interleaving]: the node as a system of tasks that take turns at their
      [await]s, [turn]; [Races]: what can happen between two of them.
    - [Client] ([node/client.py]); [Relay]: a message from client to client over
      any number of nodes; [Sessions]: the client as a system of tasks,
      [session]; [Repl] (the prompt of [nevod.py]) and [Cli] (its commands, over
      the files and databases of a machine).
    - [Flowables]: the paragraphs, tables and styles that a document is made of,
      their parts and fonts, and a specification of shape and width, [sound] and
      [fits]; [Presentation] ([generate_zki_v2.py]): fonts, styles, helpers, and the
      whole story of the presentation.
    - [Samples]: concrete instances of the interfaces, which show that the laws
      can hold together and let the witnesses evaluate.

    Definitions keep the names of the source; a method [_name] is [name], and a
    field whose name is taken has a prefix ([pid], [ntype], [cl_ws]).  State that
    the source keeps in an object is a record ([NodeState], [ClientState], [DB]);
    a function that updates a packet in place returns the packet as the caller
    holds it afterwards.  The methods of the storage are written against the class
    [HasDB], so that they run on any object that holds a database; the operations
    of a node are written against the classes of [Effects], so that [M] and [Res]
    run the same definitions.

    ** What the theorems show

    - Trust: [Transport.do_auth_sound] (whoever is let in has signed our fresh nonce
      with the key its identifier spells), [Transport.mutual_handshake] (two honest
      nodes do get in, each on the frames that the other one's run writes),
      [Protocol.signed_packet_verifies_over_wire],
      [Protocol.verify_packet_well_typed] (a verified packet has the declared
      types), [Node.cell_register_authenticated], [Sessions.client_trusts_its_node]
      (what a client is told has arrived in a frame that verifies under a key that
      was proved to it).
    - Delivery: [Router.route_first_reachable_hop] and
      [Router.route_buffers_when_unreachable] (the routing algorithm; the version of
      a packet is not stored, so the packet comes back as [unversioned]),
      [Node.cell_register_delivers_buffer] (what was kept is delivered),
      [Client.connect_registers], [Relay.message_crosses_nodes] (a message from client
      to client), [Relay.route_dials_next_hop], [Client.client_recv_loop_delivers],
      [Repl.add_then_write].
    - State: [Interleaving.interleaved_node_inv] (the invariant, however handlers
      interleave), [Interleaving.only_announced_nodes] (who is listed),
      [Interleaving.own_cells_only] (whom a node can serve),
      [Storage.storage_refines_maps] (the tables refine finite maps) and the
      theorems on single methods.
    - Gossip: [Gossip.gossip_merges_tables], [Spread.gossip_refines_union] (taking in
      tables refines the union of sets, so that their order does not matter),
      [Spread.sweeps_converge] (a line of nodes comes to list the same network),
      [Gossip.isolated_round] and [Rounds.connected_round] (what a round does when
      nobody and when everybody can be reached).
    - Life: [Lifecycle.stop_spec] (what [stop] closes and what it leaves),
      [Cli.node_survives_restart], [Cli.command_writes], [Cli.init_then_info],
      [Repl.session_ends], [Identity.load_save_identity].
    - The model itself: [Interleaving.uninterrupted_handler] (a task that nobody
      interrupts does what [M] computes) and [Interleaving.tasks_end] (no task runs
      for ever) connect the two ways of running the same definitions.
    - Failures: [Transport.recv_loop_runs] says what every error does.  Theorems
      that end in surprises of the code are stated as such: reflection and the
      signing oracle of the handshake, addresses that nothing authenticates,
      messages lost when a buffer is flushed, connections unregistered by a stale
      loop, sockets left open, a stale reading that overwrites a newer row, an address
      that is found to be bad only when it has been saved, commands that fail with the
      node left up.
    - Presentation, as the values that the package is given:
      [Presentation.document_fonts] (the fonts that the document names are there, its
      tables are rectangular and no wider than the page),
      [Presentation.boxes_of_any_content] (width and shape of the boxes of the
      helpers, for any content), [Presentation.scenario_rows_pairs] (the loop over
      the scenarios).

    The theorems of [Router] and [Relay] on routing hold of [route] in any state.  By
    [Interleaving.own_cells_only] a node of this version only ever reaches states
    in which every cell it knows is at home with it, so that the part of [route]
    that forwards and buffers is not exercised unless something else has written
    to the database.

    ** Modelling decisions

    Texts are UTF-8 byte strings.  Integers are unbounded, as in Python; the range
    of SQLite integers and of MessagePack integers is checked where values are
    bound or packed.  Everything the outside world decides - clock, randomness,
    whether a send or a dial succeeds, what is received - comes from an arbitrary
    environment [Env], so theorems hold for all of it; laws about it ([EnvLaws])
    are assumed only where the text of an identifier or the size of a nonce
    matters.  Loops run over finite lists (the rows of a snapshot, the frames that
    arrive before a socket closes, the lines that are typed), so they need no fuel.
    The JSON reader is the exception: it is given one more than the length of the
    text, and [Json.json_load_ends] shows that this is never used up.

    An [await] lets other tasks run before and after what is awaited, which itself
    is one step: a statement and its commit, a query, a frame sent, a frame
    received.  The locks of the registry are held over no [await], so they are
    never contended.  When the server of a node is closed, the websockets package
    closes the connections that it accepted and waits for their handlers, so
    [close_server] ends each handler that has registered a connection; a handler
    that is still in its handshake is not one of them, and may go on afterwards.  A
    cancelled round of gossip is dropped where it stands.  The node's callback may
    raise but does not reach into the node; a client's callback is an argument of the
    client.

    ** Not modelled

    Calls of the storage after it has been closed; the directories of identity
    files; limits of the JSON reader on the depth of a document and the digits of a
    number, and of [int] on the latter; lines of input that are not UTF-8; errors of
    printing; logging, except that the expressions
    logged are evaluated and may raise; the parsing of options by Click, with their
    defaults, and the registration of signal handlers; what [asyncio.run] does when
    the program ends; how reportlab lays out and writes a document or refuses it (only
    the values it is given are modelled, with exact lengths where Python has floating
    point); and the tests.  A timeout is an exception of the interaction it interrupts. *)
From Stdlib Require Export Strings.Ascii Strings.Byte.
From Stdlib Require Import Lia.
From Stdlib Require Strings.String.
From stdpp Require Export numbers option countable strings gmap base list.

#[global] Set Default Goal Selector "!".

(** ** Bytes *)

Abbreviation byte := Byte.byte.
Abbreviation bytes := (list Byte.byte).

#[global] Instance byte_eq_dec : EqDecision byte := Byte.byte_eq_dec.

#[global] Program Instance byte_countable : Countable byte :=
  inj_countable Byte.to_N Byte.of_N _.
Next Obligation. exact Byte.of_to_N. Qed.

(** Encoding of a Python [str], represented by its UTF-8 bytes. *)
Definition str_encode (s : string) : bytes := String.list_byte_of_string s.
Definition str_decode (b : bytes) : string := String.string_of_list_byte b.

Lemma str_decode_encode s : str_decode (str_encode s) = s.
Proof. apply String.string_of_list_byte_of_string. Qed.
#[global] Instance str_encode_inj : Inj (=) (=) str_encode.
Proof. intros s t H. by rewrite <-(str_decode_encode s), H, str_decode_encode. Qed.

Lemma str_encode_cons a s : str_encode (String a s) = Ascii.byte_of_ascii a :: str_encode s.
Proof. done. Qed.
Lemma str_encode_app s t : str_encode (s +:+ t) = str_encode s ++ str_encode t.
Proof. induction s as [|a s IH]; [done|]. exact (f_equal (cons (Ascii.byte_of_ascii a)) IH). Qed.
