(* ===== verification/PyVal.v ===== *)
(** * Python values, exceptions and the built-ins the program applies to them

    Message payloads are MessagePack documents, so the handlers compute on
    dynamically typed Python values.  This file has the values ([pyval]), the
    exceptions ([exn], [result]) and the built-ins the source uses on them:
    subscripting, [dict.get], truthiness, iteration, [bytes()], [bytes.hex()],
    [bytes.fromhex()], [str()], [str.split] and [str.rsplit].

    A Python [str] is represented by its UTF-8 encoding (a Rocq [string]), a
    Python [bytes] by a list of bytes, an unbounded [int] by [Z] and a [float]
    by the 64 bits of its IEEE 754 representation. *)
From S2P Require Import Prelude.
From stdpp Require Import pretty.

(** ** Exceptions *)

Inductive exn :=
  | TypeError | ValueError | KeyError | AttributeError | RuntimeError
  | OverflowError | FileNotFoundError | OSError | SystemExit
  | ConnectionClosed | ConnectError | TimeoutError
  | InvalidSignature | InvalidTag
  | IntegrityError | BindingError | UnpackError | IndexError | TTFError.

#[global] Instance exn_eq_dec : EqDecision exn.
Proof. solve_decision. Defined.

Inductive result (A : Type) := Ok (a : A) | Raise (e : exn).
Arguments Ok {A} a.
Arguments Raise {A} e.

#[global] Instance result_eq_dec `{EqDecision A} : EqDecision (result A).
Proof. solve_decision. Defined.
#[global] Instance result_ret : MRet result := λ A a, Ok a.
#[global] Instance result_bind : MBind result := λ A B f m,
  match m with Ok a => f a | Raise e => Raise e end.
#[global] Instance result_fmap : FMap result := λ A B f m,
  match m with Ok a => Ok (f a) | Raise e => Raise e end.

(** [try: m  except Exception: return d] *)
Definition or_else {A} (d : A) (r : result A) : A :=
  match r with Ok a => a | Raise _ => d end.

Lemma result_bind_Ok {A B} (f : A → result B) m b :
  m ≫= f = Ok b ↔ ∃ a, m = Ok a ∧ f a = Ok b.
Proof. destruct m; simpl; naive_solver. Qed.

(** ** Values *)

Set Warnings "-register-all".

(** MessagePack maps are decoded with [strict_map_key], so keys are strings
    or byte strings. *)
Inductive pykey := KStr (s : string) | KBin (b : bytes).

#[global] Instance pykey_eq_dec : EqDecision pykey.
Proof. solve_decision. Defined.

Inductive pyval :=
  | VNone
  | VBool (b : bool)
  | VInt (z : Z)
  | VFloat (bits : Z)
  | VStr (s : string)
  | VBin (b : bytes)
  | VList (l : list pyval)
  | VDict (d : list (pykey * pyval))
  | VExt (code : Z) (data : bytes).

Coercion VStr : string >-> pyval.

Section pyval_ind.
Context (P : pyval → Prop).
Context (HNone : P VNone) (HBool : ∀ b, P (VBool b)) (HInt : ∀ z, P (VInt z))
  (HFloat : ∀ z, P (VFloat z)) (HStr : ∀ s, P (VStr s)) (HBin : ∀ b, P (VBin b))
  (HList : ∀ l, Forall P l → P (VList l))
  (HDict : ∀ d, Forall (λ kv, P kv.2) d → P (VDict d))
  (HExt : ∀ c d, P (VExt c d)).

Fixpoint pyval_rect' (v : pyval) : P v :=
  match v with
  | VNone => HNone
  | VBool b => HBool b
  | VInt z => HInt z
  | VFloat z => HFloat z
  | VStr s => HStr s
  | VBin b => HBin b
  | VList l => HList l ((fix go l : Forall P l :=
      match l with
      | [] => @Forall_nil_2 _ P
      | v :: l => @Forall_cons_2 _ P v l (pyval_rect' v) (go l)
      end) l)
  | VDict d => HDict d ((fix go d : Forall (λ kv, P kv.2) d :=
      match d with
      | [] => @Forall_nil_2 _ _
      | kv :: d => @Forall_cons_2 _ _ kv d (pyval_rect' kv.2) (go d)
      end) d)
  | VExt c d => HExt c d
  end.
End pyval_ind.

(** *** Decidable equality and countability, through [gen_tree] *)

Definition leaf : Type :=
  unit + bool + Z + Z + string + bytes + (Z * bytes).

Definition key_enc (k : pykey) : string + bytes :=
  match k with KStr s => inl s | KBin b => inr b end.
Definition key_dec (k : string + bytes) : pykey :=
  match k with inl s => KStr s | inr b => KBin b end.

#[global] Instance pykey_countable : Countable pykey.
Proof. apply (inj_countable' key_enc key_dec). by intros []. Defined.

Fixpoint val_enc (v : pyval) : gen_tree (leaf + pykey) :=
  match v with
  | VNone => GenLeaf (inl (inl (inl (inl (inl (inl (inl tt)))))))
  | VBool b => GenLeaf (inl (inl (inl (inl (inl (inl (inr b)))))))
  | VInt z => GenLeaf (inl (inl (inl (inl (inl (inr z))))))
  | VFloat z => GenLeaf (inl (inl (inl (inl (inr z)))))
  | VStr s => GenLeaf (inl (inl (inl (inr s))))
  | VBin b => GenLeaf (inl (inl (inr b)))
  | VExt c d => GenLeaf (inl (inr (c, d)))
  | VList l => GenNode 0 (val_enc <$> l)
  | VDict d => GenNode 1 ((λ kv, GenNode 0 [GenLeaf (inr kv.1); val_enc kv.2]) <$> d)
  end.

Fixpoint val_dec (t : gen_tree (leaf + pykey)) : pyval :=
  match t with
  | GenLeaf (inl (inl (inl (inl (inl (inl (inl tt))))))) => VNone
  | GenLeaf (inl (inl (inl (inl (inl (inl (inr b))))))) => VBool b
  | GenLeaf (inl (inl (inl (inl (inl (inr z)))))) => VInt z
  | GenLeaf (inl (inl (inl (inl (inr z))))) => VFloat z
  | GenLeaf (inl (inl (inl (inr s)))) => VStr s
  | GenLeaf (inl (inl (inr b))) => VBin b
  | GenLeaf (inl (inr (c, d))) => VExt c d
  | GenNode 0 l => VList (val_dec <$> l)
  | GenNode 1 l => VDict ((λ t, match t with
      | GenNode _ [GenLeaf (inr k); v] => (k, val_dec v)
      | _ => (KStr "", VNone)
      end) <$> l)
  | _ => VNone
  end.

Lemma val_dec_enc v : val_dec (val_enc v) = v.
Proof.
  induction v as [| | | | | |l IH|d IH|] using pyval_rect'; simpl; try done.
  - f_equal. induction IH; [done|]. simpl. by f_equal.
  - f_equal. induction IH as [|[k v] d Hv _ IH]; [done|]. simpl in *. rewrite Hv. f_equal. exact IH.
Qed.

Fixpoint pyval_beq (v w : pyval) {struct v} : bool :=
  match v, w with
  | VNone, VNone => true
  | VBool b, VBool c => bool_decide (b = c)
  | VInt z, VInt y | VFloat z, VFloat y => bool_decide (z = y)
  | VStr s, VStr t => bool_decide (s = t)
  | VBin s, VBin t => bool_decide (s = t)
  | VExt c s, VExt d t => bool_decide (c = d) && bool_decide (s = t)
  | VList l, VList m => (fix go l m :=
      match l, m with
      | [], [] => true
      | v :: l, w :: m => pyval_beq v w && go l m
      | _, _ => false
      end) l m
  | VDict l, VDict m => (fix go l m :=
      match l, m with
      | [], [] => true
      | kv :: l, kw :: m => bool_decide (kv.1 = kw.1) && pyval_beq kv.2 kw.2 && go l m
      | _, _ => false
      end) l m
  | _, _ => false
  end.

Lemma pyval_beq_eq v w : pyval_beq v w = true ↔ v = w.
Proof.
  revert w. induction v as [| | | | | |l IH|d IH|] using pyval_rect'; intros [];
    simpl; rewrite ?andb_true_iff, ?bool_decide_eq_true; try naive_solver.
  - match goal with |- _ ↔ VList _ = VList ?m => revert m end.
    induction IH as [|v l Hv _ IH]; intros [|w m]; try done.
    rewrite andb_true_iff, Hv, IH. naive_solver.
  - match goal with |- _ ↔ VDict _ = VDict ?m => revert m end.
    induction IH as [|[k v] l Hv _ IH]; intros [|[k' w] m]; try done.
    rewrite !andb_true_iff, bool_decide_eq_true, Hv, IH. simpl. naive_solver.
Qed.

#[global] Instance pyval_eq_dec : EqDecision pyval := λ v w,
  match pyval_beq v w as b return (b = true ↔ v = w) → _ with
  | true => λ H, left (proj1 H eq_refl)
  | false => λ H, right (λ e, Bool.diff_false_true (proj2 H e))
  end (pyval_beq_eq v w).

#[global] Instance pyval_countable : Countable pyval :=
  inj_countable' val_enc val_dec val_dec_enc.

(** ** Built-ins *)

(** Truthiness, as in [if x:], [not x] and [x or y]. *)
Definition truthy (v : pyval) : bool :=
  match v with
  | VNone => false
  | VBool b => b
  | VInt z => negb (z =? 0)%Z
  | VFloat z => negb ((z =? 0) || (z =? 2^63))%Z
  | VStr s => negb (bool_decide (s = ""))
  | VBin b => negb (bool_decide (b = []))
  | VList l => negb (bool_decide (l = []))
  | VDict d => match d with [] => false | _ => true end
  | VExt _ _ => true
  end.

Fixpoint assoc_find (k : pykey) (d : list (pykey * pyval)) : option pyval :=
  match d with
  | [] => None
  | (k', v) :: d => if decide (k = k') then Some v else assoc_find k d
  end.

(** [data[k]] with a string key *)
Definition py_getitem (v : pyval) (k : string) : result pyval :=
  match v with
  | VDict d => match assoc_find (KStr k) d with Some x => Ok x | None => Raise KeyError end
  | _ => Raise TypeError
  end.

(** [data.get(k, default)] *)
Definition py_get (v : pyval) (k : string) (default : pyval) : result pyval :=
  match v with
  | VDict d => Ok (from_option id default (assoc_find (KStr k) d))
  | _ => Raise AttributeError
  end.

(** [bytes(iterable)] accepts integers in [0, 255]; booleans are integers. *)
Definition byte_of_item (v : pyval) : result byte :=
  match v with
  | VInt z => if decide (0 ≤ z < 256)%Z
              then from_option Ok (Raise ValueError) (Byte.of_N (Z.to_N z))
              else Raise ValueError
  | VBool b => Ok (if b then "001" else "000")%byte
  | _ => Raise TypeError
  end.

Fixpoint py_bytes_list (l : list pyval) : result bytes :=
  match l with
  | [] => Ok []
  | v :: l => b ← byte_of_item v; bs ← py_bytes_list l; mret (b :: bs)
  end.

(** [bytes(v)] *)
Definition py_bytes (v : pyval) : result bytes :=
  match v with
  | VBin b => Ok b
  | VInt z => if decide (0 ≤ z)%Z then
                if decide (z < 2^63)%Z then Ok (replicate (Z.to_nat z) "000"%byte)
                else Raise OverflowError
              else Raise ValueError
  | VBool b => Ok (if b then ["000"] else [])%byte
  | VList l => py_bytes_list l
  | VDict [] => Ok []
  | VExt code _ => if decide (code < 0 ∧ code ≠ -1)%Z then Raise ValueError else Raise TypeError
  | VNone | VFloat _ | VStr _ | VDict (_ :: _) => Raise TypeError
  end.

(** The characters of a string: a UTF-8 continuation byte belongs to the
    character before it. *)
Definition is_continuation (a : Ascii.ascii) : bool :=
  match a with Ascii.Ascii _ _ _ _ _ _ false true => true | _ => false end.

Fixpoint utf8_chars (s : string) : list string :=
  match s with
  | EmptyString => []
  | String a s =>
      let cs := utf8_chars s in
      match s, cs with
      | String b _, c :: cs' =>
          if is_continuation b then String a c :: cs' else String a "" :: cs
      | _, _ => String a "" :: cs
      end
  end.

Definition key_val (k : pykey) : pyval :=
  match k with KStr s => VStr s | KBin b => VBin b end.

(** [for x in v] *)
Definition py_iter (v : pyval) : result (list pyval) :=
  match v with
  | VList l => Ok l
  | VStr s => Ok (VStr <$> utf8_chars s)
  | VBin b => Ok ((λ x, VInt (Z.of_N (Byte.to_N x))) <$> b)
  | VDict d => Ok (key_val ∘ fst <$> d)
  | VExt code data =>
      if decide (code = -1)%Z then Raise TypeError else Ok [VInt code; VBin data]
  | VNone | VBool _ | VInt _ | VFloat _ => Raise TypeError
  end.

(** [v[:8]], used only to shorten what is logged *)
Definition py_slice8 (v : pyval) : result unit :=
  match v with
  | VStr _ | VBin _ | VList _ => Ok ()
  | VExt code _ => if decide (code = -1)%Z then Raise TypeError else Ok ()
  | _ => Raise TypeError
  end.

(** [s.encode()] *)
Definition py_encode (v : pyval) : result bytes :=
  match v with VStr s => Ok (str_encode s) | _ => Raise AttributeError end.

(** [acc + v] where [acc] is a byte string *)
Definition py_concat (acc : bytes) (v : pyval) : result bytes :=
  match v with VBin b => Ok (acc ++ b) | _ => Raise TypeError end.

(** The textual forms that the development does not spell out: [repr] of
    floats and containers, [float.hex], and SQLite's text for a float bound to a
    TEXT column (NULL for a NaN).  Nothing is assumed about them. *)
Class PyRepr := {
  py_repr : pyval → string;
  float_hex : Z → string;
  real_text : Z → option string;
}.

(** [str(v)] *)
Definition py_str `{!PyRepr} (v : pyval) : string :=
  match v with
  | VStr s => s
  | VInt z => pretty z
  | VBool b => if b then "True" else "False"
  | VNone => "None"
  | _ => py_repr v
  end.

(** ** Hexadecimal *)

Definition hex_digit (n : N) : Ascii.ascii :=
  Ascii.ascii_of_N (if (n <? 10)%N then 48 + n else 87 + n)%N.

(** [b.hex()] *)
Fixpoint bytes_hex (b : bytes) : string :=
  match b with
  | [] => ""
  | x :: b =>
      String (hex_digit (Byte.to_N x / 16)) (String (hex_digit (Byte.to_N x mod 16))
        (bytes_hex b))
  end.

Definition hex_value (a : Ascii.ascii) : option N :=
  let n := Ascii.N_of_ascii a in
  if (48 <=? n)%N && (n <=? 57)%N then Some (n - 48)%N
  else if (97 <=? n)%N && (n <=? 102)%N then Some (n - 87)%N
  else if (65 <=? n)%N && (n <=? 70)%N then Some (n - 55)%N
  else None.

(** ASCII whitespace, as [bytes.fromhex] and [str.split] skip it *)
Definition is_space (a : Ascii.ascii) : bool :=
  let n := Ascii.N_of_ascii a in (n =? 32)%N || ((9 <=? n)%N && (n <=? 13)%N).

(** [bytes.fromhex(s)]: pairs of digits, whitespace allowed between pairs *)
Fixpoint bytes_fromhex (s : string) : result bytes :=
  match s with
  | "" => Ok []
  | String a s =>
      if is_space a then bytes_fromhex s else
      match s with
      | "" => Raise ValueError
      | String b s =>
          match hex_value a, hex_value b with
          | Some h, Some l =>
              match Byte.of_N (16 * h + l) with
              | Some x => bs ← bytes_fromhex s; mret (x :: bs)
              | None => Raise ValueError
              end
          | _, _ => Raise ValueError
          end
      end
  end%string.

Lemma byte_hex_roundtrip x :
  hex_value (hex_digit (Byte.to_N x / 16)) = Some (Byte.to_N x / 16)%N ∧
  hex_value (hex_digit (Byte.to_N x mod 16)) = Some (Byte.to_N x mod 16)%N ∧
  is_space (hex_digit (Byte.to_N x / 16)) = false ∧
  Byte.of_N (16 * (Byte.to_N x / 16) + Byte.to_N x mod 16) = Some x.
Proof. by destruct x. Qed.

Lemma bytes_fromhex_hex b : bytes_fromhex (bytes_hex b) = Ok b.
Proof.
  induction b as [|x b IH]; [done|].
  destruct (byte_hex_roundtrip x) as (H1 & H2 & H3 & H4).
  cbn [bytes_hex bytes_fromhex]. by rewrite H3, H1, H2, H4, IH.
Qed.

#[global] Instance bytes_hex_inj : Inj (=) (=) bytes_hex.
Proof.
  intros b c H. assert (Ok b = Ok c) as [=] by (by rewrite <-!bytes_fromhex_hex, H). done.
Qed.

(** ** Splitting strings *)

(** [c in s] for a one-character ASCII separator *)
Fixpoint str_mem (c : Ascii.ascii) (s : string) : bool :=
  match s with
  | EmptyString => false
  | String a s => bool_decide (a = c) || str_mem c s
  end.

(** [s.split(c, 1)] when [c] occurs in [s] *)
Fixpoint split_first (c : Ascii.ascii) (s : string) : option (string * string) :=
  match s with
  | EmptyString => None
  | String a s =>
      if decide (a = c) then Some (EmptyString, s)
      else prod_map (String a) id <$> split_first c s
  end.

(** [s.rsplit(c, 1)] when [c] occurs in [s] *)
Fixpoint split_last (c : Ascii.ascii) (s : string) : option (string * string) :=
  match s with
  | EmptyString => None
  | String a s =>
      match split_last c s with
      | Some (l, r) => Some (String a l, r)
      | None => if decide (a = c) then Some (EmptyString, s) else None
      end
  end.

Lemma split_first_app c l r :
  str_mem c l = false → split_first c (l +:+ String c r) = Some (l, r).
Proof.
  induction l as [|a l IH]; simpl; [by rewrite decide_True|].
  rewrite orb_false_iff, bool_decide_eq_false. intros [Ha Hl].
  by rewrite decide_False, IH by done.
Qed.

