(* ===== verification/Interfaces.v ===== *)
(** * The libraries the program calls, as interfaces

    MessagePack ([msgpack]), Ed25519, X25519, HKDF and ChaCha20-Poly1305
    ([cryptography]) are not part of the repository.  Each is a class of
    operations, which the models take as an argument, and a class of laws, which
    only the theorems that need them assume.  The laws state documented
    behaviour on the inputs for which it is documented; [Samples.v] has an
    instance of every class, so that they can be satisfied together. *)
From S2P Require Import Prelude PyVal.

(** ** UTF-8 *)

(** [utf8_go need lo hi s]: [need] continuation bytes are due, the next of them
    within [lo, hi] (the well-formed byte sequences of the Unicode standard). *)
Fixpoint utf8_go (need : nat) (lo hi : N) (s : string) : bool :=
  match s with
  | EmptyString => bool_decide (need = O)
  | String a s =>
      let n := Ascii.N_of_ascii a in
      let within l h := ((l <=? n) && (n <=? h))%N in
      match need with
      | S k => within lo hi && utf8_go k 128 191 s
      | O =>
          if within 0 127 then utf8_go 0%nat 0 0 s
          else if within 194 223 then utf8_go 1%nat 128 191 s
          else if within 224 224 then utf8_go 2%nat 160 191 s
          else if within 237 237 then utf8_go 2%nat 128 159 s
          else if within 225 239 then utf8_go 2%nat 128 191 s
          else if within 240 240 then utf8_go 3%nat 144 191 s
          else if within 241 243 then utf8_go 3%nat 128 191 s
          else if within 244 244 then utf8_go 3%nat 128 143 s
          else false
      end
  end%N.
Definition utf8_valid (s : string) : bool := utf8_go 0 0 0 s.

(** ** MessagePack *)

Class MsgPack := {
  packb : pyval → result bytes;      (** [msgpack.packb(v, use_bin_type=True)] *)
  unpackb : bytes → result pyval;    (** [msgpack.unpackb(b, raw=False)] *)
}.

Definition small {A} (l : list A) : bool := (Z.of_nat (length l) <? 2^32)%Z.

(** The documents for which the round trip is documented: integers that fit
    64 bits, texts that are valid UTF-8, lengths that fit 32 bits, maps with
    distinct keys, and a nesting within the packer's limit.  Floats and
    extension types are left out. *)
Definition key_ok (k : pykey) : bool :=
  match k with KStr s => utf8_valid s && small (str_encode s) | KBin b => small b end.

Fixpoint scalars_ok (v : pyval) : bool :=
  match v with
  | VNone | VBool _ => true
  | VInt z => ((- 2^63 <=? z) && (z <? 2^64))%Z
  | VStr s => utf8_valid s && small (str_encode s)
  | VBin b => small b
  | VList l => small l && forallb scalars_ok l
  | VDict d =>
      small d && bool_decide (NoDup (fst <$> d)) &&
      forallb (λ kv, key_ok kv.1 && scalars_ok kv.2) d
  | VFloat _ | VExt _ _ => false
  end.

Fixpoint depth (v : pyval) : nat :=
  match v with
  | VList l => S (foldr (λ v n, max (depth v) n) 0 l)
  | VDict d => S (foldr (λ kv n, max (depth kv.2) n) 0 d)
  | _ => 0
  end.

Definition packable (v : pyval) : bool := scalars_ok v && (depth v <=? 500).

(** Hexadecimal text is ASCII. *)
Lemma utf8_hex b : utf8_valid (bytes_hex b) = true.
Proof.
  assert (∀ x s, utf8_valid s = true →
    utf8_valid (String (hex_digit (Byte.to_N x / 16)) (String (hex_digit (Byte.to_N x mod 16)) s))
    = true) as Hx by (intros []; done).
  induction b as [|x b IH]; [done|]. by apply Hx.
Qed.

Lemma hex_length b : length (str_encode (bytes_hex b)) = 2 * length b.
Proof.
  induction b as [|x b IH]; [done|]. cbn [bytes_hex]. rewrite !str_encode_cons. simpl. lia.
Qed.

Lemma scalars_ok_hex b : length b < 1000 → scalars_ok (VStr (bytes_hex b)) = true.
Proof. intros Hb. cbn [scalars_ok]. rewrite utf8_hex. apply Z.ltb_lt. rewrite hex_length. lia. Qed.

(** An upper bound on the encoded size, from the format's specification: a
    header of at most five bytes for texts, byte strings, arrays and maps, at
    most nine bytes for a number. *)
Definition key_size (k : pykey) : nat :=
  match k with KStr s => 5 + length (str_encode s) | KBin b => 5 + length b end.

Fixpoint psize (v : pyval) : nat :=
  match v with
  | VNone | VBool _ => 1
  | VInt _ | VFloat _ => 9
  | VStr s => 5 + length (str_encode s)
  | VBin b => 5 + length b
  | VList l => 5 + foldr (λ v n, psize v + n) 0 l
  | VDict d => 5 + foldr (λ kv n, key_size kv.1 + psize kv.2 + n) 0 d
  | VExt _ b => 6 + length b
  end.

Class MsgPackLaws `{!MsgPack} : Prop := {
  unpackb_packb v : packable v = true → ∃ b, packb v = Ok b ∧ unpackb b = Ok v;
  packb_size v b : packb v = Ok b → length b ≤ psize v;
}.

(** ** Ed25519 *)

Class Ed25519 := {
  edkey : Type;                                  (** [Ed25519PrivateKey] *)
  edpub : Type;                                  (** [Ed25519PublicKey] *)
  ed_public : edkey → bytes;                     (** raw public key *)
  ed_sign : edkey → bytes → bytes;
  ed_load_public : bytes → result edpub;         (** [from_public_bytes] *)
  ed_check : edpub → bytes → bytes → result unit; (** [pk.verify(sig, msg)] *)
  ed_to_bytes : edkey → bytes;                   (** [private_bytes] *)
  ed_of_bytes : bytes → result edkey;            (** [from_private_bytes] *)
}.

Class Ed25519Laws `{!Ed25519} : Prop := {
  ed_public_length k : length (ed_public k) = 32;
  ed_sign_length k m : length (ed_sign k m) = 64;
  ed_check_sign k : ∃ p, ed_load_public (ed_public k) = Ok p ∧
    ∀ m, ed_check p (ed_sign k m) m = Ok ();
  (** [from_public_bytes] raises [ValueError] for a key that is not 32 bytes *)
  ed_load_bad_key b : length b ≠ 32 → ed_load_public b = Raise ValueError;
  ed_of_to_bytes k : ed_of_bytes (ed_to_bytes k) = Ok k;
}.

Lemma ed_sign_nonempty `{!Ed25519, !Ed25519Laws} k m : ed_sign k m ≠ [].
Proof. intros Hs. pose proof (ed_sign_length k m) as Hl. by rewrite Hs in Hl. Qed.

(** ** X25519, HKDF-SHA256 and ChaCha20-Poly1305 *)

Class E2E := {
  xkey : Type;                                   (** [X25519PrivateKey] *)
  xpub : Type;                                   (** [X25519PublicKey] *)
  x_public : xkey → bytes;
  x_load_public : bytes → result xpub;           (** [from_public_bytes] *)
  x_exchange : xkey → xpub → result bytes;
  (** [HKDF(SHA256, 32, salt, info).derive(secret)] *)
  hkdf32 : bytes → bytes → bytes → bytes;
  aead_encrypt : bytes → bytes → bytes → result bytes;   (** key, nonce, data *)
  aead_decrypt : bytes → bytes → bytes → result bytes;
  x_to_bytes : xkey → bytes;
  x_of_bytes : bytes → result xkey;
}.

Class E2ELaws `{!E2E} : Prop := {
  x_public_length k : length (x_public k) = 32;
  (** Diffie-Hellman: both ends derive the same secret *)
  x_exchange_comm a b : ∃ pa pb s,
    x_load_public (x_public a) = Ok pa ∧ x_load_public (x_public b) = Ok pb ∧
    x_exchange a pb = Ok s ∧ x_exchange b pa = Ok s;
  hkdf32_length salt info secret : length (hkdf32 salt info secret) = 32;
  (** the ciphertext carries a tag of 16 bytes *)
  aead_roundtrip key nonce data :
    length key = 32 → length nonce = 12 → ∃ c,
    aead_encrypt key nonce data = Ok c ∧ length c = length data + 16 ∧
    aead_decrypt key nonce c = Ok data;
  x_of_to_bytes k : x_of_bytes (x_to_bytes k) = Ok k;
}.
