(* ===== verification/Text.v ===== *)
(** * Texts as sequences of code points

    A Python [str] is represented by its UTF-8 bytes.  [points] reads the code
    points back, with U+FFFD for every ill-formed part, as [bytes.decode] does
    with [errors="replace"]; [utf8_text] writes them.  On the texts that
    [utf8_valid] accepts the two are inverse. *)
From stdpp Require Import pretty.
From Stdlib Require Import ZifyBool.
From S2P Require Import Prelude PyVal Interfaces.

(** [s[len(p):]] if [s.startswith(p)] *)
Fixpoint after_prefix (p s : string) : option string :=
  match p, s with
  | "", _ => Some s
  | String a p, String b s => if decide (a = b) then after_prefix p s else None
  | _, "" => None
  end%string.

Lemma after_prefix_Some p s r : after_prefix p s = Some r → s = p +:+ r.
Proof.
  revert s. induction p as [|a p IH]; intros s.
  - by intros [= ->].
  - destruct s as [|b s]; [done|]. cbn [after_prefix]. case_decide as Hab; [subst|done].
    by intros ->%IH.
Qed.

Definition newline : string := String (Ascii.ascii_of_nat 10) "".

(** The bytes of a text, as characters. *)
Definition chars (s : string) : list Ascii.ascii := String.list_ascii_of_string s.
Lemma chars_app s t : chars (s +:+ t) = chars s ++ chars t.
Proof. induction s as [|a s IH]; [done|]. exact (f_equal (cons a) IH). Qed.

Lemma str_app_assoc (s t u : string) : s +:+ (t +:+ u) = (s +:+ t) +:+ u.
Proof. induction s as [|a s IH]; [done|]. exact (f_equal (String a) IH). Qed.

(** ** Decimal numbers *)

Definition within (lo hi n : N) : bool := ((lo <=? n) && (n <=? hi))%N.
Definition is_digit (a : Ascii.ascii) : bool := within 48 57 (Ascii.N_of_ascii a).

(** The value of a text of digits, read after the number [acc]. *)
Fixpoint digits_value (acc : N) (s : string) : N :=
  match s with
  | String a s => digits_value (10 * acc + (Ascii.N_of_ascii a - 48)) s
  | "" => acc
  end%string.

#[local] Open Scope N_scope.
#[local] Ltac Zify.zify_post_hook ::= Z.to_euclidean_division_equations.

(** A code point that has begun: the continuation bytes due, the range of the
    next one, and the bits read so far. *)
Record partial := mkPartial { pt_due : nat; pt_low : N; pt_high : N; pt_bits : N }.

(** What the first byte of a code point announces. *)
Definition lead (n : N) : option N + partial :=
  if n <=? 127 then inl (Some n)
  else if (194 <=? n) && (n <=? 223) then inr (mkPartial 0 128 191 (n - 192))
  else if n =? 224 then inr (mkPartial 1 160 191 0)
  else if n =? 237 then inr (mkPartial 1 128 159 13)
  else if (225 <=? n) && (n <=? 239) then inr (mkPartial 1 128 191 (n - 224))
  else if n =? 240 then inr (mkPartial 2 144 191 0)
  else if (241 <=? n) && (n <=? 243) then inr (mkPartial 2 128 191 (n - 240))
  else if n =? 244 then inr (mkPartial 2 128 143 4)
  else inl None.

(** [None] stands for a maximal ill-formed part: a byte that cannot begin a code
    point, or the beginning of one that is not continued. *)
Fixpoint scan (p : option partial) (s : string) : list (option N) :=
  match s with
  | EmptyString => match p with Some _ => [None] | None => [] end
  | String a s =>
      let n := Ascii.N_of_ascii a in
      let fresh := match lead n with
        | inl o => o :: scan None s
        | inr q => scan (Some q) s
        end in
      match p with
      | None => fresh
      | Some (mkPartial due lo hi bits) =>
          if (lo <=? n) && (n <=? hi) then
            let bits := 64 * bits + (n - 128) in
            match due with
            | O => Some bits :: scan None s
            | S due => scan (Some (mkPartial due 128 191 bits)) s
            end
          else None :: fresh
      end
  end.

Definition replacement : N := 65533.
Definition points (s : string) : list N := from_option id replacement <$> scan None s.

(** The UTF-8 encoding of a code point. *)
Definition of_codes (l : list N) : string := foldr (λ n s, String (Ascii.ascii_of_N n) s) "" l.
Definition utf8_char (c : N) : string :=
  of_codes (
    if c <? 128 then [c]
    else if c <? 2048 then [192 + c / 64; 128 + c mod 64]
    else if c <? 65536 then [224 + c / 4096; 128 + c / 64 mod 64; 128 + c mod 64]
    else [240 + c / 262144; 128 + c / 4096 mod 64; 128 + c / 64 mod 64; 128 + c mod 64]).
Definition utf8_text (l : list N) : string := foldr (λ c s, utf8_char c +:+ s) "" l.

(** [b.decode(errors="replace")] *)
Definition decode_replace (b : bytes) : string := utf8_text (points (str_decode b)).

(** The code points that UTF-8 can represent: no surrogates. *)
Definition scalar (c : N) : Prop := c < 55296 ∨ 57344 ≤ c ∧ c < 1114112.

(** ** Lemmas *)

Lemma of_codes_cons n a l :
  n = Ascii.N_of_ascii a → of_codes (n :: l) = String a (of_codes l).
Proof. intros ->. cbn [of_codes foldr]. by rewrite Ascii.ascii_N_embedding. Qed.

(** Decide the comparisons of the hypotheses, and of the goal. *)
#[local] Ltac bounds := repeat match goal with
  | H : _ && _ = true |- _ => apply andb_true_iff in H as [? ?]
  | H : (_ <=? _) = true |- _ => apply N.leb_le in H
  | H : (_ =? _) = true |- _ => apply N.eqb_eq in H
  end.
#[local] Ltac test b v :=
  let H := fresh in assert (b = v) as H by
    (first [apply N.leb_le|apply N.leb_gt|apply N.eqb_eq|apply N.eqb_neq|apply N.ltb_lt|apply N.ltb_ge]; lia);
  rewrite H; clear H.
#[local] Ltac tests := repeat match goal with
  | |- context [?x <=? ?y] => first [test (x <=? y) true|test (x <=? y) false]
  | |- context [?x <? ?y] => first [test (x <? y) true|test (x <? y) false]
  | |- context [?x =? ?y] => first [test (x =? y) true|test (x =? y) false]
  end; cbn [andb orb].

(** The four shapes of an encoded code point. *)
Inductive encoded : N → string → Prop :=
  | encoded1 a : Ascii.N_of_ascii a ≤ 127 → encoded (Ascii.N_of_ascii a) (String a "")
  | encoded2 a b c : 
      194 ≤ Ascii.N_of_ascii a ≤ 223 → 128 ≤ Ascii.N_of_ascii b ≤ 191 →
      c = 64 * (Ascii.N_of_ascii a - 192) + (Ascii.N_of_ascii b - 128) →
      encoded c (String a (String b ""))
  | encoded3 a b d c : 
      224 ≤ Ascii.N_of_ascii a ≤ 239 → 128 ≤ Ascii.N_of_ascii b ≤ 191 →
      (Ascii.N_of_ascii a = 224 → 160 ≤ Ascii.N_of_ascii b) →
      (Ascii.N_of_ascii a = 237 → Ascii.N_of_ascii b ≤ 159) →
      128 ≤ Ascii.N_of_ascii d ≤ 191 →
      c = 64 * (64 * (Ascii.N_of_ascii a - 224) + (Ascii.N_of_ascii b - 128)) +
          (Ascii.N_of_ascii d - 128) →
      encoded c (String a (String b (String d "")))
  | encoded4 a b d e c : 
      240 ≤ Ascii.N_of_ascii a ≤ 244 → 128 ≤ Ascii.N_of_ascii b ≤ 191 →
      (Ascii.N_of_ascii a = 240 → 144 ≤ Ascii.N_of_ascii b) →
      (Ascii.N_of_ascii a = 244 → Ascii.N_of_ascii b ≤ 143) →
      128 ≤ Ascii.N_of_ascii d ≤ 191 → 128 ≤ Ascii.N_of_ascii e ≤ 191 →
      c = 64 * (64 * (64 * (Ascii.N_of_ascii a - 240) + (Ascii.N_of_ascii b - 128)) +
          (Ascii.N_of_ascii d - 128)) + (Ascii.N_of_ascii e - 128) →
      encoded c (String a (String b (String d (String e "")))).

(** Write the code points of a goal out, byte after byte. *)
#[local] Ltac codes := repeat match goal with
  | |- context [of_codes (?n :: ?l)] =>
      match goal with a : Ascii.ascii |- _ => rewrite (of_codes_cons n a l) by lia end
  end; cbn [of_codes foldr].

Lemma encoded_char c s : encoded c s → utf8_char c = s ∧ scalar c.
Proof.
  intros Hc. split; [|unfold scalar; destruct Hc; lia].
  unfold utf8_char. destruct Hc; subst; tests; by codes.
Qed.

(** The second byte that a first byte of three or four admits. *)
Definition second3 (n b : N) : Prop :=
  128 ≤ b ≤ 191 ∧ (n = 224 → 160 ≤ b) ∧ (n = 237 → b ≤ 159).
Definition second4 (n b : N) : Prop :=
  128 ≤ b ≤ 191 ∧ (n = 240 → 144 ≤ b) ∧ (n = 244 → b ≤ 143).

Lemma lead2 n : 194 ≤ n ≤ 223 → lead n = inr (mkPartial 0 128 191 (n - 192)).
Proof. intros Hn. unfold lead. by tests. Qed.
Lemma lead3 n : 224 ≤ n ≤ 239 → ∃ lo hi, lead n = inr (mkPartial 1 lo hi (n - 224)) ∧
  ∀ b, lo ≤ b ≤ hi ↔ second3 n b.
Proof.
  intros Hn. unfold lead, second3.
  destruct (decide (n = 224)) as [->|]; [|destruct (decide (n = 237)) as [->|]]; tests;
    do 2 eexists; (split; [done|]); lia.
Qed.
Lemma lead4 n : 240 ≤ n ≤ 244 → ∃ lo hi, lead n = inr (mkPartial 2 lo hi (n - 240)) ∧
  ∀ b, lo ≤ b ≤ hi ↔ second4 n b.
Proof.
  intros Hn. unfold lead, second4.
  destruct (decide (n = 240)) as [->|]; [|destruct (decide (n = 244)) as [->|]]; tests;
    do 2 eexists; (split; [done|]); lia.
Qed.

Lemma scan_next due lo hi bits a s : let n := Ascii.N_of_ascii a in lo ≤ n ≤ hi →
  scan (Some (mkPartial due lo hi bits)) (String a s) =
  let bits := 64 * bits + (n - 128) in
  match due with
  | O => Some bits :: scan None s
  | S due => scan (Some (mkPartial due 128 191 bits)) s
  end.
Proof. intros n Hn. cbn [scan]. fold n. by tests. Qed.
Lemma scan_lead a p s : lead (Ascii.N_of_ascii a) = inr p →
  scan None (String a s) = scan (Some p) s.
Proof. intros Hp. cbn [scan]. by rewrite Hp. Qed.

Lemma str_app_cons a s t : String a s +:+ t = String a (s +:+ t).
Proof. done. Qed.
Lemma str_app_nil t : "" +:+ t = t.
Proof. done. Qed.

Lemma scan_encoded c s t : encoded c s → scan None (s +:+ t) = Some c :: scan None t.
Proof.
  destruct 1 as [a Ha|a b c Ha Hb ->|a b d c Ha Hb H1 H2 Hd ->|a b d e c Ha Hb H1 H2 Hd He ->];
    rewrite !str_app_cons, str_app_nil.
  - cbn [scan]. unfold lead. by tests.
  - erewrite scan_lead by (by apply lead2). by rewrite scan_next.
  - destruct (lead3 _ Ha) as (lo & hi & Hl & Hs). erewrite scan_lead by done.
    rewrite scan_next by (by apply Hs). by rewrite scan_next.
  - destruct (lead4 _ Ha) as (lo & hi & Hl & Hs). erewrite scan_lead by done.
    rewrite scan_next by (by apply Hs). by rewrite !scan_next by done.
Qed.

Lemma go_next k lo hi s : utf8_go (S k) lo hi s = true →
  ∃ a t, s = String a t ∧ lo ≤ Ascii.N_of_ascii a ≤ hi ∧ utf8_go k 128 191 t = true.
Proof.
  destruct s as [|a t]; [done|]. cbn [utf8_go]. intros [Ha Ht]%andb_true_iff. bounds.
  exists a, t. by split_and!.
Qed.
Lemma go_end lo hi s : utf8_go 0 lo hi s = utf8_valid s.
Proof. by destruct s. Qed.

(** [utf8_valid] accepts exactly the concatenations of encoded code points. *)
Lemma valid_cons s :
  utf8_valid s = true → s = "" ∨ ∃ c u t, encoded c u ∧ s = u +:+ t ∧ utf8_valid t = true.
Proof.
  unfold utf8_valid. destruct s as [|a s]; [by left|]. intros Hv. right. cbn [utf8_go] in Hv.
  repeat (case_match; bounds); try done.
  { exists (Ascii.N_of_ascii a), (String a ""), s. split; [by constructor|]. by rewrite go_end in Hv. }
  { apply go_next in Hv as (b & t & -> & Hb & Hv). eexists _, (String a (String b "")), t.
    split; [by eapply encoded2|]. by rewrite go_end in Hv. }
  1-3: apply go_next in Hv as (b & r & -> & Hb & Hv); apply go_next in Hv as (d & t & -> & Hd & Hv);
    eexists _, (String a (String b (String d ""))), t; rewrite go_end in Hv;
    (split; [|done]); eapply encoded3; [..|reflexivity]; try lia.
  all: apply go_next in Hv as (b & r & -> & Hb & Hv); apply go_next in Hv as (d & r' & -> & Hd & Hv);
    apply go_next in Hv as (e & t & -> & He & Hv);
    eexists _, (String a (String b (String d (String e "")))), t; rewrite go_end in Hv;
    (split; [|done]); eapply encoded4; [..|reflexivity]; try lia.
Qed.

Lemma encoded_valid c u t : encoded c u → utf8_valid (u +:+ t) = utf8_valid t.
Proof.
  unfold utf8_valid.
  destruct 1 as [a Ha|a b c Ha Hb ->|a b d c Ha Hb H1 H2 Hd ->|a b d e c Ha Hb H1 H2 Hd He ->];
    rewrite !str_app_cons, str_app_nil; cbn [utf8_go].
  - by tests.
  - tests. apply go_end.
  - repeat case_match; try lia; tests; apply go_end.
  - repeat case_match; try lia; tests; apply go_end.
Qed.

Lemma str_length_app s t : String.length (s +:+ t) = (String.length s + String.length t)%nat.
Proof. induction s as [|a s IH]; [done|]. rewrite str_app_cons. simpl. by rewrite IH. Qed.
Lemma encoded_length c u : encoded c u → (0 < String.length u)%nat.
Proof. destruct 1; simpl; lia. Qed.

(** Induction over the code points of a valid text. *)
Lemma valid_ind (P : string → Prop) :
  P "" → (∀ c u t, encoded c u → utf8_valid t = true → P t → P (u +:+ t)) →
  ∀ s, utf8_valid s = true → P s.
Proof.
  intros Hnil Hcons s. induction (Nat.lt_wf_0_projected String.length s) as [s _ IH].
  intros [->|(c & u & t & Hu & -> & Ht)]%valid_cons; [done|].
  eapply Hcons; [done..|]. apply IH; [|done]. simpl. rewrite str_length_app.
  apply encoded_length in Hu. lia.
Qed.

Lemma points_encoded c u t : encoded c u → points (u +:+ t) = c :: points t.
Proof. intros Hu. unfold points. by rewrite (scan_encoded _ _ _ Hu). Qed.

(** The two directions are inverse. *)
Lemma utf8_text_points s : utf8_valid s = true → utf8_text (points s) = s.
Proof.
  revert s. apply valid_ind; [done|]. intros c u t Hu _ IH.
  rewrite (points_encoded _ _ _ Hu). cbn [utf8_text foldr].
  destruct (encoded_char _ _ Hu) as [-> _]. f_equal. exact IH.
Qed.
Lemma points_scalar s : utf8_valid s = true → Forall scalar (points s).
Proof.
  revert s. apply valid_ind; [constructor|]. intros c u t Hu _ IH.
  rewrite (points_encoded _ _ _ Hu). constructor; [by apply encoded_char in Hu as [_ ?]|done].
Qed.

Lemma valid_app s t : utf8_valid s = true → utf8_valid (s +:+ t) = utf8_valid t.
Proof.
  revert s. apply valid_ind; [done|]. intros c u s Hu _ IH.
  by rewrite <-str_app_assoc, (encoded_valid _ _ _ Hu).
Qed.

Lemma code_ascii n : n < 256 → Ascii.N_of_ascii (Ascii.ascii_of_N n) = n.
Proof. apply Ascii.N_ascii_embedding. Qed.
Lemma char_encoded c : scalar c → encoded c (utf8_char c).
Proof.
  unfold scalar, utf8_char. intros Hc.
  destruct (c <? 128) eqn:H1; [|destruct (c <? 2048) eqn:H2; [|destruct (c <? 65536) eqn:H3]];
    cbn [of_codes foldr].
  - rewrite <-(code_ascii c) at 1 by lia. constructor. rewrite code_ascii; lia.
  - eapply encoded2; rewrite !code_ascii; lia.
  - eapply encoded3; rewrite !code_ascii; lia.
  - eapply encoded4; rewrite !code_ascii; lia.
Qed.
Lemma points_utf8_text l : Forall scalar l → points (utf8_text l) = l.
Proof.
  induction 1 as [|c l Hc _ IH]; [done|]. cbn [utf8_text foldr].
  rewrite (points_encoded c) by (by apply char_encoded). by f_equal.
Qed.
Lemma utf8_text_valid l : Forall scalar l → utf8_valid (utf8_text l) = true.
Proof.
  induction 1 as [|c l Hc _ IH]; [done|]. cbn [utf8_text foldr].
  by rewrite (encoded_valid c) by (by apply char_encoded).
Qed.

(** Continued by as many bytes as are due, the bits are a code point. *)
Definition continues (due : nat) (b : N) : Prop :=
  match due with
  | 0%nat => scalar b
  | 1%nat => b < 864 ∨ 896 ≤ b < 17408
  | 2%nat => b < 13 ∨ 14 ≤ b < 272
  | _ => False
  end.
Definition partial_ok (p : partial) : Prop :=
  ∀ n, pt_low p ≤ n ≤ pt_high p → 128 ≤ n ∧ continues (pt_due p) (64 * pt_bits p + (n - 128)).

Lemma lead_ok n : match lead n with
  | inl o => scalar (from_option id replacement o)
  | inr p => partial_ok p
  end.
Proof.
  unfold lead, partial_ok, continues, scalar, replacement.
  repeat case_match; simplify_eq/=; intros; lia.
Qed.
Lemma partial_next due b : continues (S due) b → partial_ok (mkPartial due 128 191 b).
Proof.
  unfold partial_ok, continues, scalar. simpl. intros Hb k Hk.
  destruct due as [|[|[|due]]]; [..|done]; lia.
Qed.

Lemma scan_scalar p s : (∀ q, p = Some q → partial_ok q) →
  Forall (λ o, scalar (from_option id replacement o)) (scan p s).
Proof.
  assert (scalar replacement) as Hr by (unfold scalar, replacement; lia).
  revert p. induction s as [|a s IH]; intros p Hp; cbn [scan].
  { destruct p; [by apply Forall_singleton|constructor]. }
  assert (Forall (λ o, scalar (from_option id replacement o))
    match lead (Ascii.N_of_ascii a) with
    | inl o => o :: scan None s
    | inr q => scan (Some q) s
    end) as Hfresh.
  { pose proof (lead_ok (Ascii.N_of_ascii a)) as Hl.
    destruct (lead _) as [o|q]; [constructor; [done|]; by apply IH|].
    apply IH. by intros ? [= <-]. }
  destruct p as [[due lo hi b]|]; [|done].
  destruct ((lo <=? _) && (_ <=? hi)) eqn:Hin; [|by constructor]. bounds.
  destruct (Hp _ eq_refl (Ascii.N_of_ascii a)) as [_ Hc]; [simpl; lia|]. simpl in Hc.
  destruct due as [|due]; [constructor; [done|]; by apply IH|].
  apply IH. intros ? [= <-]. by eapply partial_next.
Qed.

(** Whatever arrives, what is printed is a text. *)
Lemma decode_replace_valid b : utf8_valid (decode_replace b) = true.
Proof.
  apply utf8_text_valid. unfold points. apply Forall_fmap. by apply scan_scalar.
Qed.
Lemma decode_replace_encode s : utf8_valid s = true → decode_replace (str_encode s) = s.
Proof. intros Hs. unfold decode_replace. rewrite str_decode_encode. by apply utf8_text_points. Qed.

(** *** Decimal numbers *)

Lemma digits_value_snoc acc d a :
  digits_value acc (d +:+ String a "") = 10 * digits_value acc d + (Ascii.N_of_ascii a - 48).
Proof.
  revert acc. induction d as [|b d IH]; intros acc; [done|]. rewrite str_app_cons. apply IH.
Qed.
Lemma digit_char n : n < 10 →
  is_digit (pretty_N_char n) = true ∧ Ascii.N_of_ascii (pretty_N_char n) - 48 = n.
Proof.
  intros Hn. assert (∃ i, (i < 10)%nat ∧ n = N.of_nat i) as (i & Hi & ->).
  { exists (N.to_nat n). lia. }
  do 10 (destruct i as [|i]; [done|]). lia.
Qed.

Lemma pretty_go_digits n : 0 < n → ∃ a d, (∀ s, pretty_N_go n s = String a d +:+ s) ∧
  Forall (λ b, is_digit b = true) (chars (String a d)) ∧ digits_value 0 (String a d) = n ∧
  a ≠ "0"%char.
Proof.
  induction (N.lt_wf_0 n) as [n _ IH]. intros Hn.
  destruct (digit_char (n mod 10)) as [Hd Hv]; [lia|].
  destruct (decide (n / 10 = 0)) as [Hz|Hz].
  - exists (pretty_N_char (n mod 10)), "". split_and!.
    + intros s. by rewrite pretty_N_go_step, Hz, pretty_N_go_0.
    + by constructor.
    + cbn [digits_value]. lia.
    + intros Hx. rewrite Hx in Hv. change (Ascii.N_of_ascii "0" - 48) with 0 in Hv. lia.
  - destruct (IH (n / 10)) as (a & d & Hgo & Hall & Hval & Ha); [lia|lia|].
    exists a, (d +:+ String (pretty_N_char (n mod 10)) ""). rewrite <-str_app_cons. split_and!.
    + intros s. rewrite pretty_N_go_step, Hgo by done. by rewrite <-str_app_assoc.
    + rewrite chars_app. apply Forall_app. split; [done|]. by constructor.
    + rewrite digits_value_snoc, Hval, Hv. lia.
    + done.
Qed.

(** A number is written in digits, without leading zeros. *)
Lemma pretty_digits (n : N) : ∃ a d, pretty n = String a d ∧
  Forall (λ b, is_digit b = true) (chars (pretty n)) ∧ digits_value 0 (pretty n) = n ∧
  (a = "0"%char → d = "").
Proof.
  unfold pretty, pretty_N. case_decide as Hn.
  - subst. exists "0"%char, "". split_and!; try done. by repeat constructor.
  - destruct (pretty_go_digits n) as (a & d & Hgo & Hall & Hval & Ha); [lia|].
    exists a, d. rewrite Hgo.
    assert (String a d +:+ "" = String a d) as -> .
    { generalize (String a d). clear. induction s as [|b s IHs]; [done|].
      exact (f_equal (String b) IHs). }
    by split_and!.
Qed.
