(* ===== verification/Json.v ===== *)
(** * JSON documents as text ([json.dump] and [json.load])

    The identity files are JSON.  [json_text] writes a document the way
    [json.dump(data, f, indent=2)] does, with everything outside ASCII escaped;
    [json_load] reads a text the way [json.load(f)] does.  A float is read and
    written by the interface [PyFloat]. *)
From stdpp Require Import pretty.
From Stdlib Require Import ZifyBool.
From S2P Require Import Prelude PyVal Interfaces Text.

#[local] Ltac Zify.zify_post_hook ::= Z.to_euclidean_division_equations.

Class PyFloat := {
  float_repr : Z → string;        (** [float.__repr__] *)
  float_of : string → Z;          (** [float(s)] for a JSON number *)
}.

(** ** Writing *)

(** The quotation mark, which a Rocq string cannot hold literally. *)
Definition quote : Ascii.ascii := Ascii.ascii_of_N 34.
Definition backslash : Ascii.ascii := "\"%char.

Definition hex4 (n : N) : string :=
  String (hex_digit (n / 4096)) (String (hex_digit (n / 256 mod 16))
    (String (hex_digit (n / 16 mod 16)) (String (hex_digit (n mod 16)) ""))).
Definition unicode_escape (n : N) : string := String backslash (String "u" (hex4 n)).

(** One character of [encode_basestring_ascii]. *)
Definition escape_char (c : N) : string :=
  (if c =? 34 then String backslash (String quote "")
   else if c =? 92 then "\\"
   else if c =? 10 then "\n"
   else if c =? 13 then "\r"
   else if c =? 9 then "\t"
   else if c =? 12 then "\f"
   else if c =? 8 then "\b"
   else if (32 <=? c) && (c <=? 126) then String (Ascii.ascii_of_N c) ""
   else if c <? 65536 then unicode_escape c
   else unicode_escape (55296 + (c - 65536) / 1024) +:+
        unicode_escape (56320 + (c - 65536) mod 1024))%N.

Definition json_string (s : string) : string :=
  String quote (foldr (λ c t, escape_char c +:+ t) (String quote "") (points s)).

Fixpoint spaces (n : nat) : string :=
  match n with 0 => "" | S n => String " " (spaces n) end.
(** A new line at the given depth. *)
Definition break (level : nat) : string := newline +:+ spaces (2 * level).

Fixpoint joined (sep : string) (l : list string) : string :=
  match l with
  | [] => ""
  | [x] => x
  | x :: l => x +:+ sep +:+ joined sep l
  end.

(** A list or dictionary with its items on lines of their own. *)
Definition block (l r : string) (level : nat) (items : list string) : string :=
  match items with
  | [] => l +:+ r
  | _ => l +:+ break (S level) +:+ joined ("," +:+ break (S level)) items +:+ break level +:+ r
  end.

Section writing.
Context `{!PyFloat}.

Fixpoint json_text (level : nat) (v : pyval) : result string :=
  match v with
  | VNone => Ok "null"
  | VBool b => Ok (if b then "true" else "false")
  | VInt z => Ok (pretty z)
  | VFloat z => Ok (float_repr z)
  | VStr s => Ok (json_string s)
  | VList l =>
      items ← (fix go l := match l with
        | [] => mret []
        | v :: l => t ← json_text (S level) v; ts ← go l; mret (t :: ts)
        end) l;
      mret (block "[" "]" level items)
  | VDict d =>
      items ← (fix go d := match d with
        | [] => mret []
        | (KStr k, v) :: d =>
            t ← json_text (S level) v; ts ← go d; mret ((json_string k +:+ ": " +:+ t) :: ts)
        | (KBin _, _) :: _ => Raise TypeError
        end) d;
      mret (block "{" "}" level items)
  | VBin _ | VExt _ _ => Raise TypeError
  end.

(** [json.dump(v, f, indent=2)] *)
Definition json_dump (v : pyval) : result string := json_text 0 v.
End writing.

(** ** Reading *)

(** A reader takes a prefix off the text. *)
Abbreviation reader A := (string → result (A * string)).

Definition is_blank (a : Ascii.ascii) : bool :=
  bool_decide (Ascii.N_of_ascii a ∈ [32; 9; 10; 13]%N).
Fixpoint skip (s : string) : string :=
  match s with
  | String a s' => if is_blank a then skip s' else s
  | "" => ""
  end%string.

Definition hex4_value (a b c d : Ascii.ascii) : option N :=
  x ← hex_value a; y ← hex_value b; z ← hex_value c; u ← hex_value d;
  Some (((16 * x + y) * 16 + z) * 16 + u)%N.

(** What follows a backslash, other than [u]. *)
Definition unescape (a : Ascii.ascii) : option Ascii.ascii :=
  let n := Ascii.N_of_ascii a in
  (if n =? 34 then Some a
   else if n =? 92 then Some a
   else if n =? 47 then Some a
   else if n =? 98 then Some (Ascii.ascii_of_N 8)
   else if n =? 102 then Some (Ascii.ascii_of_N 12)
   else if n =? 110 then Some (Ascii.ascii_of_N 10)
   else if n =? 114 then Some (Ascii.ascii_of_N 13)
   else if n =? 116 then Some (Ascii.ascii_of_N 9)
   else None)%N.

Definition surrogates (h l : N) : N := (65536 + (h - 55296) * 1024 + (l - 56320))%N.

(** [scanstring], after the opening quotation mark *)
Fixpoint scan_string (s : string) : result (string * string) :=
  match s with
  | "" => Raise ValueError
  | String a s =>
      if decide (a = quote) then Ok ("", s)
      else if decide (a = backslash) then
        match s with
        | "" => Raise ValueError
        | String b s =>
            if decide (b = "u"%char) then
              match s with
              | String c1 (String c2 (String c3 (String c4 s))) =>
                  match hex4_value c1 c2 c3 c4 with
                  | None => Raise ValueError
                  | Some h =>
                      let single := '(t, r) ← scan_string s; mret (utf8_char h +:+ t, r) in
                      match s with
                      | String d1 (String d2 (String e1 (String e2 (String e3 (String e4 s'))))) =>
                          if decide (within 55296 56319 h ∧ d1 = backslash ∧ d2 = "u"%char) then
                            match hex4_value e1 e2 e3 e4 with
                            | None => Raise ValueError
                            | Some l =>
                                if within 56320 57343 l
                                then '(t, r) ← scan_string s'; mret (utf8_char (surrogates h l) +:+ t, r)
                                else single
                            end
                          else single
                      | _ => single
                      end
                  end
              | _ => Raise ValueError
              end
            else
              match unescape b with
              | Some x => '(t, r) ← scan_string s; mret (String x t, r)
              | None => Raise ValueError
              end
        end
      else if (Ascii.N_of_ascii a <? 32)%N then Raise ValueError
      else '(t, r) ← scan_string s; mret (String a t, r)
  end%string.

Fixpoint take_digits (s : string) : string * string :=
  match s with
  | String a s' => if is_digit a then prod_map (String a) id (take_digits s') else ("", s)
  | "" => ("", "")
  end%string.

(** An optional part of a number: one of the characters [l], then digits. *)
Definition fraction (s : string) : string * string :=
  match s with
  | String a r =>
      let '(d, r') := take_digits r in
      if decide (a = "."%char ∧ d ≠ "") then (String a d, r') else ("", s)
  | "" => ("", s)
  end%string.
Definition exponent (s : string) : string * string :=
  match s with
  | String a r =>
      let '(sign, r') := match r with
        | String b r' => if decide (b ∈ ["+"; "-"]%char) then (String b "", r') else ("", r)
        | "" => ("", r)
        end in
      let '(d, r'') := take_digits r' in
      if decide (a ∈ ["e"; "E"]%char ∧ d ≠ "") then (String a (sign +:+ d), r'') else ("", s)
  | "" => ("", s)
  end%string.

(** The digits before the point: no leading zeros. *)
Definition integer_part (s : string) : result (string * string) :=
  match s with
  | String a r =>
      if decide (a = "0"%char) then Ok ("0", r)
      else if is_digit a then Ok (take_digits s) else Raise ValueError
  | "" => Raise ValueError
  end%string.

Section reading.
Context `{!PyFloat}.

Definition number (s : string) : result (pyval * string) :=
  let '(neg, r) := match s with
    | String a r => if decide (a = "-"%char) then (true, r) else (false, s)
    | "" => (false, s)
    end%string in
  '(ip, r) ← integer_part r;
  let '(fp, r) := fraction r in
  let '(ep, r) := exponent r in
  if decide (fp = "" ∧ ep = "") then
    let n := Z.of_N (digits_value 0 ip) in mret (VInt (if neg then - n else n)%Z, r)
  else mret (VFloat (float_of ((if neg then "-" else "") +:+ ip +:+ fp +:+ ep)), r).

(** [null], [true], [false] and the names of the special floats *)
Definition constants : list (string * pyval) := [
  ("null", VNone); ("true", VBool true); ("false", VBool false);
  ("NaN", VFloat (float_of "nan")); ("Infinity", VFloat (float_of "inf"));
  ("-Infinity", VFloat (float_of "-inf"))].
Fixpoint constant (l : list (string * pyval)) (s : string) : option (pyval * string) :=
  match l with
  | [] => None
  | (name, v) :: l =>
      match after_prefix name s with Some r => Some (v, r) | None => constant l s end
  end.

(** Items up to the closing bracket, with commas between them. *)
Fixpoint items {A} (fuel : nat) (one : reader A) (close : Ascii.ascii) (s : string)
    : result (list A * string) :=
  match fuel with
  | 0 => Raise RuntimeError
  | S fuel =>
      '(x, r) ← one s;
      match skip r with
      | String a r =>
          if decide (a = close) then mret ([x], r)
          else if decide (a = ","%char) then
            '(xs, r) ← items fuel one close (skip r); mret (x :: xs, r)
          else Raise ValueError
      | "" => Raise ValueError
      end%string
  end.
Definition listed {A} (fuel : nat) (one : reader A) (close : Ascii.ascii) (s : string)
    : result (list A * string) :=
  match skip s with
  | String a r => if decide (a = close) then mret ([], r) else items fuel one close (skip s)
  | "" => Raise ValueError
  end%string.

(** [key: value] *)
Definition member (one : reader pyval) (s : string) : result ((pykey * pyval) * string) :=
  match s with
  | String a r =>
      if decide (a = quote) then
        '(k, r) ← scan_string r;
        match skip r with
        | String b r =>
            if decide (b = ":"%char) then '(v, r) ← one (skip r); mret ((KStr k, v), r)
            else Raise ValueError
        | "" => Raise ValueError
        end%string
      else Raise ValueError
  | "" => Raise ValueError
  end%string.

(** [dict(pairs)]: the last value of a key, in the place of its first. *)
Fixpoint set_item (k : pykey) (v : pyval) (d : list (pykey * pyval)) : list (pykey * pyval) :=
  match d with
  | [] => [(k, v)]
  | (k', v') :: d => if decide (k = k') then (k', v) :: d else (k', v') :: set_item k v d
  end.
Definition dict_of (l : list (pykey * pyval)) : list (pykey * pyval) :=
  fold_left (λ d kv, set_item kv.1 kv.2 d) l [].

(** [scan_once] *)
Fixpoint value (fuel : nat) (s : string) : result (pyval * string) :=
  match fuel with
  | 0 => Raise RuntimeError
  | S fuel =>
      match s with
      | "" => Raise ValueError
      | String a r =>
          if decide (a = quote) then '(t, r) ← scan_string r; mret (VStr t, r)
          else if decide (a = "{"%char) then
            '(l, r) ← listed fuel (member (value fuel)) "}"%char r; mret (VDict (dict_of l), r)
          else if decide (a = "["%char) then
            '(l, r) ← listed fuel (value fuel) "]"%char r; mret (VList l, r)
          else match constant constants s with
            | Some vr => mret vr
            | None => number s
            end
      end%string
  end.

Definition byte_order_mark : string := utf8_char 65279.

(** [json.load(f)] of a file with this text *)
Definition json_load (s : string) : result pyval :=
  if negb (utf8_valid s) then Raise ValueError
  else match after_prefix byte_order_mark s with
    | Some _ => Raise ValueError
    | None =>
        '(v, r) ← value (S (String.length s)) (skip s);
        if decide (skip r = "") then mret v else Raise ValueError
    end.
End reading.

(** ** Reading comes to an end *)

(** A reading of [s] leaves less than [s], and fails only on account of [s]. *)
Definition shorter {A} (s : string) (r : result (A * string)) : Prop :=
  match r with
  | Ok (_, t) => String.length t < String.length s
  | Raise e => e ≠ RuntimeError
  end.

Lemma shorter_bind {A B} (s t : string) (r : result (A * string)) (f : A * string → result (B * string)) :
  shorter t r → String.length t ≤ String.length s →
  (∀ a u, r = Ok (a, u) → String.length u < String.length t → shorter s (f (a, u))) →
  shorter s (r ≫= f).
Proof. destruct r as [[a u]|e]; simpl; [|done]. intros Hu Ht Hf. by apply Hf. Qed.
Lemma shorter_mono {A} s t (r : result (A * string)) :
  shorter t r → String.length t ≤ String.length s → shorter s r.
Proof. destruct r as [[a u]|e]; simpl; [lia|done]. Qed.
Lemma shorter_error {A} s : shorter (A:=A) s (Raise ValueError).
Proof. done. Qed.
#[local] Hint Resolve shorter_error : core.

Lemma skip_length s : String.length (skip s) ≤ String.length s.
Proof. induction s as [|a s IH]; simpl; [lia|]. destruct (is_blank a); simpl; lia. Qed.
Lemma take_digits_app s : (take_digits s).1 +:+ (take_digits s).2 = s.
Proof.
  induction s as [|a s IH]; [done|]. cbn [take_digits]. destruct (is_digit a); [|done].
  destruct (take_digits s) as [d r]; simpl in *. by rewrite <-IH.
Qed.
Lemma take_digits_length s : String.length (take_digits s).2 ≤ String.length s.
Proof. rewrite <-(take_digits_app s) at 2. rewrite str_length_app. lia. Qed.

Lemma shorter_map {A B} s t (r : result (A * string)) (f : A → B) :
  shorter t r → String.length t ≤ String.length s → shorter s ('(a, u) ← r; mret (f a, u)).
Proof. destruct r as [[a u]|e]; simpl; [lia|done]. Qed.

Lemma scan_string_shorter s : shorter s (scan_string s).
Proof.
  induction (Nat.lt_wf_0_projected String.length s) as [s _ IH].
  destruct s as [|a s]; [done|]. cbn [scan_string]. cbv zeta.
  repeat (case_decide || case_match); try done; cbn [shorter String.length] in *; try lia;
    (eapply shorter_map; [apply IH|]; cbn [String.length]; lia).
Qed.

Section reading_ends.
Context `{!PyFloat}.

Lemma fraction_length s : String.length (fraction s).2 ≤ String.length s.
Proof.
  destruct s as [|a s]; [done|]. cbn [fraction]. pose proof (take_digits_length s).
  destruct (take_digits s) as [d r]. simpl in *. case_decide; simpl; lia.
Qed.
Lemma exponent_length s : String.length (exponent s).2 ≤ String.length s.
Proof.
  destruct s as [|a s]; [done|]. cbn [exponent].
  set (p := match s with "" => _ | _ => _ end).
  assert (String.length p.2 ≤ String.length s) as Hp.
  { unfold p. destruct s; [done|]. case_decide; simpl; lia. }
  destruct p as [sign r]. simpl in Hp. pose proof (take_digits_length r).
  destruct (take_digits r) as [d r']. simpl in *. case_decide; simpl; lia.
Qed.
Lemma integer_part_shorter s : shorter s (integer_part s).
Proof.
  destruct s as [|a s]; [done|]. cbn [integer_part]. case_decide; [simpl; lia|].
  destruct (is_digit a) eqn:Ha; [|done]. cbn [take_digits]. rewrite Ha.
  pose proof (take_digits_length s). destruct (take_digits s). simpl in *. lia.
Qed.
Lemma number_shorter s : shorter s (number s).
Proof.
  unfold number.
  set (p := match s with "" => _ | _ => _ end).
  assert (String.length p.2 ≤ String.length s) as Hp.
  { unfold p. destruct s; [done|]. case_decide; simpl; lia. }
  destruct p as [neg r]. simpl in Hp.
  eapply shorter_bind; [apply integer_part_shorter|done|]. intros ip u _ Hu.
  pose proof (fraction_length u). destruct (fraction u) as [fp u'].
  pose proof (exponent_length u'). destruct (exponent u') as [ep u'']. simpl in *.
  case_decide; simpl; lia.
Qed.

Lemma constant_shorter s vr : constant constants s = Some vr → shorter s (Ok vr).
Proof.
  cbn [constant constants]. repeat case_match; intros; simplify_eq; simpl;
    match goal with H : after_prefix _ _ = Some _ |- _ => apply after_prefix_Some in H as -> end;
    rewrite str_length_app; simpl; lia.
Qed.

Lemma items_shorter {A} fuel (one : reader A) close s :
  String.length s < fuel → (∀ t, String.length t < fuel → shorter t (one t)) →
  shorter s (items fuel one close s).
Proof.
  intros Hs Hone.
  enough (∀ n s, String.length s < n → n ≤ fuel → shorter s (items n one close s)) as Hn by auto.
  clear s Hs. intros n. induction n as [|n IH]; intros s Hs Hle; [lia|]. cbn [items].
  eapply shorter_bind; [apply Hone; lia|done|]. intros x u _ Hu.
  pose proof (skip_length u). destruct (skip u) as [|a r]; [done|]. simpl in *.
  case_decide; [simpl; lia|]. case_decide; [|done].
  pose proof (skip_length r). eapply shorter_map; [apply IH|]; lia.
Qed.
Lemma listed_shorter {A} fuel (one : reader A) close s :
  String.length s < fuel → (∀ t, String.length t < fuel → shorter t (one t)) →
  shorter s (listed fuel one close s).
Proof.
  intros Hs Hone. unfold listed. pose proof (skip_length s).
  destruct (skip s) as [|a r] eqn:E; [done|]. case_decide; [simpl in *; lia|].
  eapply shorter_mono; [apply items_shorter; [lia|done]|done].
Qed.
Lemma member_shorter fuel (one : reader pyval) s :
  String.length s < fuel → (∀ t, String.length t < fuel → shorter t (one t)) →
  shorter s (member one s).
Proof.
  intros Hs Hone. destruct s as [|a s]; [done|]. cbn [member]. simpl in Hs.
  case_decide; [|done]. eapply shorter_bind; [apply scan_string_shorter|simpl; lia|].
  intros k u _ Hu. pose proof (skip_length u). destruct (skip u) as [|b r]; [done|].
  case_decide; [|done]. pose proof (skip_length r). simpl in *.
  eapply shorter_map; [apply Hone|simpl]; lia.
Qed.

Lemma value_shorter fuel s : String.length s < fuel → shorter s (value fuel s).
Proof.
  revert s. induction fuel as [|fuel IH]; intros s Hs; [lia|]. cbn [value].
  destruct s as [|a s]; [done|]. simpl in Hs.
  case_decide; [eapply shorter_map; [apply scan_string_shorter|simpl; lia]|].
  case_decide.
  { eapply shorter_map; [apply listed_shorter; [lia|]|simpl; lia].
    intros t Ht. by eapply member_shorter. }
  case_decide; [eapply shorter_map; [by apply listed_shorter; [lia|]|simpl; lia]|].
  destruct (constant constants (String a s)) as [vr|] eqn:Hc; [by apply constant_shorter|].
  apply number_shorter.
Qed.

(** The fuel of [json_load] is never used up. *)
Lemma json_load_ends s : json_load s ≠ Raise RuntimeError.
Proof.
  unfold json_load. destruct (utf8_valid s); [|done]. cbn [negb].
  destruct (after_prefix byte_order_mark s); [done|].
  pose proof (skip_length s).
  pose proof (value_shorter (S (String.length s)) (skip s)) as Hv.
  destruct (value (S (String.length s)) (skip s)) as [[v r]|e]; simpl in *; [by case_decide|].
  intros [= ->]. apply Hv; [lia|done].
Qed.
End reading_ends.

(** ** What is written is read back *)

Lemma hex_digit_value n : (n < 16)%N → hex_value (hex_digit n) = Some n.
Proof.
  intros Hn. assert (∃ i, i < 16 ∧ n = N.of_nat i) as (i & Hi & ->).
  { exists (N.to_nat n). lia. }
  do 16 (destruct i as [|i]; [done|]). lia.
Qed.
Lemma hex4_read n : (n < 65536)%N →
  hex4_value (hex_digit (n / 4096)) (hex_digit (n / 256 mod 16)) (hex_digit (n / 16 mod 16))
    (hex_digit (n mod 16)) = Some n.
Proof.
  intros Hn. unfold hex4_value. rewrite !hex_digit_value by lia. simpl. f_equal. lia.
Qed.

(** The tail of a string that begins with the character [c]. *)
Definition with_char (c : N) (r : result (string * string)) : result (string * string) :=
  '(t, r) ← r; mret (utf8_char c +:+ t, r).

Lemma scan_escape n t : (n < 65536)%N → within 55296 56319 n = false →
  scan_string (unicode_escape n +:+ t) = with_char n (scan_string t).
Proof.
  intros Hn Hs. unfold unicode_escape, hex4. rewrite !str_app_cons, str_app_nil.
  cbn [scan_string]. rewrite decide_False by done. rewrite !decide_True by done.
  rewrite hex4_read by done. cbv zeta. rewrite Hs.
  repeat case_match; try done; by destruct_and!.
Qed.

Lemma scan_surrogates c t : (65536 ≤ c < 1114112)%N →
  scan_string ((unicode_escape (55296 + (c - 65536) / 1024) +:+
    unicode_escape (56320 + (c - 65536) mod 1024)) +:+ t) = with_char c (scan_string t).
Proof.
  intros Hc. set (h := (55296 + _)%N). set (l := (56320 + _)%N).
  rewrite <-str_app_assoc. unfold unicode_escape, hex4. rewrite !str_app_cons, !str_app_nil.
  cbn [scan_string]. rewrite decide_False by done. rewrite !decide_True by done.
  rewrite hex4_read by (unfold h; lia). cbv zeta.
  assert (within 55296 56319 h = true) as Hh by (unfold within, h; lia).
  assert (within 56320 57343 l = true) as Hl by (unfold within, l; lia).
  rewrite decide_True by (rewrite Hh; done). rewrite hex4_read by (unfold l; lia).
  rewrite Hl. assert (surrogates h l = c) as -> by (unfold surrogates, h, l; lia). done.
Qed.

Lemma scan_plain a t : a ≠ quote → a ≠ backslash → (32 ≤ Ascii.N_of_ascii a)%N →
  scan_string (String a t) = '(u, r) ← scan_string t; mret (String a u, r).
Proof.
  intros Hq Hb Ha. cbn [scan_string]. rewrite !decide_False by done.
  by rewrite (proj2 (N.ltb_ge _ _)).
Qed.

Lemma utf8_char_ascii c : (c < 128)%N → utf8_char c = String (Ascii.ascii_of_N c) "".
Proof. intros Hc. unfold utf8_char. by rewrite (proj2 (N.ltb_lt _ _)). Qed.

Lemma scan_short b c t : unescape b = Some (Ascii.ascii_of_N c) → b ≠ "u"%char → (c < 128)%N →
  scan_string (String backslash (String b t)) = with_char c (scan_string t).
Proof.
  intros Hb Hu Hc. cbn [scan_string]. rewrite decide_False by done.
  rewrite decide_True by done. rewrite decide_False by done. rewrite Hb.
  unfold with_char. by rewrite utf8_char_ascii.
Qed.

Lemma scan_escape_char c t :
  scalar c → scan_string (escape_char c +:+ t) = with_char c (scan_string t).
Proof.
  intros Hc. unfold escape_char.
  repeat match goal with |- context [if (?x =? ?y)%N then _ else _] =>
    destruct (N.eqb_spec x y) as [->|]; [by apply scan_short|] end.
  destruct ((32 <=? c) && (c <=? 126))%N eqn:Hp.
  - rewrite str_app_cons, str_app_nil, scan_plain.
    + unfold with_char. by rewrite utf8_char_ascii by lia.
    + intros Hx%(f_equal Ascii.N_of_ascii). unfold quote in Hx. rewrite !code_ascii in Hx; lia.
    + intros Hx%(f_equal Ascii.N_of_ascii). rewrite code_ascii in Hx by lia. cbn in Hx. lia.
    + rewrite code_ascii; lia.
  - unfold scalar in Hc. destruct (c <? 65536)%N eqn:Hs.
    + apply scan_escape; unfold within; lia.
    + apply scan_surrogates. lia.
Qed.

Lemma scan_json_string l rest : Forall scalar l →
  scan_string (foldr (λ c t, escape_char c +:+ t) (String quote "") l +:+ rest) =
  Ok (utf8_text l, rest).
Proof.
  induction 1 as [|c l Hc _ IH]; cbn [foldr].
  - rewrite str_app_cons, str_app_nil. cbn [scan_string]. by rewrite decide_True.
  - rewrite <-str_app_assoc, scan_escape_char, IH by done. done.
Qed.

(** A string that was written, with its opening quotation mark. *)
Lemma json_string_read s rest : utf8_valid s = true →
  ∃ t, json_string s +:+ rest = String quote t ∧ scan_string t = Ok (s, rest).
Proof.
  intros Hs. eexists. split; [reflexivity|]. 
  rewrite (scan_json_string (points s)) by (by apply points_scalar).
  by rewrite utf8_text_points.
Qed.

Lemma ascii_valid a s : (Ascii.N_of_ascii a < 128)%N → utf8_valid (String a s) = utf8_valid s.
Proof.
  intros Ha. rewrite <-(str_app_nil s) at 1. rewrite <-str_app_cons.
  apply (encoded_valid (Ascii.N_of_ascii a)). constructor. lia.
Qed.
Lemma hex_digit_valid n s : (n < 16)%N → utf8_valid (String (hex_digit n) s) = utf8_valid s.
Proof.
  intros Hn. apply ascii_valid. unfold hex_digit. rewrite code_ascii; case_match; lia.
Qed.
Lemma escape_valid n : (n < 65536)%N → utf8_valid (unicode_escape n) = true.
Proof.
  intros Hn. unfold unicode_escape, hex4. rewrite !ascii_valid by done.
  by rewrite !hex_digit_valid by lia.
Qed.
Lemma escape_char_valid c : scalar c → utf8_valid (escape_char c) = true.
Proof.
  intros Hc. unfold escape_char.
  repeat match goal with |- context [if (?x =? ?y)%N then _ else _] =>
    destruct (N.eqb_spec x y) as [->|]; [done|] end.
  destruct ((32 <=? c) && (c <=? 126))%N eqn:Hp; [by rewrite ascii_valid by (rewrite code_ascii; lia)|].
  unfold scalar in Hc. destruct (c <? 65536)%N eqn:Hs; [apply escape_valid; lia|].
  rewrite valid_app; apply escape_valid; lia.
Qed.
Lemma json_string_valid s : utf8_valid s = true → utf8_valid (json_string s) = true.
Proof.
  intros Hs%points_scalar. unfold json_string.
  change (String quote ?x) with (String quote "" +:+ x). rewrite valid_app by done.
  induction Hs as [|c l Hc _ IH]; [done|]. cbn [foldr]. by rewrite valid_app by (by apply escape_char_valid).
Qed.

(** What may follow a number: nothing that could continue it. *)
Definition ends_number (s : string) : Prop :=
  match s with
  | "" => True
  | String a _ => is_digit a = false ∧ a ≠ "."%char ∧ a ∉ ["e"; "E"]%char
  end%string.
(** A text that begins with something other than white space. *)
Definition solid (s : string) : Prop :=
  match s with "" => False | String a _ => is_blank a = false end%string.

Lemma skip_solid s t : solid s → skip (s +:+ t) = s +:+ t.
Proof. destruct s as [|a s]; [done|]. rewrite str_app_cons. cbn [skip solid]. by intros ->. Qed.
Lemma skip_break level t : skip (break level +:+ t) = skip t.
Proof.
  unfold break. generalize (2 * level). intros n. rewrite <-str_app_assoc.
  change (skip (newline +:+ ?s)) with (skip s). induction n as [|n IH]; [done|]. apply IH.
Qed.

Lemma take_digits_read d rest :
  Forall (λ a, is_digit a = true) (chars d) →
  match rest with "" => True | String a _ => is_digit a = false end%string →
  take_digits (d +:+ rest) = (d, rest).
Proof.
  intros Hd Hr. unfold chars in Hd. induction d as [|a d IH].
  - rewrite str_app_nil. destruct rest as [|a r]; [done|]. cbn [take_digits]. by rewrite Hr.
  - apply Forall_cons in Hd as [Ha Hd]. rewrite str_app_cons. cbn [take_digits].
    by rewrite Ha, IH.
Qed.

Lemma integer_part_read (n : N) rest : ends_number rest →
  integer_part (pretty n +:+ rest) = Ok (pretty n, rest).
Proof.
  intros Hr. destruct (pretty_digits n) as (a & d & Hp & Hall & _ & Hz).
  assert (take_digits (pretty n +:+ rest) = (pretty n, rest)) as Ht.
  { apply take_digits_read; [done|]. destruct rest; [done|]. by destruct Hr. }
  rewrite Hp in *. apply Forall_cons in Hall as [Ha _]. rewrite str_app_cons in *.
  cbn [integer_part]. case_decide as Ha0.
  - by rewrite Ha0, Hz by done.
  - by rewrite Ha, Ht.
Qed.

Lemma fraction_none s : ends_number s → fraction s = ("", s).
Proof.
  destruct s as [|a s]; [done|]. intros (_ & Ha & _). cbn [fraction].
  destruct (take_digits s). rewrite decide_False; [done|]. by intros [].
Qed.
Lemma exponent_none s : ends_number s → exponent s = ("", s).
Proof.
  destruct s as [|a s]; [done|]. intros (_ & _ & Ha). cbn [exponent].
  set (p := match s with "" => _ | _ => _ end). destruct p as [sign r].
  destruct (take_digits r). rewrite decide_False; [done|]. by intros [].
Qed.

Section round_trip.
Context `{!PyFloat}.

Lemma number_read z rest : ends_number rest → number (pretty z +:+ rest) = Ok (VInt z, rest).
Proof.
  intros Hr.
  assert (∀ (neg : bool) (n : N) s, s = pretty n +:+ rest →
    ('(ip, r) ← integer_part s;
     let '(fp, r) := fraction r in
     let '(ep, r) := exponent r in
     if decide (fp = "" ∧ ep = "") then
       let n := Z.of_N (digits_value 0 ip) in mret (VInt (if neg then - n else n)%Z, r)
     else mret (VFloat (float_of ((if neg then "-" else "") +:+ ip +:+ fp +:+ ep)), r)) =
    Ok (VInt (if neg then - Z.of_N n else Z.of_N n)%Z, rest)) as Hn.
  { intros neg n s ->. rewrite integer_part_read by done. cbn [mbind result_bind].
    rewrite fraction_none, exponent_none by done. rewrite decide_True by done.
    by destruct (pretty_digits n) as (_ & _ & _ & _ & -> & _). }
  unfold number. destruct z as [|p|p].
  - by apply (Hn false 0%N).
  - change (pretty (Z.pos p)) with (pretty (N.pos p)).
    destruct (pretty_digits (N.pos p)) as (a & d & Hp & Hall & _).
    assert (a ≠ "-"%char) as Ha.
    { intros ->. rewrite Hp in Hall. by apply Forall_cons in Hall as [? _]. }
    pose proof (Hn false (N.pos p) _ eq_refl) as Hx. rewrite Hp in *. rewrite str_app_cons in *.
    rewrite decide_False by done. exact Hx.
  - change (pretty (Z.neg p)) with ("-" +:+ pretty (N.pos p)).
    rewrite !str_app_cons, str_app_nil. rewrite decide_True by done.
    exact (Hn true (N.pos p) _ eq_refl).
Qed.

(** The reader [one] reads [x] back from [t], when all that is left to read is
    shorter than [fuel]. *)
Definition reads {A} (fuel : nat) (one : reader A) (t : string) (x : A) : Prop :=
  solid t ∧ ∀ rest, ends_number rest → String.length (t +:+ rest) < fuel →
    one (t +:+ rest) = Ok (x, rest).

Lemma ends_break level s : ends_number (break level +:+ s).
Proof. split_and!; try done. rewrite !elem_of_cons, elem_of_nil. naive_solver. Qed.
Lemma ends_comma s : ends_number ("," +:+ s).
Proof. split_and!; try done. rewrite !elem_of_cons, elem_of_nil. naive_solver. Qed.
#[local] Hint Resolve ends_break ends_comma : core.

Lemma items_read {A} fuel n (one : reader A) close level rest ts xs :
  Forall2 (reads fuel one) ts xs → ts ≠ [] → close ≠ ","%char →
  is_blank close = false →
  let s := joined ("," +:+ break (S level)) ts +:+ break level +:+ String close rest in
  String.length s < n → n ≤ fuel → items n one close s = Ok (xs, rest).
Proof.
  intros Hts Hne Hc Hb. revert n. induction Hts as [|t x ts xs [_ Ht] Hts IH]; [done|].
  intros n s Hlen Hn. subst s. destruct n as [|n]; [lia|]. cbn [items].
  assert (skip (break level +:+ String close rest) = String close rest) as Hend.
  { rewrite skip_break. cbn [skip]. by rewrite Hb. }
  destruct ts as [|t' ts].
  - apply Forall2_nil_inv_l in Hts as ->. cbn [joined] in *.
    rewrite Ht by (auto || lia). cbn [mbind result_bind]. rewrite Hend. by rewrite decide_True.
  - change (joined ?sep (t :: t' :: ts)) with (t +:+ sep +:+ joined sep (t' :: ts)) in *.
    rewrite <-!str_app_assoc in *. rewrite Ht by (auto || lia). cbn [mbind result_bind].
    rewrite str_app_cons, str_app_nil. cbn [skip].
    change (is_blank ",") with false. cbv match. rewrite decide_False by done.
    rewrite decide_True by done. rewrite skip_break.
    assert (solid t') as Hs by (by inversion_clear Hts as [|? ? ? ? [? _] _]).
    assert (skip (joined ("," +:+ break (S level)) (t' :: ts) +:+ break level +:+ String close rest) =
      joined ("," +:+ break (S level)) (t' :: ts) +:+ break level +:+ String close rest) as ->.
    { cbn [joined]. destruct ts; try rewrite <-!str_app_assoc; by apply skip_solid. }
    rewrite !str_length_app in Hlen. rewrite IH; [done|done| |lia].
    rewrite !str_length_app. change (String.length ",") with 1 in Hlen. lia.
Qed.

(** What is written is ASCII, so it is valid UTF-8. *)
Lemma joined_valid sep ts : utf8_valid sep = true → Forall (λ t, utf8_valid t = true) ts →
  utf8_valid (joined sep ts) = true.
Proof.
  intros Hs. induction 1 as [|t ts Ht Hts IH]; [done|]. cbn [joined].
  destruct ts; [done|]. by rewrite !valid_app.
Qed.
Lemma break_valid level : utf8_valid (break level) = true.
Proof.
  unfold break. rewrite valid_app by done. generalize (2 * level). intros n.
  induction n as [|n IH]; [done|]. exact IH.
Qed.
Lemma block_valid l r level ts : utf8_valid l = true → utf8_valid r = true →
  Forall (λ t, utf8_valid t = true) ts → utf8_valid (block l r level ts) = true.
Proof.
  intros Hl Hr Hts. unfold block. destruct ts as [|t ts]; [by rewrite valid_app|].
  rewrite !valid_app; [done|apply break_valid| |apply break_valid|done].
  apply joined_valid; [|done]. rewrite valid_app; [apply break_valid|done].
Qed.

(** A list or dictionary, after its opening bracket. *)
Lemma block_read {A} fuel (one : reader A) l close level rest ts xs :
  Forall2 (reads fuel one) ts xs → close ≠ ","%char → is_blank close = false →
  (∀ t a r, t ∈ ts → t = String a r → a ≠ close) →
  ∃ s, block (String l "") (String close "") level ts +:+ rest = String l s ∧
    (String.length s < fuel → listed fuel one close s = Ok (xs, rest)).
Proof.
  intros Hts Hc Hb Hhead. unfold block. destruct ts as [|t ts].
  - apply Forall2_nil_inv_l in Hts as ->. exists (String close rest). split; [reflexivity|].
    intros _. unfold listed. cbn [skip]. rewrite Hb. by rewrite decide_True.
  - exists (break (S level) +:+ joined ("," +:+ break (S level)) (t :: ts) +:+
      break level +:+ String close rest).
    split; [by rewrite <-!str_app_assoc, !str_app_cons, !str_app_nil|]. intros Hlen.
    unfold listed. rewrite skip_break.
    set (s := joined _ _ +:+ _).
    assert (∃ a r, s = String a r ∧ is_blank a = false ∧ a ≠ close) as (a & r & Hs & Ha & Hac).
    { assert (∃ u, s = t +:+ u) as [u Hu].
      { unfold s. destruct ts; cbn [joined]; [by eexists|].
        rewrite <-!str_app_assoc. by eexists. }
      inversion_clear Hts as [|? ? ? ? [Ht _] _]. rewrite Hu.
      destruct t as [|a t]; [done|]. exists a, (t +:+ u). split; [done|]. split; [done|].
      eapply Hhead; [by apply list_elem_of_here|done]. }
    assert (skip s = s) as Hskip by (rewrite Hs; cbn [skip]; by rewrite Ha).
    rewrite Hskip. rewrite Hs at 1. rewrite decide_False by done. subst s.
    apply (items_read fuel); try done. rewrite str_length_app in Hlen. lia.
Qed.

(** The documents that a JSON text holds faithfully: no floats, texts in UTF-8,
    distinct keys. *)
Fixpoint json_ok (v : pyval) : bool :=
  match v with
  | VNone | VBool _ | VInt _ => true
  | VStr s => utf8_valid s
  | VList l => forallb json_ok l
  | VDict d => bool_decide (NoDup (fst <$> d)) && forallb (λ kv,
      match kv.1 with KStr k => utf8_valid k | KBin _ => false end && json_ok kv.2) d
  | VFloat _ | VBin _ | VExt _ _ => false
  end.

(** Texts that do not begin with white space or a closing bracket. *)
Definition opens (close : Ascii.ascii) (t : string) : Prop :=
  ∃ a r, t = String a r ∧ is_blank a = false ∧ a ≠ close ∧ a ≠ Ascii.ascii_of_N 239.
Definition written (v : pyval) : Prop := ∀ level, ∃ t, json_text level v = Ok t ∧
  opens "]" t ∧ utf8_valid t = true ∧ ∀ fuel, reads fuel (value fuel) t v.

Lemma written_intro v : (∀ level, ∃ t, json_text level v = Ok t ∧ opens "]" t ∧
    utf8_valid t = true ∧
    ∀ fuel rest, ends_number rest → String.length (t +:+ rest) < S fuel →
      value (S fuel) (t +:+ rest) = Ok (v, rest)) → written v.
Proof.
  intros Hv level. destruct (Hv level) as (t & Ht & Ho & Hu & Hr). exists t.
  do 3 (split; [done|]). intros fuel. split; [by destruct Ho as (a & r & -> & ? & _)|].
  intros rest He Hl. destruct fuel as [|fuel]; [lia|]. by apply Hr.
Qed.

Lemma written_constant v name : opens "]" name → utf8_valid name = true → (∀ level, json_text level v = Ok name) →
  (∀ fuel rest, value (S fuel) (name +:+ rest) = Ok (v, rest)) → written v.
Proof. intros Ho Hu Ht Hr. apply written_intro. intros level. exists name. auto. Qed.

Lemma pretty_valid (z : Z) : utf8_valid (pretty z) = true.
Proof.
  assert (∀ n : N, utf8_valid (pretty n) = true) as Hn.
  { intros n. destruct (pretty_digits n) as (_ & _ & _ & Hall & _). revert Hall.
    generalize (pretty n). unfold chars. induction s as [|a s IH]; [done|].
    intros [Ha Hs]%Forall_cons. rewrite <-(str_app_nil s), <-str_app_cons.
    rewrite (encoded_valid (Ascii.N_of_ascii a) (String a "")); [by apply IH|]. constructor.
    unfold is_digit, within in Ha. lia. }
  destruct z as [|p|p]; [done|apply (Hn (N.pos p))|].
  change (pretty (Z.neg p)) with ("-" +:+ pretty (N.pos p)). by rewrite valid_app.
Qed.

Lemma written_int z : written (VInt z).
Proof.
  apply written_intro. intros level. exists (pretty z). split; [done|].
  assert (∃ a r, pretty z = String a r ∧ (is_digit a = true ∨ a = "-"%char) ∧
    (a = "-"%char → ∃ b u, r = String b u ∧ is_digit b = true)) as (a & r & Hz & Ha & Hm).
  { destruct z as [|p|p].
    - exists "0"%char, "". split_and!; [done|by left|done].
    - destruct (pretty_digits (N.pos p)) as (a & d & Hp & Hall & _). exists a, d.
      rewrite Hp in Hall. apply Forall_cons in Hall as [Ha _].
      split; [done|]. split; [by left|]. by intros ->.
    - destruct (pretty_digits (N.pos p)) as (a & d & Hp & Hall & _).
      exists "-"%char, (String a d). rewrite Hp in Hall. apply Forall_cons in Hall as [Ha _].
      split_and!; [|by right|eauto]. change (pretty (Z.neg p)) with ("-" +:+ pretty (N.pos p)).
      by rewrite Hp. }
  split.
  { exists a, r. split; [done|]. destruct Ha as [Ha | ->]; [|done].
    split; [|by split; intros ->]. unfold is_blank. apply bool_decide_eq_false.
    unfold is_digit, within in Ha. rewrite !elem_of_cons, elem_of_nil. lia. }
  split; [apply pretty_valid|].
  intros fuel rest He _. pose proof (number_read z rest He) as Hn. rewrite Hz in *.
  rewrite str_app_cons in *. cbn [value].
  assert (a ≠ quote ∧ a ≠ "{"%char ∧ a ≠ "["%char) as (? & ? & ?).
  { destruct Ha as [Ha | ->]; [|done]. split_and!; by intros ->. }
  rewrite !decide_False by done.
  assert (constant constants (String a (r +:+ rest)) = None) as ->; [|done].
  cbn [constant constants after_prefix].
  assert (∀ b, is_digit b = false → b ≠ "-"%char → b ≠ a) as Hb.
  { intros b Hb Hb' ->. destruct Ha; congruence. }
  rewrite !(decide_False (P:=_ = a)) by (by apply Hb).
  case_decide as Hd; [|done]. destruct (Hm (eq_sym Hd)) as (b & u & -> & Hu).
  rewrite str_app_cons, decide_False; [done|]. by intros <-.
Qed.

Lemma written_str s : utf8_valid s = true → written (VStr s).
Proof.
  intros Hs. apply written_intro. intros level. exists (json_string s). split; [done|].
  split; [by do 2 eexists|]. split; [by apply json_string_valid|]. intros fuel rest _ _.
  destruct (json_string_read s rest Hs) as (t & -> & Ht). cbn [value].
  rewrite decide_True by done. by rewrite Ht.
Qed.

(** *** Lists *)

Definition texts (level : nat) := fix go (l : list pyval) : result (list string) :=
  match l with
  | [] => mret []
  | v :: l => t ← json_text level v; ts ← go l; mret (t :: ts)
  end.

Lemma texts_written level l : Forall written l → ∃ ts, texts level l = Ok ts ∧
  Forall (opens "]") ts ∧ Forall (λ t, utf8_valid t = true) ts ∧ ∀ fuel, Forall2 (reads fuel (value fuel)) ts l.
Proof.
  induction 1 as [|v l Hv _ (ts & Hts & Ho & Hu & Hr)]; [by exists []|].
  destruct (Hv level) as (t & Ht & Hot & Hut & Hrt). exists (t :: ts). cbn [texts].
  fold (texts level). rewrite Ht, Hts. auto 6.
Qed.

Lemma written_list l : Forall written l → written (VList l).
Proof.
  intros Hl. apply written_intro. intros level.
  destruct (texts_written (S level) l Hl) as (ts & Hts & Ho & Hu & Hr).
  exists (block "[" "]" level ts). split.
  { change (json_text level (VList l)) with (ts ← texts (S level) l; mret (block "[" "]" level ts)).
    by rewrite Hts. }
  split; [by destruct ts; do 2 eexists|]. split; [by apply block_valid|].
  intros fuel rest _ Hlen.
  destruct (block_read fuel (value fuel) "[" "]" level rest ts l) as (s & Hs & Hread); [done..| |].
  { intros t a r Hin ->. rewrite Forall_forall in Ho. by destruct (Ho _ Hin) as (? & ? & [= <- <-] & _ & ? & _). }
  rewrite Hs in *. cbn [value]. rewrite !decide_False by done. rewrite decide_True by done.
  rewrite Hread by (simpl in Hlen; lia). done.
Qed.

(** *** Dictionaries *)

Definition member_texts (level : nat) := fix go (d : list (pykey * pyval)) : result (list string) :=
  match d with
  | [] => mret []
  | (KStr k, v) :: d =>
      t ← json_text level v; ts ← go d; mret ((json_string k +:+ ": " +:+ t) :: ts)
  | (KBin _, _) :: _ => Raise TypeError
  end.

Lemma member_reads fuel k v t : utf8_valid k = true → reads fuel (value fuel) t v →
  reads fuel (member (value fuel)) (json_string k +:+ ": " +:+ t) (KStr k, v).
Proof.
  intros Hk [Hs Ht]. split; [done|]. intros rest He Hlen. rewrite <-!str_app_assoc in *.
  destruct (json_string_read k (": " +:+ t +:+ rest) Hk) as (u & Hu & Hscan).
  rewrite Hu in *. cbn [member]. rewrite decide_True by done. rewrite Hscan.
  cbn [mbind result_bind]. change (": " +:+ ?x) with (String ":" (String " " x)). cbn [skip].
  change (is_blank ":") with false. cbv match. rewrite decide_True by done. cbn [skip].
  change (is_blank " ") with true. cbv match. rewrite skip_solid by done.
  rewrite Ht; [done|done|]. rewrite <-Hu in Hlen.
  rewrite !str_length_app in Hlen. rewrite str_length_app. lia.
Qed.

Lemma member_texts_written level d :
  Forall (λ kv, match kv.1 with KStr k => utf8_valid k | KBin _ => false end = true ∧
    written kv.2) d →
  ∃ ts, member_texts level d = Ok ts ∧ Forall (opens "}") ts ∧
    Forall (λ t, utf8_valid t = true) ts ∧
    ∀ fuel, Forall2 (reads fuel (member (value fuel))) ts d.
Proof.
  induction 1 as [|[[k|k] v] d [Hk Hv] _ (ts & Hts & Ho & Hu & Hr)]; [by exists []| |done].
  simpl in Hk, Hv. destruct (Hv level) as (t & Ht & _ & Hut & Hrt).
  exists ((json_string k +:+ ": " +:+ t) :: ts). cbn [member_texts]. fold (member_texts level).
  rewrite Ht, Hts. split; [done|]. split.
  - constructor; [by do 2 eexists|done].
  - split.
    { constructor; [|done]. rewrite !valid_app; [done|done|by apply json_string_valid]. }
    intros fuel. constructor; [by apply member_reads|done].
Qed.

Lemma set_item_new k v d : k ∉ (fst <$> d) → set_item k v d = d ++ [(k, v)].
Proof.
  induction d as [|[k' v'] d IH]; [done|]. csimpl. rewrite not_elem_of_cons. intros [Hne Hk].
  rewrite decide_False by done. by rewrite IH.
Qed.
Lemma dict_of_distinct d : NoDup (fst <$> d) → dict_of d = d.
Proof.
  unfold dict_of. enough (∀ acc, NoDup (fst <$> (acc ++ d)) →
    fold_left (λ d kv, set_item kv.1 kv.2 d) d acc = acc ++ d) as Hacc by (intros; by apply (Hacc [])).
  induction d as [|[k v] d IH]; intros acc Hnd; simpl; [by rewrite app_nil_r|].
  rewrite set_item_new.
  - rewrite IH; rewrite <-(assoc (++)); done.
  - rewrite fmap_app in Hnd. apply NoDup_app in Hnd as (_ & Hx & _). intros Hin.
    eapply Hx; [exact Hin|]. csimpl. by left.
Qed.

Lemma written_dict d : NoDup (fst <$> d) →
  Forall (λ kv, match kv.1 with KStr k => utf8_valid k | KBin _ => false end = true ∧
    written kv.2) d → written (VDict d).
Proof.
  intros Hnd Hd. apply written_intro. intros level.
  destruct (member_texts_written (S level) d Hd) as (ts & Hts & Ho & Hu & Hr).
  exists (block "{" "}" level ts). split.
  { change (json_text level (VDict d)) with
      (ts ← member_texts (S level) d; mret (block "{" "}" level ts)).
    by rewrite Hts. }
  split; [by destruct ts; do 2 eexists|]. split; [by apply block_valid|].
  intros fuel rest _ Hlen.
  destruct (block_read fuel (member (value fuel)) "{" "}" level rest ts d)
    as (s & Hs & Hread); [done..| |].
  { intros t a r Hin ->. rewrite Forall_forall in Ho. by destruct (Ho _ Hin) as (? & ? & [= <- <-] & _ & ? & _). }
  rewrite Hs in *. cbn [value]. rewrite decide_False by done. rewrite decide_True by done.
  rewrite Hread by (simpl in Hlen; lia). cbn [mbind result_bind]. by rewrite dict_of_distinct.
Qed.

Lemma json_ok_written v : json_ok v = true → written v.
Proof.
  induction v as [|[]|z|z|s|b|l IH|d IH|c b] using pyval_rect'; intros Hok; try done.
  - apply (written_constant _ "null"); [by do 2 eexists|done..].
  - apply (written_constant _ "true"); [by do 2 eexists|done..].
  - apply (written_constant _ "false"); [by do 2 eexists|done..].
  - apply written_int.
  - by apply written_str.
  - apply written_list. cbn [json_ok] in Hok. rewrite forallb_forall in Hok.
    rewrite Forall_forall in *. intros v Hv. apply IH; [done|]. apply Hok. by apply list_elem_of_In.
  - cbn [json_ok] in Hok. apply andb_true_iff in Hok as [Hnd%bool_decide_eq_true Hok].
    apply written_dict; [done|]. rewrite forallb_forall in Hok.
    rewrite Forall_forall in *. intros kv Hkv.
    pose proof (Hok kv) as Hk. rewrite andb_true_iff in Hk.
    destruct Hk as [Hk Hv]; [by apply list_elem_of_In|]. split; [done|]. by apply IH.
Qed.

(** A document survives its text. *)
Lemma json_load_dump v : json_ok v = true → ∃ t, json_dump v = Ok t ∧ json_load t = Ok v.
Proof.
  intros Hv. destruct (json_ok_written v Hv 0) as (t & Ht & Ho & Hu & Hr). exists t.
  split; [exact Ht|]. unfold json_load. rewrite Hu. cbn [negb].
  destruct Ho as (a & r & Hta & Ha & _ & Hbom).
  assert (after_prefix byte_order_mark t = None) as ->.
  { rewrite Hta. change byte_order_mark with (String (Ascii.ascii_of_N 239) (of_codes [187; 191]%N)).
    cbn [after_prefix]. by rewrite decide_False. }
  assert (skip t = t) as -> by (rewrite Hta; cbn [skip]; by rewrite Ha).
  pose proof (proj2 (Hr (S (String.length t))) "" I) as Hread.
  assert (∀ s, s +:+ "" = s) as Hnil.
  { induction s as [|b s IH]; [done|]. exact (f_equal (String b) IH). }
  rewrite Hnil in Hread. rewrite Hread by lia. done.
Qed.
End round_trip.
