(* ===== verification/Effects.v ===== *)
(** * Effects: a state monad with exceptions over an arbitrary environment

    The program's coroutines read the clock, draw random numbers, open
    connections, send and receive frames, and mutate their object's state; a
    raised exception does not undo the mutations made before it.  What they do is
    a class per effect; [M S A] is the monad that runs such computations over a
    local state [S], from beginning to end.

    Every answer of the outside world comes from an environment [env : Env]: a
    stream of [Outcome]s, one of which is consumed by each interaction.  The
    models are parametric in it, so a theorem holds whatever the clock shows,
    whichever sends fail and whatever the peers answer. *)
From S2P Require Import Prelude PyVal Interfaces Text.

(** A WebSocket object, by its identity. *)
Abbreviation socket := nat.

(** What one interaction with the outside world may answer. *)
Record Outcome `{!Ed25519} `{!E2E} := {
  o_time : Z;                       (** [int(time.time())] *)
  o_uuid : string;                  (** [str(uuid.uuid4())] *)
  o_random : nat → bytes;           (** [os.urandom(n)] *)
  o_edkey : edkey;                  (** [Ed25519PrivateKey.generate()] *)
  o_xkey : xkey;                    (** [X25519PrivateKey.generate()] *)
  o_dial : result socket;           (** [websockets.connect(uri)] *)
  o_send : result unit;             (** [ws.send(data)] *)
  o_recv : result bytes;            (** [ws.recv()] *)
  o_callback : result unit;         (** the embedder's message callback *)
  o_choice : nat;                   (** one draw of [random] *)
  o_open : bool;                    (** [ws.state == State.OPEN] *)
  o_serve : result unit;            (** [websockets.serve(handler, host, port)] *)
}.

Class Env `{!Ed25519} `{!E2E} := outcome : nat → Outcome.

(** Frames written, sockets opened and closed, the server put up and taken down,
    and what is printed (to the error output, if [err]), in order.  The message of
    an exception is not spelled out. *)
Inductive io :=
  | IoDial (uri : string) (ws : socket)
  | IoSend (ws : socket) (data : bytes)
  | IoClose (ws : socket)
  | IoServe (host : string) (port : Z)
  | IoUnserve
  | IoPrint (err : bool) (text : string)
  | IoPrintExn (err : bool) (prefix : string) (e : exn).

Record World (S : Type) := mkWorld {
  w_tick : nat;          (** interactions consumed so far *)
  w_trace : list io;     (** what was written to the network *)
  w_st : S;              (** the object's own state *)
}.
Arguments mkWorld {S}.
Arguments w_tick {S}.
Arguments w_trace {S}.
Arguments w_st {S}.

(** ** The interface

    The operations are written once, over any [m] that provides the effects
    below; [S] is the state that they act on.  [M] runs an operation from its
    start to its end; [Res], in [Interleaving], runs it up to the next [await]. *)

Class MThrow (m : Type → Type) := throw : ∀ {A}, exn → m A.
Class MLift (m : Type → Type) := lift : ∀ {A}, result A → m A.
Class MGets (S : Type) (m : Type → Type) := gets : ∀ {A}, (S → A) → m A.
Class MModify (S : Type) (m : Type → Type) := modify : (S → S) → m unit.
Class MEmit (S : Type) (m : Type → Type) := emit : io → m unit.
(** Read one answer of the environment, by its index. *)
Class MInteract (S : Type) (m : Type → Type) := interact : ∀ {A}, (nat → A) → m A.
(** [try: m  except Exception as e: h e] *)
Class MCatch (m : Type → Type) := catch : ∀ {A}, m A → (exn → m A) → m A.
(** [try: m  finally: f] *)
Class MFinally (m : Type → Type) := finally : ∀ {A}, m A → m unit → m A.
(** [await m], for an [m] that something else completes: other tasks may run
    before [m] happens, and again before its result is delivered. *)
Class MAwait (m : Type → Type) := await : ∀ {A}, m A → m A.

(** ** Running an operation without interruption *)

Definition M (S A : Type) : Type := World S → result A * World S.

#[global] Instance M_ret {S} : MRet (M S) := λ A a w, (Ok a, w).
#[global] Instance M_bind {S} : MBind (M S) := λ A B f m w,
  match m w with
  | (Ok a, w') => f a w'
  | (Raise e, w') => (Raise e, w')
  end.
#[global] Instance M_throw {S} : MThrow (M S) := λ A e w, (Raise e, w).
#[global] Instance M_lift {S} : MLift (M S) := λ A r w, (r, w).
#[global] Instance M_gets {S} : MGets S (M S) := λ A f w, (Ok (f (w_st w)), w).
#[global] Instance M_modify {S} : MModify S (M S) := λ f w,
  (Ok (), mkWorld (w_tick w) (w_trace w) (f (w_st w))).
#[global] Instance M_emit {S} : MEmit S (M S) := λ e w,
  (Ok (), mkWorld (w_tick w) (w_trace w ++ [e]) (w_st w)).
#[global] Instance M_interact {S} : MInteract S (M S) := λ A f w,
  (Ok (f (w_tick w)), mkWorld (Datatypes.S (w_tick w)) (w_trace w) (w_st w)).
#[global] Instance M_catch {S} : MCatch (M S) := λ A m h w,
  match m w with
  | (Ok a, w') => (Ok a, w')
  | (Raise e, w') => h e w'
  end.
#[global] Instance M_finally {S} : MFinally (M S) := λ A m f w,
  match m w with
  | (r, w') =>
      match f w' with
      | (Ok _, w'') => (r, w'')
      | (Raise e, w'') => (Raise e, w'')
      end
  end.
#[global] Instance M_await {S} : MAwait (M S) := λ A m, m.

(** [for x in l: body x] *)
Fixpoint for_each {m : Type → Type} `{!MRet m, !MBind m} {A} (l : list A) (body : A → m unit)
    : m unit :=
  match l with
  | [] => mret ()
  | x :: l => body x ;; for_each l body
  end.

Section effects.
Context `{!Ed25519} `{!E2E} `{!Env}.
Context {S : Type} {m : Type → Type}.
Context `{!MRet m, !MBind m, !MLift m, !MEmit S m, !MInteract S m, !MAwait m}.

(** Consume one answer of the environment. *)
Definition ask {A} (f : Outcome → A) : m A := interact (λ k, f (outcome k)).
Definition ask_result {A} (f : Outcome → result A) : m A :=
  r ← ask f; lift r.

Definition time : m Z := ask o_time.
Definition uuid4 : m string := ask o_uuid.
Definition urandom (n : nat) : m bytes := ask (λ o, o_random o n).

(** [await ws.send(data)]: the frame is written unless the send raises *)
Definition ws_send (ws : socket) (data : bytes) : m unit :=
  await (ask_result o_send ;; emit (IoSend ws data)).
Definition ws_recv (ws : socket) : m bytes := await (ask_result o_recv).
Definition ws_close (ws : socket) : m unit := await (emit (IoClose ws)).
Definition ws_connect (uri : string) : m socket :=
  await (ws ← ask_result o_dial; emit (IoDial uri ws) ;; mret ws).

(** [click.echo(text)] and [click.echo(text, nl=False)] *)
Definition echo (text : string) : m unit := emit (IoPrint false (text +:+ newline)).
Definition echo_nonl (text : string) : m unit := emit (IoPrint false text).
Definition echo_err (text : string) : m unit := emit (IoPrint true (text +:+ newline)).

(** [random.sample(l, k)] draws [k] elements at distinct positions. *)
Fixpoint sample {A} (k : nat) (l : list A) : m (list A) :=
  match k, l with
  | Datatypes.S k, _ :: _ =>
      i ← ask o_choice;
      let j := i mod length l in
      match l !! j with
      | Some x => xs ← sample k (take j l ++ drop (Datatypes.S j) l); mret (x :: xs)
      | None => mret []
      end
  | _, _ => mret []
  end.
End effects.

(** ** Reasoning *)

Section reasoning.
Context {S : Type}.
Implicit Types (w : World S).

(** Running a computation, and the weakest precondition it defines. *)
Definition wp {A} (m : M S A) (Q : result A → World S → Prop) (w : World S) : Prop :=
  Q (m w).1 (m w).2.

(** One step of a run. *)
Lemma run_bind {A B} (m : M S A) (f : A → M S B) w a w' :
  m w = (Ok a, w') → (m ≫= f) w = f a w'.
Proof. intros Hm. unfold mbind, M_bind. by rewrite Hm. Qed.

Lemma run_lift {A B} (r : result A) (f : A → M S B) w a :
  r = Ok a → (lift r ≫= f) w = f a w.
Proof. by intros ->. Qed.

Lemma run_catch {A} (m : M S A) h w a w' : m w = (Ok a, w') → catch m h w = (Ok a, w').
Proof. intros Hm. unfold catch, M_catch. by rewrite Hm. Qed.
Lemma bindE {A B} (m : M S A) (f : A → M S B) w :
  (m ≫= f) w = match m w with (Ok a, w') => f a w' | (Raise e, w') => (Raise e, w') end.
Proof. done. Qed.
Lemma catchE {A} (m : M S A) h w :
  catch m h w = match m w with (Ok a, w') => (Ok a, w') | (Raise e, w') => h e w' end.
Proof. done. Qed.

Lemma retE {A} (a : A) w : mret (M:=M S) a w = (Ok a, w).
Proof. done. Qed.
Lemma throwE {A} e w : throw (m:=M S) (A:=A) e w = (Raise e, w).
Proof. done. Qed.
Lemma liftE {A} (r : result A) w : lift (m:=M S) r w = (r, w).
Proof. done. Qed.
Lemma getsE {A} (f : S → A) w : gets (m:=M S) f w = (Ok (f (w_st w)), w).
Proof. done. Qed.
Lemma modifyE (f : S → S) w :
  modify (m:=M S) f w = (Ok (), mkWorld (w_tick w) (w_trace w) (f (w_st w))).
Proof. done. Qed.
Lemma emitE e w : emit (m:=M S) e w = (Ok (), mkWorld (w_tick w) (w_trace w ++ [e]) (w_st w)).
Proof. done. Qed.
Lemma awaitE {A} (m : M S A) w : await m w = m w.
Proof. done. Qed.

Lemma wp_mono {A} (m : M S A) Q Q' w :
  wp m Q w → (∀ r w', Q r w' → Q' r w') → wp m Q' w.
Proof. unfold wp. eauto. Qed.

End reasoning.

(** *** What an operation may change, and what it may return

    A relation on states describes what may change; the states [s] with [R s s]
    are those where the description applies, and a change leads to such a state
    again.  [pres R m] says that, from them, every uninterrupted stretch of [m]
    changes the state by [R], and [knows R P m] that every value that [m] returns
    satisfies [P].  The class states the rules that both notions of running obey;
    what is proved from the rules holds of runs with and without interruptions. *)

Class Change {S} (R : relation S) : Prop := {
  #[global] change_trans :: Transitive R;
  change_stays s s' : R s s' → R s' s';
}.
#[global] Instance change_preorder {S} (R : relation S) `{!PreOrder R} : Change R.
Proof. split; [apply _|]. intros s s' _. reflexivity. Qed.

Class MPres (S : Type) (m : Type → Type) := pres : ∀ {A}, relation S → m A → Prop.
Class MKnows (S : Type) (m : Type → Type) :=
  knows : ∀ {A}, relation S → (A → Prop) → m A → Prop.

Class EffectRules (S : Type) (m : Type → Type)
    `{!MRet m, !MBind m, !MThrow m, !MLift m, !MGets S m, !MModify S m, !MEmit S m}
    `{!MInteract S m, !MCatch m, !MFinally m, !MAwait m, !MPres S m, !MKnows S m} : Prop := {
  rule_ret R `{!Change R} A (a : A) : pres R (mret a);
  rule_throw R `{!Change R} A e : pres R (throw (A:=A) e);
  rule_lift R `{!Change R} A (r : result A) : pres R (lift r);
  rule_gets R `{!Change R} A (f : S → A) : pres R (gets f);
  rule_emit R `{!Change R} e : pres R (emit e);
  rule_interact R `{!Change R} A (f : nat → A) : pres R (interact f);
  rule_modify R f : (∀ s, R s s → R s (f s)) → pres R (modify f);
  rule_bind R `{!Change R} A B (P : A → Prop) (x : m A) (f : A → m B) :
    pres R x → knows R P x → (∀ a, P a → pres R (f a)) → pres R (x ≫= f);
  rule_catch R `{!Change R} A (x : m A) h :
    pres R x → (∀ e, pres R (h e)) → pres R (catch x h);
  rule_finally R `{!Change R} A (x : m A) f : pres R x → pres R f → pres R (finally x f);
  rule_await R `{!Change R} A (x : m A) : pres R x → pres R (await x);
  rule_True A (x : m A) : pres (λ _ _, True) x;
  knows_True R A (x : m A) : knows R (λ _, True) x;
  knows_mono R A (P Q : A → Prop) (x : m A) : (∀ a, P a → Q a) → knows R P x → knows R Q x;
  knows_anyway R A P (x : m A) : knows (λ _ _, True) P x → knows R P x;
  knows_ret R A (P : A → Prop) a : P a → knows R P (mret a);
  knows_throw R A (P : A → Prop) e : knows R P (throw e);
  knows_lift R A (P : A → Prop) (r : result A) : (∀ a, r = Ok a → P a) → knows R P (lift r);
  knows_gets R A (P : A → Prop) f : (∀ s, R s s → P (f s)) → knows R P (gets f);
  knows_interact R A (P : A → Prop) (f : nat → A) : (∀ n, P (f n)) → knows R P (interact f);
  knows_bind R `{!Change R} A B (P : A → Prop) (Q : B → Prop) (x : m A) (f : A → m B) :
    pres R x → knows R P x → (∀ a, P a → knows R Q (f a)) → knows R Q (x ≫= f);
  knows_catch R `{!Change R} A (P : A → Prop) (x : m A) h :
    pres R x → knows R P x → (∀ e, knows R P (h e)) → knows R P (catch x h);
  knows_await R A (P : A → Prop) (x : m A) : knows R P x → knows R P (await x);
}.

(** What is returned from any state. *)
Abbreviation returns P := (knows (λ _ _, True) P).

#[global] Instance M_pres {S} : MPres S (M S) := λ A R m, ∀ w,
  R (w_st w) (w_st w) → R (w_st w) (w_st (m w).2).
#[global] Instance M_knows {S} : MKnows S (M S) := λ A R P m, ∀ w a,
  R (w_st w) (w_st w) → (m w).1 = Ok a → P a.

(** Where the relation is reflexive, there is nothing to check. *)
Lemma pres_always {S A} (R : relation S) `{!PreOrder R} (m : M S A) :
  pres R m ↔ ∀ w, R (w_st w) (w_st (m w).2).
Proof. split; intros Hm w; [by apply Hm|intros _; apply Hm]. Qed.

Section M_rules.
Context {S : Type} (R : relation S).

Lemma M_pres_pure {A} (m : M S A) : (∀ w, w_st (m w).2 = w_st w) → pres R m.
Proof. intros H w Hw. by rewrite H. Qed.
Context `{!Change R}.
Lemma M_pres_bind {A B} (P : A → Prop) (m : M S A) (f : A → M S B) :
  pres R m → knows R P m → (∀ a, P a → pres R (f a)) → pres R (m ≫= f).
Proof.
  intros Hm HP Hf w Hw. unfold mbind, M_bind. specialize (Hm w Hw). specialize (HP w).
  destruct (m w) as [[a|e] w']; simpl in *; [|done].
  etrans; [exact Hm|]. apply Hf; [by apply HP|]. by eapply change_stays.
Qed.
Lemma M_pres_catch {A} (m : M S A) h :
  pres R m → (∀ e, pres R (h e)) → pres R (catch m h).
Proof.
  intros Hm Hh w Hw. unfold catch, M_catch. specialize (Hm w Hw).
  destruct (m w) as [[a|e] w']; simpl in *; [done|].
  etrans; [exact Hm|]. apply Hh. by eapply change_stays.
Qed.
Lemma M_pres_finally {A} (m : M S A) f : pres R m → pres R f → pres R (finally m f).
Proof.
  intros Hm Hf w Hw. unfold finally, M_finally. specialize (Hm w Hw). destruct (m w) as [r w'].
  specialize (Hf w' (change_stays _ _ Hm)).
  destruct (f w') as [[|] w'']; simpl in *; (etrans; [exact Hm|done]).
Qed.
Lemma M_knows_bind {A B} (P : A → Prop) (Q : B → Prop) (m : M S A) (f : A → M S B) :
  pres R m → knows R P m → (∀ a, P a → knows R Q (f a)) → knows R Q (m ≫= f).
Proof.
  intros Hp Hm Hf w b Hw. unfold mbind, M_bind. specialize (Hm w). specialize (Hp w Hw).
  destruct (m w) as [[a|e] w']; simpl in *; [|done]. apply Hf; [by apply Hm|]. by eapply change_stays.
Qed.
Lemma M_knows_catch {A} (P : A → Prop) (m : M S A) h :
  pres R m → knows R P m → (∀ e, knows R P (h e)) → knows R P (catch m h).
Proof.
  intros Hp Hm Hh w a Hw. unfold catch, M_catch. specialize (Hm w). specialize (Hp w Hw).
  destruct (m w) as [[a'|e] w']; [by apply Hm|]. apply Hh. by eapply change_stays.
Qed.
End M_rules.

#[global] Instance M_rules {S} : EffectRules S (M S).
Proof.
  split; intros.
  1-6: by apply M_pres_pure.
  - intros w Hw. by apply H.
  - by eapply M_pres_bind.
  - by apply M_pres_catch.
  - by apply M_pres_finally.
  - done.
  - done.
  - by intros w a _.
  - intros w a Hw Ha. by eapply H, H0.
  - intros w a _. by apply H.
  - by intros w a' _ [= <-].
  - by intros w a.
  - intros w a _ Ha. auto.
  - intros w a Hw [= <-]. auto.
  - intros w a _ [= <-]. auto.
  - by eapply M_knows_bind.
  - by eapply M_knows_catch.
  - done.
Qed.

Section rules.
Context {S : Type} {m : Type → Type} `{EffectRules S m}.

#[global] Instance change_any : Change (λ _ _ : S, True).
Proof. by split. Qed.
Lemma returns_bind_with {A B} (P : A → Prop) (Q : B → Prop) (x : m A) (f : A → m B) :
  returns P x → (∀ a, P a → returns Q (f a)) → returns Q (x ≫= f).
Proof. apply knows_bind; [apply _|apply rule_True]. Qed.
Lemma returns_bind {A B} (P : B → Prop) (x : m A) (f : A → m B) :
  (∀ a, returns P (f a)) → returns P (x ≫= f).
Proof. intros Hf. eapply returns_bind_with; [apply knows_True|]. auto. Qed.
Lemma returns_lift_bind {A B} (P : B → Prop) (r : result A) (f : A → m B) :
  (∀ a, r = Ok a → returns P (f a)) → returns P (lift r ≫= f).
Proof. intros Hf. eapply (returns_bind_with (λ a, r = Ok a)); [by apply knows_lift|]. auto. Qed.
Lemma returns_ask_bind {A B} `{!Ed25519} `{!E2E} `{!Env} (P : B → Prop) (g : Outcome → A) (f : A → m B) :
  (∀ j, returns P (f (g (outcome j)))) → returns P (ask g ≫= f).
Proof.
  intros Hf. eapply (returns_bind_with (λ a, ∃ j, a = g (outcome j))).
  - apply knows_interact. by eexists.
  - by intros a [j ->].
Qed.
Lemma returns_recv_bind {B} `{!Ed25519} `{!E2E} `{!Env} (P : B → Prop) w (f : bytes → m B) :
  (∀ j raw, o_recv (outcome j) = Ok raw → returns P (f raw)) → returns P (ws_recv w ≫= f).
Proof.
  intros Hf. apply (returns_bind_with (λ raw, ∃ j, o_recv (outcome j) = Ok raw)).
  - unfold ws_recv, ask_result. apply knows_await, returns_ask_bind. intros j.
    apply knows_lift. eauto.
  - intros raw [j Hj]. by eapply Hf.
Qed.
Lemma returns_catch {A} (P : A → Prop) (x : m A) h :
  returns P x → (∀ e, returns P (h e)) → returns P (catch x h).
Proof. apply knows_catch; [apply _|apply rule_True]. Qed.

Context (R : relation S) `{!Change R}.

Lemma pres_ret {A} (a : A) : pres R (mret a).
Proof. by apply rule_ret. Qed.
Lemma pres_throw {A} e : pres R (throw (A:=A) e).
Proof. by apply rule_throw. Qed.
Lemma pres_lift {A} (r : result A) : pres R (lift r).
Proof. by apply rule_lift. Qed.
Lemma pres_gets {A} (f : S → A) : pres R (gets f).
Proof. by apply rule_gets. Qed.
Lemma pres_emit e : pres R (emit e).
Proof. by apply rule_emit. Qed.
Lemma pres_modify f : (∀ s, R s s → R s (f s)) → pres R (modify f).
Proof. by apply rule_modify. Qed.
Lemma pres_await {A} (x : m A) : pres R x → pres R (await x).
Proof. by apply rule_await. Qed.
Lemma pres_bind_knows {A B} (P : A → Prop) (x : m A) (f : A → m B) :
  pres R x → knows R P x → (∀ a, P a → pres R (f a)) → pres R (x ≫= f).
Proof. by apply rule_bind. Qed.
Lemma pres_bind_returns {A B} (P : A → Prop) (x : m A) (f : A → m B) :
  pres R x → returns P x → (∀ a, P a → pres R (f a)) → pres R (x ≫= f).
Proof. intros Hx HP. eapply pres_bind_knows; [done|by apply knows_anyway]. Qed.
Lemma pres_bind {A B} (x : m A) (f : A → m B) :
  pres R x → (∀ a, pres R (f a)) → pres R (x ≫= f).
Proof. intros Hx Hf. eapply pres_bind_knows; [done|apply knows_True|auto]. Qed.
Lemma pres_lift_bind {A B} (r : result A) (f : A → m B) :
  (∀ a, r = Ok a → pres R (f a)) → pres R (lift r ≫= f).
Proof.
  intros Hf. apply (pres_bind_knows (λ a, r = Ok a)); [apply pres_lift|by apply knows_lift|done].
Qed.
Lemma pres_catch {A} (x : m A) h :
  pres R x → (∀ e, pres R (h e)) → pres R (catch x h).
Proof. by apply rule_catch. Qed.
Lemma pres_finally {A} (x : m A) f : pres R x → pres R f → pres R (finally x f).
Proof. by apply rule_finally. Qed.
Lemma pres_for_each {A} (l : list A) body :
  (∀ x, pres R (body x)) → pres R (for_each l body).
Proof.
  intros Hb. induction l as [|x l IH]; simpl; [apply pres_ret|].
  apply pres_bind; eauto.
Qed.

Context `{!Ed25519} `{!E2E} `{!Env}.

Lemma pres_ask {A} (f : Outcome → A) : pres R (ask f).
Proof. by apply rule_interact. Qed.
Lemma pres_ask_result {A} (f : Outcome → result A) : pres R (ask_result f).
Proof. apply pres_bind; [apply pres_ask|]. intros; apply pres_lift. Qed.
Lemma pres_ws_send ws data : pres R (ws_send ws data).
Proof. apply pres_await, pres_bind; [apply pres_ask_result|]. intros; apply pres_emit. Qed.
Lemma pres_ws_connect uri : pres R (ws_connect uri).
Proof.
  apply pres_await, pres_bind; [apply pres_ask_result|]. intros.
  apply pres_bind; [apply pres_emit|]. intros; apply pres_ret.
Qed.
Lemma pres_ws_recv ws : pres R (ws_recv ws).
Proof. apply pres_await, pres_ask_result. Qed.
Lemma pres_ws_close ws : pres R (ws_close ws).
Proof. apply pres_await, pres_emit. Qed.
Lemma pres_time : pres R time.
Proof. apply pres_ask. Qed.
Lemma pres_uuid4 : pres R uuid4.
Proof. apply pres_ask. Qed.
Lemma pres_urandom n : pres R (urandom n).
Proof. apply pres_ask. Qed.
Lemma pres_sample {A} k (l : list A) : pres R (sample k l).
Proof.
  revert l. induction k as [|k IH]; intros [|x l]; simpl; try apply pres_ret.
  apply pres_bind; [apply pres_ask|]. intros i. case_match; [|apply pres_ret].
  apply pres_bind; [apply IH|]. intros; apply pres_ret.
Qed.
End rules.

Section runs.
Context `{!Ed25519} `{!E2E} `{!Env} {S : Type}.

Lemma askE {A} (f : Outcome → A) (w : World S) :
  ask (m:=M S) f w =
  (Ok (f (outcome (w_tick w))), mkWorld (Datatypes.S (w_tick w)) (w_trace w) (w_st w)).
Proof. done. Qed.

Lemma run_ws_send ws data (w : World S) :
  o_send (outcome (w_tick w)) = Ok () →
  ws_send ws data w =
  (Ok (), mkWorld (Datatypes.S (w_tick w)) (w_trace w ++ [IoSend ws data]) (w_st w)).
Proof.
  intros Hs. unfold ws_send, await, M_await, ask_result, mbind, M_bind, ask, interact, M_interact.
  simpl. by rewrite Hs.
Qed.
Lemma run_ws_recv ws (w : World S) :
  ws_recv ws w =
  (o_recv (outcome (w_tick w)), mkWorld (Datatypes.S (w_tick w)) (w_trace w) (w_st w)).
Proof. done. Qed.
End runs.

(** [now] is what the clock shows at some instant of a run from [w] to [w']. *)
Definition clock_between `{!Ed25519} `{!E2E} `{!Env} (a b : nat) (now : Z) : Prop :=
  ∃ j, a ≤ j < b ∧ now = o_time (outcome j).
Abbreviation clock_during w w' := (clock_between (w_tick w) (w_tick w')).

Create HintDb grows discriminated.

(** *** What a run adds to the trace *)

Section grows.
Context `{!Ed25519} `{!E2E} `{!Env} {S : Type}.
Implicit Types (w : World S).

Definition grows {A} (x : M S A) : Prop := ∀ w, ∃ l, w_trace (x w).2 = w_trace w ++ l.

Lemma grows_silent {A} (x : M S A) : (∀ w, w_trace (x w).2 = w_trace w) → grows x.
Proof. intros Hx w. exists []. by rewrite Hx, app_nil_r. Qed.
Lemma grows_bind {A B} (x : M S A) (f : A → M S B) : grows x → (∀ a, grows (f a)) → grows (x ≫= f).
Proof.
  intros Hx Hf w. unfold mbind, M_bind. destruct (Hx w) as [l Hl].
  destruct (x w) as [[a|e] w']; simpl in *; [|by exists l].
  destruct (Hf a w') as [l' Hl']. exists (l ++ l'). by rewrite Hl', Hl, (assoc (++)).
Qed.
Lemma grows_ret {A} (a : A) : grows (mret a).
Proof. by apply grows_silent. Qed.
Lemma grows_throw {A} e : grows (throw (A:=A) e).
Proof. by apply grows_silent. Qed.
Lemma grows_lift {A} (r : result A) : grows (lift r).
Proof. by apply grows_silent. Qed.
Lemma grows_ask {A} (f : Outcome → A) : grows (ask f).
Proof. by apply grows_silent. Qed.
Lemma grows_ws_send s d : grows (ws_send s d).
Proof.
  intros w. unfold ws_send, ask_result. rewrite awaitE, !bindE, askE, liftE.
  destruct (o_send _) as [[]|e]; [by exists [IoSend s d]|]. exists []. by rewrite app_nil_r.
Qed.
Lemma grows_ws_recv s : grows (ws_recv s).
Proof. by apply grows_silent. Qed.

(** The frames that a run has written on a socket, in order. *)
Definition frames_on (s : socket) : list io → list bytes :=
  omap (λ x, match x with IoSend s' d => if decide (s' = s) then Some d else None | _ => None end).
Lemma frames_on_cons s d l : frames_on s (IoSend s d :: l) = d :: frames_on s l.
Proof. cbn. by rewrite decide_True. Qed.
Definition written {A} (s : socket) (x : M S A) w : list bytes :=
  frames_on s (drop (length (w_trace w)) (w_trace (x w).2)).
Lemma written_app {A} s (x : M S A) w l :
  w_trace (x w).2 = w_trace w ++ l → written s x w = frames_on s l.
Proof. intros Hx. unfold written. by rewrite Hx, drop_app_length. Qed.
End grows.
#[export] Hint Resolve grows_ret grows_throw grows_lift grows_ask grows_ws_send grows_ws_recv : grows.
Ltac grows_auto := repeat first
  [ solve [eauto with grows] | case_decide | case_match | apply grows_bind; [|intros ?] ].

(** Evaluate a run: one effect after the other, as far as it is determined. *)
Ltac run_simpl :=
  repeat (rewrite ?bindE, ?catchE, ?retE, ?throwE, ?liftE, ?getsE, ?modifyE, ?emitE, ?awaitE, ?askE;
          cbn [fst snd w_tick w_trace w_st]).

Create HintDb pres discriminated.
#[export] Hint Resolve pres_await pres_ret pres_throw pres_lift pres_gets pres_emit pres_modify
  pres_ask pres_ask_result pres_ws_send pres_ws_connect pres_ws_recv
  pres_ws_close pres_time pres_uuid4 pres_urandom pres_sample : pres.

(** Decompose a computation along binds, handlers, loops and case splits, and
    close the primitive steps with the [pres] database. *)
Ltac pres_step :=
  lazymatch goal with
  | |- pres _ (_ ≫= _) => apply pres_bind; [apply _| |intros ?]
  | |- pres _ (catch _ _) => apply pres_catch; [apply _| |intros ?]
  | |- pres _ (finally _ _) => apply pres_finally; [apply _| |]
  | |- pres _ (await _) => apply pres_await; [apply _|]
  | |- pres _ (for_each _ _) => apply pres_for_each; [apply _|intros ?]
  | |- pres _ (if ?b then _ else _) => destruct b
  | |- pres _ (match ?x with _ => _ end) => destruct x
  | |- pres _ (let _ := _ in _) => cbv zeta
  | |- ∀ _, _ => intros ?
  end.
Ltac pres_auto := repeat first [solve [eauto with pres typeclass_instances] | pres_step].

(** Inversion of a run that returns. *)
Lemma bind_Ok_inv {S A B} (m : M S A) (f : A → M S B) w b w' :
  (m ≫= f) w = (Ok b, w') → ∃ a w1, m w = (Ok a, w1) ∧ f a w1 = (Ok b, w').
Proof. unfold mbind, M_bind. destruct (m w) as [[a|e] w1]; [eauto|done]. Qed.
Lemma lift_bind_Ok_inv {S A B} (r : result A) (f : A → M S B) w b w' :
  (lift r ≫= f) w = (Ok b, w') → ∃ a, r = Ok a ∧ f a w = (Ok b, w').
Proof. intros (a & w1 & [= -> <-] & ?)%bind_Ok_inv. eauto. Qed.

Section inversion.
Context `{!Ed25519} `{!E2E} `{!Env}.

Lemma ws_send_Ok_inv {S} ws data (w : World S) u w' :
  ws_send ws data w = (Ok u, w') →
  o_send (outcome (w_tick w)) = Ok () ∧
  w' = mkWorld (Datatypes.S (w_tick w)) (w_trace w ++ [IoSend ws data]) (w_st w).
Proof.
  unfold ws_send, await, M_await, ask_result, mbind, M_bind, ask, interact, M_interact. simpl.
  destruct (o_send _) as [[]|e]; [|done]. by intros [= _ <-].
Qed.
Lemma ws_recv_Ok_inv {S} ws (w : World S) raw w' :
  ws_recv ws w = (Ok raw, w') →
  o_recv (outcome (w_tick w)) = Ok raw ∧
  w' = mkWorld (Datatypes.S (w_tick w)) (w_trace w) (w_st w).
Proof. rewrite run_ws_recv. by intros [= -> <-]. Qed.
End inversion.
