(* ===== verification/Resumption.v ===== *)
(** * Resumptions: operations that can be interrupted

    [Res S A] is a computation that stops at every [await] and hands over the
    rest of itself.  The event loop of the program switches between coroutines
    there and nowhere else, so a computation between two of its [await]s is one
    step of the interleaved system of [Interleaving].

    The operations of the node are the same definitions that [M] runs to their
    end; here they are instantiated at [Res], and [complete] - resume until the
    end, with nobody in between - gives back what [M] computes. *)
From S2P Require Import Prelude PyVal Interfaces Effects.

Inductive Res (S A : Type) : Type :=
  mkRes { resume : World S → (result A + Res S A) * World S }.
Arguments mkRes {S A}.
Arguments resume {S A}.

(** A computation that ends at once, and one that first hands over. *)
Definition atomic {S A} (f : World S → result A * World S) : Res S A :=
  mkRes (λ w, prod_map inl id (f w)).
Definition suspended {S A} (m : Res S A) : Res S A := mkRes (λ w, (inr m, w)).

#[global] Instance Res_ret {S} : MRet (Res S) := λ A a, atomic (λ w, (Ok a, w)).
#[global] Instance Res_throw {S} : MThrow (Res S) := λ A e, atomic (λ w, (Raise e, w)).
#[global] Instance Res_lift {S} : MLift (Res S) := λ A r, atomic (λ w, (r, w)).
#[global] Instance Res_gets {S} : MGets S (Res S) := λ A f, atomic (gets f).
#[global] Instance Res_modify {S} : MModify S (Res S) := λ f, atomic (modify f).
#[global] Instance Res_emit {S} : MEmit S (Res S) := λ e, atomic (emit e).
#[global] Instance Res_interact {S} : MInteract S (Res S) := λ A f, atomic (interact f).

(** What becomes of a computation that is continued by [k]. *)
Fixpoint res_then {S A B} (k : result A → Res S B) (m : Res S A) : Res S B :=
  mkRes (λ w,
    match resume m w with
    | (inl r, w') => resume (k r) w'
    | (inr m', w') => (inr (res_then k m'), w')
    end).

#[global] Instance Res_bind {S} : MBind (Res S) := λ A B f,
  res_then (λ r, match r with Ok a => f a | Raise e => throw e end).
#[global] Instance Res_catch {S} : MCatch (Res S) := λ A m h,
  res_then (λ r, match r with Ok a => mret a | Raise e => h e end) m.
#[global] Instance Res_finally {S} : MFinally (Res S) := λ A m f,
  res_then (λ r, res_then (λ r', match r' with Ok _ => lift r | Raise e => throw e end) f) m.
(** Others may run before [m], and before its result arrives. *)
#[global] Instance Res_await {S} : MAwait (Res S) := λ A m,
  suspended (res_then (λ r, suspended (lift r)) m).

(** ** The rules of change *)

#[global] Instance Res_pres {S} : MPres S (Res S) := λ A R,
  fix go (m : Res S A) : Prop := ∀ w, R (w_st w) (w_st w) →
    R (w_st w) (w_st (resume m w).2) ∧
    match (resume m w).1 with inl _ => True | inr m' => go m' end.
#[global] Instance Res_knows {S} : MKnows S (Res S) := λ A R P,
  fix go (m : Res S A) : Prop := ∀ w, R (w_st w) (w_st w) →
    match (resume m w).1 with
    | inl (Ok a) => P a
    | inl (Raise _) => True
    | inr m' => go m'
    end.

(** Induction over the stages of a computation. *)
Fixpoint Res_ind' {S A} (P : Res S A → Prop)
    (IH : ∀ m, (∀ w m' w', resume m w = (inr m', w') → P m') → P m) (m : Res S A) : P m.
Proof.
  apply IH. destruct m as [f]. intros w m' w'. cbn [resume].
  destruct (f w) as [[r|m''] w'']; intros [= <- <-]. apply Res_ind', IH.
Defined.

Section rules.
Context {S : Type}.

Lemma pres_unfold {A} (R : relation S) (m : Res S A) :
  pres R m ↔ ∀ w, R (w_st w) (w_st w) → R (w_st w) (w_st (resume m w).2) ∧
    match (resume m w).1 with inl _ => True | inr m' => pres R m' end.
Proof. by destruct m. Qed.
Lemma knows_unfold {A} R (P : A → Prop) (m : Res S A) :
  knows R P m ↔ ∀ w, R (w_st w) (w_st w) → match (resume m w).1 with
    | inl (Ok a) => P a | inl (Raise _) => True | inr m' => knows R P m' end.
Proof. by destruct m. Qed.

Lemma resume_then {A B} (k : result A → Res S B) m w :
  resume (res_then k m) w =
  match resume m w with
  | (inl r, w') => resume (k r) w'
  | (inr m', w') => (inr (res_then k m'), w')
  end.
Proof. by destruct m. Qed.

(** What the final result of a computation satisfies, exceptions included. *)
Definition ends {A} (R : relation S) (P : result A → Prop) : Res S A → Prop :=
  fix go m := ∀ w, R (w_st w) (w_st w) →
    match (resume m w).1 with inl r => P r | inr m' => go m' end.
Lemma ends_unfold {A} R (P : result A → Prop) m :
  ends R P m ↔ ∀ w, R (w_st w) (w_st w) →
    match (resume m w).1 with inl r => P r | inr m' => ends R P m' end.
Proof. by destruct m. Qed.

Lemma pres_then {A B} (R : relation S) `{!Change R} P (k : result A → Res S B) m :
  pres R m → ends R P m → (∀ r, P r → pres R (k r)) → pres R (res_then k m).
Proof.
  intros Hm HP Hk. induction m as [m IH] using Res_ind'.
  rewrite pres_unfold in Hm. rewrite ends_unfold in HP.
  apply pres_unfold. intros w Hin. rewrite resume_then.
  specialize (Hm w Hin) as [Hw Hm]. specialize (HP w Hin).
  destruct (resume m w) as [[r|m'] w'] eqn:E; simpl in *.
  - specialize (Hk r HP). rewrite pres_unfold in Hk.
    destruct (Hk w' (change_stays _ _ Hw)). split; [etrans; [exact Hw|done]|done].
  - split; [done|]. by eapply IH.
Qed.

Lemma knows_then {A B} (R : relation S) `{!Change R} P (Q : B → Prop) (k : result A → Res S B) m :
  pres R m → ends R P m → (∀ r, P r → knows R Q (k r)) → knows R Q (res_then k m).
Proof.
  intros Hm HP Hk. induction m as [m IH] using Res_ind'.
  rewrite pres_unfold in Hm. rewrite ends_unfold in HP.
  apply knows_unfold. intros w Hin. rewrite resume_then.
  specialize (Hm w Hin) as [Hw Hm]. specialize (HP w Hin).
  destruct (resume m w) as [[r|m'] w'] eqn:E; simpl in *; [|by eapply IH].
  specialize (Hk r HP). rewrite knows_unfold in Hk. by apply Hk, (change_stays (w_st w)).
Qed.

Lemma ends_True {A} R (m : Res S A) : ends R (λ _, True) m.
Proof.
  induction m as [m IH] using Res_ind'. apply ends_unfold. intros w _.
  destruct (resume m w) as [[r|m'] w'] eqn:E; simpl; eauto.
Qed.
Lemma ends_knows {A} R (P : A → Prop) (m : Res S A) :
  knows R P m → ends R (λ r, match r with Ok a => P a | Raise _ => True end) m.
Proof.
  induction m as [m IH] using Res_ind'. rewrite knows_unfold. intros H.
  apply ends_unfold. intros w Hw. specialize (H w Hw).
  destruct (resume m w) as [[[]|m'] w'] eqn:E; simpl in *; eauto.
Qed.
Lemma knows_ends {A} R (P : A → Prop) (m : Res S A) :
  ends R (λ r, match r with Ok a => P a | Raise _ => True end) m → knows R P m.
Proof.
  induction m as [m IH] using Res_ind'. rewrite ends_unfold. intros H.
  apply knows_unfold. intros w Hw. specialize (H w Hw).
  destruct (resume m w) as [[[]|m'] w'] eqn:E; simpl in *; eauto.
Qed.
(** Where less is known of the states, less is known of the result. *)
Lemma ends_mono {A} (R R' : relation S) (P : result A → Prop) (m : Res S A) :
  (∀ s, R s s → R' s s) → ends R' P m → ends R P m.
Proof.
  intros HR. induction m as [m IH] using Res_ind'. rewrite !ends_unfold. intros H w Hw.
  specialize (H w (HR _ Hw)). destruct (resume m w) as [[r|m'] w'] eqn:E; simpl in *; eauto.
Qed.

Lemma pres_atomic {A} (R : relation S) (f : World S → result A * World S) :
  (∀ w, R (w_st w) (w_st w) → R (w_st w) (w_st (f w).2)) → pres R (atomic f).
Proof. intros Hf. apply pres_unfold. intros w Hw. split; [by apply Hf|done]. Qed.
Lemma pres_suspended {A} (R : relation S) (m : Res S A) : pres R m → pres R (suspended m).
Proof. intros Hm. apply pres_unfold. by intros w Hw. Qed.
Lemma pres_all {A} (m : Res S A) : pres (λ _ _, True) m.
Proof.
  induction m as [m IH] using Res_ind'. apply pres_unfold. intros w _. split; [done|].
  destruct (resume m w) as [[r|m'] w'] eqn:E; simpl; eauto.
Qed.
Lemma knows_all {A} R (m : Res S A) : knows R (λ _, True) m.
Proof.
  induction m as [m IH] using Res_ind'. apply knows_unfold. intros w _.
  destruct (resume m w) as [[[]|m'] w'] eqn:E; simpl; eauto.
Qed.
(** What is handed over is what was returned. *)
Lemma knows_lifted {A} R (P : A → Prop) (m : Res S A) :
  knows R P m → knows R P (res_then (λ r, suspended (lift r)) m).
Proof.
  induction m as [m IH] using Res_ind'. rewrite knows_unfold. intros H.
  apply knows_unfold. intros w Hw. rewrite resume_then. specialize (H w Hw).
  destruct (resume m w) as [[[a|e]|m'] w'] eqn:E; simpl in *; [by intros ??..|by eapply IH].
Qed.

#[global] Instance Res_rules : EffectRules S (Res S).
Proof.
  split; intros.
  1-6: by apply pres_atomic.
  - apply pres_atomic. intros w Hw. by apply H.
  - eapply pres_then; [done|done|by apply ends_knows|].
    intros [a|e]; [auto|]. intros _. by apply pres_atomic.
  - eapply pres_then; [done|done|apply ends_True|]. intros [a|e] _; [by apply pres_atomic|auto].
  - eapply pres_then; [done|done|apply ends_True|]. intros r _.
    eapply pres_then; [done|done|apply ends_True|]. intros [] _; by apply pres_atomic.
  - apply pres_suspended. eapply pres_then; [done|done|apply ends_True|].
    intros r _. apply pres_suspended. by apply pres_atomic.
  - apply pres_all.
  - apply knows_all.
  - induction x as [m IH] using Res_ind'. rewrite knows_unfold in *. intros w Hw.
    specialize (H0 w Hw). destruct (resume m w) as [[[]|m'] w'] eqn:E; simpl in *; eauto.
  - apply knows_ends. eapply (ends_mono R (λ _ _, True)); [by intros|]. by apply ends_knows.
  - by apply knows_unfold.
  - by apply knows_unfold.
  - apply knows_unfold. intros w _. simpl. destruct r; auto.
  - apply knows_unfold. intros w Hw. simpl. auto.
  - apply knows_unfold. intros w _. simpl. auto.
  - eapply knows_then; [done|done|by apply ends_knows|]. intros [a|e]; [auto|].
    intros _. by apply knows_unfold.
  - eapply knows_then; [done|done|by apply ends_knows|]. intros [a|e]; [|auto].
    intros ?. by apply knows_unfold.
  - apply knows_unfold. intros w _. simpl. by apply knows_lifted.
Qed.
End rules.

(** ** Running without interruption *)

Fixpoint complete {S A} (m : Res S A) : M S A := λ w,
  match resume m w with
  | (inl r, w') => (r, w')
  | (inr m', w') => complete m' w'
  end.

(** [x] is what [y] computes when nobody interrupts it. *)
Definition same {S A} (x : M S A) (y : Res S A) : Prop := ∀ w, complete y w = x w.

Section same.
Context {S : Type}.

Lemma complete_unfold {A} (m : Res S A) w :
  complete m w = match resume m w with (inl r, w') => (r, w') | (inr m', w') => complete m' w' end.
Proof. by destruct m. Qed.

Lemma complete_then {A B} (k : result A → Res S B) m w :
  complete (res_then k m) w = (let '(r, w') := complete m w in complete (k r) w').
Proof.
  revert w. induction m as [m IH] using Res_ind'. intros w.
  rewrite complete_unfold, resume_then, (complete_unfold m).
  destruct (resume m w) as [[r|m'] w'] eqn:E; [by rewrite complete_unfold|]. by eapply IH.
Qed.
Lemma complete_atomic {A} (f : World S → result A * World S) w : complete (atomic f) w = f w.
Proof. simpl. by destruct (f w). Qed.

Lemma same_ret {A} (a : A) : same (S:=S) (mret a) (mret a).
Proof. intros w. apply complete_atomic. Qed.
Lemma same_throw {A} e : same (S:=S) (throw (A:=A) e) (throw e).
Proof. intros w. apply complete_atomic. Qed.
Lemma same_lift {A} (r : result A) : same (S:=S) (lift r) (lift r).
Proof. intros w. apply complete_atomic. Qed.
Lemma same_gets {A} (f : S → A) : same (gets f) (gets f).
Proof. intros w. apply complete_atomic. Qed.
Lemma same_modify (f : S → S) : same (modify f) (modify f).
Proof. intros w. apply complete_atomic. Qed.
Lemma same_emit e : same (S:=S) (emit e) (emit e).
Proof. intros w. apply complete_atomic. Qed.
Lemma same_interact {A} (f : nat → A) : same (S:=S) (interact f) (interact f).
Proof. intros w. apply complete_atomic. Qed.
Lemma same_bind {A B} (x : M S A) y (f : A → M S B) g :
  same x y → (∀ a, same (f a) (g a)) → same (x ≫= f) (y ≫= g).
Proof.
  intros Hx Hf w. unfold mbind, Res_bind. rewrite complete_then, Hx.
  unfold M_bind. destruct (x w) as [[a|e] w']; [apply Hf|apply complete_atomic].
Qed.
Lemma same_catch {A} (x : M S A) y h h' :
  same x y → (∀ e, same (h e) (h' e)) → same (catch x h) (catch y h').
Proof.
  intros Hx Hh w. unfold catch, Res_catch. rewrite complete_then, Hx.
  unfold M_catch. destruct (x w) as [[a|e] w']; [apply complete_atomic|apply Hh].
Qed.
Lemma same_finally {A} (x : M S A) y f g :
  same x y → same f g → same (finally x f) (finally y g).
Proof.
  intros Hx Hf w. unfold finally, Res_finally. rewrite complete_then, Hx.
  unfold M_finally. destruct (x w) as [r w'].
  rewrite complete_then, Hf. destruct (f w') as [[[]|e] w'']; apply complete_atomic.
Qed.
Lemma same_await {A} (x : M S A) y : same x y → same (await x) (await y).
Proof.
  intros Hx w. unfold await, Res_await, suspended. rewrite complete_unfold. simpl.
  rewrite complete_then, Hx. unfold M_await. destruct (x w) as [r w'].
  rewrite complete_unfold. done.
Qed.
Lemma same_for_each {A} (l : list A) body body' :
  (∀ a, same (body a) (body' a)) → same (S:=S) (for_each l body) (for_each l body').
Proof.
  intros Hb. induction l as [|a l IH]; simpl; [apply same_ret|]. apply same_bind; auto.
Qed.
End same.

(** Both sides are the same operation: go through it step by step. *)
Create HintDb same discriminated.
#[export] Hint Resolve same_ret same_throw same_lift same_gets same_modify same_emit
  same_interact : same.
Ltac same_step :=
  lazymatch goal with
  | |- same (_ ≫= _) (_ ≫= _) => apply same_bind; [|intros ?]
  | |- same (catch _ _) (catch _ _) => apply same_catch; [|intros ?]
  | |- same (finally _ _) (finally _ _) => apply same_finally
  | |- same (await _) (await _) => apply same_await
  | |- same (for_each _ _) (for_each _ _) => apply same_for_each; intros ?
  | |- same (if ?b then _ else _) _ => destruct b
  | |- same (match ?x with _ => _ end) _ => destruct x
  | |- same (let _ := _ in _) _ => cbv zeta
  end.
Ltac same_auto := repeat first [solve [eauto with same] | same_step].

Section same_io.
Context `{!Ed25519} `{!E2E} `{!Env} {S : Type}.

Lemma same_ask {A} (f : Outcome → A) : same (S:=S) (ask f) (ask f).
Proof. apply same_interact. Qed.
Lemma same_ask_result {A} (f : Outcome → result A) : same (S:=S) (ask_result f) (ask_result f).
Proof. unfold ask_result. same_auto. Qed.
#[local] Hint Resolve same_ask same_ask_result : same.
Lemma same_time : same (S:=S) time time.
Proof. apply same_ask. Qed.
Lemma same_uuid4 : same (S:=S) uuid4 uuid4.
Proof. apply same_ask. Qed.
Lemma same_urandom n : same (S:=S) (urandom n) (urandom n).
Proof. apply same_ask. Qed.
Lemma same_ws_send s d : same (S:=S) (ws_send s d) (ws_send s d).
Proof. unfold ws_send. same_auto. Qed.
Lemma same_ws_recv s : same (S:=S) (ws_recv s) (ws_recv s).
Proof. unfold ws_recv. same_auto. Qed.
Lemma same_ws_close s : same (S:=S) (ws_close s) (ws_close s).
Proof. unfold ws_close. same_auto. Qed.
Lemma same_ws_connect u : same (S:=S) (ws_connect u) (ws_connect u).
Proof. unfold ws_connect. same_auto. Qed.
Lemma same_sample {A} k (l : list A) : same (S:=S) (sample k l) (sample k l).
Proof.
  revert l. induction k as [|k IH]; intros [|x l]; cbn [sample]; try apply same_ret.
  apply same_bind; [apply same_ask|intros i]. destruct (_ !! _); [|apply same_ret].
  apply same_bind; [apply IH|intros; apply same_ret].
Qed.
End same_io.
#[export] Hint Resolve same_ask same_ask_result same_time same_uuid4 same_urandom same_ws_send
  same_ws_recv same_ws_close same_ws_connect same_sample : same.
