(* ===== verification/Tasks.v ===== *)
(** * Tasks that take turns

    An event loop, for any object: the object's state is shared by the tasks that
    have begun, each of which serves an event and goes on, when it is resumed, up
    to its next [await].  [Interleaving] uses it for the node and [Sessions] for
    the client. *)
From stdpp Require Import relations.
From S2P Require Import Prelude PyVal Effects Resumption.

(** An event that is being served, and what is left of its handler. *)
Record Task (S E : Type) := mkTask { t_event : E; t_rest : Res S unit }.
Arguments mkTask {S E}.
Arguments t_event {S E}.
Arguments t_rest {S E}.
Record Config (S E : Type) := mkConfig { cf_world : World S; cf_tasks : list (Task S E) }.
Arguments mkConfig {S E}.
Arguments cf_world {S E}.
Arguments cf_tasks {S E}.

Section tasks.
Context {S E : Type}.
Implicit Types (T : list (Task S E)) (c : Config S E).

(** A task that has begun goes on. *)
Inductive progress : relation (Config S E) :=
  | progress_await e m m' T1 T2 w w' :
      resume m w = (inr m', w') →
      progress (mkConfig w (T1 ++ mkTask e m :: T2)) (mkConfig w' (T1 ++ mkTask e m' :: T2))
  | progress_end e m r T1 T2 w w' :
      resume m w = (inl r, w') →
      progress (mkConfig w (T1 ++ mkTask e m :: T2)) (mkConfig w' (T1 ++ T2)).

(** ** Executing a schedule *)

(** Resume the [i]-th task. *)
Definition run_task (i : nat) (c : Config S E) : option (Config S E) :=
  match cf_tasks c !! i with
  | None => None
  | Some (mkTask e m) =>
      let T1 := take i (cf_tasks c) in
      let T2 := drop (Datatypes.S i) (cf_tasks c) in
      match resume m (cf_world c) with
      | (inr m', w') => Some (mkConfig w' (T1 ++ mkTask e m' :: T2))
      | (inl _, w') => Some (mkConfig w' (T1 ++ T2))
      end
  end.

(** Resume the tasks in the order given. *)
Fixpoint run_schedule (l : list nat) (c : Config S E) : option (Config S E) :=
  match l with
  | [] => Some c
  | i :: l => c' ← run_task i c; run_schedule l c'
  end.

Lemma run_task_progress i c c' : run_task i c = Some c' → progress c c'.
Proof.
  destruct c as [w T]. unfold run_task. simpl.
  destruct (T !! i) as [[e m]|] eqn:Hi; [|done].
  apply take_drop_middle in Hi. intros Hr. rewrite <-Hi. revert Hr.
  destruct (resume m w) as [[r|m'] w'] eqn:E1; intros [= <-]; by econstructor.
Qed.
Lemma run_schedule_progress l c c' : run_schedule l c = Some c' → rtc progress c c'.
Proof.
  revert c. induction l as [|i l IH]; intros c; cbn [run_schedule]; [by intros [= <-]|].
  destruct (run_task i c) as [c1|] eqn:E1; [|done]. intros Hl.
  eapply rtc_l; [by apply (run_task_progress i)|by apply IH].
Qed.

(** A task that is left alone ends, having computed what it computes in one go. *)
Lemma alone e m T1 T2 w :
  rtc progress (mkConfig w (T1 ++ mkTask e m :: T2)) (mkConfig (complete m w).2 (T1 ++ T2)).
Proof.
  revert w. induction m as [m IH] using Res_ind'. intros w. rewrite complete_unfold.
  destruct (resume m w) as [[r|m'] w'] eqn:E1.
  - by apply rtc_once; econstructor.
  - eapply rtc_l; [by econstructor|]. by eapply IH.
Qed.

(** ** What the tasks may change *)

Section change.
Context (R : relation S) `{!Change R}.

(** The relation describes the state, and all that is left to run. *)
Definition within (c : Config S E) : Prop :=
  R (w_st (cf_world c)) (w_st (cf_world c)) ∧ Forall (λ t, pres R (t_rest t)) (cf_tasks c).

Lemma progress_within c c' : progress c c' → within c →
  within c' ∧ R (w_st (cf_world c)) (w_st (cf_world c')).
Proof.
  unfold within.
  destruct 1 as [e m m' T1 T2 w w' Hr|e m r T1 T2 w w' Hr]; simpl;
    intros (Hin & [HT1 [Hm HT2]%Forall_cons_1]%Forall_app); simpl in Hm;
    rewrite pres_unfold in Hm; specialize (Hm w Hin); rewrite Hr in Hm; destruct Hm as [Hw Hm];
    simpl in *; (split; [split; [by eapply change_stays|]|done]); apply Forall_app; split; try done.
  by constructor.
Qed.
Lemma within_begin e m w T : within (mkConfig w T) → pres R m →
  within (mkConfig w (T ++ [mkTask e m])).
Proof.
  intros [Hin HT] Hm. split; [done|]. apply Forall_app. split; [done|]. by constructor.
Qed.
Lemma within_drop t w T1 T2 : within (mkConfig w (T1 ++ t :: T2)) → within (mkConfig w (T1 ++ T2)).
Proof.
  intros [Hin [HT1 [_ HT2]%Forall_cons_1]%Forall_app]. split; [done|]. by apply Forall_app.
Qed.
End change.

(** What holds of every event under way goes on to hold. *)
Lemma progress_events (P : E → Prop) c c' : progress c c' →
  Forall (λ t, P (t_event t)) (cf_tasks c) → Forall (λ t, P (t_event t)) (cf_tasks c').
Proof.
  destruct 1 as [e m m' T1 T2 w w' _|e m r T1 T2 w w' _]; simpl;
    intros [HT1 [He HT2]%Forall_cons_1]%Forall_app; apply Forall_app; split; try done.
  by constructor.
Qed.
End tasks.

(** ** Tasks come to an end *)

(** A list of computations of which one goes on, or is over. *)
Inductive shorter {S A} : relation (list (Res S A)) :=
  | shorter_await m m' w w' l1 l2 :
      resume m w = (inr m', w') → shorter (l1 ++ m' :: l2) (l1 ++ m :: l2)
  | shorter_end m l1 l2 : shorter (l1 ++ l2) (l1 ++ m :: l2).

Lemma shorter_cons_inv {S A} (l : list (Res S A)) m l' :
  shorter l (m :: l') →
  (∃ m' w w', resume m w = (inr m', w') ∧ l = m' :: l') ∨ l = l' ∨
  (∃ l'', l = m :: l'' ∧ shorter l'' l').
Proof.
  remember (m :: l') as k eqn:Hk.
  destruct 1 as [x x' w w' l1 l2 Hx|x l1 l2]; destruct l1 as [|y l1]; simplify_eq/=; eauto 7.
  - right. right. eexists. split; [done|]. by econstructor.
  - right. right. eexists. split; [done|]. by econstructor.
Qed.

Lemma shorter_wf {S A} : well_founded (shorter (S:=S) (A:=A)).
Proof.
  intros l. induction l as [|m l IHl].
  { constructor. intros l Hl. remember [] as k eqn:Hk. destruct Hl; by destruct l1. }
  revert l IHl. induction m as [m IHm] using Res_ind'. intros l Hl.
  induction Hl as [l Hl IHl]. constructor. intros k Hk.
  apply shorter_cons_inv in Hk as [(m' & w & w' & Hm & ->)|[->|(l' & -> & Hl')]].
  - eapply IHm; [done|by constructor].
  - by constructor.
  - by apply IHl.
Qed.

Lemma progress_wf {S E} : well_founded (flip (progress (S:=S) (E:=E))).
Proof.
  intros c. remember (t_rest <$> cf_tasks c) as l eqn:Hl. revert c Hl.
  induction (shorter_wf l) as [l _ IH]. intros c ->. constructor. intros c' Hp.
  eapply IH; [|done]. destruct Hp; simpl; rewrite !fmap_app, fmap_cons; by econstructor.
Qed.
Lemma progress_exists {S E} (c : Config S E) : cf_tasks c ≠ [] → ∃ c', progress c c'.
Proof.
  destruct c as [w [|[e m] T]]; [done|]. intros _.
  destruct (resume m w) as [[r|m'] w'] eqn:E1; eexists.
  - by apply (progress_end e m r [] T w w').
  - by apply (progress_await e m m' [] T w w').
Qed.
