(* ===== verification/Crypto.v ===== *)
(** * Cryptographic primitives ([node/crypto.py])

    The module's functions over the [cryptography] package's interface:
    signatures as the rest of the program uses them, and the end-to-end
    encryption scheme with one ephemeral key per message. *)
From S2P Require Import Prelude PyVal Interfaces Effects.

Section crypto.
Context `{!Ed25519} `{!E2E} `{!Env}.
Context {S : Type} {m : Type → Type}.
Context `{!MRet m, !MBind m, !MLift m, !MInteract S m}.

Record SigningKeypair := { sk_private : edkey; sk_public : bytes }.
Record EncryptionKeypair := { ek_private : xkey; ek_public : bytes }.

Definition KDF_INFO : bytes := str_encode "nevod-e2e-v1".
Definition NONCE_SIZE : nat := 12.

(** The [cryptography] package checks that what it is given is bytes. *)
Definition as_bytes (v : pyval) : result bytes :=
  match v with VBin b => Ok b | _ => Raise TypeError end.

Definition gen_signing : m SigningKeypair :=
  priv ← ask o_edkey;
  mret {| sk_private := priv; sk_public := ed_public priv |}.

Definition gen_encryption : m EncryptionKeypair :=
  priv ← ask o_xkey;
  mret {| ek_private := priv; ek_public := x_public priv |}.

Definition sign (message : pyval) (signing_key : SigningKeypair) : result bytes :=
  m ← as_bytes message; mret (ed_sign (sk_private signing_key) m).

(** Only [InvalidSignature] is caught. *)
Definition verify (message signature pubkey_bytes : pyval) : result bool :=
  match (pk ← as_bytes pubkey_bytes; key ← ed_load_public pk;
         s ← as_bytes signature; m ← as_bytes message;
         ed_check key s m) with
  | Ok _ => Ok true
  | Raise InvalidSignature => Ok false
  | Raise e => Raise e
  end.

Definition kdf (shared_secret ephemeral_pubkey : bytes) : bytes :=
  hkdf32 ephemeral_pubkey KDF_INFO shared_secret.

(** What [encrypt] returns. *)
Record Encrypted := {
  ephemeral_pubkey : bytes;
  nonce : bytes;
  ciphertext : bytes;
}.

Definition encrypt (plaintext recipient_enc_pubkey : bytes) : m Encrypted :=
  ephemeral ← ask o_xkey;
  recipient ← lift (x_load_public recipient_enc_pubkey);
  shared ← lift (x_exchange ephemeral recipient);
  let key := kdf shared (x_public ephemeral) in
  n ← urandom NONCE_SIZE;
  c ← lift (aead_encrypt key n plaintext);
  mret {| ephemeral_pubkey := x_public ephemeral; nonce := n; ciphertext := c |}.

Definition decrypt (c n ephemeral : bytes) (enc_keypair : EncryptionKeypair)
    : result bytes :=
  ephemeral_pub ← x_load_public ephemeral;
  shared ← x_exchange (ek_private enc_keypair) ephemeral_pub;
  let key := kdf shared ephemeral in
  aead_decrypt key n c.

Definition signing_priv_to_bytes (key : edkey) : bytes := ed_to_bytes key.
Definition signing_priv_from_bytes (b : bytes) : result edkey := ed_of_bytes b.
Definition enc_priv_to_bytes (key : xkey) : bytes := x_to_bytes key.
Definition enc_priv_from_bytes (b : bytes) : result xkey := x_of_bytes b.

(** A key pair whose public half belongs to its private half, as
    [gen_signing] and [gen_encryption] make them. *)
Definition skp_ok (k : SigningKeypair) : Prop := sk_public k = ed_public (sk_private k).
Definition ekp_ok (k : EncryptionKeypair) : Prop := ek_public k = x_public (ek_private k).
End crypto.

(** [os.urandom(n)] returns [n] bytes, [str(uuid.uuid4())] is a short text, and
    the clock fits 63 bits. *)
Class EnvLaws `{!Ed25519} `{!E2E} `{!Env} : Prop := {
  urandom_length i n : length (o_random (outcome i) n) = n;
  uuid4_text i : scalars_ok (VStr (o_uuid (outcome i))) = true;
  time_range i : (0 ≤ o_time (outcome i) < 2^63)%Z;
}.

Section crypto_lemmas.
Context `{!Ed25519} `{!E2E} `{!Env}.

Lemma verify_sign `{!Ed25519Laws} k m s :
  skp_ok k → sign m k = Ok s → verify m (VBin s) (VBin (sk_public k)) = Ok true.
Proof.
  intros Hk. unfold sign, verify. destruct m; try done. intros [= <-]; simpl.
  rewrite Hk. destruct (ed_check_sign (sk_private k)) as (p & -> & Hp). simpl.
  by rewrite Hp.
Qed.

(** What a positive verdict means at the level of the library. *)
Lemma verify_true m s pk :
  verify m s pk = Ok true ↔
  ∃ mb sb pkb key, m = VBin mb ∧ s = VBin sb ∧ pk = VBin pkb ∧
    ed_load_public pkb = Ok key ∧ ed_check key sb mb = Ok ().
Proof.
  unfold verify. split.
  - destruct pk as [| | | | |pkb| | |]; try done. simpl.
    destruct (ed_load_public pkb) as [key|[]] eqn:E; try done. simpl.
    destruct s as [| | | | |sb| | |]; try done. simpl.
    destruct m as [| | | | |mb| | |]; try done. simpl.
    destruct (ed_check key sb mb) as [[]|[]] eqn:E'; try done. eauto 10.
  - intros (mb & sb & pkb & key & -> & -> & -> & Hl & Hc). simpl. by rewrite Hl; simpl; rewrite Hc.
Qed.

Lemma verify_bad_key `{!Ed25519Laws} m s b :
  length b ≠ 32 → verify m s (VBin b) = Raise ValueError.
Proof. intros Hb. unfold verify; simpl. by rewrite ed_load_bad_key. Qed.

(** [decrypt] inverts [encrypt] for the intended recipient. *)
Lemma decrypt_encrypt `{!E2ELaws, !EnvLaws} {S} (w : World S) plaintext kp :
  ekp_ok kp → wp (encrypt plaintext (ek_public kp)) (λ r w',
    w_st w' = w_st w ∧ w_trace w' = w_trace w ∧
    ∃ e, r = Ok e ∧ length (ephemeral_pubkey e) = 32 ∧ length (nonce e) = 12 ∧
      length (ciphertext e) = length plaintext + 16 ∧
      decrypt (ciphertext e) (nonce e) (ephemeral_pubkey e) kp = Ok plaintext) w.
Proof.
  unfold ekp_ok. intros Hk. unfold wp, encrypt, ask, interact, M_interact, urandom, lift, M_lift,
    mbind, M_bind; simpl.
  set (eph := o_xkey _). rewrite Hk.
  destruct (x_exchange_comm eph (ek_private kp)) as (pe & pr & s & Hpe & Hpr & Hx & Hy).
  rewrite Hpr, Hx; simpl. set (n := o_random _ _).
  assert (length n = 12) as Hn by apply urandom_length.
  destruct (aead_roundtrip (kdf s (x_public eph)) n plaintext) as (c & -> & Hc & Hd);
    [apply hkdf32_length|done|].
  split; [done|]. split; [done|]. eexists. split; [done|]. split; [apply x_public_length|].
  split; [done|]. split; [done|].
  unfold decrypt; simpl. by rewrite Hpe; simpl; rewrite Hy.
Qed.
End crypto_lemmas.
