(* ===== verification/Samples.v ===== *)
(** * Concrete instances of the library interfaces

    These instances show that the laws of [Interfaces.v] can hold together, and
    let the witnesses evaluate.  They are not models of the real libraries: the
    codec writes the bits of a countable encoding, the signature carries the
    key and a prefix of the message, and the key agreement adds bytes.  The file
    is required without being imported, so that only a witness that asks for
    the instances sees them. *)
From S2P Require Import Prelude PyVal Interfaces Json Effects Crypto.

(** *** A codec: one tag byte, then fixed-width little-endian numbers *)

Fixpoint le_bytes (k : nat) (n : N) : bytes :=
  match k with
  | 0 => []
  | S k => from_option id "000"%byte (Byte.of_N (n mod 256)) :: le_bytes k (n / 256)
  end.
Fixpoint le_N (b : bytes) : N :=
  match b with [] => 0 | x :: b => Byte.to_N x + 256 * le_N b end%N.

Lemma le_N_bytes k n : (n < 256 ^ N.of_nat k)%N → le_N (le_bytes k n) = n.
Proof.
  revert n. induction k as [|k IH]; intros n Hn; [simpl in *; lia|].
  cbn [le_bytes le_N]. rewrite IH.
  - assert (n mod 256 < 256)%N as Hm by (apply N.mod_lt; lia).
    destruct (Byte.of_N (n mod 256)) as [x|] eqn:E.
    + simpl. apply Byte.to_of_N in E. rewrite E. pose proof (N.div_mod n 256). lia.
    + apply Byte.of_N_None_iff in E. lia.
  - rewrite Nat2N.inj_succ, N.pow_succ_r' in Hn. by apply N.Div0.div_lt_upper_bound.
Qed.
Lemma le_bytes_length k n : length (le_bytes k n) = k.
Proof. revert n. induction k; intros; simpl; auto. Qed.

Definition enc_int (z : Z) : bytes := le_bytes 8 (Z.to_N (z mod 2^64)).
Definition enc_len {A} (l : list A) : bytes := le_bytes 4 (N.of_nat (length l)).
Definition enc_bytes (b : bytes) : bytes := enc_len b ++ b.
Definition enc_key (k : pykey) : bytes :=
  match k with
  | KStr s => "219"%byte :: enc_bytes (str_encode s)
  | KBin b => "198"%byte :: enc_bytes b
  end.

Fixpoint enc (v : pyval) : bytes :=
  match v with
  | VNone => ["192"%byte]
  | VBool b => [if b then "195" else "194"]%byte
  | VInt z => (if decide (z < 2^63)%Z then "211" else "207")%byte :: enc_int z
  | VFloat z => "203"%byte :: enc_int z
  | VStr s => "219"%byte :: enc_bytes (str_encode s)
  | VBin b => "198"%byte :: enc_bytes b
  | VList l => "221"%byte :: enc_len l ++ foldr (λ v b, enc v ++ b) [] l
  | VDict d => "223"%byte :: enc_len d ++ foldr (λ kv b, enc_key kv.1 ++ enc kv.2 ++ b) [] d
  | VExt _ b => "201"%byte :: enc_bytes b
  end.

Definition dec_bytes (b : bytes) : bytes * bytes :=
  let n := N.to_nat (le_N (take 4 b)) in
  (take n (drop 4 b), drop n (drop 4 b)).

Definition dec_key (b : bytes) : option (pykey * bytes) :=
  match b with
  | x :: b =>
      let '(c, rest) := dec_bytes b in
      if decide (x = "219"%byte) then Some (KStr (str_decode c), rest)
      else if decide (x = "198"%byte) then Some (KBin c, rest)
      else None
  | [] => None
  end.

Fixpoint dec_many {A} (one : bytes → option (A * bytes)) (n : nat) (b : bytes)
    : option (list A * bytes) :=
  match n with
  | 0 => Some ([], b)
  | S n => '(x, b) ← one b; '(l, b) ← dec_many one n b; Some (x :: l, b)
  end.

Fixpoint dec (fuel : nat) (b : bytes) : option (pyval * bytes) :=
  match fuel, b with
  | S f, x :: b =>
      let num := Z.of_N (le_N (take 8 b)) in
      let '(c, rest) := dec_bytes b in
      let n := N.to_nat (le_N (take 4 b)) in
      if decide (x = "192"%byte) then Some (VNone, b)
      else if decide (x = "194"%byte) then Some (VBool false, b)
      else if decide (x = "195"%byte) then Some (VBool true, b)
      else if decide (x = "211"%byte) then
        Some (VInt (if decide (num < 2^63)%Z then num else num - 2^64)%Z, drop 8 b)
      else if decide (x = "207"%byte) then Some (VInt num, drop 8 b)
      else if decide (x = "219"%byte) then Some (VStr (str_decode c), rest)
      else if decide (x = "198"%byte) then Some (VBin c, rest)
      else if decide (x = "221"%byte) then
        '(l, b) ← dec_many (dec f) n (drop 4 b); Some (VList l, b)
      else if decide (x = "223"%byte) then
        '(d, b) ← dec_many (λ b, '(k, b) ← dec_key b; '(v, b) ← dec f b; Some (k, v, b)) n
                    (drop 4 b);
        Some (VDict d, b)
      else None
  | _, _ => None
  end.

Lemma enc_len_ok {A} (l : list A) rest :
  small l = true → N.to_nat (le_N (take 4 (enc_len l ++ rest))) = length l ∧
    drop 4 (enc_len l ++ rest) = rest.
Proof.
  intros Hl%Z.ltb_lt. assert (length (enc_len l) = 4) as H4 by apply le_bytes_length.
  rewrite <-H4 at 1 2. rewrite take_app_length, drop_app_length. split; [|done].
  unfold enc_len. rewrite le_N_bytes; lia.
Qed.

Lemma dec_enc_bytes b rest : small b = true → dec_bytes (enc_bytes b ++ rest) = (b, rest).
Proof.
  intros Hb. unfold dec_bytes, enc_bytes. rewrite <-(assoc (++)).
  destruct (enc_len_ok b (b ++ rest) Hb) as [-> ->].
  by rewrite take_app_length, drop_app_length.
Qed.

Lemma dec_enc_int z rest :
  Z.of_N (le_N (take 8 (enc_int z ++ rest))) = (z mod 2^64)%Z ∧ drop 8 (enc_int z ++ rest) = rest.
Proof.
  assert (length (enc_int z) = 8) as H8 by apply le_bytes_length.
  rewrite <-H8 at 1 2. rewrite take_app_length, drop_app_length. split; [|done].
  unfold enc_int. pose proof (Z.mod_pos_bound z (2^64)). rewrite le_N_bytes; lia.
Qed.

Lemma dec_enc_key k rest : key_ok k = true → dec_key (enc_key k ++ rest) = Some (k, rest).
Proof.
  unfold dec_key. destruct k as [s|b]; cbn [enc_key key_ok app]; intros Hk.
  - apply andb_true_iff in Hk as [_ Hk]. rewrite dec_enc_bytes by done. simpl.
    by rewrite str_decode_encode.
  - by rewrite dec_enc_bytes.
Qed.

Lemma dec_many_enc {A} (one : bytes → option (A * bytes)) (e : A → bytes) (l : list A) rest :
  (∀ x rest, x ∈ l → one (e x ++ rest) = Some (x, rest)) →
  dec_many one (length l) (foldr (λ x b, e x ++ b) [] l ++ rest) = Some (l, rest).
Proof.
  intros Hl. induction l as [|x l IH]; simpl; [done|].
  rewrite <-(assoc (++)), Hl by apply list_elem_of_here. simpl.
  by rewrite IH by (intros; apply Hl; by apply list_elem_of_further).
Qed.

Lemma enc_fold_length {A} (e : A → bytes) l x :
  x ∈ l → length (e x) ≤ length (foldr (λ x b, e x ++ b) [] l).
Proof. induction 1; simpl; rewrite length_app; lia. Qed.

Lemma dec_list f b :
  dec (S f) ("221"%byte :: b) =
  '(l, b) ← dec_many (dec f) (N.to_nat (le_N (take 4 b))) (drop 4 b); Some (VList l, b).
Proof. cbn [dec]. by destruct (dec_bytes b). Qed.
Lemma dec_dict f b :
  dec (S f) ("223"%byte :: b) =
  '(d, b) ← dec_many (λ b, '(k, b) ← dec_key b; '(v, b) ← dec f b; Some (k, v, b))
    (N.to_nat (le_N (take 4 b))) (drop 4 b);
  Some (VDict d, b).
Proof. cbn [dec]. by destruct (dec_bytes b). Qed.

Lemma dec_enc v f rest :
  scalars_ok v = true → length (enc v) ≤ f → dec f (enc v ++ rest) = Some (v, rest).
Proof.
  revert f rest. induction v as [|b|z|z|s|b|l IH|d IH|c b] using pyval_rect';
    intros [|f] rest Hok Hf; try (simpl in Hf; lia); try done; cbn [enc app];
    first [rewrite dec_list|rewrite dec_dict|cbn [dec]].
  - by destruct b.
  - simpl in Hok. apply andb_true_iff in Hok as [H1%Z.leb_le H2%Z.ltb_lt].
    destruct (dec_enc_int z rest) as [-> ->]. destruct (dec_bytes _).
    destruct (decide (z < 2^63)%Z) as [Hz|Hz]; simpl.
    + do 2 f_equal. destruct (decide (0 ≤ z)%Z).
      * rewrite Z.mod_small, decide_True by lia. done.
      * assert (z mod 2^64 = z + 2^64)%Z as ->.
        { symmetry. apply (Z.mod_unique_pos _ _ (-1)); lia. }
        rewrite decide_False by lia. f_equal. lia.
    + rewrite Z.mod_small by lia. done.
  - simpl in Hok. apply andb_true_iff in Hok as [_ Hs]. rewrite dec_enc_bytes by done. simpl.
    by rewrite str_decode_encode.
  - by rewrite dec_enc_bytes.
  - simpl in Hok. apply andb_true_iff in Hok as [Hs Hok]. rewrite <-(assoc (++)).
    destruct (enc_len_ok l (foldr (λ v b, enc v ++ b) [] l ++ rest) Hs) as [-> ->].
    rewrite (dec_many_enc (dec f) enc); [done|]. intros x rest' Hx.
    rewrite Forall_forall in IH. apply IH; [done| |].
    + rewrite forallb_forall in Hok. apply Hok. by apply list_elem_of_In.
    + pose proof (enc_fold_length enc l x Hx). cbn [enc length] in Hf.
      rewrite length_app in Hf. lia.
  - simpl in Hok. apply andb_true_iff in Hok as [[Hs _]%andb_true_iff Hok].
    rewrite <-(assoc (++)).
    set (e := λ kv : pykey * pyval, enc_key kv.1 ++ enc kv.2).
    assert (∀ d, foldr (λ (kv : pykey * pyval) (b : bytes), enc_key kv.1 ++ enc kv.2 ++ b) [] d =
      foldr (λ x b, e x ++ b) [] d) as He.
    { clear. induction d as [|kv d IH]; simpl; [done|]. unfold e at 1. by rewrite IH, (assoc (++)). }
    destruct (enc_len_ok d (foldr (λ (kv : pykey * pyval) (b : bytes), enc_key kv.1 ++ enc kv.2 ++ b) [] d ++ rest) Hs) as [-> ->].
    rewrite He, (dec_many_enc _ e); [done|]. intros [k v] rest' Hx.
    rewrite forallb_forall in Hok. pose proof (Hok (k, v)) as Hkv.
    rewrite andb_true_iff in Hkv. destruct Hkv as [Hk Hv]; [by apply list_elem_of_In|].
    unfold e; cbn [fst snd] in *. rewrite <-(assoc (++)), dec_enc_key by done. simpl.
    rewrite Forall_forall in IH. rewrite (IH (k, v)); [done|done|done|].
    pose proof (enc_fold_length e d (k, v) Hx) as Hl.
    change (length (enc_key k ++ enc v) ≤ length (foldr (λ x b, e x ++ b) [] d)) in Hl.
    cbn [enc length snd] in *. rewrite length_app in Hf, Hl. rewrite He in Hf. lia.
Qed.

Lemma enc_size v : length (enc v) ≤ psize v.
Proof.
  assert (∀ {A} (l : list A), length (enc_len l) = 4) as H4 by (intros; apply le_bytes_length).
  assert (∀ b, length (enc_bytes b) = 4 + length b) as Hb.
  { intros b. unfold enc_bytes. by rewrite length_app, H4. }
  assert (∀ k, length (enc_key k) = key_size k) as Hk.
  { intros []; cbn [enc_key key_size length]; by rewrite Hb. }
  induction v as [|b|z|z|s|b|l IH|d IH|c b] using pyval_rect'; cbn [enc psize length];
    rewrite ?Hb, ?length_app, ?H4; try lia.
  - unfold enc_int. rewrite le_bytes_length. lia.
  - unfold enc_int. rewrite le_bytes_length. lia.
  - enough (length (foldr (λ v b, enc v ++ b) [] l) ≤ foldr (λ v n, psize v + n) 0 l) by lia.
    induction IH; simpl; [lia|]. rewrite length_app. lia.
  - enough (length (foldr (λ kv b, enc_key kv.1 ++ enc kv.2 ++ b) [] d) ≤
      foldr (λ kv n, key_size kv.1 + psize kv.2 + n) 0 d) by lia.
    induction IH; simpl; [lia|]. rewrite !length_app, Hk. lia.
Qed.

#[export] Instance sample_msgpack : MsgPack := {|
  packb v := Ok (enc v);
  unpackb b := match dec (length b) b with Some (v, []) => Ok v | _ => Raise UnpackError end;
|}.
#[export] Instance sample_msgpack_laws : MsgPackLaws.
Proof.
  split.
  - intros v [Hv _]%andb_true_iff. eexists. split; [done|]. simpl.
    pose proof (dec_enc v (length (enc v)) [] Hv) as Hd. rewrite app_nil_r in Hd. by rewrite Hd.
  - intros v b [= <-]. apply enc_size.
Qed.

#[export] Instance sample_float : PyFloat := {| float_repr _ := "0.0"; float_of _ := 0%Z |}.
#[export] Instance sample_repr : PyRepr := {|
  py_repr _ := "?"; float_hex _ := "0x"; real_text _ := Some "0.0" |}.

Definition pad32 (b : bytes) : bytes := take 32 (b ++ replicate 32 "000"%byte).
Lemma pad32_length b : length (pad32 b) = 32.
Proof. unfold pad32. rewrite length_take, length_app, length_replicate. lia. Qed.

#[export] Instance sample_ed : Ed25519 := {|
  edkey := bytes;
  edpub := bytes;
  ed_public k := pad32 k;
  ed_sign k m := pad32 k ++ pad32 m;
  ed_load_public b := if decide (length b = 32) then Ok b else Raise ValueError;
  ed_check p s m := if decide (s = p ++ pad32 m) then Ok () else Raise InvalidSignature;
  ed_to_bytes k := k;
  ed_of_bytes b := Ok b;
|}.
#[export] Instance sample_ed_laws : Ed25519Laws.
Proof.
  split; simpl; intros.
  - apply pad32_length.
  - rewrite length_app, !pad32_length. done.
  - eexists. rewrite decide_True by apply pad32_length. split; [done|].
    intros. by rewrite decide_True.
  - by rewrite decide_False.
  - done.
Qed.

Definition byte_add (x y : byte) : byte :=
  from_option id "000"%byte (Byte.of_N ((Byte.to_N x + Byte.to_N y) mod 256)).

#[export] Instance sample_e2e : E2E := {|
  xkey := bytes;
  xpub := bytes;
  x_public k := pad32 k;
  x_load_public b := if decide (length b = 32) then Ok b else Raise ValueError;
  x_exchange k p := Ok (zip_with byte_add (pad32 k) p);
  hkdf32 salt info secret := pad32 secret;
  aead_encrypt key nonce data := Ok (take 16 key ++ data);
  aead_decrypt key nonce c := if decide (take 16 c = take 16 key)
    then Ok (drop 16 c) else Raise InvalidTag;
  x_to_bytes k := k;
  x_of_bytes b := Ok b;
|}.
#[export] Instance sample_e2e_laws : E2ELaws.
Proof.
  split; simpl; intros.
  - apply pad32_length.
  - do 3 eexists. rewrite !decide_True by apply pad32_length.
    do 3 (split; [done|]). f_equal. generalize (pad32 b). induction (pad32 a); intros [|]; simpl; try done.
    f_equal; [|done]. unfold byte_add. by rewrite N.add_comm.
  - apply pad32_length.
  - assert (length (take 16 key) = 16) as Hk by (rewrite length_take; lia).
    eexists. split; [done|]. split; [rewrite length_app; lia|].
    rewrite take_app_length' by done. rewrite decide_True by done.
    by rewrite drop_app_length'.
  - done.
Qed.

(** An environment in which every interaction succeeds; [dial] and [recv] say
    what is opened and received, and [time] starts at a fixed instant. *)
Definition calm : Outcome := {|
  o_time := 1000000;
  o_uuid := "uuid";
  o_random n := replicate n "007"%byte;
  o_edkey := ["001"%byte];
  o_xkey := ["002"%byte];
  o_dial := Ok 7;
  o_send := Ok ();
  o_recv := Raise ConnectionClosed;
  o_callback := Ok ();
  o_choice := 0;
  o_open := true;
  o_serve := Ok ();
|}.
Definition calm_env : Env := λ _, calm.

(** The same, with the connections down. *)
Definition offline : Outcome := {|
  o_time := 1000000;
  o_uuid := "uuid";
  o_random n := replicate n "007"%byte;
  o_edkey := ["001"%byte];
  o_xkey := ["002"%byte];
  o_dial := Raise ConnectError;
  o_send := Raise ConnectionClosed;
  o_recv := Raise ConnectionClosed;
  o_callback := Ok ();
  o_choice := 0;
  o_open := false;
  o_serve := Raise OSError;
|}.
Definition offline_env : Env := λ _, offline.

Lemma calm_env_laws : @EnvLaws _ _ calm_env.
Proof. by split; intros; [apply length_replicate|..]. Qed.

(** The calm environment, with what is received at each instant. *)
Definition recv_env (r : nat → result bytes) : Env := λ i, {|
  o_time := 1000000;
  o_uuid := "uuid";
  o_random n := replicate n "007"%byte;
  o_edkey := ["001"%byte];
  o_xkey := ["002"%byte];
  o_dial := Ok 7;
  o_send := Ok ();
  o_recv := r i;
  o_callback := Ok ();
  o_choice := 0;
  o_open := true;
  o_serve := Ok ();
|}.
Lemma recv_env_laws r : @EnvLaws _ _ (recv_env r).
Proof. by split; intros; [apply length_replicate|..]. Qed.

Definition sample_signing (b : byte) : SigningKeypair :=
  {| sk_private := [b]; sk_public := pad32 [b] |}.
Definition sample_encryption (b : byte) : EncryptionKeypair :=
  {| ek_private := [b]; ek_public := pad32 [b] |}.
