(* ===== verification/Protocol.v ===== *)
(** * The wire protocol ([node/protocol.py])

    Packets, their MessagePack encoding, the canonical bytes that are signed,
    signing and verification, and the packet constructors.  The fields of a
    packet are Python values: [unpack] puts into them whatever the decoded map
    holds, and only [verify_packet] finds out whether they have the declared
    types. *)
From S2P Require Import Prelude PyVal Interfaces Effects Crypto.
From S2P Require Samples.
From stdpp Require Import pretty.

Definition PROTO_VERSION : Z := 1.

(** Message types *)
Module T.
Definition MSG : string := "msg".
Definition ACK : string := "ack".
Definition PING : string := "ping".
Definition PONG : string := "pong".
Definition GOSSIP : string := "gossip".
Definition NODE_REGISTER : string := "node_register".
Definition NODE_VOTE : string := "node_vote".
Definition NODE_CERT : string := "node_cert".
Definition NODE_REMOVE : string := "node_remove".
Definition NODE_LEAVING : string := "node_leaving".
Definition PRESENCE_QUERY : string := "presence_query".
Definition PRESENCE_RESPONSE : string := "presence_response".
Definition CELL_REGISTER : string := "cell_register".
Definition CELL_INVITE : string := "cell_invite".
Definition AUTH_CHALLENGE : string := "auth_challenge".
Definition AUTH_RESPONSE : string := "auth_response".
End T.

Record Packet := mkPacket {
  type : pyval;
  payload : pyval;
  pid : pyval;             (** the field [id] *)
  from_addr : pyval;
  to_addr : pyval;
  sig : pyval;
  ts : pyval;
  v : pyval;
}.

#[global] Instance Packet_eq_dec : EqDecision Packet.
Proof. solve_decision. Defined.

Definition with_sig (p : Packet) (s : bytes) : Packet :=
  mkPacket (type p) (payload p) (pid p) (from_addr p) (to_addr p) (VBin s) (ts p) (v p).

(** The types that the dataclass declares, [ts] and [v] apart. *)
Definition well_typed (p : Packet) : Prop :=
  ∃ i t f d b, pid p = VStr i ∧ type p = VStr t ∧ from_addr p = VStr f ∧
    to_addr p = VStr d ∧ payload p = VBin b.

(** [d.get(k, default) or default] *)
Definition py_or (a b : pyval) : pyval := if truthy a then a else b.

(** The dictionary that [pack] serializes. *)
Definition packet_dict (p : Packet) : pyval := VDict [
  (KStr "v", v p);
  (KStr "id", pid p);
  (KStr "type", type p);
  (KStr "from", from_addr p);
  (KStr "to", to_addr p);
  (KStr "payload", payload p);
  (KStr "sig", sig p);
  (KStr "ts", ts p)].

(** The packet that [unpack] builds from a decoded document. *)
Definition packet_of (d : pyval) : result Packet :=
  v ← py_get d "v" (VInt PROTO_VERSION);
  i ← py_get d "id" "";
  t ← py_get d "type" "";
  f ← py_get d "from" "";
  o ← py_get d "to" "";
  b ← py_get d "payload" (VBin []);
  s ← py_get d "sig" (VBin []);
  ts ← py_get d "ts" (VInt 0);
  mret (mkPacket t (py_or b (VBin [])) i f o (py_or s (VBin [])) ts v).

Section protocol.
Context `{!MsgPack} `{!PyRepr} `{!Ed25519} `{!E2E} `{!Env}.
Context {S : Type} {m : Type → Type}.
Context `{!MRet m, !MBind m, !MLift m, !MInteract S m}.

Definition sign_data (p : Packet) : result bytes :=
  i ← py_encode (pid p);
  t ← py_encode (type p);
  f ← py_encode (from_addr p);
  d ← py_encode (to_addr p);
  acc ← py_concat (i ++ t ++ f ++ d) (payload p);
  mret (acc ++ str_encode (py_str (ts p))).

Definition pack (p : Packet) : result bytes := packb (packet_dict p).

Definition unpack (data : bytes) : result Packet :=
  d ← unpackb data; packet_of d.

(** The packet is updated in place: the model returns the updated packet. *)
Definition sign_packet (p : Packet) (signing_kp : SigningKeypair) : result Packet :=
  data ← sign_data p; s ← sign (VBin data) signing_kp; mret (with_sig p s).

Definition verify_packet (p : Packet) (signing_pubkey : bytes) : result bool :=
  if truthy (sig p) then
    data ← sign_data p; verify (VBin data) (sig p) (VBin signing_pubkey)
  else Ok false.

Definition encode_payload (data : pyval) : result bytes := packb data.

(** [msgpack.unpackb] refuses what is not bytes. *)
Definition decode_payload (payload : pyval) : result pyval :=
  b ← as_bytes payload; unpackb b.

(** [Packet(type=..., payload=..., from_addr=..., to_addr=...)]: the default
    factories draw the identifier and read the clock. *)
Definition new_packet (t : string) (b : bytes) (from to : pyval) : m Packet :=
  i ← uuid4; now ← time;
  mret (mkPacket t (VBin b) (VStr i) from to (VBin []) (VInt now) (VInt PROTO_VERSION)).

Definition make_ping (from_node : string) (to_node : pyval) : m Packet :=
  new_packet T.PING [] from_node to_node.

Definition make_pong (from_node : string) (to_node ping_id : pyval) : m Packet :=
  b ← lift (encode_payload (VDict [(KStr "ping_id", ping_id)]));
  new_packet T.PONG b from_node to_node.

Definition make_gossip (from_node : string) (node_table_entries : list pyval)
    : m Packet :=
  b ← lift (encode_payload (VDict [(KStr "nodes", VList node_table_entries)]));
  new_packet T.GOSSIP b from_node "".

Definition make_auth_challenge (from_node : string) (to_node : pyval) (nonce : bytes)
    : m Packet :=
  b ← lift (encode_payload (VDict [(KStr "nonce", VBin nonce)]));
  new_packet T.AUTH_CHALLENGE b from_node to_node.

Definition make_auth_response (from_node : string) (to_node nonce : pyval)
    (signature signing_pubkey enc_pubkey : bytes) : m Packet :=
  b ← lift (encode_payload (VDict [
    (KStr "nonce", nonce);
    (KStr "sig", VBin signature);
    (KStr "signing_pubkey", VBin signing_pubkey);
    (KStr "enc_pubkey", VBin enc_pubkey)]));
  new_packet T.AUTH_RESPONSE b from_node to_node.
End protocol.

(** ** What a packet with the declared types gives *)

Section typed.
Context `{!MsgPack} `{!PyRepr} `{!Ed25519} `{!E2E} `{!Env}.

Lemma sign_data_typed p d : sign_data p = Ok d → well_typed p.
Proof.
  unfold sign_data, well_typed.
  destruct (pid p); try done. destruct (type p); try done.
  destruct (from_addr p); try done. destruct (to_addr p); try done.
  destruct (payload p); try done. by repeat eexists.
Qed.

Lemma sign_data_fields i t f d b s ts w :
  sign_data (mkPacket (VStr t) (VBin b) (VStr i) (VStr f) (VStr d) s ts w) =
  Ok (str_encode i ++ str_encode t ++ str_encode f ++ str_encode d ++ b ++
      str_encode (py_str ts)).
Proof. unfold sign_data; simpl. unfold mret, result_ret. by rewrite <-!(assoc (++)). Qed.

Lemma well_typed_signs p : well_typed p → ∃ d, sign_data p = Ok d.
Proof.
  destruct p. unfold well_typed; simpl. intros (i & t & f & d & b & -> & -> & -> & -> & ->).
  eexists. apply sign_data_fields.
Qed.

Lemma sign_data_with_sig p s : sign_data (with_sig p s) = sign_data p.
Proof. done. Qed.

Lemma sign_packet_spec p kp q :
  sign_packet p kp = Ok q ↔
  ∃ d, sign_data p = Ok d ∧ q = with_sig p (ed_sign (sk_private kp) d).
Proof.
  unfold sign_packet, sign. destruct (sign_data p) as [d|e]; simpl; split; try done.
  - intros [= <-]. eauto.
  - by intros (? & [= <-] & ->).
  - by intros (? & ? & ?).
Qed.

Lemma packet_of_dict p :
  packet_of (packet_dict p) =
  Ok (mkPacket (type p) (py_or (payload p) (VBin [])) (pid p) (from_addr p) (to_addr p)
        (py_or (sig p) (VBin [])) (ts p) (v p)).
Proof. done. Qed.

Lemma py_or_bin b : py_or (VBin b) (VBin []) = VBin b.
Proof. unfold py_or; simpl. by destruct b. Qed.

Lemma unpack_packed `{!MsgPackLaws} p b s :
  payload p = VBin b → sig p = VBin s → packable (packet_dict p) = true →
  ∃ data, pack p = Ok data ∧ unpack data = Ok p.
Proof.
  intros Hb Hs Hp. destruct (unpackb_packb _ Hp) as (data & Hd & Hu).
  exists data. split; [done|]. unfold unpack. rewrite Hu.
  cbn [mbind result_bind]. rewrite packet_of_dict, Hb, Hs, !py_or_bin.
  destruct p; simpl in *. by subst.
Qed.

Lemma verify_packet_true p pk :
  verify_packet p pk = Ok true ↔
  ∃ d s key, sign_data p = Ok d ∧ sig p = VBin s ∧ s ≠ [] ∧
    ed_load_public pk = Ok key ∧ ed_check key s d = Ok ().
Proof.
  unfold verify_packet. destruct (truthy (sig p)) eqn:Ht.
  - destruct (sign_data p) as [d|e]; [|naive_solver].
    cbn [mbind result_bind]. rewrite verify_true. split.
    + intros (mb & sb & pkb & key & [= <-] & Hs & [= <-] & ?).
      rewrite Hs in Ht. simpl in Ht. apply negb_true_iff, bool_decide_eq_false in Ht. eauto 10.
    + intros (d' & s & key & [= <-] & -> & ? & ? & ?). eauto 10.
  - split; [done|]. intros (d & s & key & _ & Hs & Hne & _).
    rewrite Hs in Ht. simpl in Ht. by apply negb_false_iff, bool_decide_eq_true in Ht.
Qed.
End typed.

(** ** Properties *)

(** The packet that a relay obtains by moving text across the boundary between
    the two address fields, and by choosing another protocol version. *)
Definition readdress (p : Packet) (from to : string) (w : pyval) : Packet :=
  mkPacket (type p) (payload p) (pid p) (VStr from) (VStr to) (sig p) (ts p) w.

Section properties.
Context `{!MsgPack} `{!PyRepr} `{!Ed25519} `{!E2E} `{!Env}.

(** C27: only well-typed packets pass verification.  [unpack] stores whatever
    the decoded map contains; if [verify_packet] then answers [True], every
    textual field is a [str] and the payload is a [bytes], so that the handlers
    run after it never see a field of another type. *)
Theorem verify_packet_well_typed p pk :
  verify_packet p pk = Ok true → well_typed p ∧ ∃ s, sig p = VBin s ∧ s ≠ [].
Proof.
  intros (d & s & key & Hd & Hs & Hne & _)%verify_packet_true.
  eauto using sign_data_typed.
Qed.

(** C26: a packet signed with a key pair, packed, sent and unpacked verifies
    under the public key of that pair. *)
Theorem signed_packet_verifies_over_wire `{!MsgPackLaws} `{!Ed25519Laws} p kp q :
  skp_ok kp → sign_packet p kp = Ok q → packable (packet_dict q) = true →
  ∃ data q', pack q = Ok data ∧ unpack data = Ok q' ∧
    verify_packet q' (sk_public kp) = Ok true.
Proof.
  intros Hk (d & Hd & ->)%sign_packet_spec Hp.
  destruct (sign_data_typed _ _ Hd) as (i & t & f & o & b & _ & _ & _ & _ & Hb).
  destruct (unpack_packed (with_sig p _) b _ Hb eq_refl Hp) as (data & ? & ?).
  exists data, (with_sig p (ed_sign (sk_private kp) d)). do 2 (split; [done|]).
  rewrite Hk. destruct (ed_check_sign (sk_private kp)) as (key & Hl & Hc).
  apply verify_packet_true. exists d, (ed_sign (sk_private kp) d), key.
  split_and!; [done|done|apply ed_sign_nonempty|done|apply Hc].
Qed.

(** Among packets whose textual fields and payloads have the same lengths
    the signed bytes determine the packet: identifier, type, both addresses,
    payload and timestamp. *)
Theorem sign_data_injective i t f d b x s w i' t' f' d' b' x' s' w' :
  length (str_encode i) = length (str_encode i') →
  length (str_encode t) = length (str_encode t') →
  length (str_encode f) = length (str_encode f') →
  length (str_encode d) = length (str_encode d') →
  length b = length b' →
  sign_data (mkPacket (VStr t) (VBin b) (VStr i) (VStr f) (VStr d) s (VInt x) w) =
  sign_data (mkPacket (VStr t') (VBin b') (VStr i') (VStr f') (VStr d') s' (VInt x') w') →
  i = i' ∧ t = t' ∧ f = f' ∧ d = d' ∧ b = b' ∧ x = x'.
Proof.
  intros Hi Ht Hf Hd Hb. rewrite !sign_data_fields. intros [= E].
  apply app_inj_1 in E as [Ei E]; [|done]. apply app_inj_1 in E as [Et E]; [|done].
  apply app_inj_1 in E as [Ef E]; [|done]. apply app_inj_1 in E as [Ed E]; [|done].
  apply app_inj_1 in E as [Eb E]; [|done].
  repeat split; try (by apply (inj str_encode)); [done|].
  apply (inj str_encode) in E. by apply (inj pretty) in E.
Qed.

(** The signature does not fix where the sender's address ends and the
    recipient's begins, nor the protocol version.  The fields are concatenated
    without separators, so any packet that verifies still verifies after a
    suffix of [from] is moved to the front of [to]. *)
Theorem signature_ignores_address_boundary p pk a b c w :
  from_addr p = VStr (a +:+ b) → to_addr p = VStr c →
  verify_packet p pk = Ok true →
  verify_packet (readdress p a (b +:+ c) w) pk = Ok true.
Proof.
  intros Hf Ht (d & s & key & Hd & Hs & Hne & Hl & Hc)%verify_packet_true.
  apply verify_packet_true. exists d, s, key. split; [|done]. rewrite <-Hd.
  destruct (sign_data_typed _ _ Hd) as (i & t & f & o & e & Hi & Hty & _ & _ & Hb).
  destruct p; unfold readdress; simpl in *; subst. rewrite !sign_data_fields.
  rewrite !str_encode_app. by rewrite <-!(assoc (++)).
Qed.
End properties.

(** ** Witnesses *)

Module ProtocolWitnesses.
Import Samples.

Definition ping : Packet :=
  mkPacket "ping" (VBin []) "id-1" "alice@n1" "bob@n2" (VBin []) (VInt 17) (VInt 1).
Definition signed_ping : Packet :=
  with_sig ping (pad32 ["005"%byte] ++ pad32 (str_encode "id-1pingalice@n1bob@n217")).

Lemma ping_signed : sign_packet ping (sample_signing "005") = Ok signed_ping.
Proof. vm_compute. reflexivity. Qed.

Lemma verify_packet_well_typed_witness :
  well_typed signed_ping ∧ ∃ s, sig signed_ping = VBin s ∧ s ≠ [].
Proof.
  apply (verify_packet_well_typed signed_ping (pad32 ["005"%byte])).
  vm_compute. reflexivity.
Defined.

Lemma signed_packet_verifies_over_wire_witness :
  ∃ data q', pack signed_ping = Ok data ∧ unpack data = Ok q' ∧
    verify_packet q' (sk_public (sample_signing "005")) = Ok true.
Proof.
  apply (signed_packet_verifies_over_wire ping);
    [reflexivity|apply ping_signed|vm_compute; reflexivity].
Defined.

Lemma sign_data_injective_witness :
  let p d := mkPacket "msg" (VBin []) "i" "f" (VStr d) (VBin []) (VInt 3) (VInt 1) in
  sign_data (p "d") = sign_data (p "d") ∧ "d" = "d".
Proof.
  split; [reflexivity|].
  apply (sign_data_injective "i" "msg" "f" "d" [] 3 (VBin []) (VInt 1)
           "i" "msg" "f" "d" [] 3 (VBin []) (VInt 1)); reflexivity.
Defined.

Lemma signature_ignores_address_boundary_witness :
  verify_packet (readdress signed_ping "alice" "@n1bob@n2" (VInt 9))
    (pad32 ["005"%byte]) = Ok true.
Proof.
  apply (signature_ignores_address_boundary signed_ping _ "alice" "@n1" "bob@n2");
    [reflexivity|reflexivity|vm_compute; reflexivity].
Defined.
End ProtocolWitnesses.
