(* ===== verification/Auth.v ===== *)
(** * Mutual authentication ([node/auth.py])

    The challenge and response packets of the handshake that opens every
    connection, and the check of a response. *)
From S2P Require Import Prelude PyVal Interfaces Effects Crypto Protocol.
From S2P Require Samples.

Section auth.
Context `{!MsgPack} `{!PyRepr} `{!Ed25519} `{!E2E} `{!Env}.
Context {S : Type} {m : Type → Type}.
Context `{!MRet m, !MBind m, !MLift m, !MInteract S m}.

Definition NONCE_SIZE : nat := 32.

Definition make_challenge (from_node : string) (to_node : pyval) : m (Packet * bytes) :=
  nonce ← urandom NONCE_SIZE;
  pkt ← make_auth_challenge from_node to_node nonce;
  mret (pkt, nonce).

(** [nonce] is whatever the peer's challenge carried. *)
Definition make_response (from_node : string) (to_node nonce : pyval)
    (signing : SigningKeypair) (enc : EncryptionKeypair) : m Packet :=
  signature ← lift (sign nonce signing);
  make_auth_response from_node to_node nonce signature (sk_public signing) (ek_public enc).

Record AuthResult := {
  ar_node_id : string;
  ar_signing_pubkey : bytes;
  ar_enc_pubkey : pyval;
}.

(** The first [try] block of [verify_response]. *)
Definition response_fields (response : Packet) : result (pyval * pyval * pyval * pyval) :=
  data ← decode_payload (payload response);
  nonce ← py_getitem data "nonce";
  sg ← py_getitem data "sig";
  signing_pubkey ← py_getitem data "signing_pubkey";
  enc_pubkey ← py_getitem data "enc_pubkey";
  mret (nonce, sg, signing_pubkey, enc_pubkey).

(** [x.hex()]: bytes and floats have the method *)
Definition py_hex (x : pyval) : result string :=
  match x with
  | VBin b => Ok (bytes_hex b)
  | VFloat f => Ok (float_hex f)
  | _ => Raise AttributeError
  end.

(** [expected_node_id and node_id_claim != expected_node_id] *)
Definition id_mismatch (expected_node_id : pyval) (claim : string) : bool :=
  truthy expected_node_id && bool_decide (VStr claim ≠ expected_node_id).

(** [None] is a refusal; an exception that the body does not catch is [Raise]. *)
Definition verify_response (response : Packet) (expected_nonce : bytes)
    (expected_node_id : pyval) : result (option AuthResult) :=
  match response_fields response with
  | Raise _ => Ok None
  | Ok (nonce, sg, signing_pubkey, enc_pubkey) =>
      if decide (nonce ≠ VBin expected_nonce) then Ok None else
      node_id_claim ← py_hex signing_pubkey;
      if id_mismatch expected_node_id node_id_claim then Ok None else
      ok ← verify nonce sg signing_pubkey;
      if ok : bool then
        pk ← as_bytes signing_pubkey;
        mret (Some {| ar_node_id := node_id_claim; ar_signing_pubkey := pk;
                      ar_enc_pubkey := enc_pubkey |})
      else Ok None
  end.
End auth.

(** ** Lemmas *)

(** The dictionary that a response carries. *)
Definition response_dict (nonce : pyval) (s spk epk : bytes) : pyval := VDict [
  (KStr "nonce", nonce); (KStr "sig", VBin s);
  (KStr "signing_pubkey", VBin spk); (KStr "enc_pubkey", VBin epk)].

Lemma small_length {A} (l : list A) n :
  length l = n → (Z.of_nat n < 2^32)%Z → small l = true.
Proof. intros <- H. by apply Z.ltb_lt. Qed.

Lemma response_dict_packable n s spk epk :
  small n = true → length s = 64 → length spk = 32 → length epk = 32 →
  packable (response_dict (VBin n) s spk epk) = true.
Proof.
  intros Hn Hs Hk He. unfold packable, response_dict.
  change (depth _ <=? 500) with true. rewrite andb_true_r.
  cbn [scalars_ok forallb fst snd]. rewrite Hn.
  by rewrite (small_length s 64), (small_length spk 32), (small_length epk 32).
Qed.

Section auth_lemmas.
Context `{!MsgPack} `{!PyRepr} `{!Ed25519} `{!E2E} `{!Env}.

Lemma verify_response_some r n e a :
  verify_response r n e = Ok (Some a) ↔
  ∃ sg, response_fields r =
          Ok (VBin n, sg, VBin (ar_signing_pubkey a), ar_enc_pubkey a) ∧
        ar_node_id a = bytes_hex (ar_signing_pubkey a) ∧
        id_mismatch e (ar_node_id a) = false ∧
        verify (VBin n) sg (VBin (ar_signing_pubkey a)) = Ok true.
Proof.
  unfold verify_response.
  destruct (response_fields r) as [[[[nonce sg] pk] epk]|x]; [|naive_solver].
  case_decide as Hn; [split; [done|]; naive_solver|]. subst nonce.
  split.
  - destruct pk as [| | |f| |pk| | |]; try done; cbn [py_hex mbind result_bind].
    { destruct (id_mismatch e (float_hex f)); done. }
    destruct (id_mismatch e (bytes_hex pk)) eqn:Hm; [done|].
    destruct (verify (VBin n) sg (VBin pk)) as [[]|] eqn:Hv; [|done|done].
    intros [= <-]. eauto.
  - intros (sg' & [= <- -> ->] & Hid & Hm & Hv). cbn [py_hex mbind result_bind].
    rewrite <-Hid, Hm, Hv. simpl. by destruct a.
Qed.

(** What [make_response] computes. *)
Lemma make_response_spec `{!MsgPackLaws} `{!Ed25519Laws} `{!E2ELaws} {S}
    from to n kp ek (w : World S) :
  small n = true → skp_ok kp → ekp_ok ek →
  wp (make_response from to (VBin n) kp ek) (λ r w', ∃ p b,
    r = Ok p ∧ type p = VStr T.AUTH_RESPONSE ∧ payload p = VBin b ∧
    from_addr p = VStr from ∧ to_addr p = to ∧
    unpackb b = Ok (response_dict (VBin n) (ed_sign (sk_private kp) n)
                      (sk_public kp) (ek_public ek)) ∧
    w_st w' = w_st w ∧ w_trace w' = w_trace w) w.
Proof.
  unfold skp_ok, ekp_ok. intros Hn Hk He.
  destruct (unpackb_packb (response_dict (VBin n) (ed_sign (sk_private kp) n)
    (sk_public kp) (ek_public ek))) as (b & Hb & Hu).
  { apply response_dict_packable;
      [done|apply ed_sign_length|rewrite Hk; apply ed_public_length
      |rewrite He; apply x_public_length]. }
  unfold response_dict in Hb.
  unfold wp, make_response, make_auth_response, encode_payload, lift, M_lift, mbind, M_bind.
  simpl. rewrite Hb. simpl. do 2 eexists. by split_and!.
Qed.

Lemma response_fields_dict r b n s spk epk :
  payload r = VBin b → unpackb b = Ok (response_dict n s spk epk) →
  response_fields r = Ok (n, VBin s, VBin spk, VBin epk).
Proof. intros Hp Hu. unfold response_fields, decode_payload. rewrite Hp. simpl. by rewrite Hu. Qed.

(** An honest response to our nonce is accepted. *)
Lemma verify_own_response `{!Ed25519Laws} r b n kp epk e :
  skp_ok kp → payload r = VBin b →
  unpackb b = Ok (response_dict (VBin n) (ed_sign (sk_private kp) n) (sk_public kp) epk) →
  id_mismatch e (bytes_hex (sk_public kp)) = false →
  verify_response r n e = Ok (Some {| ar_node_id := bytes_hex (sk_public kp);
    ar_signing_pubkey := sk_public kp; ar_enc_pubkey := VBin epk |}).
Proof.
  intros Hk Hp Hu He. apply verify_response_some. simpl. eexists.
  split; [by eapply response_fields_dict|]. split_and!; [done|done|].
  by apply verify_sign.
Qed.

(** A frame that was received answers a challenge: it is a response, and its holder of
    the key has signed a nonce that we drew. *)
Definition answers (raw key : bytes) : Prop := ∃ i resp sg epk,
  let nonce := VBin (o_random (outcome i) NONCE_SIZE) in
  unpack raw = Ok resp ∧ type resp = VStr T.AUTH_RESPONSE ∧
  response_fields resp = Ok (nonce, sg, VBin key, epk) ∧ verify nonce sg (VBin key) = Ok true.
Definition proved (key : bytes) : Prop := ∃ j raw, o_recv (outcome j) = Ok raw ∧ answers raw key.

(** What a handshake goes through whose last steps are these. *)
Lemma verified_proves j raw resp i e a :
  o_recv (outcome j) = Ok raw → unpack raw = Ok resp → type resp = VStr T.AUTH_RESPONSE →
  verify_response resp (o_random (outcome i) NONCE_SIZE) e = Ok (Some a) →
  proved (ar_signing_pubkey a).
Proof.
  intros Hr Hu Ht (sg & Hf & _ & _ & Hv)%verify_response_some. exists j, raw. split; [done|].
  by exists i, resp, sg, (ar_enc_pubkey a).
Qed.
Lemma returns_challenge_bind {S} {m : Type → Type} `{EffectRules S m} {B} (P : B → Prop) from to
    (f : Packet * bytes → m B) :
  (∀ p i, returns P (f (p, o_random (outcome i) NONCE_SIZE))) →
  returns P (make_challenge from to ≫= f).
Proof.
  intros Hf. apply (returns_bind_with (λ '(_, n), ∃ i, n = o_random (outcome i) NONCE_SIZE)).
  - unfold make_challenge. apply returns_ask_bind. intros i. apply returns_bind. intros p.
    apply knows_ret. by exists i.
  - intros [p n] [i ->]. apply Hf.
Qed.
End auth_lemmas.

(** ** Properties *)

Section auth_properties.
Context `{!MsgPack} `{!PyRepr} `{!Ed25519} `{!E2E} `{!Env}.

(** Whoever is accepted has proved possession of the key its identifier
    names.  The accepted identifier is the hexadecimal form of the accepted
    key, it is the expected one if one was expected, and the response carries a
    signature over our own nonce that the library accepts under that key. *)
Theorem verify_response_sound r n e a :
  verify_response r n e = Ok (Some a) →
  ar_node_id a = bytes_hex (ar_signing_pubkey a) ∧
  (truthy e = true → e = VStr (ar_node_id a)) ∧
  ∃ s key, ed_load_public (ar_signing_pubkey a) = Ok key ∧ ed_check key s n = Ok ().
Proof.
  intros (sg & _ & Hid & Hm & (mb & sb & pkb & key & [= <-] & -> & [= <-] & ? & ?)
    %verify_true)%verify_response_some.
  split; [done|]. split; [|by eauto]. intros He. unfold id_mismatch in Hm.
  rewrite He, andb_true_l, bool_decide_eq_false in Hm. by apply dec_stable in Hm.
Qed.

(** An honest exchange succeeds: the response that a peer makes for the
    nonce of our challenge, with its own keys, is accepted and yields the
    peer's identifier and both of its public keys, whether we expected that
    peer or nobody in particular. *)
Theorem honest_response_accepted `{!MsgPackLaws} `{!Ed25519Laws} `{!E2ELaws} {S}
    from to n kp ek e (w : World S) :
  small n = true → skp_ok kp → ekp_ok ek →
  e = VNone ∨ e = VStr (bytes_hex (sk_public kp)) →
  wp (make_response from to (VBin n) kp ek) (λ r _, ∃ p, r = Ok p ∧
    verify_response p n e = Ok (Some {| ar_node_id := bytes_hex (sk_public kp);
      ar_signing_pubkey := sk_public kp; ar_enc_pubkey := VBin (ek_public ek) |})) w.
Proof.
  intros Hn Hk He Hexp. eapply wp_mono; [by apply make_response_spec|].
  intros r w' (p & b & -> & _ & Hp & _ & _ & Hu & _). exists p. split; [done|].
  eapply verify_own_response; [done..|]. unfold id_mismatch.
  destruct Hexp as [-> | ->]; [done|]. by rewrite bool_decide_false, andb_false_r by naive_solver.
Qed.

(** C35: the handshake is a signing oracle.  The nonce of a challenge is signed
    as it is, so a peer that sends the signed bytes of a packet of its choice as
    its nonce gets back, in our response, a signature that makes that packet
    verify under our key. *)
Theorem challenge_signs_chosen_packet `{!MsgPackLaws} `{!Ed25519Laws} `{!E2ELaws} {S}
    from to p d kp ek (w : World S) :
  sign_data p = Ok d → small d = true → skp_ok kp → ekp_ok ek →
  wp (make_response from to (VBin d) kp ek) (λ r _, ∃ resp s spk epk,
    r = Ok resp ∧ response_fields resp = Ok (VBin d, VBin s, spk, epk) ∧
    verify_packet (with_sig p s) (sk_public kp) = Ok true) w.
Proof.
  intros Hd Hs Hk He. eapply wp_mono; [by apply make_response_spec|].
  intros r w' (q & b & -> & _ & Hp & _ & _ & Hu & _). do 4 eexists.
  split; [done|]. split; [by eapply response_fields_dict|].
  destruct (ed_check_sign (sk_private kp)) as (key & Hl & Hc).
  apply verify_packet_true. do 3 eexists. rewrite sign_data_with_sig, Hk.
  split_and!; [done|done|apply ed_sign_nonempty|done|apply Hc].
Qed.

(** A response with our nonce whose key is not 32 bytes long is not
    refused with [None]: the library's [ValueError] leaves [verify_response]. *)
Theorem verify_response_raises_on_bad_key `{!Ed25519Laws} r n sg pk epk :
  response_fields r = Ok (VBin n, sg, VBin pk, epk) → length pk ≠ 32 →
  verify_response r n VNone = Raise ValueError.
Proof.
  intros Hr Hl. unfold verify_response. rewrite Hr, decide_False by auto. simpl.
  by rewrite verify_bad_key.
Qed.
End auth_properties.

(** ** Witnesses *)

Module AuthWitnesses.
Import Samples.
#[local] Existing Instance calm_env.

Definition bob : SigningKeypair := sample_signing "005".
Definition bob_enc : EncryptionKeypair := sample_encryption "006".
Definition our_nonce : bytes := replicate 32 "009"%byte.
Definition start : World unit := mkWorld 0 [] ().

(** Bob's response to our nonce, as the model computes it. *)
Definition bobs_response : Packet :=
  match (make_response "bob" "us" (VBin our_nonce) bob bob_enc start).1 with
  | Ok p => p
  | Raise _ => mkPacket VNone VNone VNone VNone VNone VNone VNone VNone
  end.

Lemma verify_response_sound_witness :
  let a := {| ar_node_id := bytes_hex (sk_public bob); ar_signing_pubkey := sk_public bob;
              ar_enc_pubkey := VBin (ek_public bob_enc) |} in
  ar_node_id a = bytes_hex (ar_signing_pubkey a) ∧
  (truthy VNone = true → VNone = VStr (ar_node_id a)) ∧
  ∃ s key, ed_load_public (ar_signing_pubkey a) = Ok key ∧ ed_check key s our_nonce = Ok ().
Proof.
  intros a. apply (verify_response_sound bobs_response our_nonce VNone a).
  vm_compute. reflexivity.
Defined.

Lemma honest_response_accepted_witness :
  wp (make_response "bob" "us" (VBin our_nonce) bob bob_enc) (λ r _, ∃ p, r = Ok p ∧
    verify_response p our_nonce (VStr (bytes_hex (sk_public bob))) =
    Ok (Some {| ar_node_id := bytes_hex (sk_public bob); ar_signing_pubkey := sk_public bob;
                ar_enc_pubkey := VBin (ek_public bob_enc) |})) start.
Proof.
  apply (honest_response_accepted "bob" "us" our_nonce bob bob_enc);
    [reflexivity|reflexivity|reflexivity|right; reflexivity].
Defined.

(** A packet that removes a node, which Bob never meant to sign. *)
Definition forged : Packet :=
  mkPacket T.NODE_LEAVING (VBin []) "id" "victim" "us" (VBin []) (VInt 17) (VInt 1).

Lemma challenge_signs_chosen_packet_witness :
  wp (make_response "bob" "us" (VBin (or_else [] (sign_data forged))) bob bob_enc)
    (λ r _, ∃ resp s spk epk, r = Ok resp ∧
      response_fields resp = Ok (VBin (or_else [] (sign_data forged)), VBin s, spk, epk) ∧
      verify_packet (with_sig forged s) (sk_public bob) = Ok true) start.
Proof.
  apply (challenge_signs_chosen_packet "bob" "us" forged);
    [vm_compute; reflexivity|vm_compute; reflexivity|reflexivity|reflexivity].
Defined.

Definition short_key_response : Packet :=
  mkPacket T.AUTH_RESPONSE
    (VBin (or_else [] (packb (response_dict (VBin our_nonce) [] (str_encode "key") []))))
    "id" "bob" "us" (VBin []) (VInt 17) (VInt 1).

Lemma verify_response_raises_on_bad_key_witness :
  verify_response short_key_response our_nonce VNone = Raise ValueError.
Proof.
  apply (verify_response_raises_on_bad_key _ our_nonce (VBin []) (str_encode "key") (VBin []));
    [vm_compute; reflexivity|discriminate].
Defined.
End AuthWitnesses.
