(* ===== verification/Identity.v ===== *)
(** * Identities ([node/identity.py])

    The identity of a node and of a cell: a signing key pair, whose public half
    in hexadecimal is the identifier, and an encryption key pair.  [save] and
    [load] write and read the JSON text of a file; the directories of its path are
    not modelled. *)
From S2P Require Import Prelude PyVal Interfaces Text Json Effects Crypto.
From S2P Require Samples.

Section identity.
Context `{!PyFloat} `{!Ed25519} `{!E2E} `{!Env}.
Context {S : Type} {m : Type → Type}.
Context `{!MRet m, !MBind m, !MLift m, !MInteract S m}.

Record NodeIdentity := mkNodeIdentity {
  n_signing : SigningKeypair;
  n_encryption : EncryptionKeypair;
  n_address : pyval;
  n_node_type : pyval;
  n_access : pyval;
}.

Record CellIdentity := mkCellIdentity {
  c_signing : SigningKeypair;
  c_encryption : EncryptionKeypair;
  c_name : pyval;
}.

(** The property [node_id], respectively [cell_id]. *)
Definition nid (i : NodeIdentity) : string := bytes_hex (sk_public (n_signing i)).
Definition cid (i : CellIdentity) : string := bytes_hex (sk_public (c_signing i)).

Definition generate_node (address node_type access : string) : m NodeIdentity :=
  s ← gen_signing; e ← gen_encryption;
  mret (mkNodeIdentity s e address node_type access).

Definition generate_cell (name : string) : m CellIdentity :=
  s ← gen_signing; e ← gen_encryption; mret (mkCellIdentity s e name).

(** A directory of text files, by path. *)
Abbreviation files := (gmap string string).

(** The four fields that hold the key material. *)
Definition key_fields (s : SigningKeypair) (e : EncryptionKeypair) : list (pykey * pyval) := [
  (KStr "signing_priv", VStr (bytes_hex (signing_priv_to_bytes (sk_private s))));
  (KStr "signing_pub", VStr (bytes_hex (sk_public s)));
  (KStr "enc_priv", VStr (bytes_hex (enc_priv_to_bytes (ek_private e))));
  (KStr "enc_pub", VStr (bytes_hex (ek_public e)))].

Definition node_doc (i : NodeIdentity) : pyval :=
  VDict (key_fields (n_signing i) (n_encryption i) ++ [
    (KStr "address", n_address i);
    (KStr "node_type", n_node_type i);
    (KStr "access", n_access i)]).
Definition cell_doc (i : CellIdentity) : pyval :=
  VDict (key_fields (c_signing i) (c_encryption i) ++ [(KStr "name", c_name i)]).

(** [open(path, "w")] and [json.dump].  A document that JSON cannot express
    raises; the documents of generated and loaded identities are not among them. *)
Definition write_json (path : string) (data : pyval) (fs : files) : result files :=
  t ← json_dump data; mret (<[path := t]> fs).
Definition save_node (i : NodeIdentity) (path : string) (fs : files) : result files :=
  write_json path (node_doc i) fs.
Definition save_cell (i : CellIdentity) (path : string) (fs : files) : result files :=
  write_json path (cell_doc i) fs.

(** [open(path)] and [json.load] *)
Definition read_json (path : string) (fs : files) : result pyval :=
  match fs !! path with Some t => json_load t | None => Raise FileNotFoundError end.

(** [bytes.fromhex(data[k])] *)
Definition hex_field (data : pyval) (k : string) : result bytes :=
  x ← py_getitem data k;
  match x with VStr s => bytes_fromhex s | _ => Raise TypeError end.

Definition load_keys (data : pyval) : result (SigningKeypair * EncryptionKeypair) :=
  sp ← hex_field data "signing_priv"; sk ← signing_priv_from_bytes sp;
  spub ← hex_field data "signing_pub";
  ep ← hex_field data "enc_priv"; ek ← enc_priv_from_bytes ep;
  epub ← hex_field data "enc_pub";
  mret ({| sk_private := sk; sk_public := spub |}, {| ek_private := ek; ek_public := epub |}).

Definition load_node (path : string) (fs : files) : result NodeIdentity :=
  data ← read_json path fs;
  '(s, e) ← load_keys data;
  a ← py_getitem data "address";
  t ← py_get data "node_type" "permanent";
  c ← py_get data "access" "closed";
  mret (mkNodeIdentity s e a t c).

Definition load_cell (path : string) (fs : files) : result CellIdentity :=
  data ← read_json path fs;
  '(s, e) ← load_keys data;
  n ← py_get data "name" "";
  mret (mkCellIdentity s e n).

Definition as_node_entry_dict (i : NodeIdentity) : pyval := VDict [
  (KStr "node_id", VStr (nid i));
  (KStr "address", n_address i);
  (KStr "type", n_node_type i);
  (KStr "access", n_access i);
  (KStr "enc_pub", VStr (bytes_hex (ek_public (n_encryption i))))].
End identity.

Section identity_properties.
Context `{!PyFloat} `{!Ed25519} `{!E2E} `{!Env} `{!Ed25519Laws} `{!E2ELaws}.

Lemma hex_field_hex d k b :
  assoc_find (KStr k) d = Some (VStr (bytes_hex b)) → hex_field (VDict d) k = Ok b.
Proof. intros Hk. unfold hex_field; simpl. rewrite Hk. apply bytes_fromhex_hex. Qed.

Lemma load_key_fields s e d : load_keys (VDict (key_fields s e ++ d)) = Ok (s, e).
Proof.
  unfold load_keys.
  rewrite (hex_field_hex (key_fields s e ++ d) "signing_priv" (signing_priv_to_bytes (sk_private s)) eq_refl); cbn [mbind result_bind].
  unfold signing_priv_to_bytes, signing_priv_from_bytes. rewrite ed_of_to_bytes; cbn [mbind result_bind].
  rewrite (hex_field_hex (key_fields s e ++ d) "signing_pub" (sk_public s) eq_refl); cbn [mbind result_bind].
  rewrite (hex_field_hex (key_fields s e ++ d) "enc_priv" (enc_priv_to_bytes (ek_private e)) eq_refl); cbn [mbind result_bind].
  unfold enc_priv_to_bytes, enc_priv_from_bytes. rewrite x_of_to_bytes; cbn [mbind result_bind].
  rewrite (hex_field_hex (key_fields s e ++ d) "enc_pub" (ek_public e) eq_refl). by destruct s, e.
Qed.

(** What the fields other than the keys may hold. *)
Definition node_writable (i : NodeIdentity) : Prop :=
  json_ok (n_address i) = true ∧ json_ok (n_node_type i) = true ∧ json_ok (n_access i) = true.
Definition cell_writable (c : CellIdentity) : Prop := json_ok (c_name c) = true.

Lemma write_read path v fs : json_ok v = true → ∃ t, write_json path v fs = Ok (<[path := t]> fs) ∧
  read_json path (<[path := t]> fs) = Ok v.
Proof.
  intros Hv. destruct (json_load_dump v Hv) as (t & Ht & Hl). exists t.
  unfold write_json, read_json. by rewrite Ht, lookup_insert_eq.
Qed.

Lemma node_doc_ok i : node_writable i → json_ok (node_doc i) = true.
Proof.
  intros (Ha & Ht & Hc). unfold node_doc, key_fields. cbn [json_ok app forallb fst snd].
  rewrite !utf8_hex, Ha, Ht, Hc. by rewrite bool_decide_true by (by apply (bool_decide_unpack _)).
Qed.
Lemma cell_doc_ok c : cell_writable c → json_ok (cell_doc c) = true.
Proof.
  intros Hn. unfold cell_doc, key_fields. cbn [json_ok app forallb fst snd].
  rewrite !utf8_hex, Hn. by rewrite bool_decide_true by (by apply (bool_decide_unpack _)).
Qed.

(** Saving succeeds, and loading gives back what was saved. *)
Lemma save_load_node i path fs : node_writable i → ∃ t,
  save_node i path fs = Ok (<[path := t]> fs) ∧ load_node path (<[path := t]> fs) = Ok i.
Proof.
  intros Hi. destruct (write_read path (node_doc i) fs) as (t & Hw & Hr); [by apply node_doc_ok|].
  exists t. split; [done|]. unfold load_node. rewrite Hr. cbn [mbind result_bind]. unfold node_doc.
  rewrite load_key_fields. by destruct i.
Qed.
Lemma save_load_cell c path fs : cell_writable c → ∃ t,
  save_cell c path fs = Ok (<[path := t]> fs) ∧ load_cell path (<[path := t]> fs) = Ok c.
Proof.
  intros Hc. destruct (write_read path (cell_doc c) fs) as (t & Hw & Hr); [by apply cell_doc_ok|].
  exists t. split; [done|]. unfold load_cell. rewrite Hr. cbn [mbind result_bind]. unfold cell_doc.
  rewrite load_key_fields. by destruct c.
Qed.

(** C29: an identity survives its file.  Saving a node or cell identity whose
    fields JSON can express writes a text to the given path, touching no other
    file, and loading that path - parsing the text, decoding the keys - gives back
    the identity, with its key pairs. *)
Theorem load_save_identity (i : NodeIdentity) (c : CellIdentity) path fs :
  node_writable i → cell_writable c →
  (∃ fs', save_node i path fs = Ok fs' ∧ load_node path fs' = Ok i ∧
     ∀ other, other ≠ path → fs' !! other = fs !! other) ∧
  ∃ fs', save_cell c path fs = Ok fs' ∧ load_cell path fs' = Ok c ∧
     ∀ other, other ≠ path → fs' !! other = fs !! other.
Proof.
  intros Hi Hc. destruct (save_load_node i path fs Hi) as (t & Hs & Hl).
  destruct (save_load_cell c path fs Hc) as (u & Hs' & Hl').
  split; eexists; (split; [done|]); (split; [done|]); intros other Ho; by rewrite lookup_insert_ne.
Qed.
End identity_properties.

Module IdentityWitnesses.
Import Samples.
#[local] Existing Instance calm_env.

Lemma load_save_identity_witness :
  let i := mkNodeIdentity (sample_signing "001") (sample_encryption "002") "h:1" "permanent" "open" in
  let c := mkCellIdentity (sample_signing "003") (sample_encryption "004") "alice" in
  (∃ fs', save_node i "n.json" ∅ = Ok fs' ∧ load_node "n.json" fs' = Ok i ∧
     ∀ other, other ≠ "n.json" → fs' !! other = (∅ : gmap string string) !! other) ∧
  ∃ fs', save_cell c "n.json" ∅ = Ok fs' ∧ load_cell "n.json" fs' = Ok c ∧
     ∀ other, other ≠ "n.json" → fs' !! other = (∅ : gmap string string) !! other.
Proof. intros i c. by apply (load_save_identity i c "n.json" ∅). Defined.
End IdentityWitnesses.
