(* ===== verification/Table.v ===== *)
(** * SQL tables with a primary key

    The four tables of [node/storage.py] are lists of rows in row-id order: an
    insertion appends, an update rewrites rows where they are, a scan returns
    them in order.  [key] gives the primary key of a row; a NULL key ([None])
    equals nothing, so it never conflicts and is never selected.

    The second half relates each statement to a finite map from keys to rows:
    the map is the abstract view of a table, and the lemmas are the commuting
    squares from which [Storage.v] builds its refinement theorem. *)
From S2P Require Import Prelude.

Section table.
Context {R K : Type} `{Countable K} (key : R → option K).
Implicit Types (t : list R) (r : R) (k : K).

(** [SELECT * FROM t WHERE pk = k], first row *)
Fixpoint select_pk (k : K) (t : list R) : option R :=
  match t with
  | [] => None
  | r :: t => if decide (key r = Some k) then Some r else select_pk k t
  end.

(** [UPDATE t SET ... WHERE P] *)
Definition update_where (P : R → Prop) `{∀ r, Decision (P r)} (f : R → R) (t : list R) : list R :=
  (λ r, if decide (P r) then f r else r) <$> t.

(** [DELETE FROM t WHERE P] *)
Definition delete_where (P : R → Prop) `{∀ r, Decision (P r)} (t : list R) : list R :=
  filter (λ r, ¬ P r) t.

Definition conflicts (r : R) (t : list R) : bool :=
  match key r with
  | Some k => match select_pk k t with Some _ => true | None => false end
  | None => false
  end.

(** [INSERT INTO t VALUES r ON CONFLICT(pk) DO UPDATE SET ...]: [merge old r]
    is the updated row. *)
Definition upsert (merge : R → R → R) (r : R) (t : list R) : list R :=
  match key r with
  | Some k =>
      match select_pk k t with
      | Some _ => update_where (λ r', key r' = Some k) (λ r', merge r' r) t
      | None => t ++ [r]
      end
  | None => t ++ [r]
  end.

(** [INSERT OR IGNORE INTO t VALUES r] *)
Definition insert_or_ignore (r : R) (t : list R) : list R :=
  if conflicts r t then t else t ++ [r].

(** The constraint of a primary key. *)
Fixpoint keys (t : list R) : list K :=
  match t with
  | [] => []
  | r :: t => match key r with Some k => k :: keys t | None => keys t end
  end.
Definition unique (t : list R) : Prop := NoDup (keys t).

(** The abstract view. *)
Fixpoint to_map (t : list R) : gmap K R :=
  match t with
  | [] => ∅
  | r :: t => match key r with Some k => <[k := r]> (to_map t) | None => to_map t end
  end.

Lemma to_map_lookup k t : to_map t !! k = select_pk k t.
Proof.
  induction t as [|r t IH]; simpl; [done|].
  destruct (key r) as [k'|] eqn:Hk; [|by rewrite decide_False].
  rewrite lookup_insert, IH. repeat case_decide; naive_solver.
Qed.

Lemma elem_of_keys k t : k ∈ keys t ↔ is_Some (select_pk k t).
Proof.
  induction t as [|r t IH]; simpl.
  - rewrite elem_of_nil. by split; [|intros []].
  - case_decide as Hk; [rewrite Hk|].
    + rewrite elem_of_cons. naive_solver.
    + destruct (key r); [rewrite elem_of_cons, IH|by rewrite IH]. naive_solver.
Qed.

Lemma select_pk_Some k t r : select_pk k t = Some r → r ∈ t ∧ key r = Some k.
Proof.
  induction t as [|r' t IH]; simpl; [done|]. case_decide.
  - intros [= <-]. split; [apply list_elem_of_here|done].
  - intros [? ?]%IH. split; [by apply list_elem_of_further|done].
Qed.

Lemma select_pk_elem k t r : unique t → r ∈ t → key r = Some k → select_pk k t = Some r.
Proof.
  unfold unique. induction t as [|r' t IH]; simpl; [by intros ? ?%elem_of_nil|].
  intros Hu [->|Hr]%elem_of_cons Hk.
  - by rewrite decide_True.
  - destruct (key r') as [k'|] eqn:Hk'; [|rewrite decide_False by done; auto].
    apply NoDup_cons in Hu as [Hn Hu]. rewrite decide_False; [auto|].
    intros [= ->]. destruct Hn. apply elem_of_keys. clear -Hr Hk.
    induction Hr; simpl; [by rewrite decide_True; eauto|]. case_decide; eauto.
Qed.

Lemma conflicts_spec r t :
  conflicts r t = true ↔ ∃ k, key r = Some k ∧ k ∈ keys t.
Proof.
  unfold conflicts. setoid_rewrite elem_of_keys.
  destruct (key r) as [k|]; [|naive_solver].
  destruct (select_pk k t) eqn:E; [naive_solver|].
  split; [done|]. intros (? & [= <-] & [? ?]). congruence.
Qed.

(** *** Keys and the map after each statement *)

Lemma keys_app t t' : keys (t ++ t') = keys t ++ keys t'.
Proof. induction t as [|r t IH]; simpl; [done|]. rewrite IH. by destruct (key r). Qed.

Lemma keys_update P `{∀ r, Decision (P r)} f t :
  (∀ r, key (f r) = key r) → keys (update_where P f t) = keys t.
Proof.
  intros Hf. unfold update_where. induction t as [|r t IH]; csimpl; [done|].
  rewrite IH. by case_decide; rewrite ?Hf.
Qed.

Lemma keys_delete P `{∀ r, Decision (P r)} t : keys (delete_where P t) `sublist_of` keys t.
Proof.
  unfold delete_where. induction t as [|r t IH]; [done|].
  rewrite filter_cons. case_decide; simpl; destruct (key r); by constructor || done.
Qed.

Lemma unique_update P `{∀ r, Decision (P r)} f t :
  (∀ r, key (f r) = key r) → unique t → unique (update_where P f t).
Proof. unfold unique. intros. by rewrite keys_update. Qed.

Lemma unique_delete P `{∀ r, Decision (P r)} t : unique t → unique (delete_where P t).
Proof. intros Ht. eapply sublist_NoDup; [exact Ht|apply keys_delete]. Qed.

Lemma unique_snoc r t : conflicts r t = false → unique t → unique (t ++ [r]).
Proof.
  unfold unique. rewrite keys_app. intros Hc Ht. apply NoDup_app. split; [done|].
  simpl. destruct (key r) as [k|] eqn:Hk.
  - split; [|apply NoDup_singleton]. intros k' Hk' ->%list_elem_of_singleton.
    assert (conflicts r t = true) as Ht' by (apply conflicts_spec; eauto). congruence.
  - split; [by intros ? ? ?%elem_of_nil|constructor].
Qed.

Lemma unique_upsert merge r t :
  (∀ r r', key (merge r r') = key r) → unique t → unique (upsert merge r t).
Proof.
  intros Hm Ht. unfold upsert. destruct (key r) as [k|] eqn:Hk.
  - destruct (select_pk k t) eqn:E; [by apply unique_update|].
    apply unique_snoc; [|done]. unfold conflicts. by rewrite Hk, E.
  - apply unique_snoc; [|done]. unfold conflicts. by rewrite Hk.
Qed.

Lemma unique_insert_or_ignore r t : unique t → unique (insert_or_ignore r t).
Proof.
  intros Ht. unfold insert_or_ignore. destruct (conflicts r t) eqn:Hc; [done|].
  by apply unique_snoc.
Qed.

Lemma to_map_snoc r t :
  conflicts r t = false →
  to_map (t ++ [r]) = match key r with Some k => <[k := r]> (to_map t) | None => to_map t end.
Proof.
  intros Hc. induction t as [|r' t IH]; simpl; [done|].
  assert (conflicts r t = false) as Hc'.
  { apply not_true_is_false. intros (k & ? & ?%elem_of_keys)%conflicts_spec.
    apply not_true_iff_false in Hc. apply Hc, conflicts_spec. exists k. split; [done|].
    apply elem_of_keys. simpl. case_decide; eauto. }
  rewrite IH by done. destruct (key r) as [k|] eqn:Hk, (key r') as [k'|] eqn:Hk'; try done.
  apply insert_insert_ne. intros ->. apply not_true_iff_false in Hc. apply Hc, conflicts_spec.
  exists k. split; [done|]. apply elem_of_keys. simpl. rewrite decide_True by done. eauto.
Qed.

Lemma to_map_update P `{∀ r, Decision (P r)} f t :
  (∀ r, key (f r) = key r) →
  to_map (update_where P f t) = (λ r, if decide (P r) then f r else r) <$> to_map t.
Proof.
  intros Hf. unfold update_where. induction t as [|r t IH]; csimpl; [by rewrite fmap_empty|].
  rewrite IH. assert (key (if decide (P r) then f r else r) = key r) as ->.
  { case_decide; auto. }
  destruct (key r); [by rewrite fmap_insert|done].
Qed.

Lemma to_map_update_key k f t :
  (∀ r, key (f r) = key r) →
  to_map (update_where (λ r, key r = Some k) f t) = alter f k (to_map t).
Proof.
  intros Hf. rewrite to_map_update by done. apply map_eq. intros k'.
  rewrite lookup_fmap, lookup_alter, !to_map_lookup.
  case_decide as Hk; [subst k'|];
    (destruct (select_pk _ t) as [r|] eqn:E; [|done]); simpl;
    apply select_pk_Some in E as [_ E].
  - by rewrite decide_True.
  - rewrite decide_False; [done|congruence].
Qed.

Lemma to_map_delete P `{∀ r, Decision (P r)} t :
  unique t → to_map (delete_where P t) = filter (λ kr, ¬ P kr.2) (to_map t).
Proof.
  intros Ht. apply map_eq. intros k. apply option_eq. intros r.
  rewrite map_lookup_filter_Some, !to_map_lookup. simpl. split.
  - intros [[HP Hr]%list_elem_of_filter Hk]%select_pk_Some.
    split; [by apply select_pk_elem|done].
  - intros [[Hr Hk]%select_pk_Some HP]. apply select_pk_elem; [by apply unique_delete| |done].
    by apply list_elem_of_filter.
Qed.

Lemma to_map_upsert merge r t k :
  (∀ r r', key (merge r r') = key r) → key r = Some k →
  to_map (upsert merge r t) =
  <[k := from_option (λ old, merge old r) r (to_map t !! k)]> (to_map t).
Proof.
  intros Hm Hk. unfold upsert. rewrite Hk, to_map_lookup.
  destruct (select_pk k t) as [old|] eqn:E.
  - rewrite to_map_update_key by auto. apply map_eq. intros j.
    rewrite lookup_alter, lookup_insert, !to_map_lookup.
    case_decide; [subst; by rewrite E|done].
  - rewrite to_map_snoc, Hk; [done|]. unfold conflicts. by rewrite Hk, E.
Qed.

Lemma to_map_insert_or_ignore r t k :
  key r = Some k →
  to_map (insert_or_ignore r t) =
  match to_map t !! k with Some _ => to_map t | None => <[k := r]> (to_map t) end.
Proof.
  intros Hk. unfold insert_or_ignore, conflicts. rewrite Hk, to_map_lookup.
  destruct (select_pk k t) eqn:E; [done|].
  rewrite to_map_snoc, Hk; [done|]. unfold conflicts. by rewrite Hk, E.
Qed.

Lemma to_map_upsert_null merge r t : key r = None → to_map (upsert merge r t) = to_map t.
Proof.
  intros Hk. unfold upsert. rewrite Hk, to_map_snoc, Hk; [done|]. unfold conflicts. by rewrite Hk.
Qed.

Lemma to_map_insert_or_ignore_null r t :
  key r = None → to_map (insert_or_ignore r t) = to_map t.
Proof.
  intros Hk. unfold insert_or_ignore.
  assert (conflicts r t = false) as Hc by (unfold conflicts; by rewrite Hk).
  by rewrite Hc, to_map_snoc, Hk.
Qed.

Lemma insert_or_ignore_fresh r t k :
    key r = Some k → select_pk k t = None → insert_or_ignore r t = t ++ [r].
Proof. intros Hk Ht. unfold insert_or_ignore, conflicts. by rewrite Hk, Ht. Qed.

(** *** Rows after each statement *)

Lemma Forall_update_where (Q : R → Prop) P `{∀ r, Decision (P r)} f t :
  (∀ r, P r → Q r → Q (f r)) → Forall Q t → Forall Q (update_where P f t).
Proof.
  intros Hf Ht. apply Forall_fmap. eapply Forall_impl; [done|].
  intros r Hr; simpl. case_decide; auto.
Qed.

Lemma Forall_delete_where (Q : R → Prop) P `{∀ r, Decision (P r)} t :
  Forall Q t → Forall Q (delete_where P t).
Proof. rewrite !Forall_forall. intros Ht r [_ ?]%list_elem_of_filter. auto. Qed.

Lemma Forall_upsert (Q : R → Prop) merge r t :
  Q r → (∀ old, key old = key r → Q old → Q (merge old r)) →
  Forall Q t → Forall Q (upsert merge r t).
Proof.
  intros Hr Hm Ht. unfold upsert.
  destruct (key r) as [k|] eqn:Hk; [|apply Forall_app; eauto].
  destruct (select_pk k t); [|apply Forall_app; eauto].
  apply Forall_update_where; [|done]. eauto.
Qed.

Lemma Forall_insert_or_ignore (Q : R → Prop) r t :
  Q r → Forall Q t → Forall Q (insert_or_ignore r t).
Proof.
  intros Hr Ht. unfold insert_or_ignore. destruct (conflicts r t); [done|].
  apply Forall_app. eauto.
Qed.
End table.
