(* ===== verification/Storage.v ===== *)
(** * Node storage ([node/storage.py])

    The database of a node: [node_table], [cells], [presence_table] and
    [message_buffer].  Every SQL statement that writes is a constructor of
    [stmt], executed by [exec]; the methods of [Storage] bind their arguments,
    read the clock and run a statement.  They are written against the class
    [HasDB], so that any object that holds a database can use them.

    Text parameters are bound as SQLite binds them: numbers become their text in
    a TEXT column, byte strings stay blobs, [None] is NULL, and containers raise. *)
From stdpp Require Import pretty relations.
From S2P Require Import Prelude PyVal Interfaces Effects Table.
From S2P Require Samples.

Definition TTL_NODE_OFFLINE_SECS : Z := 72 * 3600.
Definition TTL_MESSAGE_SECS : Z := 72 * 3600.
Definition MISSED_PINGS_OFFLINE : Z := 3.

(** ** Rows *)

Record NodeEntry := mkNode {
  node_id : pyval;
  address : pyval;
  ntype : pyval;             (** the field [type] *)
  access : pyval;
  cert : bytes;
  parent_node : string;
  last_seen : Z;
  missed_pings : Z;
  status : string;
  added_at : Z;
}.

Definition to_dict (e : NodeEntry) : pyval := VDict [
  (KStr "node_id", node_id e);
  (KStr "address", address e);
  (KStr "type", ntype e);
  (KStr "access", access e);
  (KStr "cert", if truthy (VBin (cert e)) then VStr (bytes_hex (cert e)) else "");
  (KStr "parent_node", VStr (parent_node e));
  (KStr "last_seen", VInt (last_seen e));
  (KStr "status", VStr (status e))].

Record CellEntry := mkCell {
  cell_id : string;
  signing_pubkey : bytes;
  enc_pubkey : bytes;
  registered_at : Z;
  is_home : bool;
}.

Record PresenceEntry := mkPresence {
  pr_cell_id : string;
  home_node_id : string;
  visiting_node_id : option string;
  updated_at : Z;
}.

Record BufferedMessage := mkMessage {
  message_id : pyval;
  to_cell : string;
  to_node : string;
  bm_payload : bytes;
  created_at : Z;
  expires_at : Z;
}.

(** A row of [node_table] as SQLite returns it: the columns without NOT NULL may
    be NULL.  [_row_to_node] reads it, [node_row] is what [upsert_node] writes. *)
Record NodeRow := mkNodeRow {
  col_node_id : pyval; col_address : pyval; col_type : pyval; col_access : pyval;
  col_cert : option bytes; col_parent : option string;
  col_last_seen : Z; col_missed : Z; col_status : string; col_added : Z;
}.
Definition row_to_node (row : NodeRow) : NodeEntry := mkNode
  (col_node_id row) (col_address row) (col_type row) (col_access row)
  (match col_cert row with Some c => if truthy (VBin c) then c else [] | None => [] end)
  (match col_parent row with Some p => if truthy (VStr p) then p else "" | None => "" end)
  (col_last_seen row) (col_missed row) (col_status row) (col_added row).
Definition node_row (e : NodeEntry) : NodeRow := mkNodeRow
  (node_id e) (address e) (ntype e) (access e) (Some (cert e)) (Some (parent_node e))
  (last_seen e) (missed_pings e) (status e) (added_at e).

(** Reading back what was written: a table may be kept as a list of entries. *)
Lemma row_to_node_row e : row_to_node (node_row e) = e.
Proof.
  destruct e as [i a t c cert parent l m st ad]. unfold row_to_node, node_row. simpl. f_equal.
  - by destruct cert.
  - by destruct parent.
Qed.

Record DB := mkDB {
  node_table : list NodeEntry;
  cells : list CellEntry;
  presence_table : list PresenceEntry;
  message_buffer : list BufferedMessage;
}.

(** The schema creates the tables empty. *)
Definition empty_db : DB := mkDB [] [] [] [].

(** ** Keys and parameters *)

(** NULL is equal to nothing. *)
Definition sql_key (v : pyval) : option pyval :=
  match v with VNone => None | v => Some v end.

Definition node_key (e : NodeEntry) : option pyval := sql_key (node_id e).
Definition cell_key (c : CellEntry) : option string := Some (cell_id c).
Definition presence_key (p : PresenceEntry) : option string := Some (pr_cell_id p).
Definition message_key (m : BufferedMessage) : option pyval := sql_key (message_id m).

(** A parameter compared with, or stored into, a TEXT column. *)
Definition bind_text `{!PyRepr} (v : pyval) : result pyval :=
  match v with
  | VNone => Ok VNone
  | VStr s => Ok (VStr s)
  | VBin b => Ok (VBin b)
  | VBool b => Ok (VStr (if b then "1" else "0"))
  | VInt z => if decide (- 2^63 ≤ z < 2^63)%Z then Ok (VStr (pretty z)) else Raise OverflowError
  | VFloat f => Ok (from_option VStr VNone (real_text f))
  | VList _ | VDict _ | VExt _ _ => Raise BindingError
  end.

(** A TEXT NOT NULL column. *)
Definition not_null (v : pyval) : result unit :=
  match v with VNone => Raise IntegrityError | _ => Ok () end.

(** ** Statements *)

Inductive stmt :=
  | UpsertNode (e : NodeEntry)
  | PingSucceeded (k : pyval) (now : Z)
  | PingFailed (k : pyval)
  | RemoveNode (k : pyval)
  | CleanupNodes (cutoff : Z)
  | RegisterCell (c : CellEntry)
  | UpdatePresence (p : PresenceEntry)
  | BufferMessage (m : BufferedMessage)
  | DeleteBuffered (k : pyval)
  | CleanupMessages (now : Z).

(** [ON CONFLICT(node_id) DO UPDATE SET address, last_seen, missed_pings, status, cert] *)
Definition node_merge (old new : NodeEntry) : NodeEntry :=
  mkNode (node_id old) (address new) (ntype old) (access old) (cert new) (parent_node old)
    (last_seen new) (missed_pings new) (status new) (added_at old).

Definition node_seen (now : Z) (e : NodeEntry) : NodeEntry :=
  mkNode (node_id e) (address e) (ntype e) (access e) (cert e) (parent_node e)
    now 0 "online" (added_at e).

Definition node_missed (e : NodeEntry) : NodeEntry :=
  mkNode (node_id e) (address e) (ntype e) (access e) (cert e) (parent_node e)
    (last_seen e) (missed_pings e + 1)
    (if decide (MISSED_PINGS_OFFLINE ≤ missed_pings e + 1)%Z then "offline" else status e)
    (added_at e).

(** [status='offline' AND last_seen < cutoff] *)
Definition node_expired (cutoff : Z) (e : NodeEntry) : Prop :=
  status e = "offline" ∧ (last_seen e < cutoff)%Z.
#[global] Instance node_expired_dec cutoff e : Decision (node_expired cutoff e) := _.

Definition cell_merge (old new : CellEntry) : CellEntry :=
  mkCell (cell_id old) (signing_pubkey new) (enc_pubkey new) (registered_at old) (is_home old).

Definition presence_merge (old new : PresenceEntry) : PresenceEntry :=
  mkPresence (pr_cell_id old) (home_node_id new) (visiting_node_id new) (updated_at new).

Definition set_nodes (f : list NodeEntry → list NodeEntry) (d : DB) : DB :=
  mkDB (f (node_table d)) (cells d) (presence_table d) (message_buffer d).
Definition set_cells (f : list CellEntry → list CellEntry) (d : DB) : DB :=
  mkDB (node_table d) (f (cells d)) (presence_table d) (message_buffer d).
Definition set_presence (f : list PresenceEntry → list PresenceEntry) (d : DB) : DB :=
  mkDB (node_table d) (cells d) (f (presence_table d)) (message_buffer d).
Definition set_buffer (f : list BufferedMessage → list BufferedMessage) (d : DB) : DB :=
  mkDB (node_table d) (cells d) (presence_table d) (f (message_buffer d)).

(** [WHERE node_id = ?] *)
Definition is_node (k : pyval) (e : NodeEntry) : Prop :=
  sql_key k ≠ None ∧ node_key e = sql_key k.
#[global] Instance is_node_dec k e : Decision (is_node k e) := _.
Definition is_message (k : pyval) (m : BufferedMessage) : Prop :=
  sql_key k ≠ None ∧ message_key m = sql_key k.
#[global] Instance is_message_dec k m : Decision (is_message k m) := _.

Definition exec (s : stmt) : DB → DB :=
  match s with
  | UpsertNode e => set_nodes (upsert node_key node_merge e)
  | PingSucceeded k now => set_nodes (update_where (is_node k) (node_seen now))
  | PingFailed k => set_nodes (update_where (is_node k) node_missed)
  | RemoveNode k => set_nodes (delete_where (is_node k))
  | CleanupNodes cutoff => set_nodes (delete_where (node_expired cutoff))
  | RegisterCell c => set_cells (upsert cell_key cell_merge c)
  | UpdatePresence p => set_presence (upsert presence_key presence_merge p)
  | BufferMessage m => set_buffer (insert_or_ignore message_key m)
  | DeleteBuffered k => set_buffer (delete_where (is_message k))
  | CleanupMessages now => set_buffer (delete_where (λ m, expires_at m ≤ now)%Z)
  end.

(** ** The methods of [Storage] *)

(** An object that holds a database. *)
Class HasDB (S : Type) := {
  get_db : S → DB;
  put_db : DB → S → S;
  get_put_db d s : get_db (put_db d s) = d;
}.

#[export] Instance db_has_db : HasDB DB := {| get_db d := d; put_db d _ := d; get_put_db d s := eq_refl |}.

Section storage.
Context `{!PyRepr} `{!Ed25519} `{!E2E} `{!Env}.
Context {S : Type} `{!HasDB S} {m : Type → Type}.
Context `{!MRet m, !MBind m, !MLift m, !MGets S m, !MModify S m, !MInteract S m, !MAwait m}.

Definition query {A} (f : DB → A) : m A := await (gets (λ s, f (get_db s))).
Definition run (st : stmt) : m unit := await (modify (λ s, put_db (exec st (get_db s)) s)).

Definition upsert_node (entry : NodeEntry) : m unit :=
  now ← (if decide (added_at entry = 0%Z) then time else mret (added_at entry));
  i ← lift (bind_text (node_id entry));
  a ← lift (bind_text (address entry));
  t ← lift (bind_text (ntype entry));
  c ← lift (bind_text (access entry));
  lift (not_null a) ;; lift (not_null t) ;; lift (not_null c) ;;
  run (UpsertNode (mkNode i a t c (cert entry) (parent_node entry) (last_seen entry)
                     (missed_pings entry) (status entry) now)).

Definition get_node (k : pyval) : m (option NodeEntry) :=
  k ← lift (bind_text k);
  query (λ d, k' ← sql_key k; select_pk node_key k' (node_table d)).

Definition get_all_nodes : m (list NodeEntry) := query node_table.

Definition get_online_nodes : m (list NodeEntry) :=
  query (λ d, filter (λ e, status e = "online") (node_table d)).

Definition update_node_ping (k : pyval) (success : bool) : m unit :=
  now ← time;
  k ← lift (bind_text k);
  run (if success then PingSucceeded k now else PingFailed k).

Definition remove_node (k : pyval) : m unit :=
  k ← lift (bind_text k); run (RemoveNode k).

Definition cleanup_expired_nodes : m unit :=
  now ← time; run (CleanupNodes (now - TTL_NODE_OFFLINE_SECS)%Z).

Definition register_cell (id : string) (sign_pub enc_pub : bytes) (home : bool) : m unit :=
  now ← time; run (RegisterCell (mkCell id sign_pub enc_pub now home)).

(** Looking a cell up by a value that is not text finds no row. *)
Definition text_key (v : pyval) : option string :=
  match v with VStr s => Some s | _ => None end.

Definition get_cell (k : pyval) : m (option CellEntry) :=
  k ← lift (bind_text k);
  query (λ d, k' ← text_key k; select_pk cell_key k' (cells d)).

Definition list_cells (home_only : bool) : m (list CellEntry) :=
  query (λ d, if home_only then filter (λ c, is_home c = true) (cells d) else cells d).

Definition update_presence (id home : string) (visiting : option string) : m unit :=
  now ← time; run (UpdatePresence (mkPresence id home visiting now)).

Definition get_presence (k : pyval) : m (option PresenceEntry) :=
  k ← lift (bind_text k);
  query (λ d, k' ← text_key k; select_pk presence_key k' (presence_table d)).

Definition buffer_message (id : pyval) (cell node : string) (body : bytes) : m unit :=
  now ← time;
  id ← lift (bind_text id);
  run (BufferMessage (mkMessage id cell node body now (now + TTL_MESSAGE_SECS)%Z)).

(** [to_cell=? AND expires_at > ?] *)
Definition deliverable (cell : string) (now : Z) (m : BufferedMessage) : Prop :=
  to_cell m = cell ∧ (now < expires_at m)%Z.
#[global] Instance deliverable_dec cell now m : Decision (deliverable cell now m) := _.

Definition get_buffered (cell : string) : m (list BufferedMessage) :=
  now ← time; query (λ d, filter (deliverable cell now) (message_buffer d)).

Definition delete_buffered (id : pyval) : m unit :=
  id ← lift (bind_text id); run (DeleteBuffered id).

Definition cleanup_expired_messages : m unit :=
  now ← time; run (CleanupMessages now).
End storage.

(** ** The abstract database

    What the storage promises: four finite maps.  [exec_abs] says what each
    statement does to them. *)

Record AbsDB := mkAbs {
  a_nodes : gmap pyval NodeEntry;
  a_cells : gmap string CellEntry;
  a_presence : gmap string PresenceEntry;
  a_buffer : gmap pyval BufferedMessage;
}.

Definition abs (d : DB) : AbsDB :=
  mkAbs (to_map node_key (node_table d)) (to_map cell_key (cells d))
    (to_map presence_key (presence_table d)) (to_map message_key (message_buffer d)).

Definition abs_upsert {K R} `{Countable K} (merge : R → R → R) (k : K) (r : R)
    (m : gmap K R) : gmap K R :=
  <[k := from_option (λ old, merge old r) r (m !! k)]> m.

(** A statement applied to the key it names; NULL names nothing. *)
Definition at_key {A} (k : pyval) (f : pyval → A → A) (a : A) : A :=
  match sql_key k with Some k => f k a | None => a end.

Definition on_nodes f (a : AbsDB) : AbsDB :=
  mkAbs (f (a_nodes a)) (a_cells a) (a_presence a) (a_buffer a).
Definition on_cells f (a : AbsDB) : AbsDB :=
  mkAbs (a_nodes a) (f (a_cells a)) (a_presence a) (a_buffer a).
Definition on_presence f (a : AbsDB) : AbsDB :=
  mkAbs (a_nodes a) (a_cells a) (f (a_presence a)) (a_buffer a).
Definition on_buffer f (a : AbsDB) : AbsDB :=
  mkAbs (a_nodes a) (a_cells a) (a_presence a) (f (a_buffer a)).

Definition exec_abs (s : stmt) : AbsDB → AbsDB :=
  match s with
  | UpsertNode e => on_nodes (at_key (node_id e) (λ k, abs_upsert node_merge k e))
  | PingSucceeded k now => on_nodes (at_key k (alter (node_seen now)))
  | PingFailed k => on_nodes (at_key k (alter node_missed))
  | RemoveNode k => on_nodes (at_key k delete)
  | CleanupNodes cutoff => on_nodes (filter (λ ke, ¬ node_expired cutoff ke.2))
  | RegisterCell c => on_cells (abs_upsert cell_merge (cell_id c) c)
  | UpdatePresence p => on_presence (abs_upsert presence_merge (pr_cell_id p) p)
  | BufferMessage m => on_buffer (at_key (message_id m) (λ k b,
      match b !! k with Some _ => b | None => <[k := m]> b end))
  | DeleteBuffered k => on_buffer (at_key k delete)
  | CleanupMessages now => on_buffer (filter (λ km, ¬ (expires_at km.2 ≤ now)%Z))
  end.

(** ** Well-formed databases *)

(** The constraints of the schema: distinct primary keys, NOT NULL columns; and
    the expiry of a buffered message, which is fixed when it is stored. *)
Record db_wf (d : DB) : Prop := {
  wf_nodes : unique node_key (node_table d);
  wf_cells : unique cell_key (cells d);
  wf_presence : unique presence_key (presence_table d);
  wf_buffer : unique message_key (message_buffer d);
  wf_not_null : Forall (λ e, address e ≠ VNone ∧ ntype e ≠ VNone ∧ access e ≠ VNone)
    (node_table d);
  wf_ttl : Forall (λ m, expires_at m = created_at m + TTL_MESSAGE_SECS)%Z (message_buffer d);
}.

(** What the methods check before they run a statement. *)
Definition stmt_ok (s : stmt) : Prop :=
  match s with
  | UpsertNode e => address e ≠ VNone ∧ ntype e ≠ VNone ∧ access e ≠ VNone
  | BufferMessage m => (expires_at m = created_at m + TTL_MESSAGE_SECS)%Z
  | _ => True
  end.

Lemma empty_db_wf : db_wf empty_db.
Proof. split; constructor. Qed.

Lemma exec_wf s d : stmt_ok s → db_wf d → db_wf (exec s d).
Proof.
  intros Hs []. destruct s; split; simpl in *; try done;
    try (first [apply unique_update|apply unique_delete|apply unique_upsert
      |apply unique_insert_or_ignore|apply Forall_update_where|apply Forall_delete_where
      |apply Forall_insert_or_ignore]; done).
  apply Forall_upsert; naive_solver.
Qed.

Lemma sql_key_Some v k : sql_key v = Some k → k = v ∧ v ≠ VNone.
Proof. by destruct v; intros [= <-]. Qed.
Lemma sql_key_not_none v : v ≠ VNone → sql_key v = Some v.
Proof. by destruct v. Qed.

(** [is_node k], on a key, is a lookup of that key. *)
Lemma update_is_node k f t :
  (∀ e, node_key (f e) = node_key e) →
  to_map node_key (update_where (is_node k) f t) =
  at_key k (alter f) (to_map node_key t).
Proof.
  intros Hf. unfold at_key. destruct (sql_key k) as [k'|] eqn:Hk.
  - rewrite <-to_map_update_key by done. rewrite !to_map_update by done.
    apply map_fmap_ext. intros i e _.
    assert (is_node k e ↔ node_key e = Some k') by (unfold is_node; rewrite Hk; naive_solver).
    do 2 case_decide; tauto.
  - rewrite to_map_update by done. rewrite <-(map_fmap_id (to_map _ t)) at 2.
    apply map_fmap_ext. intros i e _. rewrite decide_False; [done|]. by intros [].
Qed.

Lemma delete_by_key {R} (key : R → option pyval) k (t : list R) (P : R → Prop)
    `{∀ r, Decision (P r)} :
  (∀ r, P r ↔ sql_key k ≠ None ∧ key r = sql_key k) → unique key t →
  to_map key (delete_where P t) = at_key k delete (to_map key t).
Proof.
  intros HP Ht. rewrite to_map_delete by done. unfold at_key.
  apply map_eq. intros i. apply option_eq. intros r.
  rewrite map_lookup_filter_Some. simpl. rewrite HP.
  destruct (sql_key k) as [k'|] eqn:Hk.
  - rewrite lookup_delete_Some, to_map_lookup. split.
    + intros [Hr Hn]. split; [|done]. intros <-. apply select_pk_Some in Hr as [_ ?]. naive_solver.
    + intros [Hne Hr]. split; [done|]. apply select_pk_Some in Hr as [_ ?]. intros [_ ?]. congruence.
  - rewrite to_map_lookup. naive_solver.
Qed.

Lemma set_nodes_abs f g d :
  to_map node_key (f (node_table d)) = g (to_map node_key (node_table d)) →
  abs (set_nodes f d) = on_nodes g (abs d).
Proof. intros H. unfold abs, on_nodes; simpl. by rewrite H. Qed.
Lemma set_buffer_abs f g d :
  to_map message_key (f (message_buffer d)) = g (to_map message_key (message_buffer d)) →
  abs (set_buffer f d) = on_buffer g (abs d).
Proof. intros H. unfold abs, on_buffer; simpl. by rewrite H. Qed.

Lemma exec_refines_abs s d : db_wf d → abs (exec s d) = exec_abs s (abs d).
Proof.
  intros []. destruct s; simpl in *.
  - apply set_nodes_abs. unfold at_key. destruct (sql_key (node_id e)) as [k|] eqn:Hk.
    + by apply to_map_upsert.
    + by apply to_map_upsert_null.
  - apply set_nodes_abs. by apply update_is_node.
  - apply set_nodes_abs. by apply update_is_node.
  - apply set_nodes_abs. by apply delete_by_key.
  - apply set_nodes_abs. by apply to_map_delete.
  - unfold abs, on_cells, abs_upsert; simpl. by rewrite (to_map_upsert cell_key _ c _ (cell_id c)).
  - unfold abs, on_presence, abs_upsert; simpl.
    by rewrite (to_map_upsert presence_key _ p _ (pr_cell_id p)).
  - apply set_buffer_abs. unfold at_key. destruct (sql_key (message_id m)) as [k|] eqn:Hk.
    + by apply to_map_insert_or_ignore.
    + by apply to_map_insert_or_ignore_null.
  - apply set_buffer_abs. by apply delete_by_key.
  - apply set_buffer_abs. by apply to_map_delete.
Qed.

(** ** Histories of statements *)

(** [steps Φ d d']: [d'] results from [d] by statements that satisfy [Φ]. *)
Definition steps (Φ : stmt → Prop) : relation DB :=
  rtc (λ d d', ∃ s, Φ s ∧ d' = exec s d).

(** The statements that the program itself runs: a node enters the table as
    [online] with no missed ping, and a cell under the identifier its key spells.
    [allowed] are the identifiers of nodes that may enter.  With [home], a cell's
    presence is recorded there only, and nothing is put into the buffer. *)
Definition anything : pyval → Prop := λ _, True.
Definition program_stmt (allowed : pyval → Prop) (home : option string) (s : stmt) : Prop :=
  match s with
  | UpsertNode e =>
      allowed (node_id e) ∧ (address e ≠ VNone ∧ ntype e ≠ VNone ∧ access e ≠ VNone) ∧
      status e = "online" ∧ missed_pings e = 0%Z
  | RegisterCell c => cell_id c = bytes_hex (signing_pubkey c)
  | UpdatePresence p =>
      visiting_node_id p = None ∧ ∀ h, home = Some h → home_node_id p = h
  | BufferMessage m => (expires_at m = created_at m + TTL_MESSAGE_SECS)%Z ∧ home = None
  | _ => True
  end.

(** A node is offline exactly when it has missed three pings in a row. *)
Definition ping_state_ok (e : NodeEntry) : Prop :=
  (0 ≤ missed_pings e)%Z ∧
  status e = (if decide (MISSED_PINGS_OFFLINE ≤ missed_pings e)%Z then "offline" else "online").

Record db_inv (d : DB) : Prop := {
  inv_wf : db_wf d;
  inv_ping : Forall ping_state_ok (node_table d);
  inv_cells : Forall (λ c, cell_id c = bytes_hex (signing_pubkey c)) (cells d);
}.

Lemma empty_db_inv : db_inv empty_db.
Proof. split; [apply empty_db_wf|constructor..]. Qed.

Lemma program_stmt_ok allowed home s : program_stmt allowed home s → stmt_ok s.
Proof. destruct s; simpl; naive_solver. Qed.

Lemma ping_state_missed e : ping_state_ok e → ping_state_ok (node_missed e).
Proof.
  unfold ping_state_ok, MISSED_PINGS_OFFLINE. intros [Hm Hs]; simpl. split; [lia|].
  unfold MISSED_PINGS_OFFLINE. rewrite Hs. repeat case_decide; done || lia.
Qed.

Lemma exec_inv allowed home s d : program_stmt allowed home s → db_inv d → db_inv (exec s d).
Proof.
  intros Hs [Hwf Hp Hc]. split; [apply exec_wf; [by eapply program_stmt_ok|done]|..];
    destruct s; simpl in *; try done; try by apply Forall_delete_where.
  - destruct Hs as (_ & _ & Hon & Hm).
    apply Forall_upsert; [|intros old _ _|done]; unfold ping_state_ok; simpl; by rewrite Hm, Hon.
  - by apply Forall_update_where.
  - apply Forall_update_where; [|done]. intros e _. apply ping_state_missed.
  - apply Forall_upsert; [done| |done]. intros old [= Hk] _. simpl. congruence.
Qed.

Lemma steps_inv allowed home d d' :
  steps (program_stmt allowed home) d d' → db_inv d → db_inv d'.
Proof.
  unfold steps. induction 1 as [|d1 d2 d3 (s & Hs & ->) _ IH]; [done|].
  intros Hd. eapply IH, exec_inv; eauto.
Qed.

(** The nodes that a database lists. *)
Definition lists_only (allowed : pyval → Prop) (d : DB) : Prop :=
  Forall (λ e, allowed (node_id e)) (node_table d).
Lemma exec_lists allowed home s d :
  program_stmt allowed home s → lists_only allowed d → lists_only allowed (exec s d).
Proof.
  intros Hs Hd. unfold lists_only in *. destruct s; simpl in *; try done;
    try by apply Forall_delete_where.
  - destruct Hs as [Ha _]. by apply Forall_upsert.
  - by apply Forall_update_where.
  - by apply Forall_update_where.
Qed.
Lemma steps_list allowed home d d' :
  steps (program_stmt allowed home) d d' → lists_only allowed d → lists_only allowed d'.
Proof.
  unfold steps. induction 1 as [|d1 d2 d3 (s & Hs & ->) _ IH]; [done|].
  intros Hd. by eapply IH, exec_lists.
Qed.

(** Every cell that the database knows of is at home there, and away nowhere. *)
Definition homed_only (home : string) (d : DB) : Prop :=
  Forall (λ p, home_node_id p = home ∧ visiting_node_id p = None) (presence_table d).
Lemma exec_homed allowed h s d :
  program_stmt allowed (Some h) s → homed_only h d →
  homed_only h (exec s d) ∧ message_buffer (exec s d) `sublist_of` message_buffer d.
Proof.
  intros Hs Hd. unfold homed_only in *.
  destruct s; simpl in *; try (split; [done|]; first [done|apply sublist_filter]).
  - destruct Hs as [Hv Hh]. split; [|done]. by apply Forall_upsert; auto.
  - by destruct Hs.
Qed.

Lemma steps_homed allowed h d d' : steps (program_stmt allowed (Some h)) d d' → homed_only h d →
  homed_only h d' ∧ message_buffer d' `sublist_of` message_buffer d.
Proof.
  unfold steps. induction 1 as [|d1 d2 d3 (s & Hs & ->) _ IH]; [done|]. intros Hd.
  destruct (exec_homed _ _ _ _ Hs Hd) as [Hd2 Hsub]. destruct (IH Hd2). split; [done|by etrans].
Qed.

(** A set of statements, and a condition on the database that they keep. *)
Record policy := mkPolicy {
  may_run :> stmt → Prop;
  holds_in : DB → Prop;
  policy_keeps s d : may_run s → holds_in d → holds_in (exec s d);
}.
Lemma steps_keep (Φ : policy) d d' : steps Φ d d' → holds_in Φ d → holds_in Φ d'.
Proof.
  unfold steps. induction 1 as [|d1 d2 d3 (s & Hs & ->) _ IH]; [done|].
  intros Hd. by apply IH, policy_keeps.
Qed.

(** The program's statements; with [home], on a database where every cell is at
    home. *)
Program Definition program (allowed : pyval → Prop) (home : option string) : policy :=
  mkPolicy (program_stmt allowed home) (from_option homed_only (λ _, True) home) _.
Next Obligation. intros allowed [h|] s d Hs Hd; [by eapply exec_homed|done]. Qed.

(** What the methods do to the object, for a relation [R] that allows the
    statements in [Φ]. *)
Section method_lemmas.
Context `{!PyRepr} `{!Ed25519} `{!E2E} `{!Env}.
Context {S : Type} `{!HasDB S} {m : Type → Type} `{EffectRules S m}.
Context (R : relation S) `{!Change R} (Φ : stmt → Prop).
Context (HR : ∀ st s, Φ st → R s s → R s (put_db (exec st (get_db s)) s)).

Lemma knows_query {A} (f : DB → A) (P : A → Prop) :
  (∀ s, R s s → P (f (get_db s))) → knows R P (query f).
Proof. intros Hf. by apply knows_await, knows_gets. Qed.
Lemma pres_query {A} (f : DB → A) : pres R (query f).
Proof. apply pres_await, pres_gets; apply _. Qed.

Lemma pres_run st : Φ st → pres R (run st).
Proof. intros Hst. apply pres_await, pres_modify; [apply _|]. auto. Qed.

Lemma not_null_Ok v u : not_null v = Ok u → v ≠ VNone.
Proof. by destruct v. Qed.

Lemma pres_upsert_node e :
  (∀ i a t c now, bind_text (node_id e) = Ok i → a ≠ VNone → t ≠ VNone → c ≠ VNone →
    Φ (UpsertNode (mkNode i a t c (cert e) (parent_node e) (last_seen e)
      (missed_pings e) (status e) now))) →
  pres R (upsert_node e).
Proof.
  intros He. unfold upsert_node.
  apply pres_bind; [apply _|case_decide; [apply pres_ask|apply pres_ret]; apply _|intros now].
  apply pres_lift_bind; [apply _|intros i Hi].
  do 3 (apply pres_lift_bind; [apply _|intros ? _]).
  do 3 (apply pres_lift_bind; [apply _|intros [] ?%not_null_Ok]).
  by apply pres_run, He.
Qed.

Lemma pres_get_node k : pres R (get_node k).
Proof. apply pres_lift_bind; [apply _|]. intros ? _. apply pres_query. Qed.
Lemma pres_get_cell k : pres R (get_cell k).
Proof. apply pres_lift_bind; [apply _|]. intros ? _. apply pres_query. Qed.
Lemma pres_get_presence k : pres R (get_presence k).
Proof. apply pres_lift_bind; [apply _|]. intros ? _. apply pres_query. Qed.
Lemma pres_get_buffered c : pres R (get_buffered c).
Proof. apply pres_bind; [apply _|apply pres_ask, _|]. intros now. apply pres_query. Qed.

Lemma pres_update_node_ping k b :
  (∀ k now, Φ (PingSucceeded k now)) → (∀ k, Φ (PingFailed k)) →
  pres R (update_node_ping k b).
Proof.
  intros Hs Hf. apply pres_bind; [apply _|apply pres_ask, _|]. intros now.
  apply pres_lift_bind; [apply _|]. intros k' _. apply pres_run. by destruct b.
Qed.

Lemma pres_remove_node k : (∀ k, Φ (RemoveNode k)) → pres R (remove_node k).
Proof. intros H'. apply pres_lift_bind; [apply _|]. intros k' _. by apply pres_run. Qed.
Lemma pres_delete_buffered k : (∀ k, Φ (DeleteBuffered k)) → pres R (delete_buffered k).
Proof. intros H'. apply pres_lift_bind; [apply _|]. intros k' _. by apply pres_run. Qed.

Lemma pres_timed (f : Z → stmt) : (∀ now, Φ (f now)) → pres R (now ← time; run (f now)).
Proof. intros H'. apply pres_bind; [apply _|apply pres_ask, _|]. intros now. by apply pres_run. Qed.

Lemma pres_register_cell i sp ep h :
  (∀ now, Φ (RegisterCell (mkCell i sp ep now h))) → pres R (register_cell i sp ep h).
Proof. apply (pres_timed (λ now, RegisterCell (mkCell i sp ep now h))). Qed.
Lemma pres_update_presence i h vis :
  (∀ now, Φ (UpdatePresence (mkPresence i h vis now))) → pres R (update_presence i h vis).
Proof. apply (pres_timed (λ now, UpdatePresence (mkPresence i h vis now))). Qed.
Lemma pres_cleanup_expired_nodes :
  (∀ c, Φ (CleanupNodes c)) → pres R cleanup_expired_nodes.
Proof. intros H'. by apply (pres_timed (λ now, CleanupNodes (now - TTL_NODE_OFFLINE_SECS)%Z)). Qed.
Lemma pres_cleanup_expired_messages :
  (∀ c, Φ (CleanupMessages c)) → pres R cleanup_expired_messages.
Proof. intros H'. by apply (pres_timed CleanupMessages). Qed.

Lemma pres_buffer_message i c n b :
  (∀ i now, Φ (BufferMessage (mkMessage i c n b now (now + TTL_MESSAGE_SECS)%Z))) →
  pres R (buffer_message i c n b).
Proof.
  intros H'. apply pres_bind; [apply _|apply pres_ask, _|]. intros now.
  apply pres_lift_bind; [apply _|]. intros k' _. by apply pres_run.
Qed.
End method_lemmas.

(** ** Properties *)

Definition exec_all (l : list stmt) (d : DB) : DB := foldl (flip exec) d l.

Lemma exec_all_refines l d :
  db_wf d → Forall stmt_ok l →
  db_wf (exec_all l d) ∧ abs (exec_all l d) = foldl (flip exec_abs) (abs d) l.
Proof.
  intros Hd Hl. revert d Hd. induction Hl as [|s l Hs _ IH]; intros d Hd; [done|].
  simpl. rewrite <-exec_refines_abs by done. apply IH. by apply exec_wf.
Qed.

Section storage_properties.
Context `{!PyRepr} `{!Ed25519} `{!E2E} `{!Env}.
Context {S : Type} `{!HasDB S}.
Implicit Types (w : World S).

Lemma update_select_node k f t :
  (∀ e, node_key (f e) = node_key e) →
  select_pk node_key (VStr k) (update_where (is_node (VStr k)) f t) =
  f <$> select_pk node_key (VStr k) t.
Proof.
  intros Hf. rewrite <-!to_map_lookup, update_is_node by done. unfold at_key; simpl.
  by rewrite lookup_alter, decide_True.
Qed.

Lemma ping_fails_count n k w e :
  select_pk node_key (VStr k) (node_table (get_db (w_st w))) = Some e → ping_state_ok e →
  wp (for_each (replicate n ()) (λ _, update_node_ping (VStr k) false)) (λ r w', r = Ok () ∧
    ∃ e', select_pk node_key (VStr k) (node_table (get_db (w_st w'))) = Some e' ∧
      ping_state_ok e' ∧ missed_pings e' = (missed_pings e + Z.of_nat n)%Z ∧
      last_seen e' = last_seen e) w.
Proof.
  revert w e. induction n as [|n IH]; intros w e He Hok; simpl.
  - split; [done|]. exists e. split_and!; [done..|lia|done].
  - unfold wp in *. unfold update_node_ping at 1 3, run, await, M_await, modify, M_modify, time,
    ask, interact, M_interact, lift, M_lift, mbind, M_bind.
    simpl. match goal with |- context [for_each _ _ ?w] => set (w1 := w) end.
    assert (select_pk node_key (VStr k) (node_table (get_db (w_st w1))) = Some (node_missed e))
      as He1.
    { unfold w1; simpl. rewrite get_put_db. simpl. rewrite update_select_node by done.
      by rewrite He. }
    destruct (IH w1 _ He1 (ping_state_missed _ Hok)) as (Hr & e' & ? & ? & Hm & ?).
    split; [exact Hr|]. exists e'. split_and!; try done. rewrite Hm. simpl. lia.
Qed.

(** C5: the storage implements finite maps.  Along every sequence of
    statements the tables keep their constraints and their abstract view evolves
    as the maps do, so that what a method reads by primary key is what the map
    holds under that key. *)
Theorem storage_refines_maps d l w :
  db_wf d → Forall stmt_ok l → get_db (w_st w) = exec_all l d →
  let a := foldl (flip exec_abs) (abs d) l in
  db_wf (exec_all l d) ∧ abs (exec_all l d) = a ∧
  (∀ k, (get_node (VStr k) w).1 = Ok (a_nodes a !! VStr k)) ∧
  (∀ k, (get_cell (VStr k) w).1 = Ok (a_cells a !! k)) ∧
  (∀ k, (get_presence (VStr k) w).1 = Ok (a_presence a !! k)).
Proof.
  intros Hd Hl Hw a. destruct (exec_all_refines l d Hd Hl) as [Hwf Ha].
  split; [done|]. split; [done|]. unfold a. rewrite <-Ha.
  unfold get_node, get_cell, get_presence, query, await, M_await, gets, M_gets, lift, M_lift,
    mbind, M_bind; simpl.
  rewrite Hw. split_and!; intros k; by rewrite to_map_lookup.
Qed.

(** A node goes offline at the third ping in a row that it misses, not
    before: after [n] failed pings an online node with a clean record has missed
    [n] pings, was last seen when it was, and is offline exactly if [3 <= n]. *)
Theorem offline_at_third_missed_ping n k w e :
  select_pk node_key (VStr k) (node_table (get_db (w_st w))) = Some e →
  status e = "online" → missed_pings e = 0%Z →
  wp (for_each (replicate n ()) (λ _, update_node_ping (VStr k) false)) (λ r w', r = Ok () ∧
    ∃ e', select_pk node_key (VStr k) (node_table (get_db (w_st w'))) = Some e' ∧
      missed_pings e' = Z.of_nat n ∧ last_seen e' = last_seen e ∧
      (status e' = "offline" ↔ 3 ≤ n) ∧ (status e' = "online" ↔ n < 3)) w.
Proof.
  intros He Hs Hm. eapply wp_mono; [apply (ping_fails_count n k w e He)|].
  { split; [lia|]. by rewrite Hs, Hm. }
  intros r w' (-> & e' & He' & [_ Hst] & Hn & Hl). split; [done|]. exists e'.
  rewrite Hn, Hm in Hst. unfold MISSED_PINGS_OFFLINE in Hst.
  split_and!; [done|lia|done|..]; rewrite Hst; case_decide; split; intros; done || lia.
Qed.

(** The periodic clean-up deletes exactly the nodes that are offline and
    were last seen more than 72 hours before the clock that it reads. *)
Theorem cleanup_expired_nodes_exact w e :
  let now := o_time (outcome (w_tick w)) in
  wp cleanup_expired_nodes (λ r w', r = Ok () ∧
    (e ∈ node_table (get_db (w_st w')) ↔
     e ∈ node_table (get_db (w_st w)) ∧
       ¬ (status e = "offline" ∧ (last_seen e < now - 72 * 3600)%Z))) w.
Proof.
  unfold wp, cleanup_expired_nodes, run, await, M_await, modify, M_modify, time, ask, interact,
    M_interact, mbind, M_bind; simpl.
  rewrite get_put_db. simpl. split; [done|]. unfold delete_where.
  rewrite list_elem_of_filter. unfold node_expired, TTL_NODE_OFFLINE_SECS. tauto.
Qed.

(** C28: a buffered message lives exactly 72 hours.  After a message is stored
    under a fresh identifier at time [t], a later read for its cell returns it,
    and a later clean-up keeps it, exactly as long as the clock is before
    [t + 72h]: no message is deleted while it could still be delivered, and none
    is delivered after it could have been deleted. *)
Theorem buffered_message_lifetime id cell node body w :
  let t := o_time (outcome (w_tick w)) in
  let m := mkMessage (VStr id) cell node body t (t + 72 * 3600) in
  select_pk message_key (VStr id) (message_buffer (get_db (w_st w))) = None →
  wp (buffer_message (VStr id) cell node body) (λ r w', r = Ok () ∧
    ∀ w2, get_db (w_st w2) = get_db (w_st w') →
      let now := o_time (outcome (w_tick w2)) in
      (∃ ms, (get_buffered cell w2).1 = Ok ms ∧ (m ∈ ms ↔ (now < t + 72 * 3600)%Z)) ∧
      (m ∈ message_buffer (get_db (w_st (cleanup_expired_messages w2).2)) ↔
       (now < t + 72 * 3600)%Z)) w.
Proof.
  intros t m Hfresh. unfold wp, buffer_message, run, await, M_await, modify, M_modify, time, ask,
    interact, M_interact, lift, M_lift, mbind, M_bind.
  simpl. rewrite get_put_db. simpl. split; [done|]. intros w2 Hw2.
  assert (m ∈ message_buffer (get_db (w_st w2))) as Hm.
  { rewrite Hw2. simpl. unfold insert_or_ignore, conflicts. simpl. rewrite Hfresh.
    apply elem_of_app. right. by apply list_elem_of_singleton. }
  split.
  - eexists. split; [done|]. rewrite list_elem_of_filter. unfold deliverable. simpl.
    split; [by intros [[_ ?] _]|done].
  - unfold cleanup_expired_messages, run, await, M_await, modify, M_modify, time, ask, interact,
    M_interact, mbind, M_bind; simpl.
    rewrite get_put_db. simpl. unfold delete_where. rewrite list_elem_of_filter. simpl.
    split; [intros [? _]; lia|]. intros ?. split; [lia|done].
Qed.

(** Buffering is idempotent in the message identifier: a message whose
    identifier is already in the buffer leaves the database as it is, whatever it
    carries. *)
Theorem buffer_message_ignores_duplicates id cell node body w :
  is_Some (select_pk message_key (VStr id) (message_buffer (get_db (w_st w)))) →
  wp (buffer_message (VStr id) cell node body) (λ r w', r = Ok () ∧
    get_db (w_st w') = get_db (w_st w)) w.
Proof.
  intros [m Hm]. unfold wp, buffer_message, run, await, M_await, modify, M_modify, time, ask,
    interact, M_interact, lift, M_lift, mbind, M_bind; simpl.
  rewrite get_put_db. split; [done|]. unfold set_buffer, insert_or_ignore, conflicts. simpl.
  rewrite Hm. by destruct (get_db (w_st w)).
Qed.

(** Registering a cell and reading it back yields the new keys; if the cell
    was already known, the time of its first registration and its home flag are
    kept. *)
Theorem get_cell_after_register id sp ep home w :
  wp (register_cell id sp ep home) (λ r w', r = Ok () ∧
    ∃ c, (get_cell (VStr id) w').1 = Ok (Some c) ∧
      cell_id c = id ∧ signing_pubkey c = sp ∧ enc_pubkey c = ep ∧
      match select_pk cell_key id (cells (get_db (w_st w))) with
      | Some old => registered_at c = registered_at old ∧ is_home c = is_home old
      | None => registered_at c = o_time (outcome (w_tick w)) ∧ is_home c = home
      end) w.
Proof.
  unfold wp, register_cell, get_cell, query, await, M_await, gets, M_gets, run, modify, M_modify,
    time, ask, interact, M_interact, lift, M_lift, mbind, M_bind.
  simpl. rewrite get_put_db. simpl. split; [done|]. rewrite <-!to_map_lookup.
  rewrite (to_map_upsert cell_key _ _ _ id) by done. rewrite lookup_insert_eq.
  eexists. split; [done|]. destruct (to_map cell_key _ !! id) as [old|] eqn:E; simpl; [|done].
  split_and!; try done. rewrite to_map_lookup in E.
  apply select_pk_Some in E as [_ [= ?]]. done.
Qed.
End storage_properties.

(** ** Witnesses *)

Module StorageWitnesses.
Import Samples.
#[local] Existing Instance calm_env.

Definition n1 : NodeEntry := mkNode "n1" "10.0.0.1:8765" "permanent" "open" [] "" 5 0 "online" 5.
Definition history : list stmt :=
  [UpsertNode n1; PingFailed "n1"; RegisterCell (mkCell "c1" [] [] 7 true);
   BufferMessage (mkMessage "m1" "c1" "n1" [] 10 (10 + TTL_MESSAGE_SECS))].
Definition world (d : DB) : World DB := mkWorld 0 [] d.

Lemma storage_refines_maps_witness :
  let a := foldl (flip exec_abs) (abs empty_db) history in
  db_wf (exec_all history empty_db) ∧ abs (exec_all history empty_db) = a ∧
  (∀ k, (get_node (VStr k) (world (exec_all history empty_db))).1 = Ok (a_nodes a !! VStr k)) ∧
  (∀ k, (get_cell (VStr k) (world (exec_all history empty_db))).1 = Ok (a_cells a !! k)) ∧
  (∀ k, (get_presence (VStr k) (world (exec_all history empty_db))).1 =
    Ok (a_presence a !! k)).
Proof.
  apply (storage_refines_maps empty_db history); [apply empty_db_wf| |reflexivity].
  unfold history. repeat constructor; discriminate.
Defined.

Lemma offline_at_third_missed_ping_witness :
  wp (for_each (replicate 3 ()) (λ _, update_node_ping (VStr "n1") false)) (λ r w', r = Ok () ∧
    ∃ e', select_pk node_key (VStr "n1") (node_table (get_db (w_st w'))) = Some e' ∧
      missed_pings e' = 3%Z ∧ last_seen e' = last_seen n1 ∧
      (status e' = "offline" ↔ 3 ≤ 3) ∧ (status e' = "online" ↔ 3 < 3))
    (world (exec (UpsertNode n1) empty_db)).
Proof. apply (offline_at_third_missed_ping 3 "n1"); reflexivity. Defined.

Lemma buffered_message_lifetime_witness :
  let m := mkMessage "m1" "c1" "n1" [] 1000000 (1000000 + 72 * 3600) in
  wp (buffer_message (VStr "m1") "c1" "n1" []) (λ r w', r = Ok () ∧
    ∀ w2 : World DB, get_db (w_st w2) = get_db (w_st w') →
      let now := o_time (outcome (w_tick w2)) in
      (∃ ms, (get_buffered "c1" w2).1 = Ok ms ∧ (m ∈ ms ↔ (now < 1000000 + 72 * 3600)%Z)) ∧
      (m ∈ message_buffer (get_db (w_st (cleanup_expired_messages w2).2)) ↔
       (now < 1000000 + 72 * 3600)%Z)) (world empty_db).
Proof. exact (buffered_message_lifetime "m1" "c1" "n1" [] (world empty_db) eq_refl). Defined.

Lemma buffer_message_ignores_duplicates_witness :
  wp (buffer_message (VStr "m1") "c2" "n2" ["001"%byte]) (λ r w', r = Ok () ∧
    get_db (w_st w') = exec_all history empty_db) (world (exec_all history empty_db)).
Proof.
  refine (buffer_message_ignores_duplicates "m1" "c2" "n2" ["001"%byte]
            (world (exec_all history empty_db)) _).
  vm_compute. eauto.
Defined.
End StorageWitnesses.
