(* ===== verification/Transport.v ===== *)
(** * Transport ([node/transport.py]) and the state of a node

    Authenticated connections, the registry that finds a connection by the
    peer's identifier, the mutual handshake, and the receive loop.

    [NodeState] is what a node owns: its database, its registry, the receive
    loops that are running, and the packets handed to the embedder's callback.
    A receive loop is a task; [recv_frame] is the body of its [async for], run
    once per frame, and [recv_loop] is the whole loop over the frames that arrive
    before the socket closes. *)
From S2P Require Import Prelude PyVal Interfaces Effects Crypto Protocol Auth Identity Table Storage.
From S2P Require Samples.

Record PeerConnection := mkConn {
  ws : socket;
  peer_node_id : string;
  peer_signing_pubkey : bytes;
  peer_enc_pubkey : pyval;
  local_node_id : string;
}.

#[global] Instance PeerConnection_eq_dec : EqDecision PeerConnection.
Proof. solve_decision. Defined.

(** A part of the node that is started and stopped: not created yet, at work,
    or closed. *)
Inductive phase := Absent | Active | Ended.
#[global] Instance phase_eq_dec : EqDecision phase.
Proof. solve_decision. Defined.

Record Life := mkLife {
  lf_server : phase;       (** [Transport._server] *)
  lf_gossip : phase;       (** [GossipEngine._task] *)
  lf_db : bool;            (** whether [Storage._db] is open *)
  lf_handlers : list PeerConnection;  (** calls of [_handle_incoming] that serve a connection *)
}.

(** A node that has been constructed and not started. *)
Definition created : Life := mkLife Absent Absent true [].

Record NodeState := mkNodeState {
  ns_db : DB;
  ns_conns : gmap string PeerConnection;     (** [ConnectionRegistry._conns] *)
  ns_loops : list PeerConnection;            (** receive loops that are running *)
  ns_delivered : list Packet;                (** calls of [Node.on_message] *)
  ns_life : Life;
}.

Definition set_db (d : DB) (s : NodeState) : NodeState :=
  mkNodeState d (ns_conns s) (ns_loops s) (ns_delivered s) (ns_life s).
Definition set_conns (f : gmap string PeerConnection → gmap string PeerConnection)
    (s : NodeState) : NodeState :=
  mkNodeState (ns_db s) (f (ns_conns s)) (ns_loops s) (ns_delivered s) (ns_life s).
Definition set_loops (f : list PeerConnection → list PeerConnection) (s : NodeState) : NodeState :=
  mkNodeState (ns_db s) (ns_conns s) (f (ns_loops s)) (ns_delivered s) (ns_life s).
Definition add_delivered (p : Packet) (s : NodeState) : NodeState :=
  mkNodeState (ns_db s) (ns_conns s) (ns_loops s) (ns_delivered s ++ [p]) (ns_life s).
Definition set_life (f : Life → Life) (s : NodeState) : NodeState :=
  mkNodeState (ns_db s) (ns_conns s) (ns_loops s) (ns_delivered s) (f (ns_life s)).
Definition set_server (p : phase) : NodeState → NodeState :=
  set_life (λ l, mkLife p (lf_gossip l) (lf_db l) (lf_handlers l)).
Definition set_gossip (p : phase) : NodeState → NodeState :=
  set_life (λ l, mkLife (lf_server l) p (lf_db l) (lf_handlers l)).
Definition set_open (b : bool) : NodeState → NodeState :=
  set_life (λ l, mkLife (lf_server l) (lf_gossip l) b (lf_handlers l)).
Definition set_handlers (f : list PeerConnection → list PeerConnection) : NodeState → NodeState :=
  set_life (λ l, mkLife (lf_server l) (lf_gossip l) (lf_db l) (f (lf_handlers l))).

#[export] Instance node_has_db : HasDB NodeState :=
  {| get_db := ns_db; put_db := set_db; get_put_db d s := eq_refl |}.

Section transport.
Context `{!MsgPack} `{!PyRepr} `{!Ed25519} `{!E2E} {env : Env}.
Context {m : Type → Type} `{!MRet m, !MBind m, !MThrow m, !MLift m}.
Context `{!MGets NodeState m, !MModify NodeState m, !MEmit NodeState m, !MInteract NodeState m}.
Context `{!MCatch m, !MFinally m, !MAwait m}.
Context (identity : NodeIdentity).

(** ** [ConnectionRegistry] *)

Definition registry_add (conn : PeerConnection) : m unit :=
  modify (set_conns <[peer_node_id conn := conn]>).

Definition registry_remove (node_id : string) : m unit :=
  modify (set_conns (delete node_id)).

(** [dict.get]: no key but a string is present, and lists and dictionaries
    cannot be looked up at all. *)
Definition registry_get (node_id : pyval) : m (option PeerConnection) :=
  match node_id with
  | VStr s => gets (λ st, ns_conns st !! s)
  | VList _ | VDict _ => throw TypeError
  | _ => mret None
  end.

Definition registry_all : m (list PeerConnection) :=
  gets (λ st, (map_to_list (ns_conns st)).*2).

(** ** [PeerConnection] *)

Definition peer_send (conn : PeerConnection) (packet : Packet) : m unit :=
  data ← lift (pack packet); ws_send (ws conn) data.

(** [PeerConnection.recv] and [PeerConnection.close] *)
Definition peer_recv (conn : PeerConnection) : m Packet :=
  data ← ws_recv (ws conn); lift (unpack data).
Definition peer_close (conn : PeerConnection) : m unit := ws_close (ws conn).

(** ** Sending *)

(** [Transport.sign] updates the packet in place and returns it. *)
Definition transport_sign (packet : Packet) : result Packet :=
  sign_packet packet (n_signing identity).

(** The packet that the caller holds afterwards is the signed one. *)
Definition send_via (conn : PeerConnection) (packet : Packet) : m Packet :=
  packet ← lift (transport_sign packet);
  peer_send conn packet ;; mret packet.

(** The answer, and the packet that the caller holds afterwards: it is signed
    before the connection is found to be closed.  Signing itself never raises
    [ConnectionClosed], so it may stand outside the [try]. *)
Definition send_to (node_id : pyval) (packet : Packet) : m (bool * Packet) :=
  conn ← registry_get node_id;
  match conn with
  | None => mret (false, packet)
  | Some conn =>
      packet ← lift (transport_sign packet);
      catch (peer_send conn packet ;; mret (true, packet)) (λ e,
        if decide (e = ConnectionClosed) then
          match node_id with VStr s => registry_remove s | _ => mret () end ;;
          mret (false, packet)
        else throw e)
  end.

End transport.

(** ** The handshake *)

Section handshake.
Context `{!MsgPack} `{!PyRepr} `{!Ed25519} `{!E2E} {env : Env}.
Context {S : Type} {m : Type → Type} `{!MRet m, !MBind m, !MThrow m, !MLift m}.
Context `{!MEmit S m, !MInteract S m, !MAwait m}.
Context (identity : NodeIdentity).

(** [decode_payload(challenge.payload)["nonce"]] *)
Definition challenge_nonce (challenge : Packet) : result pyval :=
  d ← decode_payload (payload challenge); py_getitem d "nonce".

Definition do_auth (w : socket) (expected_node_id : pyval) : m PeerConnection :=
  '(our_challenge, our_nonce) ← make_challenge (nid identity) (py_or expected_node_id "");
  data ← lift (pack our_challenge);
  ws_send w data ;;
  raw ← ws_recv w;
  their_challenge ← lift (unpack raw);
  if decide (type their_challenge ≠ VStr T.AUTH_CHALLENGE) then throw ValueError else
  their_nonce ← lift (challenge_nonce their_challenge);
  response ← make_response (nid identity) (from_addr their_challenge) their_nonce
    (n_signing identity) (n_encryption identity);
  data ← lift (pack response);
  ws_send w data ;;
  raw ← ws_recv w;
  their_response ← lift (unpack raw);
  if decide (type their_response ≠ VStr T.AUTH_RESPONSE) then throw ValueError else
  res ← lift (verify_response their_response our_nonce expected_node_id);
  match res with
  | None => throw ValueError
  | Some a =>
      mret (mkConn w (ar_node_id a) (ar_signing_pubkey a) (ar_enc_pubkey a) (nid identity))
  end.

End handshake.

(** ** Opening connections *)

Section connections.
Context `{!MsgPack} `{!PyRepr} `{!Ed25519} `{!E2E} {env : Env}.
Context {m : Type → Type} `{!MRet m, !MBind m, !MThrow m, !MLift m}.
Context `{!MGets NodeState m, !MModify NodeState m, !MEmit NodeState m, !MInteract NodeState m}.
Context `{!MCatch m, !MFinally m, !MAwait m}.
Context (identity : NodeIdentity).

(** [asyncio.create_task(self._recv_loop(conn))] *)
Definition spawn (conn : PeerConnection) : m unit := modify (set_loops (cons conn)).

(** What [connect] and [connect_to_node] do once the socket is open. *)
Definition open_connection (uri : string) (expected : pyval) : m PeerConnection :=
  w ← ws_connect uri;
  conn ← do_auth identity w expected;
  registry_add conn ;; spawn conn ;; mret conn.

Definition connect (address : string) : m PeerConnection :=
  if str_mem ":"%char address then open_connection ("ws://" +:+ address) VNone
  else throw ValueError.

Definition connect_to_node (node_id address : pyval) : m PeerConnection :=
  open_connection ("ws://" +:+ py_str address) node_id.

(** ** Receiving *)

Section receiving.
Context (on_packet : Packet → PeerConnection → m unit).

(** The body of the loop for one frame.  An exception of the handler is logged;
  an exception of [unpack] or [verify_packet] leaves the loop. *)
Definition recv_frame (conn : PeerConnection) (raw : bytes) : m unit :=
    pkt ← lift (unpack raw);
    ok ← lift (verify_packet pkt (peer_signing_pubkey conn));
    if ok : bool then catch (on_packet pkt conn) (λ _, mret ()) else mret ().

(** The [finally] of the loop; the task is over. *)
Definition end_loop (conn : PeerConnection) : m unit :=
    registry_remove (peer_node_id conn) ;;
    modify (set_loops (filter (λ c, c ≠ conn))).

(** [_recv_loop] over the frames that arrive until the socket closes. *)
Definition recv_loop (conn : PeerConnection) (frames : list bytes) : m unit :=
    finally (for_each frames (recv_frame conn)) (end_loop conn).

(** [_handle_incoming] up to the receive loop that it then runs *)
Definition accept (w : socket) : m unit :=
    conn ← catch (c ← do_auth identity w VNone; mret (Some c)) (λ _, ws_close w ;; mret None);
    match conn with
    | None => mret ()
    | Some conn => registry_add conn ;; modify (set_handlers (cons conn)) ;; spawn conn
    end.

(** The [finally] of [_handle_incoming], which removes the connection once more; the
    handler is over. *)
Definition end_incoming (conn : PeerConnection) : m unit :=
    registry_remove (peer_node_id conn) ;;
    modify (set_handlers (filter (λ c, c ≠ conn))).

(** [_handle_incoming] with the frames that arrive until the socket closes *)
Definition handle_incoming (w : socket) (frames : list bytes) : m unit :=
    conn ← catch (c ← do_auth identity w VNone; mret (Some c)) (λ _, ws_close w ;; mret None);
    match conn with
    | None => mret ()
    | Some conn =>
    registry_add conn ;; modify (set_handlers (cons conn)) ;; spawn conn ;;
    finally (recv_loop conn frames) (end_incoming conn)
    end.
End receiving.

(** ** [Transport.start] and [Transport.stop] *)

Definition start (host : string) (port : Z) : m unit :=
  await (ask_result o_serve ;; emit (IoServe host port)) ;;
  modify (set_server Active).

(** [self._server.close()] and [await self._server.wait_closed()].  By its
    documentation [close] stops listening and closes the connections that the server
    has accepted, and [wait_closed] returns when all their handlers have: the receive
    loops find their sockets closed, and each handler runs its [finally] blocks. *)
Definition end_handler (conn : PeerConnection) : m unit :=
  await (emit (IoClose (ws conn)) ;; end_loop conn ;; end_incoming conn).
Definition close_server : m unit :=
  emit IoUnserve ;; modify (set_server Ended) ;;
  handlers ← gets (λ s, lf_handlers (ns_life s));
  for_each handlers end_handler.

Definition stop : m unit :=
  server ← gets (λ s, lf_server (ns_life s));
  (if decide (server = Absent) then mret () else close_server) ;;
  conns ← registry_all;
  for_each conns peer_close.
End connections.

(** ** Lemmas *)

(** A connection whose identifier spells the key that was proved. *)
Definition conn_ok (conn : PeerConnection) : Prop :=
  peer_node_id conn = bytes_hex (peer_signing_pubkey conn).

(** The registry files connections under their peers' identifiers. *)
Definition registry_ok (m : gmap string PeerConnection) : Prop :=
  ∀ id conn, m !! id = Some conn → peer_node_id conn = id ∧ conn_ok conn.

Lemma registry_ok_insert m conn :
  registry_ok m → conn_ok conn → registry_ok (<[peer_node_id conn := conn]> m).
Proof.
  intros Hm Hc id conn'. rewrite lookup_insert. case_decide; [|apply Hm].
  by intros [= <-].
Qed.
Lemma registry_ok_delete m id : registry_ok m → registry_ok (delete id m).
Proof. intros Hm id' conn' [_ ?]%lookup_delete_Some. eauto. Qed.

(** Which changes a computation may make to a node whose database satisfies the
    policy's condition: the database changes by the policy's statements, and the
    connections stay filed under their identifiers. *)
Definition node_rel (Φ : policy) : relation NodeState := λ s s',
  (holds_in Φ (ns_db s) ∧ steps Φ (ns_db s) (ns_db s')) ∧
  (registry_ok (ns_conns s) → Forall conn_ok (ns_loops s) →
   registry_ok (ns_conns s') ∧ Forall conn_ok (ns_loops s')) ∧
  ns_delivered s `prefix_of` ns_delivered s'.

Lemma node_rel_refl Φ s : holds_in Φ (ns_db s) → node_rel Φ s s.
Proof. intros Hs. split; [split; [done|apply rtc_refl]|done]. Qed.
#[global] Instance node_rel_change Φ : Change (node_rel Φ).
Proof.
  split.
  - intros s1 s2 s3 ([Hh Hd] & Hc & Hp) ([_ Hd'] & Hc' & Hp'). split_and!.
    + done.
    + unfold steps in *. by etrans.
    + intros ??. apply Hc'; by apply Hc.
    + by etrans.
  - intros s s' ([Hh Hd] & _). by eapply node_rel_refl, steps_keep.
Qed.

Section transport_lemmas.
Context `{!MsgPack} `{!PyRepr} `{!Ed25519} `{!E2E} `{!Env}.
Context {m : Type → Type} `{EffectRules NodeState m}.
Context (identity : NodeIdentity).
Context (Φ : policy).

Lemma node_rel_same_db s s' :
  ns_db s' = ns_db s → ns_delivered s' = ns_delivered s →
  (registry_ok (ns_conns s) → Forall conn_ok (ns_loops s) →
   registry_ok (ns_conns s') ∧ Forall conn_ok (ns_loops s')) →
  node_rel Φ s s → node_rel Φ s s'.
Proof. intros Hd Hp Hc ([Hh _] & _). split; [rewrite Hd; split; [done|apply rtc_refl]|]. by rewrite Hp. Qed.

(** A statement leaves the rest of the node alone. *)
Lemma node_rel_exec st s :
  Φ st → node_rel Φ s s → node_rel Φ s (put_db (exec st (get_db s)) s).
Proof. intros Hst ([Hh _] & _). split; [|done]. split; [done|]. apply rtc_once. eauto. Qed.

Lemma pres_new_packet R `{!Change R} t b f d :
  pres (S:=NodeState) R (new_packet t b f d).
Proof. unfold new_packet. pres_auto. Qed.

Lemma pres_registry_add conn : conn_ok conn → pres (node_rel Φ) (registry_add conn).
Proof.
  unfold registry_add. intros Hc. apply pres_modify. intros s. apply node_rel_same_db; [done..|].
  split; [by apply registry_ok_insert|done].
Qed.
Lemma pres_registry_remove id : pres (node_rel Φ) (registry_remove id).
Proof.
  unfold registry_remove. apply pres_modify. intros s. apply node_rel_same_db; [done..|].
  split; [by apply registry_ok_delete|done].
Qed.
Lemma pres_registry_get id : pres (node_rel Φ) (registry_get id).
Proof. unfold registry_get. destruct id; eauto with pres typeclass_instances. Qed.
Lemma pres_spawn conn : conn_ok conn → pres (node_rel Φ) (spawn conn).
Proof.
  unfold spawn. intros Hc. apply pres_modify. intros s. apply node_rel_same_db; [done..|].
  split; [done|by constructor].
Qed.
Lemma pres_end_loop conn : pres (node_rel Φ) (end_loop conn).
Proof.
  unfold end_loop. apply pres_bind; [apply _|apply pres_registry_remove|]. intros _.
  apply pres_modify. intros s. apply node_rel_same_db; [done..|]. intros ? Hl.
  split; [done|]. rewrite !Forall_forall in *. intros c [_ ?]%list_elem_of_filter. auto.
Qed.
Lemma pres_set_handlers f : pres (node_rel Φ) (modify (set_handlers f)).
Proof. apply pres_modify. intros s. by apply node_rel_same_db. Qed.
Lemma pres_end_incoming conn : pres (node_rel Φ) (end_incoming conn).
Proof.
  unfold end_incoming. apply pres_bind; [apply _|apply pres_registry_remove|intros _].
  apply pres_set_handlers.
Qed.
Lemma pres_end_handler conn : pres (node_rel Φ) (end_handler conn).
Proof.
  unfold end_handler. apply pres_await; [apply _|]. apply pres_bind; [apply _|apply pres_emit, _|intros _].
  apply pres_bind; [apply _|apply pres_end_loop|intros _]. apply pres_end_incoming.
Qed.

Lemma pres_peer_send conn p : pres (node_rel Φ) (peer_send conn p).
Proof. unfold peer_send. pres_auto. Qed.
Lemma pres_send_via conn p : pres (node_rel Φ) (send_via identity conn p).
Proof. unfold send_via. pres_auto. apply pres_peer_send. Qed.
Lemma pres_send_to id p : pres (node_rel Φ) (send_to identity id p).
Proof.
  unfold send_to. apply pres_bind; [apply _|apply pres_registry_get|intros [conn|]]; [|apply pres_ret, _].
  apply pres_bind; [apply _|apply pres_lift, _|intros q].
  apply pres_catch; [apply _| |intros e; case_decide].
  - apply pres_bind; [apply _|apply pres_peer_send|intros; apply pres_ret, _].
  - apply pres_bind; [apply _| |intros; apply pres_ret, _].
    destruct id; try apply pres_ret, _. apply pres_registry_remove.
  - apply pres_throw, _.
Qed.
End transport_lemmas.

#[export] Hint Resolve pres_registry_add pres_registry_remove pres_registry_get pres_spawn
  pres_end_loop pres_set_handlers pres_end_incoming pres_end_handler pres_peer_send pres_send_via pres_send_to pres_new_packet : pres.

Section handshake_lemmas.
Context `{!MsgPack} `{!PyRepr} `{!Ed25519} `{!E2E} `{!Env}.
Context {m : Type → Type} `{EffectRules NodeState m}.
Context (identity : NodeIdentity).

(** What every connection that the handshake returns satisfies. *)
Lemma do_auth_returns w e :
  returns (λ conn, conn_ok conn ∧ proved (peer_signing_pubkey conn)) (do_auth identity w e).
Proof.
  unfold do_auth. apply returns_challenge_bind. intros ch i.
  do 4 (apply returns_bind; intros ?). case_decide; [apply knows_throw|].
  do 4 (apply returns_bind; intros ?). apply returns_recv_bind. intros j raw Hr.
  apply returns_lift_bind. intros resp Hu. case_decide as Ht; [apply knows_throw|].
  apply returns_lift_bind. intros [ar|] Ha; [|apply knows_throw]. apply knows_ret.
  split; [by apply verify_response_some in Ha as (sg & _ & Hid & _)|].
  by apply (verified_proves j raw resp i e).
Qed.

Context (Φ : policy).

Lemma pres_make_challenge R `{!Change R} f t : pres (S:=NodeState) R (make_challenge f t).
Proof. unfold make_challenge, make_auth_challenge. pres_auto. Qed.
Lemma pres_make_response R `{!Change R} f t n s e :
  pres (S:=NodeState) R (make_response f t n s e).
Proof. unfold make_response, make_auth_response. pres_auto. Qed.

Lemma pres_do_auth w e : pres (node_rel Φ) (do_auth identity w e).
Proof.
  unfold do_auth. apply pres_bind; [apply _|apply pres_make_challenge, _|].
  intros [ch n]. pres_auto. apply pres_make_response, _.
Qed.

Lemma pres_open_connection uri e : pres (node_rel Φ) (open_connection identity uri e).
Proof.
  unfold open_connection. apply pres_bind; [apply _|apply pres_ws_connect, _|intros w].
  eapply pres_bind_returns; [apply _|apply pres_do_auth|apply do_auth_returns|].
  intros conn (Hc & _). pres_auto.
Qed.
Lemma connect_returns a :
  returns (λ conn, conn_ok conn ∧ proved (peer_signing_pubkey conn)) (connect identity a).
Proof.
  unfold connect, open_connection. case_match; [|apply knows_throw].
  apply returns_bind. intros w. eapply returns_bind_with; [apply do_auth_returns|].
  intros conn Hc. do 2 (apply returns_bind; intros _). by apply knows_ret.
Qed.
Lemma pres_connect a : pres (node_rel Φ) (connect identity a).
Proof. unfold connect. case_match; [apply pres_open_connection|apply pres_throw, _]. Qed.
Lemma pres_connect_to_node n a : pres (node_rel Φ) (connect_to_node identity n a).
Proof. apply pres_open_connection. Qed.

Lemma pres_accept w : pres (node_rel Φ) (accept identity w).
Proof.
  unfold accept. eapply (pres_bind_returns (node_rel Φ) (λ o, from_option conn_ok True o)).
  - apply pres_catch; [apply _|apply pres_bind; [apply _|apply pres_do_auth|]|]; pres_auto.
  - apply returns_catch.
    + eapply returns_bind_with; [apply do_auth_returns|]. intros c [Hc _]. by apply knows_ret.
    + intros e. apply returns_bind. intros _. by apply knows_ret.
  - intros [conn|] Hc; simpl in Hc; pres_auto.
Qed.

Lemma pres_recv_frame on_packet conn raw :
  (∀ p, unpack raw = Ok p → verify_packet p (peer_signing_pubkey conn) = Ok true →
     pres (node_rel Φ) (on_packet p conn)) →
  pres (node_rel Φ) (recv_frame on_packet conn raw).
Proof.
  unfold recv_frame. intros Hp. apply pres_lift_bind; [apply _|]. intros p Hu.
  apply pres_lift_bind; [apply _|]. intros [] Hv; [|apply pres_ret, _].
  apply pres_catch; [apply _| |intros; apply pres_ret, _].
  by apply Hp.
Qed.
End handshake_lemmas.

#[export] Hint Resolve pres_connect pres_connect_to_node pres_accept : pres.

(** ** A successful handshake, step by step *)

Definition atom_ok (v : pyval) : bool := scalars_ok v && (depth v <=? 490).

Lemma packet_packable p :
  atom_ok (v p) = true → atom_ok (pid p) = true → atom_ok (type p) = true →
  atom_ok (from_addr p) = true → atom_ok (to_addr p) = true → atom_ok (payload p) = true →
  atom_ok (sig p) = true → atom_ok (ts p) = true → packable (packet_dict p) = true.
Proof.
  unfold atom_ok. rewrite !andb_true_iff, !Nat.leb_le.
  intros [S1 D1] [S2 D2] [S3 D3] [S4 D4] [S5 D5] [S6 D6] [S7 D7] [S8 D8].
  unfold packable. rewrite andb_true_iff, Nat.leb_le. split.
  - unfold packet_dict. cbn [scalars_ok forallb fst snd].
    by rewrite S1, S2, S3, S4, S5, S6, S7, S8.
  - unfold packet_dict. cbn [depth foldr snd]. lia.
Qed.

Section handshake_run.
Context `{!MsgPack} `{!PyRepr} `{!Ed25519} `{!E2E} {E : Env}.
Context `{!MsgPackLaws} `{!Ed25519Laws} `{!E2ELaws} `{!EnvLaws}.
Context (identity : NodeIdentity).
Context (Hskp : skp_ok (n_signing identity)) (Hekp : ekp_ok (n_encryption identity)).

Lemma nid_ok : atom_ok (VStr (nid identity)) = true.
Proof.
  unfold atom_ok, nid. rewrite scalars_ok_hex; [done|].
  rewrite Hskp, ed_public_length. lia.
Qed.

(** The response packet that [make_response] builds at instant [k]. *)
Definition response_at (k : nat) (to : pyval) (b : bytes) : Packet :=
  mkPacket T.AUTH_RESPONSE (VBin b) (VStr (o_uuid (outcome k))) (VStr (nid identity)) to
    (VBin []) (VInt (o_time (outcome (S k)))) (VInt PROTO_VERSION).

Lemma packed_packet t b i to now :
  small b = true → atom_ok (VStr t) = true → atom_ok to = true →
  (0 ≤ now < 2^63)%Z → scalars_ok (VStr i) = true →
  ∃ data,
    let p := mkPacket (VStr t) (VBin b) (VStr i) (VStr (nid identity)) to (VBin []) (VInt now)
               (VInt PROTO_VERSION) in
    pack p = Ok data ∧ unpack data = Ok p.
Proof.
  intros Hb Ht Hto Hnow Hi.
  apply (unpack_packed (mkPacket (VStr t) (VBin b) (VStr i) (VStr (nid identity)) to (VBin [])
    (VInt now) (VInt PROTO_VERSION)) b []); [done..|].
  apply packet_packable; simpl; try done.
  - unfold atom_ok. by rewrite Hi.
  - apply nid_ok.
  - unfold atom_ok. simpl. by rewrite Hb.
  - unfold atom_ok. cbn [scalars_ok depth]. rewrite !andb_true_iff, Z.leb_le, Z.ltb_lt, Nat.leb_le.
    lia.
Qed.

Lemma small_payload d b n : packb d = Ok b → psize d = n → (Z.of_nat n < 2^32)%Z → small b = true.
Proof. intros Hb%packb_size <- Hn. apply Z.ltb_lt. lia. Qed.

(** The challenge packet that [make_challenge] builds from instant [k] on. *)
Definition challenge_at (k : nat) (to : pyval) (b : bytes) : Packet :=
  mkPacket T.AUTH_CHALLENGE (VBin b) (VStr (o_uuid (outcome (S k)))) (VStr (nid identity)) to
    (VBin []) (VInt (o_time (outcome (S (S k))))) (VInt PROTO_VERSION).

Lemma challenge_run k to :
  atom_ok to = true →
  let n := o_random (outcome k) Auth.NONCE_SIZE in
  ∃ b d, (∀ St (w : World St), w_tick w = k → make_challenge (nid identity) to w =
      (Ok (challenge_at k to b, n), mkWorld (3 + k) (w_trace w) (w_st w))) ∧
    unpackb b = Ok (VDict [(KStr "nonce", VBin n)]) ∧
    pack (challenge_at k to b) = Ok d ∧ unpack d = Ok (challenge_at k to b).
Proof.
  intros Hto n.
  assert (small n = true) as Hn.
  { apply (small_length _ 32); [apply urandom_length|done]. }
  destruct (unpackb_packb (VDict [(KStr "nonce", VBin n)])) as (b & Hb & Hu).
  { unfold packable. cbn [scalars_ok forallb fst snd]. by rewrite Hn. }
  destruct (packed_packet T.AUTH_CHALLENGE b (o_uuid (outcome (1 + k))) to
    (o_time (outcome (2 + k)))) as (d & Hd & Hd');
    [|done|done|apply time_range|apply uuid4_text|].
  { eapply small_payload; [exact Hb| |].
    - cbn [psize foldr fst snd key_size]. unfold n. by rewrite urandom_length.
    - done. }
  exists b, d. split_and!; [|done..]. intros St w <-.
  unfold make_challenge, make_auth_challenge, encode_payload, mbind, M_bind, lift, M_lift. simpl.
  fold n. by rewrite Hb.
Qed.

Lemma response_run k to n :
  atom_ok to = true → length n = 32 →
  ∃ b d, (∀ St (w : World St), w_tick w = k →
      make_response (nid identity) to (VBin n) (n_signing identity) (n_encryption identity) w =
      (Ok (response_at k to b), mkWorld (2 + k) (w_trace w) (w_st w))) ∧
    unpackb b = Ok (response_dict (VBin n) (ed_sign (sk_private (n_signing identity)) n)
      (sk_public (n_signing identity)) (ek_public (n_encryption identity))) ∧
    pack (response_at k to b) = Ok d ∧ unpack d = Ok (response_at k to b).
Proof.
  intros Hto Hn.
  destruct (unpackb_packb (response_dict (VBin n) (ed_sign (sk_private (n_signing identity)) n)
      (sk_public (n_signing identity)) (ek_public (n_encryption identity)))) as (b & Hb & Hu).
  { apply response_dict_packable; [by apply (small_length _ 32)|apply ed_sign_length|..].
    - rewrite Hskp. apply ed_public_length.
    - rewrite Hekp. apply x_public_length. }
  destruct (packed_packet T.AUTH_RESPONSE b (o_uuid (outcome k)) to
    (o_time (outcome (S k)))) as (d & Hd & Hd');
    [|done|done|apply time_range|apply uuid4_text|].
  { eapply small_payload; [exact Hb| |].
    - unfold response_dict. cbn [psize foldr fst snd key_size].
      by rewrite Hn, ed_sign_length, Hskp, ed_public_length, Hekp, x_public_length.
    - done. }
  exists b, d. split_and!; [|done..]. intros St w <-.
  unfold response_dict in Hb.
  unfold make_response, make_auth_response, encode_payload, mbind, M_bind, lift, M_lift. simpl.
  by rewrite Hb.
Qed.

(** The two frames that [do_auth] writes when it starts at instant [k]: its challenge,
    and its response to the nonce of a peer ([do_auth_opens], [do_auth_run]). *)
Definition first_frame (e : pyval) (k : nat) : result bytes :=
  '(p, _) ← (make_challenge (nid identity) (py_or e "") (mkWorld k [] ())).1; pack p.
Definition second_frame (their_id : string) (their_nonce : bytes) (k : nat) : result bytes :=
  p ← (make_response (nid identity) (VStr their_id) (VBin their_nonce) (n_signing identity)
         (n_encryption identity) (mkWorld (5 + k) [] ())).1;
  pack p.

Lemma grows_do_auth {St} s e : grows (S:=St) (do_auth identity s e).
Proof.
  unfold do_auth, make_challenge, make_auth_challenge, make_response, make_auth_response, new_packet.
  grows_auto.
Qed.

(** Whatever it receives, [do_auth] writes its challenge first. *)
Lemma do_auth_opens {St} s e (w : World St) :
  atom_ok (py_or e "") = true → o_send (outcome (3 + w_tick w)) = Ok () →
  ∃ d1 l, first_frame e (w_tick w) = Ok d1 ∧
    w_trace (do_auth identity s e w).2 = w_trace w ++ IoSend s d1 :: l.
Proof.
  intros He Hs1. destruct (challenge_run (w_tick w) (py_or e "") He) as (b1 & d1 & Hc & _ & Hp1 & _).
  set (w1 := mkWorld (4 + w_tick w) (w_trace w ++ [IoSend s d1]) (w_st w)). unfold do_auth.
  rewrite (run_bind _ _ _ _ _ (Hc _ w eq_refl)), (run_lift _ _ _ _ Hp1).
  erewrite run_bind by by apply run_ws_send. cbn [w_tick w_trace w_st]. fold w1.
  exists d1. match goal with |- ∃ l, _ ∧ w_trace (?x _).2 = _ => assert (grows x) as Hg end.
  { unfold make_response, make_auth_response, new_packet. grows_auto. }
  destruct (Hg w1) as [l Hl]. exists l. split; [|etrans; [exact Hl|]; unfold w1; cbn [w_trace]; by rewrite <-(assoc (++))].
  unfold first_frame. by rewrite (Hc _ (mkWorld (w_tick w) [] ()) eq_refl).
Qed.

(** The peer's frames arrive at the fifth and ninth interaction of the handshake,
    after our challenge and after our response, which answers the peer's challenge. *)
Lemma do_auth_run {St} s e raw1 ch f n' (w : World St) :
  let k := w_tick w in
  atom_ok (py_or e "") = true →
  o_send (outcome (3 + k)) = Ok () → o_send (outcome (7 + k)) = Ok () →
  o_recv (outcome (4 + k)) = Ok raw1 → unpack raw1 = Ok ch →
  type ch = VStr T.AUTH_CHALLENGE → from_addr ch = VStr f → atom_ok (VStr f) = true →
  challenge_nonce ch = Ok (VBin n') → length n' = 32 →
  ∃ d1 d2 r,
    first_frame e k = Ok d1 ∧ second_frame f n' k = Ok d2 ∧
    do_auth identity s e w =
      (r, mkWorld (9 + k) (w_trace w ++ [IoSend s d1; IoSend s d2]) (w_st w)) ∧
    ∀ raw2 resp a,
      o_recv (outcome (8 + k)) = Ok raw2 → unpack raw2 = Ok resp →
      type resp = VStr T.AUTH_RESPONSE →
      verify_response resp (o_random (outcome k) Auth.NONCE_SIZE) e = Ok (Some a) →
      r = Ok (mkConn s (ar_node_id a) (ar_signing_pubkey a) (ar_enc_pubkey a) (nid identity)).
Proof.
  intros k He Hs1 Hs2 Hr1 Hu1 Ht1 Hf1 Hok Hn Hl.
  destruct (challenge_run k (py_or e "") He) as (b1 & d1 & Hc & _ & Hp1 & _).
  destruct (response_run (5 + k) (VStr f) n' Hok Hl) as (b & d2 & Hrun & _ & Hp2 & _).
  set (w1 := mkWorld (5 + k) (w_trace w ++ [IoSend s d1]) (w_st w)).
  exists d1, d2. eexists. split; [|split; [|split]].
  - unfold first_frame. by rewrite (Hc _ (mkWorld k [] ()) eq_refl).
  - unfold second_frame. by rewrite (Hrun _ (mkWorld (5 + k) [] ()) eq_refl).
  - unfold do_auth.
    rewrite (run_bind _ _ _ _ _ (Hc _ w eq_refl)). rewrite (run_lift _ _ _ _ Hp1).
    erewrite run_bind by by apply run_ws_send.
    erewrite run_bind by (etrans; [apply run_ws_recv|]; cbn [w_tick]; exact (f_equal (λ r, (r, _)) Hr1)).
    rewrite (run_lift _ _ _ _ Hu1), decide_False by (intros Hx; by apply Hx).
    rewrite (run_lift _ _ _ _ Hn), Hf1. simpl. fold k. fold w1.
    rewrite (run_bind _ _ _ _ _ (Hrun _ w1 eq_refl)). rewrite (run_lift _ _ _ _ Hp2).
    erewrite run_bind by by apply run_ws_send. cbn [w_tick w_trace w_st w1].
    rewrite <-(assoc (++)). cbn [app].
    match goal with |- ?x ?w2 = (_, ?w3) => assert (x w2 = ((x w2).1, w3)) as Hx; [|exact Hx] end.
    rewrite bindE, run_ws_recv. destruct (o_recv (outcome (w_tick _))) as [raw|]; cbv beta iota; [|done]. rewrite bindE, liftE.
    destruct (unpack raw) as [resp|]; cbv beta iota; [|done]. case_decide; [done|]. rewrite bindE, liftE.
    by destruct (verify_response _ _ _) as [[]|].
  - intros raw2 resp a Hr2 Hu2 Ht2 Hv. cbn [fst].
    rewrite bindE, run_ws_recv. cbn [w_tick].
    change (S (2 + (5 + k))) with (8 + k). rewrite Hr2, bindE, liftE, Hu2.
    rewrite decide_False by (intros Hx; by apply Hx). by rewrite bindE, liftE, Hv.
Qed.

Lemma first_frame_spec e k :
  atom_ok (py_or e "") = true → ∃ d ch, first_frame e k = Ok d ∧ unpack d = Ok ch ∧
    type ch = VStr T.AUTH_CHALLENGE ∧ from_addr ch = VStr (nid identity) ∧
    challenge_nonce ch = Ok (VBin (o_random (outcome k) Auth.NONCE_SIZE)).
Proof.
  intros He. destruct (challenge_run k _ He) as (b & d & Hrun & Hu & Hp & Hd).
  exists d, (challenge_at k (py_or e "") b). unfold first_frame.
  rewrite (Hrun _ (mkWorld k [] ()) eq_refl). simpl.
  split_and!; try done. unfold challenge_nonce, decode_payload. simpl. by rewrite Hu.
Qed.

Lemma second_frame_spec their_id n k :
  atom_ok (VStr their_id) = true → length n = 32 →
  ∃ d resp, second_frame their_id n k = Ok d ∧ unpack d = Ok resp ∧
    type resp = VStr T.AUTH_RESPONSE ∧
    ∀ e, id_mismatch e (nid identity) = false →
      verify_response resp n e = Ok (Some {| ar_node_id := nid identity;
        ar_signing_pubkey := sk_public (n_signing identity);
        ar_enc_pubkey := VBin (ek_public (n_encryption identity)) |}).
Proof.
  intros Ht Hn.
  destruct (response_run (5 + k) _ n Ht Hn) as (b & d & Hrun & Hu & Hp & Hd).
  exists d, (response_at (5 + k) (VStr their_id) b). unfold second_frame.
  rewrite (Hrun _ (mkWorld (5 + k) [] ()) eq_refl). simpl.
  split_and!; try done. intros e He. by eapply verify_own_response.
Qed.
End handshake_run.

(** A packet between texts that is signed, encoded and decoded again. *)
Section signed_frames.
Context `{!MsgPack} `{!PyRepr} `{!Ed25519} `{!E2E} `{!MsgPackLaws} `{!Ed25519Laws}.

Lemma signed_frame kp t b i from to now :
  skp_ok kp → small b = true → atom_ok (VStr t) = true → atom_ok (VStr i) = true →
  atom_ok (VStr from) = true → atom_ok (VStr to) = true → (0 ≤ now < 2^63)%Z →
  ∃ q frame,
    let p := mkPacket (VStr t) (VBin b) (VStr i) (VStr from) (VStr to) (VBin []) (VInt now)
               (VInt PROTO_VERSION) in
    sign_packet p kp = Ok q ∧ pack q = Ok frame ∧ unpack frame = Ok q ∧
    verify_packet q (sk_public kp) = Ok true ∧
    type q = VStr t ∧ payload q = VBin b ∧ from_addr q = VStr from ∧ to_addr q = VStr to.
Proof.
  intros Hk Hb Ht Hi Hf Hto Hnow.
  set (p := mkPacket (VStr t) (VBin b) (VStr i) (VStr from) (VStr to) (VBin []) (VInt now)
               (VInt PROTO_VERSION)).
  destruct (well_typed_signs p) as [m Hm]; [by repeat eexists|].
  set (q := with_sig p (ed_sign (sk_private kp) m)).
  destruct (unpack_packed q b (ed_sign (sk_private kp) m)) as (frame & Hp & Hu); [done..| |].
  { apply packet_packable; simpl; try done.
    - unfold atom_ok. simpl. by rewrite Hb.
    - unfold atom_ok. cbn [scalars_ok].
      by rewrite (small_length _ 64) by (apply ed_sign_length || done).
    - unfold atom_ok. cbn [scalars_ok depth].
      rewrite !andb_true_iff, Z.leb_le, Z.ltb_lt, Nat.leb_le. lia. }
  exists q, frame. split_and!; try done.
  - apply sign_packet_spec. eauto.
  - destruct (ed_check_sign (sk_private kp)) as (key & Hl & Hc).
    apply verify_packet_true. do 3 eexists. unfold q. rewrite sign_data_with_sig, Hk.
    split_and!; [done|done|apply ed_sign_nonempty|done|apply Hc].
Qed.
End signed_frames.

(** One side of a handshake whose other side follows the protocol. *)
Section handshake_honest.
Context `{!MsgPack} `{!PyRepr} `{!Ed25519} `{!E2E} `{!MsgPackLaws} `{!Ed25519Laws} `{!E2ELaws}.
Context {us them : Env} `{!@EnvLaws _ _ us} `{!@EnvLaws _ _ them}.

(** The peer's challenge has arrived: both frames are written, and if the peer's
    response arrives too, the handshake is done. *)
Lemma do_auth_halfway {St} (me peer : NodeIdentity) s e e' k' (w : World St) :
  skp_ok (n_signing me) → ekp_ok (n_encryption me) →
  skp_ok (n_signing peer) → ekp_ok (n_encryption peer) →
  id_mismatch e (nid peer) = false → atom_ok (py_or e "") = true →
  atom_ok (py_or e' "") = true →
  let k := w_tick w in
  let n := o_random (@outcome _ _ us k) Auth.NONCE_SIZE in
  let n' := o_random (@outcome _ _ them k') Auth.NONCE_SIZE in
  o_send (@outcome _ _ us (3 + k)) = Ok () → o_send (@outcome _ _ us (7 + k)) = Ok () →
  o_recv (@outcome _ _ us (4 + k)) = first_frame (E:=them) peer e' k' →
  ∃ d1 d2 r, first_frame (E:=us) me e k = Ok d1 ∧ second_frame (E:=us) me (nid peer) n' k = Ok d2 ∧
    do_auth (env:=us) me s e w =
      (r, mkWorld (9 + k) (w_trace w ++ [IoSend s d1; IoSend s d2]) (w_st w)) ∧
    (o_recv (@outcome _ _ us (8 + k)) = second_frame (E:=them) peer (nid me) n k' →
     r = Ok (mkConn s (nid peer) (sk_public (n_signing peer))
           (VBin (ek_public (n_encryption peer))) (nid me))).
Proof.
  intros Hsk Hek Hsk' Hek' Hm He He' k n n' Hs1 Hs2 Hr1.
  destruct (first_frame_spec (E:=them) peer Hsk' e' k' He') as (raw1 & ch & Hf & Hu1 & Ht1 & Hfrom & Hn).
  destruct (second_frame_spec (E:=them) peer Hsk' Hek' (nid me) n k' (nid_ok me Hsk)) as (raw2 & resp & Hf2 & Hu2 & Ht2 & Hv).
  { apply urandom_length. }
  rewrite Hf in Hr1.
  destruct (do_auth_run (E:=us) me Hsk Hek s e raw1 ch (nid peer) n' w)
    as (d1 & d2 & r & D1 & D2 & Hrun & Hr); try done; [by apply nid_ok|apply urandom_length|].
  exists d1, d2, r. split_and!; [done..|]. intros Hr2. rewrite Hf2 in Hr2.
  by rewrite (Hr _ _ _ Hr2 Hu2 Ht2 (Hv e Hm)).
Qed.

Lemma do_auth_honest {St} (me peer : NodeIdentity) s e e' k' (w : World St) :
  skp_ok (n_signing me) → ekp_ok (n_encryption me) →
  skp_ok (n_signing peer) → ekp_ok (n_encryption peer) →
  id_mismatch e (nid peer) = false → atom_ok (py_or e "") = true →
  atom_ok (py_or e' "") = true →
  let k := w_tick w in
  let n := o_random (@outcome _ _ us k) Auth.NONCE_SIZE in
  let n' := o_random (@outcome _ _ them k') Auth.NONCE_SIZE in
  o_send (@outcome _ _ us (3 + k)) = Ok () → o_send (@outcome _ _ us (7 + k)) = Ok () →
  o_recv (@outcome _ _ us (4 + k)) = first_frame (E:=them) peer e' k' →
  o_recv (@outcome _ _ us (8 + k)) = second_frame (E:=them) peer (nid me) n k' →
  ∃ d1 d2, first_frame (E:=us) me e k = Ok d1 ∧ second_frame (E:=us) me (nid peer) n' k = Ok d2 ∧
    do_auth (env:=us) me s e w =
    (Ok (mkConn s (nid peer) (sk_public (n_signing peer))
           (VBin (ek_public (n_encryption peer))) (nid me)),
     mkWorld (9 + k) (w_trace w ++ [IoSend s d1; IoSend s d2]) (w_st w)).
Proof.
  intros Hsk Hek Hsk' Hek' Hm He He' k n n' Hs1 Hs2 Hr1 Hr2.
  destruct (do_auth_halfway me peer s e e' k' w) as (d1 & d2 & r & D1 & D2 & Hrun & Hr); [done..|].
  exists d1, d2. split_and!; [done..|]. by rewrite Hrun, Hr.
Qed.
End handshake_honest.

(** ** Properties *)

(** The frames of a batch up to the first that the loop cannot process, as the
    packets that verify, and the exception of that first frame. *)
Section batch.
Context `{!MsgPack} `{!PyRepr} `{!Ed25519} `{!E2E} `{!Env}.

(** What the loop makes of one frame: a packet to handle, a frame to drop, or
    an exception. *)
Definition classify (conn : PeerConnection) (raw : bytes) : result (option Packet) :=
  pkt ← unpack raw;
  ok ← verify_packet pkt (peer_signing_pubkey conn);
  mret (if ok : bool then Some pkt else None).

Fixpoint accepted (conn : PeerConnection) (frames : list bytes) : list Packet * result unit :=
  match frames with
  | [] => ([], Ok ())
  | raw :: frames =>
      match classify conn raw with
      | Raise e => ([], Raise e)
      | Ok None => accepted conn frames
      | Ok (Some p) => prod_map (cons p) id (accepted conn frames)
      end
  end.

Lemma recv_frame_classify (op : Packet → PeerConnection → M NodeState unit) conn raw w :
  recv_frame op conn raw w =
  match classify conn raw with
  | Raise e => (Raise e, w)
  | Ok None => (Ok (), w)
  | Ok (Some p) => (Ok (), (op p conn w).2)
  end.
Proof.
  unfold recv_frame, classify, mbind, M_bind, lift, M_lift, catch, M_catch. simpl.
  destruct (unpack raw) as [p|e]; simpl; [|done].
  destruct (verify_packet p _) as [[]|e]; simpl; [|done|done].
  destruct (op p conn w) as [[[]|e] w']; done.
Qed.

(** The handler runs on packets one after another, whatever it raises. *)
Definition handle_all (op : Packet → PeerConnection → M NodeState unit) (conn : PeerConnection)
    (l : list Packet) (w : World NodeState) : World NodeState :=
  foldl (λ w p, (op p conn w).2) w l.

Lemma recv_frames_run (op : Packet → PeerConnection → M NodeState unit) conn frames w :
  for_each frames (recv_frame op conn) w =
  ((accepted conn frames).2, handle_all op conn (accepted conn frames).1 w).
Proof.
  revert w. induction frames as [|raw frames IH]; intros w; [done|]. simpl.
  unfold mbind, M_bind at 1. rewrite recv_frame_classify.
  destruct (classify conn raw) as [[p|]|e]; simpl; [|apply IH|done].
  rewrite IH. by destruct (accepted conn frames).
Qed.
End batch.

Section transport_properties.
Context `{!MsgPack} `{!PyRepr} `{!Ed25519} `{!E2E} {env : Env}.
Context (identity : NodeIdentity).

Lemma make_challenge_Ok_inv {S} f t (w : World S) p n w' :
  make_challenge f t w = (Ok (p, n), w') →
  n = o_random (outcome (w_tick w)) Auth.NONCE_SIZE ∧
  w' = mkWorld (3 + w_tick w) (w_trace w) (w_st w).
Proof.
  unfold make_challenge, make_auth_challenge, new_packet, urandom, uuid4, time, ask, interact,
    M_interact, lift, M_lift, mbind, M_bind; simpl.
  destruct (encode_payload _); [|done]. by intros [= _ <- <-].
Qed.

Lemma make_response_Ok_inv {S} f t n kp ek (w : World S) p w' :
  make_response f t n kp ek w = (Ok p, w') → w' = mkWorld (2 + w_tick w) (w_trace w) (w_st w).
Proof.
  unfold make_response, make_auth_response, new_packet, uuid4, time, ask, interact, M_interact,
    lift, M_lift, mbind, M_bind.
  simpl. destruct (sign n kp); [|done]. destruct (encode_payload _); [|done].
  by intros [= _ <-].
Qed.

(** C3: whoever the handshake lets in has answered our challenge.  If
    [do_auth] returns a connection, then exactly two frames went out on this
    socket, the database and the registry are untouched, the connection's peer
    is named by the hexadecimal form of its key and is the expected peer if one
    was expected, and that key verified a signature, in the last frame received,
    over the random nonce drawn at the handshake's first step. *)
Theorem do_auth_sound s e (w : World NodeState) conn w' :
  do_auth identity s e w = (Ok conn, w') →
  let nonce := o_random (outcome (w_tick w)) Auth.NONCE_SIZE in
  (∃ d1 d2, w' = mkWorld (9 + w_tick w) (w_trace w ++ [IoSend s d1; IoSend s d2]) (w_st w)) ∧
  ws conn = s ∧ local_node_id conn = nid identity ∧
  peer_node_id conn = bytes_hex (peer_signing_pubkey conn) ∧
  (truthy e = true → e = VStr (peer_node_id conn)) ∧
  ∃ raw resp sg, o_recv (outcome (8 + w_tick w)) = Ok raw ∧ unpack raw = Ok resp ∧
    type resp = VStr T.AUTH_RESPONSE ∧
    response_fields resp = Ok (VBin nonce, sg, VBin (peer_signing_pubkey conn),
      peer_enc_pubkey conn) ∧
    verify (VBin nonce) sg (VBin (peer_signing_pubkey conn)) = Ok true.
Proof.
  unfold do_auth.
  intros ([p1 n1] & w1 & [-> ->]%make_challenge_Ok_inv & E)%bind_Ok_inv. simpl in E.
  apply lift_bind_Ok_inv in E as (d1 & _ & E).
  apply bind_Ok_inv in E as (u & w2 & [_ ->]%ws_send_Ok_inv & E). simpl in E.
  apply bind_Ok_inv in E as (raw1 & w3 & [_ ->]%ws_recv_Ok_inv & E). simpl in E.
  apply lift_bind_Ok_inv in E as (ch & _ & E). case_decide; [done|].
  apply lift_bind_Ok_inv in E as (n' & _ & E).
  apply bind_Ok_inv in E as (r & w4 & ->%make_response_Ok_inv & E). simpl in E.
  apply lift_bind_Ok_inv in E as (d2 & _ & E).
  apply bind_Ok_inv in E as (u' & w5 & [_ ->]%ws_send_Ok_inv & E). simpl in E.
  apply bind_Ok_inv in E as (raw2 & w6 & [Hraw ->]%ws_recv_Ok_inv & E). simpl in E.
  apply lift_bind_Ok_inv in E as (resp & Hresp & E). case_decide as Ht; [done|].
  apply lift_bind_Ok_inv in E as ([a|] & Ha & E); [|done].
  apply verify_response_some in Ha as (sg & Hf & Hid & Hm & Hv).
  unfold mret, M_ret in E. injection E as <- <-. simpl. split.
  { exists d1, d2. by rewrite <-(assoc (++)). }
  split_and!; [done..| |].
  - intros He. unfold id_mismatch in Hm.
    rewrite He, andb_true_l, bool_decide_eq_false in Hm. by apply dec_stable in Hm.
  - exists raw2, resp, sg. split_and!; done.
Qed.

(** C25: the receive loop handles exactly the packets that verify under the
    peer's key, in order, whatever their handlers raise; the first frame that
    cannot be decoded, or whose fields cannot be signed over, ends the loop with
    that exception and the frames after it are not looked at; and in every case
    the peer is unregistered at the end. *)
Theorem recv_loop_runs op conn frames (w : World NodeState) :
  recv_loop op conn frames w =
  ((accepted conn frames).2,
   (end_loop conn (handle_all op conn (accepted conn frames).1 w)).2) ∧
  ns_conns (w_st (recv_loop op conn frames w).2) !! peer_node_id conn = None.
Proof.
  assert (recv_loop op conn frames w =
    ((accepted conn frames).2,
     (end_loop conn (handle_all op conn (accepted conn frames).1 w)).2)) as Hrun.
  { unfold recv_loop, finally, M_finally. by rewrite recv_frames_run. }
  split; [done|]. rewrite Hrun. simpl. apply lookup_delete_eq.
Qed.

(** A receive loop that ends removes the connection that replaced its own.
    [remove] goes by the peer's identifier, so if the peer has reconnected and
    its new connection is registered and being read, the end of the old
    connection's loop unregisters the new one: it keeps being read, but
    [send_to] no longer finds it. *)
Theorem stale_loop_unregisters_reconnected_peer old new (w : World NodeState) p :
  peer_node_id old = peer_node_id new → old ≠ new →
  ns_conns (w_st w) !! peer_node_id new = Some new → new ∈ ns_loops (w_st w) →
  wp (end_loop old) (λ r w', r = Ok () ∧ new ∈ ns_loops (w_st w') ∧
    ns_conns (w_st w') !! peer_node_id new = None ∧
    send_to identity (VStr (peer_node_id new)) p w' = (Ok (false, p), w')) w.
Proof.
  intros Hid Hne Hc Hl. unfold wp. split; [done|].
  assert (ns_conns (w_st (end_loop old w).2) !! peer_node_id new = None) as Hn.
  { simpl. rewrite Hid. apply lookup_delete_eq. }
  split_and!; [|done|].
  - simpl. apply list_elem_of_filter. auto.
  - generalize (end_loop old w).2 Hn. intros w' Hw'.
    unfold send_to, registry_get, gets, M_gets, mbind, M_bind. by rewrite Hw'.
Qed.

(** [send_to] answers [True] exactly when it wrote the packet, signed with
    our key, to the socket registered for the peer; it answers [False] when no
    connection is registered, and also when the registered one turns out closed,
    which it then unregisters.  It writes nothing else. *)
Theorem send_to_spec id p (w : World NodeState) q :
  transport_sign identity p = Ok q →
  wp (send_to identity (VStr id) p) (λ r w',
    match ns_conns (w_st w) !! id, pack q, o_send (outcome (w_tick w)) with
    | None, _, _ => r = Ok (false, p) ∧ w' = w
    | Some conn, Raise e, _ =>
        if decide (e = ConnectionClosed) then
          r = Ok (false, q) ∧ w_trace w' = w_trace w ∧ w_st w' = set_conns (delete id) (w_st w)
        else r = Raise e ∧ w' = w
    | Some conn, Ok d, Ok _ =>
        r = Ok (true, q) ∧ w_trace w' = w_trace w ++ [IoSend (ws conn) d] ∧ w_st w' = w_st w
    | Some conn, Ok d, Raise e =>
        w_trace w' = w_trace w ∧
        if decide (e = ConnectionClosed) then
          r = Ok (false, q) ∧ w_st w' = set_conns (delete id) (w_st w)
        else r = Raise e ∧ w_st w' = w_st w
    end) w.
Proof.
  intros Hq. unfold wp, send_to, registry_get, gets, M_gets, mbind, M_bind. simpl.
  destruct (ns_conns (w_st w) !! id) as [conn|]; [|done].
  unfold lift, M_lift, catch, M_catch, peer_send, mbind, M_bind. rewrite Hq. unfold lift,
    M_lift. simpl.
  destruct (pack q) as [d|e]; [|by case_decide].
  unfold ws_send, await, M_await, ask_result, ask, interact, M_interact, lift, M_lift, emit,
    M_emit, mbind, M_bind. simpl.
  destruct (o_send (outcome (w_tick w))) as [[]|e]; [done|]. simpl. by case_decide.
Qed.
End transport_properties.

Section handshake_properties.
Context `{!MsgPack} `{!PyRepr} `{!Ed25519} `{!E2E} `{!MsgPackLaws} `{!Ed25519Laws} `{!E2ELaws}.

Lemma expected_atom_ok (i : NodeIdentity) e :
  skp_ok (n_signing i) → e = VNone ∨ e = VStr (nid i) →
  atom_ok (py_or e "") = true ∧ id_mismatch e (nid i) = false.
Proof.
  intros Hk [-> | ->]; [done|]. split.
  - unfold py_or. case_match; [by apply nid_ok|done].
  - unfold id_mismatch. by rewrite bool_decide_false, andb_false_r by naive_solver.
Qed.

(** What a handshake that begins at instant [k] receives: the frames of the list, as
    far as they go. *)
Definition receives (E : Env) (k : nat) (l : list bytes) : Prop :=
  (∀ d, l !! 0 = Some d → o_recv (@outcome _ _ E (4 + k)) = Ok d) ∧
  (∀ d, l !! 1 = Some d → o_recv (@outcome _ _ E (8 + k)) = Ok d).

Lemma opens_received (EA EB : Env) `{!@EnvLaws _ _ EA} (A : NodeIdentity) sA eA (wA : World NodeState) kB :
  skp_ok (n_signing A) → atom_ok (py_or eA "") = true →
  o_send (@outcome _ _ EA (3 + w_tick wA)) = Ok () →
  receives EB kB (written sA (do_auth (env:=EA) A sA eA) wA) →
  o_recv (@outcome _ _ EB (4 + kB)) = first_frame (E:=EA) A eA (w_tick wA).
Proof.
  intros HsA OA SA [R _]. destruct (do_auth_opens (E:=EA) A HsA sA eA wA OA SA) as (d1 & l' & -> & Ht).
  apply R. by rewrite (written_app _ _ _ _ Ht), frames_on_cons.
Qed.

(** C4: two honest nodes authenticate each other.  Each runs [do_auth] with its
    own keys, clock and randomness, expecting nobody in particular or the other
    one; the sends succeed, and the frames that either receives are those that the
    other's run writes, in order.  Then each writes two frames, and both handshakes
    return, each with a connection that carries the other's identifier and both of
    the other's public keys. *)
Theorem mutual_handshake (EA EB : Env) `{!@EnvLaws _ _ EA} `{!@EnvLaws _ _ EB}
    (A B : NodeIdentity) sA sB eA eB (wA wB : World NodeState) :
  skp_ok (n_signing A) → ekp_ok (n_encryption A) →
  skp_ok (n_signing B) → ekp_ok (n_encryption B) →
  eA = VNone ∨ eA = VStr (nid B) → eB = VNone ∨ eB = VStr (nid A) →
  (∀ i, o_send (@outcome _ _ EA i) = Ok ()) → (∀ i, o_send (@outcome _ _ EB i) = Ok ()) →
  receives EA (w_tick wA) (written sB (do_auth (env:=EB) B sB eB) wB) →
  receives EB (w_tick wB) (written sA (do_auth (env:=EA) A sA eA) wA) →
  (do_auth (env:=EA) A sA eA wA).1 = Ok (mkConn sA (nid B) (sk_public (n_signing B))
    (VBin (ek_public (n_encryption B))) (nid A)) ∧
  (do_auth (env:=EB) B sB eB wB).1 = Ok (mkConn sB (nid A) (sk_public (n_signing A))
    (VBin (ek_public (n_encryption A))) (nid B)) ∧
  length (written sA (do_auth (env:=EA) A sA eA) wA) = 2 ∧
  length (written sB (do_auth (env:=EB) B sB eB) wB) = 2.
Proof.
  intros HsA HeA HsB HeB HA HB SA SB RA RB.
  destruct (expected_atom_ok B eA HsB HA) as [OA MA].
  destruct (expected_atom_ok A eB HsA HB) as [OB MB].
  pose proof (opens_received EA EB A sA eA wA _ HsA OA (SA _) RB) as FA.
  pose proof (opens_received EB EA B sB eB wB _ HsB OB (SB _) RA) as FB.
  destruct (do_auth_halfway (us:=EA) (them:=EB) A B sA eA eB (w_tick wB) wA)
    as (a1 & a2 & rA & _ & A2 & RunA & OkA); [done..|].
  destruct (do_auth_halfway (us:=EB) (them:=EA) B A sB eB eA (w_tick wA) wB)
    as (b1 & b2 & rB & _ & B2 & RunB & OkB); [done..|].
  assert (written sA (do_auth (env:=EA) A sA eA) wA = [a1; a2]) as WA.
  { rewrite (written_app _ _ _ [IoSend sA a1; IoSend sA a2]) by by rewrite RunA.
    by rewrite !frames_on_cons. }
  assert (written sB (do_auth (env:=EB) B sB eB) wB = [b1; b2]) as WB.
  { rewrite (written_app _ _ _ [IoSend sB b1; IoSend sB b2]) by by rewrite RunB.
    by rewrite !frames_on_cons. }
  rewrite WB in RA. rewrite WA in RB. rewrite RunA, RunB, WA, WB. split_and!; [| |done..].
  - apply OkA. rewrite B2. by apply RA.
  - apply OkB. rewrite A2. by apply RB.
Qed.

(** C34: the handshake accepts its own reflection.  A peer that holds no key and
    sends back each of the two frames that it is sent is authenticated, as the
    node itself: [accept] registers a connection under the node's own
    identifier and starts to read it. *)
Theorem handshake_accepts_reflection (E : Env) `{!@EnvLaws _ _ E} (me : NodeIdentity) s
    (w : World NodeState) :
  skp_ok (n_signing me) → ekp_ok (n_encryption me) →
  (∀ i, o_send (@outcome _ _ E i) = Ok ()) →
  receives E (w_tick w) (written s (accept me s) w) →
  wp (accept me s) (λ r w', r = Ok () ∧
    let conn := mkConn s (nid me) (sk_public (n_signing me))
                  (VBin (ek_public (n_encryption me))) (nid me) in
    ns_conns (w_st w') !! nid me = Some conn ∧ conn ∈ ns_loops (w_st w')) w.
Proof.
  intros Hs He S HR.
  assert (receives E (w_tick w) (written s (do_auth me s VNone) w)) as HR'.
  { destruct (grows_do_auth me s VNone w) as [l Hl]. revert HR.
    unfold accept, written. rewrite !bindE, catchE, bindE.
    destruct (do_auth (m:=M NodeState) me s VNone w) as [[conn|x] w']; simpl in Hl; [done|].
    unfold ws_close. run_simpl. rewrite Hl, drop_app_length.
    rewrite <-(assoc (++)), drop_app_length. unfold frames_on. by rewrite omap_app, app_nil_r. }
  pose proof (opens_received E E me s VNone w _ Hs eq_refl (S _) HR') as F.
  destruct (do_auth_halfway (us:=E) (them:=E) me me s VNone VNone (w_tick w) w)
    as (d1 & d2 & r & _ & D2 & Hrun & Hr); [done..|].
  assert (r = Ok (mkConn s (nid me) (sk_public (n_signing me))
    (VBin (ek_public (n_encryption me))) (nid me))) as ->.
  { apply Hr. rewrite D2. apply HR'.
    rewrite (written_app _ _ _ [IoSend s d1; IoSend s d2]) by by rewrite Hrun.
    by rewrite !frames_on_cons. }
  unfold wp, accept. rewrite !bindE, catchE, bindE, Hrun. simpl.
  split; [done|]. split; [apply lookup_insert_eq|apply list_elem_of_here].
Qed.
End handshake_properties.

(** ** Witnesses *)

Module TransportWitnesses.
Import Samples.
#[local] Existing Instance recv_env_laws.

Definition alice : NodeIdentity :=
  mkNodeIdentity (sample_signing "001") (sample_encryption "002") "a:1" "permanent" "open".
Definition bob : NodeIdentity :=
  mkNodeIdentity (sample_signing "003") (sample_encryption "004") "b:1" "permanent" "open".
Definition idle : World NodeState := mkWorld 0 [] (mkNodeState empty_db ∅ [] [] created).

(** What a party receives from a peer, and the environment that results. *)
Definition frames_of (peer : NodeIdentity) (e : pyval) (to : string) : nat → result bytes := λ i,
  if decide (i = 4) then first_frame (E:=calm_env) peer e 0
  else if decide (i = 8)
    then second_frame (E:=calm_env) peer to (o_random calm Auth.NONCE_SIZE) 0
  else Raise ConnectionClosed.
Definition env_of (peer : NodeIdentity) (e : pyval) (to : string) : Env :=
  recv_env (frames_of peer e to).

Lemma do_auth_sound_witness :
  let E := env_of bob VNone (nid alice) in
  ∃ conn w', do_auth (env:=E) (m:=M NodeState) alice 5 (VStr (nid bob)) idle = (Ok conn, w') ∧
    VStr (nid bob) = VStr (peer_node_id conn).
Proof.
  intros E.
  destruct (do_auth (env:=E) (m:=M NodeState) alice 5 (VStr (nid bob)) idle) as [[conn|e] w'] eqn:Hrun;
    [|vm_compute in Hrun; discriminate].
  exists conn, w'. split; [reflexivity|].
  destruct (do_auth_sound (env:=E) alice 5 (VStr (nid bob)) idle conn w' Hrun) as (_ & _ & _ & _ & He & _).
  apply He. reflexivity.
Defined.

Definition link (s : socket) : PeerConnection :=
  mkConn s (nid bob) (sk_public (n_signing bob)) (VBin []) (nid alice).
Definition reconnected : World NodeState :=
  mkWorld 0 [] (mkNodeState empty_db {[nid bob := link 2]} [link 2; link 1] [] created).
Definition hello : Packet :=
  mkPacket "msg" (VBin []) "id" "a" "b" (VBin []) (VInt 3) (VInt 1).

Lemma stale_loop_unregisters_reconnected_peer_witness :
  wp (end_loop (link 1)) (λ r w', r = Ok () ∧ link 2 ∈ ns_loops (w_st w') ∧
    ns_conns (w_st w') !! nid bob = None ∧
    send_to (env:=calm_env) alice (VStr (nid bob)) hello w' = (Ok (false, hello), w')) reconnected.
Proof.
  apply (stale_loop_unregisters_reconnected_peer (env:=calm_env) alice (link 1) (link 2) reconnected hello);
    [reflexivity|discriminate|vm_compute; reflexivity|apply list_elem_of_here].
Defined.

Lemma send_to_spec_witness :
  wp (send_to (env:=calm_env) alice (VStr (nid bob)) hello) (λ r w', ∃ q d,
    r = Ok (true, q) ∧ w_trace w' = [IoSend 2 d]) reconnected.
Proof.
  destruct (transport_sign alice hello) as [q|] eqn:Hq; [|vm_compute in Hq; discriminate].
  pose proof (send_to_spec (env:=calm_env) alice (nid bob) hello reconnected q Hq) as Hs.
  unfold wp in *. 
  assert (ns_conns (w_st reconnected) !! nid bob = Some (link 2)) as Hc
    by (vm_compute; reflexivity).
  rewrite Hc in Hs. simpl in Hs. destruct Hs as (-> & -> & _). do 2 eexists. split; reflexivity.
Defined.

(** What arrives is what the peer's run writes. *)
Ltac heard := split; intros d Hd; vm_compute in Hd; injection Hd as <-; vm_compute; exact eq_refl.

Lemma mutual_handshake_witness :
  let EA := env_of bob VNone (nid alice) in
  let EB := env_of alice (VStr (nid bob)) (nid bob) in
  (do_auth (env:=EA) (m:=M NodeState) alice 5 (VStr (nid bob)) idle).1 = Ok (mkConn 5 (nid bob)
    (sk_public (n_signing bob)) (VBin (ek_public (n_encryption bob))) (nid alice)) ∧
  (do_auth (env:=EB) (m:=M NodeState) bob 6 VNone idle).1 = Ok (mkConn 6 (nid alice)
    (sk_public (n_signing alice)) (VBin (ek_public (n_encryption alice))) (nid bob)).
Proof.
  intros EA EB.
  destruct (mutual_handshake (recv_env (frames_of bob VNone (nid alice)))
      (recv_env (frames_of alice (VStr (nid bob)) (nid bob))) alice bob 5 6 (VStr (nid bob)) VNone idle idle)
    as (HA & HB & _).
  1-4: reflexivity.
  - right. reflexivity.
  - left. reflexivity.
  - intros i. reflexivity.
  - intros i. reflexivity.
  - heard.
  - heard.
  - split; [exact HA|exact HB].
Defined.

Lemma handshake_accepts_reflection_witness :
  let E := env_of alice VNone (nid alice) in
  wp (accept (env:=E) alice 9) (λ r w', r = Ok () ∧
    let conn := mkConn 9 (nid alice) (sk_public (n_signing alice))
                  (VBin (ek_public (n_encryption alice))) (nid alice) in
    ns_conns (w_st w') !! nid alice = Some conn ∧ conn ∈ ns_loops (w_st w')) idle.
Proof.
  intros E. apply (handshake_accepts_reflection E alice 9 idle).
  - reflexivity.
  - reflexivity.
  - intros i. reflexivity.
  - heard.
Defined.
End TransportWitnesses.
