(* ===== verification/Router.v ===== *)
(** * Message routing ([node/router.py])

    A packet addressed to [cell@node] goes to the node the cell visits, then to
    its home node, and into the buffer if neither takes it.  [flush_buffer]
    routes the buffered packets of a cell again.

    Sending signs the caller's packet in place, so the operations that send
    return the packet as the caller holds it afterwards. *)
From S2P Require Import Prelude PyVal Interfaces Effects Crypto Protocol Auth Identity Table Storage Transport.
From S2P Require Samples.

(** [addr.split] exists on texts only; [in] also works on lists, on the keys of
    a dictionary and on extension types, and raises on everything else. *)
Definition parse_addr (addr : pyval) : result (option string * pyval) :=
  match addr with
  | VStr s =>
      match split_first "@" s with
      | Some (cell_id, node_id) => Ok (Some cell_id, VStr node_id)
      | None => Ok (None, VStr s)
      end
  | VList l => if decide (VStr "@" ∈ l) then Raise AttributeError else Ok (None, addr)
  | VDict d => if decide (KStr "@" ∈ d.*1) then Raise AttributeError else Ok (None, addr)
  | VExt code _ => if decide (code = -1)%Z then Raise TypeError else Ok (None, addr)
  | _ => Raise TypeError
  end.

(** The document that a buffered packet is stored as; the version is not kept. *)
Definition buffer_dict (pkt : Packet) : pyval := VDict [
  (KStr "type", type pkt); (KStr "id", pid pkt);
  (KStr "from", from_addr pkt); (KStr "to", to_addr pkt);
  (KStr "payload", payload pkt); (KStr "sig", sig pkt); (KStr "ts", ts pkt)].

Section router.
Context `{!MsgPack} `{!PyRepr} `{!Ed25519} `{!E2E} {env : Env}.
Context {m : Type → Type} `{!MRet m, !MBind m, !MThrow m, !MLift m}.
Context `{!MGets NodeState m, !MModify NodeState m, !MEmit NodeState m, !MInteract NodeState m}.
Context `{!MCatch m, !MFinally m, !MAwait m}.
Context (identity : NodeIdentity).
(** Whether the node was given an [on_message] callback. *)
Context (has_handler : bool).

Definition serialize_packet (pkt : Packet) : result bytes := packb (buffer_dict pkt).

Definition deserialize_packet (data : bytes) : option Packet :=
  match unpack data with Ok pkt => Some pkt | Raise _ => None end.

(** [await self.node.on_message(pkt)] *)
Definition on_message (pkt : Packet) : m unit :=
  modify (add_delivered pkt) ;; await (ask_result o_callback).

Definition deliver_local (pkt : Packet) : m Packet :=
  '(cell_id, _) ← lift (parse_addr (to_addr pkt));
  '(sent, pkt) ←
    (match cell_id with
     | Some c => if decide (c ≠ "") then send_to identity (VStr c) pkt else mret (false, pkt)
     | None => mret (false, pkt)
     end);
  if sent : bool then mret pkt
  else if has_handler then on_message pkt ;; mret pkt
  else lift (py_slice8 (to_addr pkt)) ;; mret pkt.

(** The second part of [_send_to_node]: open a connection to a known node. *)
Definition send_by_connecting (node_id : pyval) (pkt : Packet) : m (bool * Packet) :=
  entry ← get_node node_id;
  match entry with
  | None => mret (false, pkt)
  | Some entry =>
      if decide (status entry ≠ "online") then mret (false, pkt) else
      let failed pkt := lift (py_slice8 node_id) ;; mret (false, pkt) in
      catch
        (conn ← connect_to_node identity node_id (address entry);
         signed ← lift (transport_sign identity pkt);
         catch (peer_send conn signed ;; mret (true, signed)) (λ _, failed signed))
        (λ _, failed pkt)
  end.

Definition send_to_node (node_id : pyval) (pkt : Packet) : m (bool * Packet) :=
  if decide (node_id = VStr (nid identity)) then
    pkt ← deliver_local pkt; mret (true, pkt)
  else
    '(sent, pkt) ← send_to identity node_id pkt;
    if sent : bool then mret (true, pkt) else send_by_connecting node_id pkt.

(** The visiting node, if the presence names one, is tried first. *)
Definition send_visiting (p : PresenceEntry) (pkt : Packet) : m (bool * Packet) :=
  match visiting_node_id p with
  | Some v => if decide (v ≠ "") then send_to_node (VStr v) pkt else mret (false, pkt)
  | None => mret (false, pkt)
  end.

Definition route (pkt : Packet) : m unit :=
  '(cell_id, to_node_id) ← lift (parse_addr (to_addr pkt));
  match cell_id with
  | None => send_to_node to_node_id pkt ;; mret ()
  | Some c =>
      presence ← get_presence (VStr c);
      match presence with
      | None =>
          cell ← get_cell (VStr c);
          match cell with
          | Some _ => deliver_local pkt ;; mret ()
          | None => mret ()
          end
      | Some p =>
          '(sent, pkt) ← send_visiting p pkt;
          if sent : bool then mret () else
          '(sent, pkt) ← send_to_node (VStr (home_node_id p)) pkt;
          if sent : bool then mret () else
          lift (py_slice8 (pid pkt)) ;;
          data ← lift (serialize_packet pkt);
          buffer_message (pid pkt) c (home_node_id p) data
      end
  end.

(** The body of the loop of [flush_buffer]. *)
Definition flush_one (msg : BufferedMessage) : m unit :=
  match deserialize_packet (bm_payload msg) with
  | Some pkt => route pkt ;; delete_buffered (message_id msg)
  | None => mret ()
  end.

Definition flush_buffer (cell_id : string) : m unit :=
  messages ← get_buffered cell_id;
  for_each messages flush_one.
End router.

(** ** Lemmas *)

Lemma parse_addr_cell c n :
  str_mem "@" c = false → parse_addr (VStr (c +:+ "@" +:+ n)) = Ok (Some c, VStr n).
Proof.
  intros Hc. unfold parse_addr. change (c +:+ "@" +:+ n) with (c +:+ String "@" n).
  by rewrite split_first_app.
Qed.

Section router_lemmas.
Context `{!MsgPack} `{!PyRepr} `{!Ed25519} `{!E2E} {env : Env}.
Context {m : Type → Type} `{EffectRules NodeState m}.
Context (identity : NodeIdentity) (has_handler : bool).
Context (Φ : policy).
(** Messages may be buffered, or none has to be: every known cell is at home here. *)
Context (Hbuf :
  (∀ i c n b now, Φ (BufferMessage (mkMessage i c n b now (now + TTL_MESSAGE_SECS)%Z))) ∨
  (∀ d, holds_in Φ d → homed_only (nid identity) d)).
Context (Hdel : ∀ k, Φ (DeleteBuffered k)).

Lemma pres_st_get_node k : pres (node_rel Φ) (get_node k).
Proof. by apply pres_get_node, _. Qed.
Lemma pres_st_get_cell k : pres (node_rel Φ) (get_cell k).
Proof. by apply pres_get_cell, _. Qed.
Lemma pres_st_get_presence k : pres (node_rel Φ) (get_presence k).
Proof. by apply pres_get_presence, _. Qed.
Lemma pres_st_get_buffered c : pres (node_rel Φ) (get_buffered c).
Proof. by apply pres_get_buffered, _. Qed.
Lemma pres_st_delete_buffered k : pres (node_rel Φ) (delete_buffered k).
Proof. apply (pres_delete_buffered _ Φ); auto using node_rel_exec. Qed.

Lemma pres_on_message p : pres (node_rel Φ) (on_message p).
Proof.
  unfold on_message. apply pres_bind; [apply _| |intros; apply pres_await, pres_ask_result; apply _]. apply pres_modify.
  intros s ([Hs _] & _). split; [split; [done|apply rtc_refl]|]. split; [done|]. by eexists.
Qed.

Lemma pres_deliver_local p : pres (node_rel Φ) (deliver_local identity has_handler p).
Proof.
  unfold deliver_local. apply pres_lift_bind; [apply _|]. intros [c n] _.
  apply pres_bind; [apply _| |].
  - destruct c; [case_decide|]; eauto with pres typeclass_instances.
  - intros [[] q]; [apply pres_ret, _|]. destruct has_handler.
    + apply pres_bind; [apply _|apply pres_on_message|intros; apply pres_ret, _].
    + apply pres_bind; [apply _|apply pres_lift, _|intros; apply pres_ret, _].
Qed.

Lemma pres_send_by_connecting n p : pres (node_rel Φ) (send_by_connecting identity n p).
Proof.
  unfold send_by_connecting. apply pres_bind; [apply _|apply pres_st_get_node|intros [e|]]; [|apply pres_ret, _].
  case_decide; [apply pres_ret, _|].
  apply pres_catch; [apply _| |intros; pres_auto].
  apply pres_bind; [apply _|apply pres_connect_to_node|intros conn]. pres_auto.
Qed.

Lemma pres_send_to_node n p : pres (node_rel Φ) (send_to_node identity has_handler n p).
Proof.
  unfold send_to_node. case_decide.
  - apply pres_bind; [apply _|apply pres_deliver_local|intros; apply pres_ret, _].
  - apply pres_bind; [apply _|apply pres_send_to|intros [[] q]]; [apply pres_ret, _|].
    apply pres_send_by_connecting.
Qed.

(** Sending to the own identifier always counts as sent. *)
Lemma knows_send_home n p : n = nid identity →
  returns (λ r, r.1 = true) (send_to_node identity has_handler (VStr n) p).
Proof.
  intros ->. unfold send_to_node. rewrite decide_True by done.
  apply returns_bind. intros q. by apply knows_ret.
Qed.
Lemma knows_homed k : (∀ d, holds_in Φ d → homed_only (nid identity) d) →
  knows (node_rel Φ) (λ o, ∀ e, o = Some e →
    home_node_id e = nid identity ∧ visiting_node_id e = None) (get_presence k).
Proof.
  intros Hall. unfold get_presence. apply knows_bind with (P := λ _, True);
    [apply _|apply pres_lift, _|apply knows_True|].
  intros k' _. apply knows_query. intros s ([Hs _] & _) e.
  destruct (text_key k') as [k2|]; [|done]. intros [Hin _]%select_pk_Some.
  specialize (Hall _ Hs). unfold homed_only in Hall. rewrite Forall_forall in Hall. by apply Hall.
Qed.

(** Once the presence of the cell is known. *)
Lemma pres_route_known e p rest :
  (∀ q, pres (node_rel Φ) (rest q)) ∨ home_node_id e = nid identity →
  pres (node_rel Φ)
    ('(sent, q) ← send_visiting identity has_handler e p;
     if sent : bool then mret () else
     '(sent, q) ← send_to_node identity has_handler (VStr (home_node_id e)) q;
     if sent : bool then mret () else rest q).
Proof.
  intros Hrest. apply pres_bind; [apply _| |intros [[] q]]; [|apply pres_ret, _|].
  { unfold send_visiting. case_match; [case_decide|]; try apply pres_ret, _.
    apply pres_send_to_node. }
  destruct Hrest as [Hrest|Hhome].
  - apply pres_bind; [apply _|apply pres_send_to_node|intros [[] q']]; [apply pres_ret, _|done].
  - eapply pres_bind_returns; [apply _|apply pres_send_to_node|by apply knows_send_home|].
    intros [b q'] Hb. simpl in Hb. subst b. apply pres_ret, _.
Qed.

Lemma pres_route p : pres (node_rel Φ) (route identity has_handler p).
Proof.
  unfold route. apply pres_lift_bind; [apply _|]. intros [[c|] n] _.
  - apply pres_bind_knows with (P := λ o, ∀ e, o = Some e →
      (∀ i c n b now, Φ (BufferMessage (mkMessage i c n b now (now + TTL_MESSAGE_SECS)%Z))) ∨
      home_node_id e = nid identity); [apply _|apply pres_st_get_presence| |intros [e|] He].
    { destruct Hbuf as [Hb|Hb].
      - eapply knows_mono, knows_True. naive_solver.
      - eapply knows_mono, knows_homed, Hb. naive_solver. }
    + apply pres_route_known. destruct (He e eq_refl) as [Hb|]; [left|by right]. intros q.
      apply pres_bind; [apply _|apply pres_lift, _|intros _].
      apply pres_bind; [apply _|apply pres_lift, _|intros ?].
      apply (pres_buffer_message _ Φ); auto using node_rel_exec.
    + apply pres_bind; [apply _|apply pres_st_get_cell|intros [x|]]; [|apply pres_ret, _].
      apply pres_bind; [apply _|apply pres_deliver_local|intros; apply pres_ret, _].
  - apply pres_bind; [apply _|apply pres_send_to_node|intros; apply pres_ret, _].
Qed.

Lemma pres_flush_buffer c : pres (node_rel Φ) (flush_buffer identity has_handler c).
Proof.
  unfold flush_buffer. apply pres_bind; [apply _|apply pres_st_get_buffered|intros l].
  apply pres_for_each; [apply _|]. intros msg. unfold flush_one. case_match; [|apply pres_ret, _].
  apply pres_bind; [apply _|apply pres_route|intros _]. apply pres_st_delete_buffered.
Qed.
End router_lemmas.

(** *** Runs *)

(** The presence record of a cell, as [get_presence] finds it. *)
Definition presence_of (c : string) (s : NodeState) : option PresenceEntry :=
  select_pk presence_key c (presence_table (ns_db s)).
Definition entry_of (n : string) (s : NodeState) : option NodeEntry :=
  select_pk node_key (VStr n) (node_table (ns_db s)).

(** The nodes that [route] tries, in order. *)
Definition hops (p : PresenceEntry) : list string :=
  match visiting_node_id p with
  | Some v => if decide (v ≠ "") then [v; home_node_id p] else [home_node_id p]
  | None => [home_node_id p]
  end.

Section router_runs.
Context `{!MsgPack} `{!PyRepr} `{!Ed25519} `{!E2E} {env : Env}.
Context (identity : NodeIdentity) (has_handler : bool).
Implicit Types (w : World NodeState).

Lemma run_get_presence c w : get_presence (VStr c) w = (Ok (presence_of c (w_st w)), w).
Proof. done. Qed.
Lemma run_get_cell c w :
  get_cell (VStr c) w = (Ok (select_pk cell_key c (cells (ns_db (w_st w)))), w).
Proof. done. Qed.
Lemma run_get_node n w : get_node (VStr n) w = (Ok (entry_of n (w_st w)), w).
Proof. done. Qed.

(** Not connected, and not a node that can be dialled. *)
Definition unreachable (n : string) (s : NodeState) : Prop :=
  ns_conns s !! n = None ∧
  (from_option (λ e, status e ≠ "online") True (entry_of n s) ∨
   ∀ i, ∃ e, o_dial (outcome i) = Raise e).

Lemma send_to_missing n p w :
  ns_conns (w_st w) !! n = None → send_to identity (VStr n) p w = (Ok (false, p), w).
Proof. intros Hn. unfold send_to, registry_get, gets, M_gets, mbind, M_bind. by rewrite Hn. Qed.

(** A live connection takes the signed packet. *)
Lemma send_to_live n p q d conn w :
  ns_conns (w_st w) !! n = Some conn → transport_sign identity p = Ok q → pack q = Ok d →
  o_send (outcome (w_tick w)) = Ok () →
  send_to identity (VStr n) p w =
  (Ok (true, q), mkWorld (S (w_tick w)) (w_trace w ++ [IoSend (ws conn) d]) (w_st w)).
Proof.
  intros Hc Hq Hd Hs. unfold send_to, registry_get. rewrite bindE, getsE, Hc.
  rewrite (run_lift _ _ _ _ Hq). unfold peer_send.
  by rewrite catchE, !bindE, liftE, Hd, run_ws_send.
Qed.

(** A closed connection takes nothing and is unregistered. *)
Lemma send_to_closed n p q w :
  transport_sign identity p = Ok q → (∃ d, pack q = Ok d) →
  o_send (outcome (w_tick w)) = Raise ConnectionClosed →
  ∃ p' w', send_to identity (VStr n) p w = (Ok (false, p'), w') ∧ w_trace w' = w_trace w ∧
    ns_db (w_st w') = ns_db (w_st w) ∧ ns_delivered (w_st w') = ns_delivered (w_st w) ∧
    to_addr p' = to_addr p.
Proof.
  intros Hq [d Hd] Hs. unfold send_to, registry_get, gets, M_gets, mbind, M_bind.
  destruct (ns_conns (w_st w) !! n) as [conn|]; [|by do 2 eexists].
  unfold lift, M_lift, catch, M_catch, peer_send, mbind, M_bind. rewrite Hq. unfold lift,
    M_lift. rewrite Hd.
  unfold ws_send, await, M_await, ask_result, ask, interact, M_interact, lift, M_lift, mbind,
    M_bind. rewrite Hs.
  cbn -[decide]. rewrite decide_True by done. do 2 eexists. split; [done|].
  split_and!; try done. simpl. by apply sign_packet_spec in Hq as (? & _ & ->).
Qed.

Lemma send_to_node_unreachable n p w :
  n ≠ nid identity → unreachable n (w_st w) →
  ∃ k, w_tick w ≤ k ∧ send_to_node identity has_handler (VStr n) p w =
    (Ok (false, p), mkWorld k (w_trace w) (w_st w)).
Proof.
  intros Hn [Hc He]. unfold send_to_node. rewrite decide_False by congruence.
  rewrite (run_bind _ _ _ _ _ (send_to_missing _ _ _ Hc)). simpl.
  unfold send_by_connecting. rewrite (run_bind _ _ _ _ _ (run_get_node n w)).
  assert (∃ k, w_tick w ≤ k ∧ (Ok (false, p), w) = (Ok (false, p), mkWorld k (w_trace w) (w_st w))) as Hsame.
  { exists (w_tick w). split; [done|]. by destruct w. }
  destruct (entry_of n (w_st w)) as [e|]; simpl in *; [|done].
  case_decide as Hs; [done|]. destruct He as [He|He]; [done|].
  destruct (He (w_tick w)) as [x Hx].
  unfold connect_to_node, open_connection, ws_connect, await, M_await, ask_result, ask, interact,
    M_interact, lift, M_lift, catch, M_catch, mbind, M_bind.
  simpl. rewrite Hx. simpl. eexists. split; [|done]. simpl. lia.
Qed.

Lemma send_to_node_live n p q d conn w :
  n ≠ nid identity → ns_conns (w_st w) !! n = Some conn →
  transport_sign identity p = Ok q → pack q = Ok d → o_send (outcome (w_tick w)) = Ok () →
  send_to_node identity has_handler (VStr n) p w =
  (Ok (true, q), mkWorld (S (w_tick w)) (w_trace w ++ [IoSend (ws conn) d]) (w_st w)).
Proof.
  intros Hn Hc Hq Hd Hs. unfold send_to_node. rewrite decide_False by congruence.
  by rewrite (run_bind _ _ _ _ _ (send_to_live _ _ _ _ _ _ Hc Hq Hd Hs)).
Qed.

(** [route] once the presence of the cell is known: the hops one by one. *)
Fixpoint try_hops (l : list string) (pkt : Packet) : M NodeState (bool * Packet) :=
  match l with
  | [] => mret (false, pkt)
  | h :: l =>
      '(sent, pkt) ← send_to_node identity has_handler (VStr h) pkt;
      if sent : bool then mret (true, pkt) else try_hops l pkt
  end.

(** What [route] does once it has read the presence [p] of the cell [c]. *)
Lemma hops_run pkt c p w :
  ('(sent, pkt) ← send_visiting identity has_handler p pkt;
   if sent : bool then mret () else
   '(sent, pkt) ← send_to_node identity has_handler (VStr (home_node_id p)) pkt;
   if sent : bool then mret () else
   lift (py_slice8 (pid pkt)) ;;
   data ← lift (serialize_packet pkt);
   buffer_message (pid pkt) c (home_node_id p) data) w =
  ('(sent, pkt) ← try_hops (hops p) pkt;
   if sent : bool then mret () else
   lift (py_slice8 (pid pkt)) ;;
   data ← lift (serialize_packet pkt);
   buffer_message (pid pkt) c (home_node_id p) data) w.
Proof.
  unfold send_visiting, hops. destruct (visiting_node_id p) as [v|]; [case_decide|];
    simpl; unfold mbind, M_bind, mret, M_ret.
  - destruct (send_to_node (m:=M NodeState) _ _ (VStr v) pkt w) as [[[[] q]|e] w1]; try done.
    by destruct (send_to_node (m:=M NodeState) _ _ _ q w1) as [[[[] q']|e] w2].
  - by destruct (send_to_node (m:=M NodeState) _ _ _ pkt w) as [[[[] q']|e] w2].
  - by destruct (send_to_node (m:=M NodeState) _ _ _ pkt w) as [[[[] q']|e] w2].
Qed.

Lemma route_hops pkt c n p w :
  parse_addr (to_addr pkt) = Ok (Some c, n) → presence_of c (w_st w) = Some p →
  route identity has_handler pkt w =
  ('(sent, pkt) ← try_hops (hops p) pkt;
   if sent : bool then mret () else
   lift (py_slice8 (pid pkt)) ;;
   data ← lift (serialize_packet pkt);
   buffer_message (pid pkt) c (home_node_id p) data) w.
Proof.
  intros Ha Hp. unfold route. rewrite (run_lift _ _ _ _ Ha).
  rewrite (run_bind _ _ _ _ _ (run_get_presence c w)), Hp. apply hops_run.
Qed.

Lemma try_hops_unreachable l p w :
  Forall (λ h, h ≠ nid identity ∧ unreachable h (w_st w)) l →
  ∃ k, w_tick w ≤ k ∧ try_hops l p w = (Ok (false, p), mkWorld k (w_trace w) (w_st w)).
Proof.
  intros Hl. destruct w as [k0 tr st]. simpl in *. revert k0.
  induction Hl as [|h l [Hh Hu] _ IH]; intros k0; simpl; [by eexists|].
  destruct (send_to_node_unreachable h p (mkWorld k0 tr st) Hh Hu) as (k1 & Hk1 & Hrun).
  rewrite (run_bind _ _ _ _ _ Hrun). simpl in *. destruct (IH k1) as (k & Hk & Hr).
  exists k. split; [lia|done].
Qed.

Lemma try_hops_app l1 l2 p w :
  Forall (λ h, h ≠ nid identity ∧ unreachable h (w_st w)) l1 →
  ∃ k, try_hops (l1 ++ l2) p w = try_hops l2 p (mkWorld k (w_trace w) (w_st w)).
Proof.
  intros Hl. destruct w as [k0 tr st]. simpl in *. revert k0.
  induction Hl as [|h l [Hh Hu] _ IH]; intros k0; simpl; [by eexists|].
  destruct (send_to_node_unreachable h p (mkWorld k0 tr st) Hh Hu) as (k1 & _ & Hrun).
  rewrite (run_bind _ _ _ _ _ Hrun). simpl. apply IH.
Qed.

(** The packet without its version, which [_serialize_packet] leaves out. *)
Definition unversioned (pkt : Packet) : Packet :=
  mkPacket (type pkt) (payload pkt) (pid pkt) (from_addr pkt) (to_addr pkt) (sig pkt) (ts pkt)
    (VInt PROTO_VERSION).

(** The message is added to the buffer, unless one with its identifier is there. *)
Definition buffered (m : BufferedMessage) : NodeState → NodeState := λ s,
  match select_pk message_key (message_id m) (message_buffer (ns_db s)) with
  | Some _ => s
  | None => set_db (set_buffer (λ l, l ++ [m]) (ns_db s)) s
  end.

(** What is left of [route] when no hop takes the packet. *)
Lemma hops_buffer `{!MsgPackLaws} pkt i b s c p w :
  Forall (λ g, g ≠ nid identity ∧ unreachable g (w_st w)) (hops p) →
  pid pkt = VStr i → payload pkt = VBin b → sig pkt = VBin s →
  packable (buffer_dict pkt) = true →
  ∃ k m, w_tick w < k ∧ ('(sent, pkt) ← try_hops (hops p) pkt;
     if sent : bool then mret () else
     lift (py_slice8 (pid pkt)) ;;
     data ← lift (serialize_packet pkt);
     buffer_message (pid pkt) c (home_node_id p) data) w =
    (Ok (), mkWorld k (w_trace w) (buffered m (w_st w))) ∧
    message_id m = VStr i ∧ to_cell m = c ∧ to_node m = home_node_id p ∧
    clock_between (w_tick w) k (created_at m) ∧
    (expires_at m = created_at m + 72 * 3600)%Z ∧
    deserialize_packet (bm_payload m) = Some (unversioned pkt).
Proof.
  intros Hl Hi Hb Hs Hpk.
  destruct (try_hops_unreachable (hops p) pkt w Hl) as (k & Hle & Hk).
  rewrite (run_bind _ _ _ _ _ Hk).
  destruct (unpackb_packb _ Hpk) as (data & Hdata & Hun).
  unfold serialize_packet. rewrite Hi, Hdata.
  unfold buffer_message, run, time. run_simpl. cbn [py_slice8 bind_text]. run_simpl.
  match goal with |- context [BufferMessage ?m] => exists (S k), m end. split; [lia|]. split.
  { do 2 f_equal. cbn [put_db get_db node_has_db exec]. unfold buffered, set_buffer, insert_or_ignore, conflicts.
    cbn [message_key message_id]. destruct w as [k0 t [d cs l dl lf]]. simpl.
    destruct (select_pk message_key (VStr i) (message_buffer d)); [|done]. by destruct d. }
  split_and!; [done..|by exists k; simpl; split; [lia|]|done|]. simpl.
  unfold deserialize_packet, unpack. rewrite Hun. simpl.
  unfold unversioned. rewrite Hb, Hs, !py_or_bin. by destruct pkt.
Qed.
End router_runs.

(** *** Delivery on the cell's own node, and the flush of its buffer *)

(** The cell's only hop is this node. *)
Definition homed_here `{!Ed25519} `{!E2E} (identity : NodeIdentity) (c : string) (s : NodeState) : Prop :=
  ∃ p, presence_of c s = Some p ∧ hops p = [nid identity].

Section local_runs.
Context `{!MsgPack} `{!PyRepr} `{!Ed25519} `{!E2E} {env : Env}.
Context (identity : NodeIdentity) (has_handler : bool).
Implicit Types (w : World NodeState).

Lemma route_homed_here pkt c n w :
  parse_addr (to_addr pkt) = Ok (Some c, n) → homed_here identity c (w_st w) →
  route identity has_handler pkt w = (deliver_local identity has_handler pkt ;; mret ()) w.
Proof.
  intros Ha (p & Hp & Hh). rewrite (route_hops _ _ _ _ _ _ _ Ha Hp), Hh. simpl.
  unfold send_to_node. rewrite decide_True by done. unfold mbind, M_bind, mret, M_ret.
  by destruct (deliver_local (m:=M NodeState) _ _ pkt w) as [[q|e] w1].
Qed.

Lemma route_to_live_cell pkt q d c n conn w :
  parse_addr (to_addr pkt) = Ok (Some c, n) → c ≠ "" → homed_here identity c (w_st w) →
  ns_conns (w_st w) !! c = Some conn →
  transport_sign identity pkt = Ok q → pack q = Ok d → o_send (outcome (w_tick w)) = Ok () →
  route identity has_handler pkt w =
  (Ok (), mkWorld (S (w_tick w)) (w_trace w ++ [IoSend (ws conn) d]) (w_st w)).
Proof.
  intros Ha Hc Hh Hconn Hq Hd Hs. rewrite (route_homed_here _ _ _ _ Ha Hh).
  unfold deliver_local. unfold mbind at 1, M_bind at 1. rewrite (run_lift _ _ _ _ Ha).
  rewrite decide_True by done.
  by rewrite (run_bind _ _ _ _ _ (send_to_live _ _ _ _ _ _ _ Hconn Hq Hd Hs)).
Qed.

Lemma to_addr_slice pkt c n : parse_addr (to_addr pkt) = Ok (Some c, n) → py_slice8 (to_addr pkt) = Ok ().
Proof.
  unfold parse_addr. destruct (to_addr pkt); try done; repeat case_decide; naive_solver.
Qed.

(** A frame for the cell, on its own connection. *)
Definition frame_for (c : string) (s : NodeState) (x : io) : Prop :=
  ∃ conn d, ns_conns s !! c = Some conn ∧ x = IoSend (ws conn) d.
(** What a run may do that only serves the cell. *)
Definition serves (c : string) (w w' : World NodeState) : Prop :=
  ns_db (w_st w') = ns_db (w_st w) ∧
  ∃ l, w_trace w' = w_trace w ++ l ∧ Forall (frame_for c (w_st w)) l.

Lemma serves_silent c w w' :
  ns_db (w_st w') = ns_db (w_st w) → w_trace w' = w_trace w → serves c w w'.
Proof. intros Hd Ht. split; [done|]. exists []. by rewrite Ht, app_nil_r. Qed.
Lemma send_to_serves c p w : serves c w (send_to identity (VStr c) p w).2.
Proof.
  unfold send_to, registry_get. rewrite bindE, getsE.
  destruct (ns_conns (w_st w) !! c) as [conn|] eqn:Hc; [|by apply serves_silent].
  rewrite bindE, liftE. destruct (transport_sign identity p) as [q|e]; [|by apply serves_silent].
  unfold peer_send. rewrite catchE, bindE, bindE, liftE.
  destruct (pack q) as [d|e]; [|case_decide; by apply serves_silent].
  unfold ws_send, ask_result. rewrite awaitE, bindE, bindE, askE, liftE.
  destruct (o_send _) as [[]|e]; [|case_decide; by apply serves_silent].
  split; [done|]. exists [IoSend (ws conn) d]. split; [done|]. constructor; [by exists conn, d|done].
Qed.
Lemma deliver_local_serves pkt c n w : parse_addr (to_addr pkt) = Ok (Some c, n) →
  serves c w (deliver_local identity has_handler pkt w).2.
Proof.
  intros Ha. unfold deliver_local. rewrite bindE, liftE, Ha, bindE.
  assert (serves c w ((if decide (c ≠ "") then send_to identity (VStr c) pkt
    else mret (M:=M NodeState) (false, pkt)) w).2) as Hs.
  { case_decide; [apply send_to_serves|by apply serves_silent]. }
  revert Hs. generalize (if decide (c ≠ "") then send_to identity (VStr c) pkt
    else mret (M:=M NodeState) (false, pkt)). intros sending Hs.
  destruct (sending w) as [[[sent q]|e] w1]; [|done].
  assert (∀ w2, ns_db (w_st w2) = ns_db (w_st w1) → w_trace w2 = w_trace w1 → serves c w w2) as Hmono.
  { destruct Hs as [Hd Ht]. intros w2 Hd2 Ht2. unfold serves. by rewrite Hd2, Ht2. }
  destruct sent; [done|]. destruct has_handler.
  - unfold on_message, ask_result. rewrite bindE, bindE, modifyE, awaitE, bindE, askE, liftE.
    destruct (o_callback _); by apply Hmono.
  - rewrite bindE, liftE. by destruct (py_slice8 _).
Qed.

(** Where every known cell is at home. *)
Lemma homed_presence c s p : homed_only (nid identity) (ns_db s) →
  presence_of c s = Some p → homed_here identity c s.
Proof.
  unfold homed_only. rewrite Forall_forall. intros Hall Hp. exists p. split; [done|].
  apply select_pk_Some in Hp as [Hin _]. destruct (Hall _ Hin) as [Hh Hv].
  unfold hops. by rewrite Hh, Hv.
Qed.
Lemma route_serves pkt c n w :
  homed_only (nid identity) (ns_db (w_st w)) → parse_addr (to_addr pkt) = Ok (Some c, n) →
  serves c w (route identity has_handler pkt w).2.
Proof.
  intros Hall Ha. pose proof (deliver_local_serves pkt c n w Ha) as Hs.
  assert (serves c w ((deliver_local identity has_handler pkt ;; mret ()) w).2) as Hs'.
  { rewrite bindE. by destruct (deliver_local (m:=M NodeState) _ _ _ w) as [[]]. }
  destruct (presence_of c (w_st w)) as [p|] eqn:Hp.
  - by rewrite (route_homed_here _ _ _ _ Ha (homed_presence _ _ _ Hall Hp)).
  - unfold route. rewrite bindE, liftE, Ha, bindE, run_get_presence, Hp, bindE, run_get_cell.
    case_match; [done|by apply serves_silent].
Qed.
Lemma route_unknown pkt c n w : parse_addr (to_addr pkt) = Ok (Some c, n) →
  presence_of c (w_st w) = None → select_pk cell_key c (cells (ns_db (w_st w))) = None →
  route identity has_handler pkt w = (Ok (), w).
Proof.
  intros Ha Hp Hc. unfold route.
  by rewrite bindE, liftE, Ha, bindE, run_get_presence, Hp, bindE, run_get_cell, Hc.
Qed.

(** The cell's connection closes under the packet. *)
Lemma route_to_closed_cell pkt q d c n w :
  has_handler = false →
  parse_addr (to_addr pkt) = Ok (Some c, n) → homed_here identity c (w_st w) →
  transport_sign identity pkt = Ok q → pack q = Ok d →
  o_send (outcome (w_tick w)) = Raise ConnectionClosed →
  ∃ w', route identity has_handler pkt w = (Ok (), w') ∧ w_trace w' = w_trace w ∧
    ns_db (w_st w') = ns_db (w_st w) ∧ ns_delivered (w_st w') = ns_delivered (w_st w).
Proof.
  intros Hno Ha Hh Hq Hd Hs. rewrite (route_homed_here _ _ _ _ Ha Hh), Hno.
  unfold deliver_local. unfold mbind at 1, M_bind at 1. rewrite (run_lift _ _ _ _ Ha).
  pose proof (to_addr_slice _ _ _ Ha) as Hsl.
  case_decide as Hc.
  - destruct (send_to_closed identity c pkt q w Hq) as (p' & w' & Hrun & ? & ? & ? & Hto);
      [eauto|done|].
    rewrite (run_bind _ _ _ _ _ Hrun). rewrite Hto, (run_lift _ _ _ _ Hsl). eauto.
  - unfold mbind at 1, M_bind at 1. simpl. rewrite (run_lift _ _ _ _ Hsl). eauto.
Qed.

(** The loop of [flush_buffer], when routing a packet of the batch succeeds,
    writes the frames [out], and keeps the database and an invariant [I]. *)
Lemma flush_loop (I : NodeState → Prop) (out : BufferedMessage → list io) ms w :
  (∀ s k, I s → I (set_db (exec (DeleteBuffered k) (ns_db s)) s)) →
  Forall (λ m, (∃ i, message_id m = VStr i) ∧ ∃ pkt,
    deserialize_packet (bm_payload m) = Some pkt ∧
    ∀ w, I (w_st w) → ∃ w', route identity has_handler pkt w = (Ok (), w') ∧
      w_trace w' = w_trace w ++ out m ∧ ns_db (w_st w') = ns_db (w_st w) ∧
      ns_delivered (w_st w') = ns_delivered (w_st w) ∧ I (w_st w')) ms →
  I (w_st w) →
  ∃ w', for_each ms (flush_one identity has_handler) w = (Ok (), w') ∧
    w_trace w' = w_trace w ++ concat (out <$> ms) ∧
    ns_delivered (w_st w') = ns_delivered (w_st w) ∧ I (w_st w') ∧
    ∀ m, m ∈ message_buffer (ns_db (w_st w')) ↔
      m ∈ message_buffer (ns_db (w_st w)) ∧ message_id m ∉ message_id <$> ms.
Proof.
  intros Hdel Hms. revert w. induction Hms as [|m ms [[i Hi] (pkt & Hp & Hr)] _ IH]; intros w HI.
  { exists w. csimpl. rewrite app_nil_r. split_and!; try done. intros m.
    split; [|naive_solver]. intros Hm. split; [done|apply not_elem_of_nil]. }
  destruct (Hr w HI) as (w1 & Hrun & Ht1 & Hd1 & Hl1 & HI1).
  set (w2 := mkWorld (w_tick w1) (w_trace w1)
    (set_db (exec (DeleteBuffered (VStr i)) (ns_db (w_st w1))) (w_st w1))).
  destruct (IH w2) as (w' & Hrun' & Ht' & Hl' & HI' & Hb'); [by apply Hdel|].
  exists w'. csimpl.
  assert (flush_one identity has_handler m w = (Ok (), w2)) as Hone.
  { unfold flush_one. rewrite Hp, (run_bind _ _ _ _ _ Hrun). by rewrite Hi. }
  rewrite (run_bind _ _ _ _ _ Hone). split_and!; [done| | |done|].
  - rewrite Ht'. unfold w2. simpl. by rewrite Ht1, (assoc (++)).
  - by rewrite Hl'.
  - intros x. rewrite Hb'. unfold w2. simpl. rewrite Hd1. unfold delete_where.
    rewrite list_elem_of_filter, not_elem_of_cons. rewrite Hi.
    assert (is_message (VStr i) x ↔ message_id x = VStr i) as ->; [|naive_solver].
    unfold is_message, message_key. simpl.
    destruct (message_id x); naive_solver.
Qed.

(** Exactly the deliverable messages of a well-formed database are removed. *)
Lemma flush_removes_deliverable c now d m :
  db_wf d → (∀ x, x ∈ message_buffer d → deliverable c now x → message_id x ≠ VNone) →
  m ∈ message_buffer d ∧ message_id m ∉ message_id <$> filter (deliverable c now) (message_buffer d) ↔
  m ∈ message_buffer d ∧ ¬ deliverable c now m.
Proof.
  intros Hwf Hnn. split; intros [Hm Hn]; (split; [done|]); intros Hx; apply Hn.
  - apply list_elem_of_fmap. exists m. split; [done|]. by apply list_elem_of_filter.
  - apply list_elem_of_fmap in Hx as (y & Hid & [Hy Hyb]%list_elem_of_filter).
    assert (message_key y = Some (message_id y)) as Hk by by apply sql_key_not_none, Hnn.
    assert (message_key m = Some (message_id y)) as Hk'.
    { unfold message_key. rewrite Hid. exact Hk. }
    pose proof (select_pk_elem message_key _ _ y (wf_buffer d Hwf) Hyb Hk) as Hsy.
    pose proof (select_pk_elem message_key _ _ m (wf_buffer d Hwf) Hm Hk') as Hsm. congruence.
Qed.
(** A batch that can be delivered here: each message decodes to a packet for the
    cell, which we can sign and encode as the frame [frame m]. *)
Definition batch_ok (c : string) (frame : BufferedMessage → bytes) (m : BufferedMessage) : Prop :=
  (∃ i, message_id m = VStr i) ∧ ∃ pkt n q, deserialize_packet (bm_payload m) = Some pkt ∧
    parse_addr (to_addr pkt) = Ok (Some c, n) ∧ transport_sign identity pkt = Ok q ∧
    pack q = Ok (frame m).

Lemma batch_ids c f now d :
  Forall (batch_ok c f) (filter (deliverable c now) (message_buffer d)) →
  ∀ x, x ∈ message_buffer d → deliverable c now x → message_id x ≠ VNone.
Proof.
  rewrite Forall_forall. intros Hb x Hx Hd.
  destruct (Hb x) as [[i ->] _]; [by apply list_elem_of_filter|done].
Qed.

(** Flushing the buffer of a cell that is connected here. *)
Lemma flush_live c frame conn w :
  let now := o_time (outcome (w_tick w)) in
  let ms := filter (deliverable c now) (message_buffer (ns_db (w_st w))) in
  db_wf (ns_db (w_st w)) → c ≠ "" → homed_here identity c (w_st w) →
  ns_conns (w_st w) !! c = Some conn → (∀ i, o_send (outcome i) = Ok ()) →
  Forall (batch_ok c frame) ms →
  ∃ w', flush_buffer identity has_handler c w = (Ok (), w') ∧
    w_trace w' = w_trace w ++ ((λ m, IoSend (ws conn) (frame m)) <$> ms) ∧
    (cells (ns_db (w_st w')) = cells (ns_db (w_st w)) ∧
     presence_table (ns_db (w_st w')) = presence_table (ns_db (w_st w))) ∧
    ∀ m, m ∈ message_buffer (ns_db (w_st w')) ↔
      m ∈ message_buffer (ns_db (w_st w)) ∧ ¬ deliverable c now m.
Proof.
  intros now ms Hwf Hc Hh Hconn Hs Hb.
  set (w1 := mkWorld (S (w_tick w)) (w_trace w) (w_st w)).
  destruct (flush_loop
    (λ s, (homed_here identity c s ∧ ns_conns s !! c = Some conn) ∧
      cells (ns_db s) = cells (ns_db (w_st w)) ∧
      presence_table (ns_db s) = presence_table (ns_db (w_st w)))
    (λ m, [IoSend (ws conn) (frame m)]) ms w1) as (w' & Hrun & Ht & _ & [_ Hsame] & Hbuf).
  - done.
  - eapply Forall_impl; [exact Hb|]. intros m (Hi & pkt & n & q & Hp & Ha & Hq & Hd).
    split; [done|]. exists pkt. split; [done|]. intros x [[Hh' Hc'] Hsame].
    eexists. split; [by eapply route_to_live_cell|done].
  - done.
  - exists w'. unfold flush_buffer.
    assert (get_buffered c w = (Ok ms, w1)) as Hget by done.
    rewrite (run_bind _ _ _ _ _ Hget), Hrun. split; [done|]. split_and!; [|apply Hsame..|].
    + rewrite Ht. f_equal. clear. induction ms as [|m ms IH]; csimpl; [done|]. by f_equal.
    + intros m. rewrite Hbuf. apply flush_removes_deliverable; [done|by eapply batch_ids].
Qed.
End local_runs.

(** ** Properties *)

Section router_properties.
Context `{!MsgPack} `{!PyRepr} `{!Ed25519} `{!E2E} {env : Env}.
Context (identity : NodeIdentity) (has_handler : bool).
Implicit Types (w : World NodeState).

(** C6: a packet for a cell goes to the first hop that takes it.  If the cell's
    presence is known and the hops before [h] - the node it visits, then its home
    node - are other nodes that can neither be reached over a connection nor
    dialled, and [h] is connected, then [route] writes exactly one frame, the
    packet signed by us, to the socket of [h]; nothing is buffered. *)
Theorem route_first_reachable_hop pkt q d c n p l1 h l2 conn w :
  parse_addr (to_addr pkt) = Ok (Some c, n) → presence_of c (w_st w) = Some p →
  hops p = l1 ++ h :: l2 →
  Forall (λ g, g ≠ nid identity ∧ unreachable g (w_st w)) l1 →
  h ≠ nid identity → ns_conns (w_st w) !! h = Some conn →
  transport_sign identity pkt = Ok q → pack q = Ok d → (∀ i, o_send (outcome i) = Ok ()) →
  wp (route identity has_handler pkt) (λ r w', r = Ok () ∧
    w_trace w' = w_trace w ++ [IoSend (ws conn) d] ∧ w_st w' = w_st w) w.
Proof.
  intros Ha Hp Hh Hl Hne Hc Hq Hd Hs. unfold wp.
  rewrite (route_hops _ _ _ _ _ _ _ Ha Hp), Hh.
  destruct (try_hops_app identity has_handler l1 (h :: l2) pkt w Hl) as [k Hk].
  assert (try_hops identity has_handler (l1 ++ h :: l2) pkt w =
    (Ok (true, q), mkWorld (S k) (w_trace w ++ [IoSend (ws conn) d]) (w_st w))) as Hrun.
  { rewrite Hk. simpl. by rewrite (run_bind _ _ _ _ _ (send_to_node_live identity has_handler
      h pkt q d conn (mkWorld k _ _) Hne Hc Hq Hd (Hs _))). }
  by rewrite (run_bind _ _ _ _ _ Hrun).
Qed.

(** C8: a packet that no hop takes is buffered.  If every hop of the cell is another
    node that can neither be reached nor dialled, and the packet has a text for its
    identifier and byte strings for payload and signature, and MessagePack can carry
    it, then [route] writes nothing and leaves all as it was but for the buffer.  There
    it adds one message, under the packet's identifier, for the cell and its home node,
    created now and expiring after 72 hours - unless a message with that identifier is
    there, which is kept as it is.  What is stored deserializes to the packet, except
    that its version becomes the current one. *)
Theorem route_buffers_when_unreachable `{!MsgPackLaws} pkt i b s c n p w :
  parse_addr (to_addr pkt) = Ok (Some c, n) → presence_of c (w_st w) = Some p →
  Forall (λ g, g ≠ nid identity ∧ unreachable g (w_st w)) (hops p) →
  pid pkt = VStr i → payload pkt = VBin b → sig pkt = VBin s →
  packable (buffer_dict pkt) = true →
  wp (route identity has_handler pkt) (λ r w', r = Ok () ∧ w_trace w' = w_trace w ∧
    ∃ m, w_st w' = match select_pk message_key (VStr i) (message_buffer (ns_db (w_st w))) with
        | Some _ => w_st w
        | None => set_db (set_buffer (λ l, l ++ [m]) (ns_db (w_st w))) (w_st w)
        end ∧
      message_id m = VStr i ∧ to_cell m = c ∧ to_node m = home_node_id p ∧
      clock_during w w' (created_at m) ∧ (expires_at m = created_at m + 72 * 3600)%Z ∧
      deserialize_packet (bm_payload m) = Some (unversioned pkt)) w.
Proof.
  intros Ha Hp Hl Hi Hb Hs Hpk. unfold wp.
  rewrite (route_hops _ _ _ _ _ _ _ Ha Hp).
  destruct (hops_buffer identity has_handler pkt i b s c p w) as (k & m & _ & -> & Hm & ?); [done..|].
  split; [done|]. split; [done|]. exists m. split; [|done]. cbn [snd w_st]. unfold buffered. by rewrite Hm.
Qed.

(** C36: a packet for a cell of this very node that is not connected is not
    buffered.  The node's own identifier always takes the packet: with a callback
    it is handed over, without one it is dropped; in both cases the database is
    unchanged and no frame is written. *)
Theorem offline_home_cell_not_buffered pkt c n w :
  parse_addr (to_addr pkt) = Ok (Some c, n) → homed_here identity c (w_st w) →
  ns_conns (w_st w) !! c = None →
  wp (route identity has_handler pkt) (λ r w',
    w_trace w' = w_trace w ∧ ns_db (w_st w') = ns_db (w_st w) ∧
    ns_delivered (w_st w') = ns_delivered (w_st w) ++ (if has_handler then [pkt] else []) ∧
    r = (if has_handler then o_callback (outcome (w_tick w)) else Ok ())) w.
Proof.
  intros Ha Hh Hc. unfold wp. rewrite (route_homed_here _ _ _ _ _ _ Ha Hh).
  pose proof (to_addr_slice _ _ _ Ha) as Hsl.
  assert (deliver_local identity has_handler pkt w =
    (if has_handler then on_message pkt ;; mret pkt else mret pkt) w) as Hrun.
  { unfold deliver_local. rewrite (run_lift _ _ _ _ Ha). case_decide;
      [rewrite (run_bind _ _ _ _ _ (send_to_missing _ _ _ _ Hc))|];
      unfold mbind at 1, M_bind at 1; simpl; destruct has_handler; try done;
      by rewrite (run_lift _ _ _ _ Hsl). }
  assert ((deliver_local identity has_handler pkt;; mret ()) w =
    (if has_handler then on_message pkt else mret ()) w) as ->.
  { rewrite bindE, Hrun. destruct has_handler; [|done].
    rewrite bindE. by destruct (on_message (m:=M NodeState) pkt w) as [[[]|e] w']. }
  destruct has_handler; simpl; [|by rewrite app_nil_r].
  unfold on_message, await, M_await, modify, M_modify, ask_result, ask, interact, M_interact,
    lift, M_lift, mbind, M_bind. by simpl.
Qed.

(** Flushing delivers everything.  For a connected cell at home on this
    node, [flush_buffer] writes every message of the cell that has not expired,
    in the order in which they were stored and each exactly once, to the cell's
    own socket, and removes exactly those from the buffer. *)
Theorem flush_delivers_all c frame conn w :
  let now := o_time (outcome (w_tick w)) in
  let ms := filter (deliverable c now) (message_buffer (ns_db (w_st w))) in
  db_wf (ns_db (w_st w)) → c ≠ "" → homed_here identity c (w_st w) →
  ns_conns (w_st w) !! c = Some conn → (∀ i, o_send (outcome i) = Ok ()) →
  Forall (batch_ok identity c frame) ms →
  wp (flush_buffer identity has_handler c) (λ r w', r = Ok () ∧
    w_trace w' = w_trace w ++ ((λ m, IoSend (ws conn) (frame m)) <$> ms) ∧
    ∀ m, m ∈ message_buffer (ns_db (w_st w')) ↔
      m ∈ message_buffer (ns_db (w_st w)) ∧ ¬ deliverable c now m) w.
Proof.
  intros now ms Hwf Hc Hh Hconn Hs Hb.
  destruct (flush_live identity has_handler c frame conn w Hwf Hc Hh Hconn Hs Hb)
    as (w' & Hrun & Ht & _ & Hbuf).
  unfold wp. by rewrite Hrun.
Qed.

(** C38: flushing can lose everything.  Let a cell be at home here, and let each of
    the messages that are kept for it and have not expired decode to a packet for it
    that can be signed and packed.  If the cell's connection closes before the
    flush, so that every send raises, and the node has no callback, then
    [flush_buffer] still removes all these messages and no others, although nothing
    was written and nothing was delivered. *)
Theorem flush_loses_undelivered c frame w :
  let now := o_time (outcome (w_tick w)) in
  let ms := filter (deliverable c now) (message_buffer (ns_db (w_st w))) in
  has_handler = false → db_wf (ns_db (w_st w)) → homed_here identity c (w_st w) →
  (∀ i, o_send (outcome i) = Raise ConnectionClosed) →
  Forall (batch_ok identity c frame) ms →
  wp (flush_buffer identity has_handler c) (λ r w', r = Ok () ∧
    w_trace w' = w_trace w ∧ ns_delivered (w_st w') = ns_delivered (w_st w) ∧
    ∀ m, m ∈ message_buffer (ns_db (w_st w')) ↔
      m ∈ message_buffer (ns_db (w_st w)) ∧ ¬ deliverable c now m) w.
Proof.
  intros now ms Hno Hwf Hh Hs Hb.
  set (w1 := mkWorld (S (w_tick w)) (w_trace w) (w_st w)).
  destruct (flush_loop identity has_handler (homed_here identity c) (λ _, []) ms w1)
    as (w' & Hrun & Ht & Hl & _ & Hbuf).
  - done.
  - eapply Forall_impl; [exact Hb|]. intros m (Hi & pkt & n & q & Hp & Ha & Hq & Hd).
    split; [done|]. exists pkt. split; [done|]. intros x Hh'.
    destruct (route_to_closed_cell identity has_handler pkt q (frame m) c n x) as (w' & Hr & ? & Hdb & ?);
      try done.
    exists w'. rewrite app_nil_r. split_and!; try done.
    unfold homed_here, presence_of in *. by rewrite Hdb.
  - done.
  - unfold wp, flush_buffer.
    assert (get_buffered c w = (Ok ms, w1)) as Hget by done.
    rewrite (run_bind _ _ _ _ _ Hget), Hrun. cbn [fst snd]. split; [done|]. split_and!; [|done|].
    + rewrite Ht. clear. simpl. induction ms as [|m ms IH]; csimpl; [by rewrite app_nil_r|done].
    + intros m. rewrite Hbuf. apply flush_removes_deliverable; [done|by eapply batch_ids].
Qed.
End router_properties.

(** ** Witnesses *)

Module RouterWitnesses.
Import Samples.

Definition me : NodeIdentity :=
  mkNodeIdentity (sample_signing "001") (sample_encryption "002") "a:1" "permanent" "open".
Definition msg : Packet :=
  mkPacket "msg" (VBin ["009"%byte]) "m1" "x@n9" "c1@n2" (VBin []) (VInt 3) (VInt 1).
Definition signed_msg : Packet := or_else msg (transport_sign me msg).
Definition wire : bytes := or_else [] (pack signed_msg).
Definition link (s : socket) (peer : string) : PeerConnection :=
  mkConn s peer (str_encode peer) (VBin []) (nid me).

(** The cell [c1] lives at [home] and visits [visit]. *)
Definition network (home : string) (visit : option string) (buffer : list BufferedMessage)
    (conns : gmap string PeerConnection) : World NodeState :=
  mkWorld 0 [] (mkNodeState (mkDB [] [] [mkPresence "c1" home visit 5] buffer) conns [] [] created).

Lemma elsewhere h : length (str_encode h) < 64 → h ≠ nid me.
Proof. intros Hl ->. vm_compute in Hl. lia. Qed.

Definition en_route : World NodeState :=
  network "n2" (Some "n3") [] {[ "n2" := link 4 "n2" ]}.

Lemma route_first_reachable_hop_witness :
  wp (route (env:=calm_env) me false msg) (λ r w', r = Ok () ∧
    w_trace w' = w_trace en_route ++ [IoSend 4 wire] ∧ w_st w' = w_st en_route) en_route.
Proof.
  refine (route_first_reachable_hop (env:=calm_env) me false msg signed_msg wire "c1" "n2"
    (mkPresence "c1" "n2" (Some "n3") 5) ["n3"] "n2" [] (link 4 "n2") en_route
    _ _ _ _ _ _ _ _ _);
    try reflexivity; try (vm_compute; reflexivity).
  - constructor; [|constructor]. split; [apply elsewhere; vm_compute; lia|].
    split; [reflexivity|]. left. exact I.
  - apply elsewhere; vm_compute; lia.
Defined.

Definition cut_off : World NodeState := network "n2" None [] ∅.

Lemma route_buffers_when_unreachable_witness :
  wp (route (env:=calm_env) me true msg) (λ r w', r = Ok () ∧ w_trace w' = w_trace cut_off ∧
    ∃ m, w_st w' = set_db (set_buffer (λ l, l ++ [m]) (ns_db (w_st cut_off))) (w_st cut_off) ∧
      message_id m = "m1" ∧ to_cell m = "c1" ∧ to_node m = "n2" ∧
      clock_between (H1:=calm_env) 0 (w_tick w') (created_at m) ∧
      (expires_at m = created_at m + 72 * 3600)%Z ∧
      deserialize_packet (bm_payload m) = Some msg) cut_off.
Proof.
  refine (route_buffers_when_unreachable (env:=calm_env) me true msg "m1" ["009"%byte] [] "c1" "n2"
    (mkPresence "c1" "n2" None 5) cut_off _ _ _ _ _ _ _);
    try reflexivity; try (vm_compute; reflexivity).
  constructor; [|constructor]. split; [apply elsewhere; vm_compute; lia|].
  split; [reflexivity|]. left. exact I.
Defined.

Definition stored : BufferedMessage :=
  mkMessage "m1" "c1" (nid me) (or_else [] (serialize_packet msg)) 10 (10 + TTL_MESSAGE_SECS).
Definition fresh_stored : BufferedMessage :=
  mkMessage "m2" "c1" (nid me) (or_else [] (serialize_packet msg)) 1000000 (1000000 + TTL_MESSAGE_SECS).
Definition at_home (conns : gmap string PeerConnection) : World NodeState :=
  network (nid me) None [stored; fresh_stored] conns.

Lemma at_home_ok conns : homed_here me "c1" (w_st (at_home conns)).
Proof. exists (mkPresence "c1" (nid me) None 5). split; reflexivity. Defined.

Lemma stored_wf conns : db_wf (ns_db (w_st (at_home conns))).
Proof.
  split; simpl; try (vm_compute; repeat constructor); unfold unique; simpl.
  all: intros Hx; repeat (apply elem_of_cons in Hx as [Hx|Hx]; [try discriminate|]);
    try by apply not_elem_of_nil in Hx.
Qed.

Lemma stored_batch : batch_ok me "c1" (λ _, wire) fresh_stored.
Proof.
  split; [exists "m2"; reflexivity|]. exists msg, "n2", signed_msg.
  split_and!; vm_compute; reflexivity.
Qed.

Lemma offline_home_cell_not_buffered_witness :
  wp (route (env:=calm_env) me false msg) (λ r w',
    w_trace w' = [] ∧ ns_db (w_st w') = ns_db (w_st (at_home ∅)) ∧
    ns_delivered (w_st w') = [] ++ [] ∧ r = Ok ()) (at_home ∅).
Proof.
  refine (offline_home_cell_not_buffered (env:=calm_env) me false msg "c1" "n2" (at_home ∅) _ _ _);
    [reflexivity|apply at_home_ok|reflexivity].
Defined.

Definition reachable_home : World NodeState := at_home {["c1" := link 6 "c1"]}.

Lemma flush_delivers_all_witness :
  wp (flush_buffer (env:=calm_env) me false "c1") (λ r w', r = Ok () ∧
    w_trace w' = w_trace reachable_home ++ [IoSend 6 wire] ∧
    ∀ m, m ∈ message_buffer (ns_db (w_st w')) ↔
      m ∈ message_buffer (ns_db (w_st reachable_home)) ∧ ¬ deliverable "c1" 1000000 m)
    reachable_home.
Proof.
  refine (flush_delivers_all (env:=calm_env) me false "c1" (λ _, wire) (link 6 "c1")
    reachable_home _ _ _ _ _ _); try reflexivity.
  - apply stored_wf.
  - discriminate.
  - apply at_home_ok.
  - repeat constructor; apply stored_batch.
Defined.

Lemma flush_loses_undelivered_witness :
  wp (flush_buffer (env:=offline_env) me false "c1") (λ r w', r = Ok () ∧
    w_trace w' = w_trace reachable_home ∧ ns_delivered (w_st w') = [] ∧
    ∀ m, m ∈ message_buffer (ns_db (w_st w')) ↔
      m ∈ message_buffer (ns_db (w_st reachable_home)) ∧ ¬ deliverable "c1" 1000000 m)
    reachable_home.
Proof.
  refine (flush_loses_undelivered (env:=offline_env) me false "c1" (λ _, wire)
    reachable_home _ _ _ _ _); try reflexivity.
  - apply stored_wf.
  - apply at_home_ok.
  - repeat constructor; apply stored_batch.
Defined.
End RouterWitnesses.
