(* ===== verification/Gossip.v ===== *)
(** * Gossip ([node/gossip.py])

    The periodic round - ping every known node, drop the expired ones, send the
    node table to a few online peers - and the handlers of the three packet types
    it uses.  [wait_for] adds no case of its own: a timeout is an exception of the
    interaction it interrupts, which the environment may raise at any of them. *)
From S2P Require Import Prelude PyVal Interfaces Effects Crypto Protocol Auth Identity Table Storage Transport Router.
From S2P Require Samples.

Definition GOSSIP_FANOUT : nat := 3.

(** A node as it enters the table: [NodeEntry(...)] with its defaults. *)
Definition new_entry (id addr ty acc : pyval) (seen added : Z) : NodeEntry :=
  mkNode id addr ty acc [] "" seen 0 "online" added.

Section gossip.
Context `{!MsgPack} `{!PyRepr} `{!Ed25519} `{!E2E} {env : Env}.
Context {m : Type → Type} `{!MRet m, !MBind m, !MThrow m, !MLift m}.
Context `{!MGets NodeState m, !MModify NodeState m, !MEmit NodeState m, !MInteract NodeState m}.
Context `{!MCatch m, !MFinally m, !MAwait m}.
Context (identity : NodeIdentity).

Definition ping_node (entry : NodeEntry) : m unit :=
  let failed := update_node_ping (node_id entry) false in
  let send conn :=
    pkt ← make_ping (nid identity) (node_id entry);
    catch (send_via identity conn pkt ;; update_node_ping (node_id entry) true) (λ _, failed) in
  conn ← registry_get (node_id entry);
  match conn with
  | Some conn => send conn
  | None =>
      conn ← catch (c ← connect_to_node identity (node_id entry) (address entry); mret (Some c))
               (λ _, failed ;; mret None);
      match conn with Some conn => send conn | None => mret () end
  end.

Definition exchange (peer : NodeEntry) : m unit :=
  conn ← registry_get (node_id peer);
  match conn with
  | None => mret ()
  | Some conn =>
      all_nodes ← get_all_nodes;
      pkt ← make_gossip (nid identity) (to_dict <$> all_nodes);
      catch (send_via identity conn pkt ;; mret ()) (λ _, lift (py_slice8 (node_id peer)))
  end.

(** The nodes of the snapshot that are pinged, and those that may be gossiped to. *)
Definition others (nodes : list NodeEntry) : list NodeEntry :=
  filter (λ e, node_id e ≠ VStr (nid identity)) nodes.
Definition online_peers (nodes : list NodeEntry) : list NodeEntry :=
  filter (λ e, status e = "online" ∧ node_id e ≠ VStr (nid identity)) nodes.

Definition round : m unit :=
  nodes ← get_all_nodes;
  for_each nodes (λ entry,
    if decide (node_id entry = VStr (nid identity)) then mret () else ping_node entry) ;;
  cleanup_expired_nodes ;;
  cleanup_expired_messages ;;
  let online := online_peers nodes in
  peers ← sample (min GOSSIP_FANOUT (length online)) online;
  for_each peers exchange.

(** One turn of [_loop]: an exception of the round is logged. *)
Definition loop_turn : m unit := catch round (λ _, mret ()).

(** [GossipEngine.start] creates the task, [stop] cancels it. *)
Definition start : m unit := modify (set_gossip Active).
Definition stop : m unit :=
  task ← gets (λ s, lf_gossip (ns_life s));
  if decide (task = Absent) then mret () else modify (set_gossip Ended).

(** The body of the loop of [handle_gossip]. *)
Definition merge_entry (n : pyval) : m unit :=
  node_id ← lift (py_get n "node_id" "");
  address ← lift (py_get n "address" "");
  if negb (truthy node_id) || negb (truthy address) then mret () else
  existing ← get_node node_id;
  match existing with
  | Some _ => mret ()
  | None =>
      t ← lift (py_get n "type" "permanent");
      a ← lift (py_get n "access" "closed");
      seen ← time;
      added ← time;
      upsert_node (new_entry node_id address t a seen added) ;;
      lift (py_slice8 node_id)
  end.

(** [data.get("nodes", [])] of the decoded payload *)
Definition gossip_nodes (pkt : Packet) : result pyval :=
  data ← decode_payload (payload pkt); py_get data "nodes" (VList []).

Definition handle_gossip (pkt : Packet) : m unit :=
  match gossip_nodes pkt with
  | Raise _ => mret ()
  | Ok remote_nodes =>
      l ← lift (py_iter remote_nodes);
      for_each l merge_entry
  end.

Definition handle_ping (pkt : Packet) (conn : PeerConnection) : m unit :=
  pong ← make_pong (nid identity) (from_addr pkt) (pid pkt);
  send_via identity conn pong ;; mret ().

Definition handle_pong (pkt : Packet) : m unit :=
  update_node_ping (from_addr pkt) true.
End gossip.

(** ** Lemmas *)

Section gossip_lemmas.
Context `{!MsgPack} `{!PyRepr} `{!Ed25519} `{!E2E} {env : Env}.
Context {m : Type → Type} `{EffectRules NodeState m}.
Context (identity : NodeIdentity).
Context (Φ : policy).
Context (allowed : pyval → Prop).
Context (Hup : ∀ i a t c s n, allowed i → a ≠ VNone → t ≠ VNone → c ≠ VNone →
  Φ (UpsertNode (new_entry i a t c s n))).
Context (Hseen : ∀ k now, Φ (PingSucceeded k now)) (Hmiss : ∀ k, Φ (PingFailed k)).
Context (Hcn : ∀ c, Φ (CleanupNodes c)) (Hcm : ∀ c, Φ (CleanupMessages c)).

Lemma pres_st_update_node_ping k b : pres (node_rel Φ) (update_node_ping k b).
Proof. apply (pres_update_node_ping _ Φ); auto using node_rel_exec. Qed.
Lemma pres_st_cleanup_nodes : pres (node_rel Φ) cleanup_expired_nodes.
Proof. apply (pres_cleanup_expired_nodes _ Φ); auto using node_rel_exec. Qed.
Lemma pres_st_cleanup_messages : pres (node_rel Φ) cleanup_expired_messages.
Proof. apply (pres_cleanup_expired_messages _ Φ); auto using node_rel_exec. Qed.
Lemma pres_st_get_all : pres (node_rel Φ) get_all_nodes.
Proof. by apply pres_query, _. Qed.
Lemma pres_st_upsert_node e :
  (∀ i a t c now, bind_text (node_id e) = Ok i → a ≠ VNone → t ≠ VNone → c ≠ VNone →
    Φ (UpsertNode (mkNode i a t c (cert e) (parent_node e) (last_seen e)
      (missed_pings e) (status e) now))) →
  pres (node_rel Φ) (upsert_node e).
Proof. apply (pres_upsert_node _ Φ); auto using node_rel_exec. Qed.
Lemma pres_new_entry i a t c s n : (∀ i', bind_text i = Ok i' → allowed i') →
  pres (node_rel Φ) (upsert_node (new_entry i a t c s n)).
Proof. intros Hi. apply pres_st_upsert_node. intros. apply Hup; auto. Qed.

#[local] Hint Resolve pres_st_update_node_ping pres_st_cleanup_nodes pres_st_cleanup_messages
  pres_st_get_all pres_connect_to_node pres_st_get_node : pres.

Lemma pres_ping_node e : pres (node_rel Φ) (ping_node identity e).
Proof.
  assert (∀ conn, pres (node_rel Φ) (pkt ← make_ping (nid identity) (node_id e);
    catch (send_via identity conn pkt ;; update_node_ping (node_id e) true)
      (λ _, update_node_ping (node_id e) false))) as Hsend.
  { intros conn. unfold make_ping. pres_auto. }
  unfold ping_node. apply pres_bind; [apply _|apply pres_registry_get|].
  intros [conn|]; [apply Hsend|].
  apply pres_bind; [apply _|pres_auto|]. intros [conn|]; [apply Hsend|apply pres_ret, _].
Qed.

Lemma pres_exchange e : pres (node_rel Φ) (exchange identity e).
Proof. unfold exchange, make_gossip. pres_auto. Qed.

Lemma pres_round : pres (node_rel Φ) (round identity).
Proof.
  unfold round. apply pres_bind; [apply _|apply pres_st_get_all|intros nodes].
  apply pres_bind; [apply _| |intros _].
  { apply pres_for_each; [apply _|]. intros e. case_decide; [apply pres_ret, _|].
    apply pres_ping_node. }
  do 2 (apply pres_bind; [apply _|eauto with pres|intros _]).
  apply pres_bind; [apply _|apply pres_sample, _|intros peers].
  apply pres_for_each; [apply _|]. intros e. apply pres_exchange.
Qed.
Lemma pres_loop_turn : pres (node_rel Φ) (loop_turn identity).
Proof. unfold loop_turn. apply pres_catch; [apply _|apply pres_round|intros; apply pres_ret, _]. Qed.

(** What an item of a GOSSIP packet may name. *)
Definition names (n : pyval) : Prop :=
  ∀ id i, py_get n "node_id" "" = Ok id → bind_text id = Ok i → allowed i.
Lemma pres_merge_entry n : names n → pres (node_rel Φ) (merge_entry n).
Proof.
  intros Hn. unfold merge_entry. apply pres_lift_bind; [apply _|intros id Hid].
  assert (∀ a t c s k, pres (node_rel Φ) (upsert_node (new_entry id a t c s k))) as Hnew.
  { intros. apply pres_new_entry. intros i. by apply Hn. }
  pres_auto.
Qed.

Definition gossip_names (p : Packet) : Prop :=
  ∀ nodes l, gossip_nodes p = Ok nodes → py_iter nodes = Ok l → Forall names l.
Lemma pres_handle_gossip p : gossip_names p → pres (node_rel Φ) (handle_gossip p).
Proof.
  intros Hp. unfold handle_gossip. destruct (gossip_nodes p) as [nodes|e] eqn:Hn; [|apply pres_ret, _].
  apply pres_lift_bind; [apply _|intros l Hl]. specialize (Hp nodes l Hn Hl). clear Hl.
  induction Hp as [|n l Hx _ IH]; cbn [for_each]; [apply pres_ret, _|].
  apply pres_bind; [apply _|by apply pres_merge_entry|intros _; apply IH].
Qed.
Lemma pres_handle_ping p conn : pres (node_rel Φ) (handle_ping identity p conn).
Proof. unfold handle_ping, make_pong. pres_auto. Qed.
Lemma pres_handle_pong p : pres (node_rel Φ) (handle_pong p).
Proof. apply pres_st_update_node_ping. Qed.
End gossip_lemmas.

(** *** What a merge adds *)

(** [new] rows come after the old ones, and no old row is touched. *)
Definition fresh_row (t : list NodeEntry) (e : NodeEntry) : Prop :=
  status e = "online" ∧ missed_pings e = 0%Z ∧
  ∀ k, node_key e = Some k → select_pk node_key k t = None.
Definition adds_nodes (s s' : NodeState) : Prop :=
  ∃ new, s' = set_db (set_nodes (λ t, t ++ new) (ns_db s)) s ∧
    Forall (fresh_row (node_table (ns_db s))) new.

Lemma select_pk_app_None {R K} `{Countable K} (key : R → option K) k t t' :
  select_pk key k (t ++ t') = None ↔ select_pk key k t = None ∧ select_pk key k t' = None.
Proof. induction t as [|r t IH]; simpl; [tauto|]. case_decide; [|done]. split; [done|by intros []]. Qed.
Lemma select_pk_app_Some {R K} `{Countable K} (key : R → option K) k t t' r :
  select_pk key k t = Some r → select_pk key k (t ++ t') = Some r.
Proof. induction t as [|x t IH]; simpl; [done|]. case_decide; [done|auto]. Qed.
Lemma select_pk_app_r {R K} `{Countable K} (key : R → option K) k t t' :
  select_pk key k t = None → select_pk key k (t ++ t') = select_pk key k t'.
Proof. induction t as [|x t IH]; simpl; [done|]. case_decide; [done|auto]. Qed.

Lemma same_db s : set_db (set_nodes (λ t, t ++ []) (ns_db s)) s = s.
Proof. destruct s as [[] ? ? ? ?]. unfold set_db, set_nodes. simpl. by rewrite app_nil_r. Qed.

#[global] Instance adds_nodes_preorder : PreOrder adds_nodes.
Proof.
  split.
  - intros s. exists []. by rewrite same_db.
  - intros s1 s2 s3 (n & -> & Hn) (n' & -> & Hn'). exists (n ++ n'). split.
    + unfold set_db, set_nodes. simpl. by rewrite (assoc (++)).
    + apply Forall_app. split; [done|]. eapply Forall_impl; [exact Hn'|].
      intros e (? & ? & Hk). split_and!; [done..|].
      by intros k [? _]%Hk%(select_pk_app_None node_key).
Qed.

Lemma upsert_free t e :
  (∀ k, node_key e = Some k → select_pk node_key k t = None) →
  upsert node_key node_merge e t = t ++ [e].
Proof.
  intros Hk. unfold upsert. destruct (node_key e) as [k|] eqn:E; [|done]. by rewrite Hk.
Qed.

Section gossip_merge.
Context `{!MsgPack} `{!PyRepr} `{!Ed25519} `{!E2E} {env : Env}.

(** Inserting an entry whose identifier was just looked up in vain. *)
Lemma upsert_node_adds e (w : World NodeState) w1 :
  status e = "online" → missed_pings e = 0%Z →
  get_node (node_id e) w1 = (Ok None, w1) → w_st w1 = w_st w →
  adds_nodes (w_st w) (w_st (upsert_node e w).2).
Proof.
  intros Hs Hm Hg Hw. assert (adds_nodes (w_st w) (w_st w)) as Hrefl by reflexivity.
  unfold get_node, query, await, M_await, gets, M_gets, lift, M_lift, mbind, M_bind in Hg.
  unfold upsert_node. destruct (bind_text (node_id e)) as [i|] eqn:Hi.
  2: { unfold mbind, M_bind, lift, M_lift, time, ask, interact, M_interact, mret,
    M_ret. by case_decide. }
  injection Hg as Hg. rewrite Hw in Hg.
  assert (∀ n w2, w_st w2 = w_st w → adds_nodes (w_st w) (w_st ((
    i ← lift (Ok i); a ← lift (bind_text (address e)); t ← lift (bind_text (ntype e));
    c ← lift (bind_text (access e));
    lift (not_null a) ;; lift (not_null t) ;; lift (not_null c) ;;
    run (UpsertNode (mkNode i a t c (cert e) (parent_node e) (last_seen e)
                     (missed_pings e) (status e) n))) w2).2)) as Hrun.
  { intros n w2 Hw2. unfold mbind, M_bind, lift,
    M_lift. destruct (bind_text (address e)) as [a|]; [|by simpl; rewrite Hw2].
    destruct (bind_text (ntype e)) as [t|]; [|by simpl; rewrite Hw2].
    destruct (bind_text (access e)) as [c|]; [|by simpl; rewrite Hw2].
    do 3 (destruct (not_null _); [|by simpl; rewrite Hw2]).
    unfold run, await, M_await, modify, M_modify. cbn [w_st snd]. rewrite Hw2.
    set (row := mkNode i a t c _ _ _ _ _ n).
    assert (∀ k, node_key row = Some k → select_pk node_key k (node_table (ns_db (w_st w))) = None)
      as Hfree.
    { intros k Hk. unfold node_key in Hk. simpl in Hk. rewrite Hk in Hg. exact Hg. }
    exists [row]. split; [|by constructor].
    cbn [put_db node_has_db get_db exec]. unfold set_db, set_nodes. simpl.
    by rewrite upsert_free. }
  case_decide.
  - unfold time. erewrite run_bind by reflexivity. by apply Hrun.
  - erewrite run_bind by reflexivity. by apply Hrun.
Qed.

Lemma run_get_node_state k (w : World NodeState) : (get_node k w).2 = w.
Proof. unfold get_node, mbind, M_bind, lift, M_lift. by destruct (bind_text k). Qed.

Lemma merge_entry_adds n : pres adds_nodes (merge_entry n).
Proof.
  unfold merge_entry. apply pres_lift_bind; [apply _|intros id _].
  apply pres_lift_bind; [apply _|intros addr _]. case_match; [apply pres_ret, _|].
  intros w. destruct (get_node (m:=M NodeState) id w) as [[old|e] w1] eqn:Hg;
    pose proof (run_get_node_state id w) as Hst; rewrite Hg in Hst; simpl in Hst; subst w1.
  2: { unfold mbind at 1, M_bind at 1. by rewrite Hg. }
  rewrite (run_bind _ _ _ _ _ Hg). destruct old as [old|]; [by simpl|].
  unfold mbind at 1, M_bind at 1, lift at 1,
    M_lift at 1. destruct (py_get n "type" _) as [t|]; [|by simpl].
  unfold mbind at 1, M_bind at 1, lift at 1,
    M_lift at 1. destruct (py_get n "access" _) as [a|]; [|by simpl].
  unfold mbind at 1 2, M_bind at 1 2, time, ask, interact, M_interact.
  match goal with |- context [upsert_node ?e ≫= ?f] => set (ent := e) end.
  unfold mbind, M_bind.
  match goal with |- context [upsert_node ent ?w] => set (w2 := w) end.
  assert (adds_nodes (w_st w2) (w_st (upsert_node ent w2).2)) as Hadd
    by by eapply (upsert_node_adds ent w2 w).
  destruct (upsert_node (m:=M NodeState) ent w2) as [[[]|x] w3]; [|by intros _].
  unfold lift, M_lift. by intros _.
Qed.
End gossip_merge.

(** *** Merging the table of an honest peer *)

(** A row whose identifier, address, type and access are texts, the first two
    not empty: what an honest node sends. *)
Definition plain (e : NodeEntry) : Prop :=
  (∃ i, node_id e = VStr i ∧ i ≠ "") ∧ (∃ a, address e = VStr a ∧ a ≠ "") ∧
  (∃ t, ntype e = VStr t) ∧ (∃ a, access e = VStr a).

Section gossip_plain.
Context `{!MsgPack} `{!PyRepr} `{!Ed25519} `{!E2E} {env : Env}.
Implicit Types (w : World NodeState).

(** What becomes of [k] when a peer's row for it, if any, is [r]. *)
Definition merged (k : string) (old r : option NodeEntry) (s' : NodeState) : Prop :=
  match old, r with
  | Some e, _ => entry_of k s' = Some e
  | None, Some e => ∃ i n, entry_of k s' = Some (new_entry (VStr k) (address e) (ntype e) (access e)
      (o_time (outcome i)) n)
  | None, None => entry_of k s' = None
  end.

Lemma run_upsert_new i a t c s n w :
  ∃ n' k, upsert_node (new_entry (VStr i) (VStr a) (VStr t) (VStr c) s n) w =
    (Ok (), mkWorld k (w_trace w) (set_db (exec (UpsertNode
      (new_entry (VStr i) (VStr a) (VStr t) (VStr c) s n')) (ns_db (w_st w))) (w_st w))).
Proof.
  unfold upsert_node, new_entry. simpl. case_decide.
  - unfold time. erewrite run_bind by reflexivity. by do 2 eexists.
  - erewrite run_bind by reflexivity. by do 2 eexists.
Qed.

Lemma merge_plain e i w :
  plain e → node_id e = VStr i →
  ∃ w', merge_entry (to_dict e) w = (Ok (), w') ∧ w_trace w' = w_trace w ∧
    match entry_of i (w_st w) with
    | Some _ => w_st w' = w_st w
    | None => ∃ j n, w_st w' = set_db (set_nodes (λ t, t ++
        [new_entry (VStr i) (address e) (ntype e) (access e) (o_time (outcome j)) n])
        (ns_db (w_st w))) (w_st w)
    end.
Proof.
  intros ((i' & Hi & Hi0) & (a & Ha & Ha0) & (t & Ht) & (c & Hc)) Hid.
  assert (i' = i) as -> by congruence.
  unfold merge_entry. rewrite (run_lift (py_get (to_dict e) "node_id" "") _ _ (VStr i)) by by rewrite <-Hi.
  rewrite (run_lift (py_get (to_dict e) "address" "") _ _ (VStr a)) by by rewrite <-Ha.
  assert (truthy (VStr i) = true ∧ truthy (VStr a) = true) as [Hti Hta].
  { simpl. by rewrite !bool_decide_false. }
  rewrite Hti, Hta. cbn [negb orb]. rewrite (run_bind _ _ _ _ _ (run_get_node i w)).
  destruct (entry_of i (w_st w)) as [old|] eqn:He; [by exists w|].
  rewrite (run_lift (py_get (to_dict e) "type" "permanent") _ _ (VStr t)) by by rewrite <-Ht.
  rewrite (run_lift (py_get (to_dict e) "access" "closed") _ _ (VStr c)) by by rewrite <-Hc.
  unfold time. do 2 (erewrite run_bind by reflexivity). simpl.
  match goal with |- context [upsert_node (new_entry _ _ _ _ ?s ?n) ≫= ?f] =>
    match goal with |- context [(upsert_node _ ≫= f) ?w] =>
      destruct (run_upsert_new i a t c s n w) as (n' & k & Hrun) end end.
  rewrite (run_bind _ _ _ _ _ Hrun). eexists. split; [reflexivity|]. split; [done|].
  exists (w_tick w), n'. cbn [w_st exec]. unfold set_db, set_nodes. simpl.
  rewrite Ha, Ht, Hc, upsert_free; [done|]. intros k' [= <-]. exact He.
Qed.

Lemma merge_all_plain es w :
  Forall plain es →
  ∃ w', for_each (to_dict <$> es) merge_entry w = (Ok (), w') ∧ w_trace w' = w_trace w ∧
    ∀ k, merged k (entry_of k (w_st w)) (select_pk node_key (VStr k) es) (w_st w').
Proof.
  intros Hes. revert w. induction Hes as [|e es He _ IH]; intros w.
  { exists w. csimpl. split_and!; try done. intros k. unfold merged.
    by destruct (entry_of k (w_st w)). }
  pose proof He as ((i & Hi & _) & _).
  destruct (merge_plain e i w He Hi) as (w1 & Hrun & Ht1 & Hs1).
  destruct (IH w1) as (w' & Hrun' & Ht' & Hm). exists w'. csimpl.
  rewrite (run_bind _ _ _ _ _ Hrun). split_and!; [done|by rewrite Ht'|].
  intros k. specialize (Hm k).
  assert (node_key e = Some (VStr i)) as Hke by (unfold node_key; by rewrite Hi).
  destruct (entry_of i (w_st w)) as [old|] eqn:Ei.
  - rewrite Hs1 in Hm. simpl. case_decide as Hk; [|done]. assert (i = k) as -> by congruence.
    unfold merged in *. by rewrite Ei in *.
  - destruct Hs1 as (j & n & Hs1). unfold merged in *. simpl.
    assert (entry_of k (w_st w1) = match entry_of k (w_st w) with
      | Some x => Some x
      | None => if decide (VStr i = VStr k)
          then Some (new_entry (VStr i) (address e) (ntype e) (access e) (o_time (outcome j)) n)
          else None end) as Hk.
    { rewrite Hs1. unfold entry_of. simpl.
      destruct (select_pk node_key (VStr k) (node_table (ns_db (w_st w)))) as [x|] eqn:Ek.
      - by apply select_pk_app_Some.
      - rewrite select_pk_app_r by done. simpl. unfold node_key. simpl.
        do 2 case_decide; naive_solver. }
    rewrite Hk in Hm. destruct (entry_of k (w_st w)) as [x|] eqn:Ek; [done|].
    destruct (decide (VStr i = VStr k)) as [[= ->]|Hne].
    + rewrite decide_True by done. eauto.
    + rewrite decide_False by congruence. done.
Qed.
End gossip_plain.

(** *** A ping over a live connection *)

(** A PING of [identity] for [i], as it crosses the wire. *)
Definition is_ping `{!MsgPack} `{!PyRepr} `{!Ed25519} `{!E2E} (identity : NodeIdentity) (i : string) (frame : bytes) : Prop :=
  ∃ q, unpack frame = Ok q ∧ verify_packet q (sk_public (n_signing identity)) = Ok true ∧
    type q = VStr T.PING ∧ to_addr q = VStr i.

Lemma run_ping_connected `{!MsgPack} `{!PyRepr} `{!Ed25519} `{!E2E} {env : Env} `{!MsgPackLaws}
    `{!Ed25519Laws} `{!EnvLaws} (identity : NodeIdentity) i e conn (w : World NodeState) :
  skp_ok (n_signing identity) → node_id e = VStr i →
  atom_ok (VStr i) = true → ns_conns (w_st w) !! i = Some conn →
  o_send (outcome (2 + w_tick w)) = Ok () →
  ∃ d, is_ping identity i d ∧ ping_node identity e w =
    (Ok (), mkWorld (4 + w_tick w) (w_trace w ++ [IoSend (ws conn) d])
      (set_db (exec (PingSucceeded (VStr i) (o_time (outcome (3 + w_tick w)))) (ns_db (w_st w)))
        (w_st w))).
Proof.
  intros Hk Hid Hi Hc Hs. unfold ping_node. rewrite Hid.
  assert (registry_get (VStr i) w = (Ok (Some conn), w)) as Hg by (unfold registry_get, gets,
    M_gets; by rewrite Hc).
  rewrite (run_bind _ _ _ _ _ Hg). unfold make_ping, new_packet.
  destruct (signed_frame (n_signing identity) T.PING [] (o_uuid (outcome (w_tick w))) (nid identity)
    i (o_time (outcome (S (w_tick w))))) as (q & d & Hq & Hd & Hu & Hv & Hty & _ & _ & Hto); try done.
  { unfold atom_ok. by rewrite uuid4_text. }
  { by apply nid_ok. }
  { apply time_range. }
  exists d. split; [by exists q|].
  unfold uuid4, time. run_simpl. unfold send_via, transport_sign, peer_send. run_simpl.
  rewrite Hq. run_simpl. rewrite Hd, run_ws_send by done. run_simpl.
  unfold update_node_ping, time, run. by run_simpl.
Qed.

(** *** A round with nobody to reach *)

Section isolated.
Context `{!MsgPack} `{!PyRepr} `{!Ed25519} `{!E2E} {env : Env}.
Context (identity : NodeIdentity).
Implicit Types (w : World NodeState).

(** The pings that an isolated node misses, as statements. *)
Definition miss_all (nodes : list NodeEntry) (d : DB) : DB :=
  exec_all ((λ e, PingFailed (node_id e)) <$> others identity nodes) d.

Lemma ping_isolated e i w :
  node_id e = VStr i → ns_conns (w_st w) = ∅ → (∀ i, ∃ x, o_dial (outcome i) = Raise x) →
  ∃ k, w_tick w ≤ k ∧ ping_node identity e w = (Ok (), mkWorld k (w_trace w)
    (set_db (exec (PingFailed (node_id e)) (ns_db (w_st w))) (w_st w))).
Proof.
  intros Hi Hc Hd. unfold ping_node. rewrite Hi.
  assert (registry_get (VStr i) w = (Ok None, w)) as Hg.
  { unfold registry_get, gets, M_gets. by rewrite Hc. }
  rewrite (run_bind _ _ _ _ _ Hg). destruct (Hd (w_tick w)) as [x Hx].
  unfold connect_to_node, open_connection, ws_connect, await, M_await, ask_result, ask, interact,
    M_interact, lift, M_lift, catch, M_catch, mbind, M_bind.
  simpl. rewrite Hx. simpl. eexists. split; [|done]. simpl. lia.
Qed.

Lemma pings_isolated nodes w :
  Forall (λ e, ∃ i, node_id e = VStr i) nodes →
  ns_conns (w_st w) = ∅ → (∀ i, ∃ x, o_dial (outcome i) = Raise x) →
  ∃ k, w_tick w ≤ k ∧ for_each nodes (λ entry,
      if decide (node_id entry = VStr (nid identity)) then mret () else ping_node identity entry) w =
    (Ok (), mkWorld k (w_trace w) (set_db (miss_all nodes (ns_db (w_st w))) (w_st w))).
Proof.
  intros Hn Hc Hd. revert w Hc. induction Hn as [|e nodes [i Hi] _ IH]; intros w Hc.
  { exists (w_tick w). split; [done|]. by destruct w as [? ? []]. }
  unfold miss_all, others. simpl. rewrite filter_cons.
  destruct (decide (node_id e = VStr (nid identity))) as [He|He].
  - rewrite decide_False by (intros Hx; by apply Hx).
    exact (IH w Hc).
  - rewrite decide_True by done. destruct (ping_isolated e i w Hi Hc Hd) as (k & Hle & Hk).
    rewrite (run_bind _ _ _ _ _ Hk).
    destruct (IH (mkWorld k (w_trace w)
      (set_db (exec (PingFailed (node_id e)) (ns_db (w_st w))) (w_st w))) Hc) as (k' & Hle' & Hk').
    exists k'. split; [simpl in Hle'; lia|exact Hk'].
Qed.

Lemma exchanges_isolated peers w :
  Forall (λ e, ∃ i, node_id e = VStr i) peers → ns_conns (w_st w) = ∅ →
  for_each peers (exchange identity) w = (Ok (), w).
Proof.
  intros Hn Hc. induction Hn as [|e peers [i Hi] _ IH]; [done|]. simpl.
  assert (exchange identity e w = (Ok (), w)) as Hx.
  { unfold exchange, registry_get, gets, M_gets, mbind, M_bind. by rewrite Hi, Hc. }
  by rewrite (run_bind _ _ _ _ _ Hx).
Qed.

Lemma sample_sub {A} (P : A → Prop) n (l : list A) w :
  Forall P l → ∃ l' k, w_tick w ≤ k ∧ sample n l w = (Ok l', mkWorld k (w_trace w) (w_st w)) ∧ Forall P l'.
Proof.
  revert l w. induction n as [|n IH]; intros l w Hl; [exists [], (w_tick w); by destruct w|].
  destruct l as [|x l]; [exists [], (w_tick w); by destruct w|].
  cbn [sample]. erewrite run_bind by reflexivity. cbn [w_tick].
  set (j := _ mod _). destruct ((x :: l) !! j) as [y|] eqn:Hj;
    [|exists [], (S (w_tick w)); split; [lia|done]].
  destruct (IH (take j (x :: l) ++ drop (S j) (x :: l)) (mkWorld (S (w_tick w)) (w_trace w) (w_st w)))
    as (l' & k & Hle & Hs & Hl').
  { apply Forall_app. split; [by apply Forall_take|by apply Forall_drop]. }
  rewrite (run_bind _ _ _ _ _ Hs). exists (y :: l'), k. simpl in Hle.
  split; [lia|]. split; [done|]. constructor; [|done].
  rewrite Forall_lookup in Hl. eauto.
Qed.

(** The row of [k] after the pings of [l] were missed. *)
Lemma miss_lookup l a k :
  NoDup (node_id <$> l) → Forall (λ e, ∃ i, node_id e = VStr i) l →
  a_nodes (foldl (flip exec_abs) a ((λ e, PingFailed (node_id e)) <$> l)) !! VStr k =
  (if decide (VStr k ∈ node_id <$> l) then node_missed <$> a_nodes a !! VStr k
   else a_nodes a !! VStr k).
Proof.
  intros Hnd Hl. revert a Hnd. induction Hl as [|e l [i Hi] _ IH]; intros a Hnd; csimpl in *.
  { done. }
  apply NoDup_cons in Hnd as [Hni Hnd]. rewrite IH by done. rewrite Hi in *.
  unfold at_key. simpl. rewrite lookup_alter.
  destruct (decide (VStr k ∈ node_id <$> l)) as [Hin|Hin].
  - rewrite (decide_True (P:=VStr k ∈ _ :: _)) by (by apply list_elem_of_further).
    rewrite decide_False; [done|]. intros [= ->]. done.
  - destruct (decide (VStr i = VStr k)) as [[= ->]|Hne].
    + rewrite (decide_True (P:=VStr k ∈ _ :: _)) by apply list_elem_of_here. done.
    + rewrite decide_False; [done|]. rewrite elem_of_cons. naive_solver.
Qed.

Lemma ids_unique t :
  Forall (λ e, ∃ i, node_id e = VStr i) t → unique node_key t → NoDup (node_id <$> t).
Proof.
  unfold unique. intros Ht. assert (keys node_key t = node_id <$> t) as ->; [|done].
  induction Ht as [|e t [i Hi] _ IH]; csimpl; [done|]. unfold node_key at 1. rewrite Hi. simpl.
  by f_equal.
Qed.
(** The whole round, as the statements it runs. *)
Lemma round_isolated w :
  Forall (λ e, ∃ i, node_id e = VStr i) (node_table (ns_db (w_st w))) →
  ns_conns (w_st w) = ∅ → (∀ i, ∃ x, o_dial (outcome i) = Raise x) →
  ∃ j j', w_tick w ≤ j < j' ∧ round identity w = (Ok (), mkWorld j' (w_trace w) (set_db
    (exec (CleanupMessages (o_time (outcome (S j))))
       (exec (CleanupNodes (o_time (outcome j) - TTL_NODE_OFFLINE_SECS))
          (miss_all (node_table (ns_db (w_st w))) (ns_db (w_st w))))) (w_st w))).
Proof.
  intros Hids Hc Hd. set (nodes := node_table (ns_db (w_st w))) in *.
  destruct (pings_isolated nodes w Hids Hc Hd) as (j & Hle & Hj).
  set (w3 := mkWorld (S (S j)) (w_trace w) (set_db
    (exec (CleanupMessages (o_time (outcome (S j))))
       (exec (CleanupNodes (o_time (outcome j) - TTL_NODE_OFFLINE_SECS))
          (miss_all nodes (ns_db (w_st w))))) (w_st w))).
  destruct (sample_sub (λ e, ∃ i, node_id e = VStr i)
    (min GOSSIP_FANOUT (length (online_peers identity nodes))) (online_peers identity nodes) w3)
    as (peers & j' & Hle' & Hs & Hpeers).
  { apply Forall_forall. intros e [_ ?]%list_elem_of_filter. rewrite Forall_forall in Hids. auto. }
  exists j, j'. split; [simpl in Hle'; lia|]. unfold round. rewrite (run_bind _ _ w nodes w) by done.
  rewrite (run_bind _ _ _ _ _ Hj). erewrite run_bind by reflexivity.
  erewrite run_bind by reflexivity. cbv zeta.
  refine (eq_trans (run_bind _ _ w3 _ _ Hs) _). by apply exchanges_isolated.
Qed.

Lemma select_abs k d : select_pk node_key (VStr k) (node_table d) = a_nodes (abs d) !! VStr k.
Proof. simpl. by rewrite to_map_lookup. Qed.

(** The clean-up of a well-formed table, row by row. *)
Lemma cleaned_lookup cutoff d k :
  db_wf d → select_pk node_key (VStr k) (node_table (exec (CleanupNodes cutoff) d)) =
  (e ← select_pk node_key (VStr k) (node_table d);
   if decide (node_expired cutoff e) then None else Some e).
Proof.
  intros Hwf. rewrite !select_abs, exec_refines_abs by done. simpl.
  rewrite map_lookup_filter. destruct (to_map _ _ !! _) as [e|]; [|done]. simpl.
  rewrite option_guard_decide. by repeat case_decide.
Qed.

(** The row of [k] after every other node missed a ping. *)
Lemma missed_lookup d k :
  db_wf d → Forall (λ e, ∃ i, node_id e = VStr i) (node_table d) →
  select_pk node_key (VStr k) (node_table (miss_all (node_table d) d)) =
  (if decide (k = nid identity) then id else fmap node_missed)
    (select_pk node_key (VStr k) (node_table d)).
Proof.
  intros Hwf Hids. set (l := others identity (node_table d)).
  assert (VStr k ∈ node_id <$> l ↔ k ≠ nid identity ∧ VStr k ∈ node_id <$> node_table d) as Hin.
  { unfold l, others. rewrite !list_elem_of_fmap. split.
    - intros (e & He & [Hne Hin]%list_elem_of_filter). split; [|by eauto]. by intros ->.
    - intros (Hk & e & He & Hin). exists e. split; [done|]. apply list_elem_of_filter.
      split; [|done]. rewrite <-He. congruence. }
  destruct (exec_all_refines ((λ e, PingFailed (node_id e)) <$> l) d Hwf) as [_ Ha];
    [by apply Forall_fmap, Forall_true|].
  rewrite select_abs. unfold miss_all. fold l. rewrite Ha, miss_lookup, <-select_abs.
  - destruct (decide (k = nid identity)) as [Hk|Hk]; [rewrite decide_False; tauto|].
    case_decide as Ho; [done|].
    destruct (select_pk node_key (VStr k) (node_table d)) as [e|] eqn:He; [|done].
    destruct Ho. apply Hin. split; [done|].
    apply select_pk_Some in He as [He [-> _]%sql_key_Some]. apply list_elem_of_fmap. eauto.
  - eapply sublist_NoDup; [|apply fmap_sublist, sublist_filter]. by apply ids_unique, Hwf.
  - apply Forall_forall. intros e [_ He]%list_elem_of_filter.
    rewrite Forall_forall in Hids. auto.
Qed.
End isolated.

(** ** Properties *)

Section gossip_properties.
Context `{!MsgPack} `{!PyRepr} `{!Ed25519} `{!E2E} {env : Env}.
Context (identity : NodeIdentity).
Implicit Types (w : World NodeState).

(** Gossip only ever adds nodes.  Whatever a GOSSIP packet contains, and
    even if its handler raises half way, the rows of the node table that existed
    before are unchanged and in place; every new row is online with no missed
    ping under an identifier that no old row had; and the cells, the presence
    table, the buffer, the connections and the deliveries are untouched. *)
Theorem handle_gossip_only_adds pkt w :
  wp (handle_gossip pkt) (λ _ w', ∃ new,
    w_st w' = set_db (set_nodes (λ t, t ++ new) (ns_db (w_st w))) (w_st w) ∧
    Forall (λ e, status e = "online" ∧ missed_pings e = 0%Z ∧
      ∀ k, node_key e = Some k → select_pk node_key k (node_table (ns_db (w_st w))) = None) new) w.
Proof.
  enough (pres adds_nodes (handle_gossip pkt)) as Hp by exact (proj1 (pres_always adds_nodes _) Hp w).
  unfold handle_gossip. destruct (gossip_nodes pkt); [|apply pres_ret, _].
  apply pres_bind; [apply _|apply pres_lift, _|intros l].
  apply pres_for_each; [apply _|]. apply merge_entry_adds.
Qed.

(** C20: gossip merges node tables, and believes every row that is new to it.
    When the packet carries the table [es] of a peer, the handler succeeds, sends
    nothing, and for each identifier [k]: a row we had is kept; a row only the
    peer has is copied with its address, type and access, but as [online] and
    last seen now, although the peer may hold it as offline; and nothing else
    appears. *)
Theorem gossip_merges_tables pkt es w :
  gossip_nodes pkt = Ok (VList (to_dict <$> es)) → Forall plain es →
  wp (handle_gossip pkt) (λ r w', r = Ok () ∧ w_trace w' = w_trace w ∧ ∀ k,
    match entry_of k (w_st w), select_pk node_key (VStr k) es with
    | Some e, _ => entry_of k (w_st w') = Some e
    | None, Some e => ∃ i n, entry_of k (w_st w') =
        Some (mkNode (VStr k) (address e) (ntype e) (access e) [] "" (o_time (outcome i)) 0 "online" n)
    | None, None => entry_of k (w_st w') = None
    end) w.
Proof.
  intros Hg Hes. unfold wp, handle_gossip. rewrite Hg.
  destruct (merge_all_plain es w Hes) as (w' & Hrun & Ht & Hm).
  cbn [py_iter]. rewrite (run_lift _ _ _ _ eq_refl), Hrun. done.
Qed.

(** A ping counts as answered as soon as it is written.  If the node is
    connected and the socket takes the frame, [ping_node] writes one signed PING
    and marks the node as seen now, online, with no missed pings, without
    waiting for a PONG. *)
Theorem ping_counts_when_written `{!MsgPackLaws} `{!Ed25519Laws} `{!EnvLaws} i e conn w :
  skp_ok (n_signing identity) → entry_of i (w_st w) = Some e →
  atom_ok (VStr i) = true → ns_conns (w_st w) !! i = Some conn →
  o_send (outcome (2 + w_tick w)) = Ok () →
  wp (ping_node identity e) (λ r w', r = Ok () ∧
    (∃ d, w_trace w' = w_trace w ++ [IoSend (ws conn) d]) ∧
    entry_of i (w_st w') = Some (node_seen (o_time (outcome (3 + w_tick w))) e)) w.
Proof.
  intros Hk He Hi Hc Hs.
  assert (node_id e = VStr i) as Hid.
  { apply select_pk_Some in He as [_ He]. by apply sql_key_Some in He as [-> _]. }
  destruct (run_ping_connected identity i e conn w Hk Hid Hi Hc Hs) as (d & _ & Hrun).
  unfold wp. rewrite Hrun. split; [done|]. split; [by exists d|].
  unfold entry_of. simpl. rewrite update_select_node by done. unfold entry_of in He. by rewrite He.
Qed.

(** C23: an isolated node counts every miss once.  If nothing is connected and
    nothing can be dialled, a round of gossip succeeds and writes nothing; every
    known node but itself has missed one more ping, and a node that is then
    offline and was last seen more than 72 hours before the time that the clock shows
    during the round is forgotten. *)
Theorem isolated_round w :
  db_wf (ns_db (w_st w)) → Forall (λ e, ∃ i, node_id e = VStr i) (node_table (ns_db (w_st w))) →
  ns_conns (w_st w) = ∅ → (∀ i, ∃ x, o_dial (outcome i) = Raise x) →
  wp (round identity) (λ r w', r = Ok () ∧ w_trace w' = w_trace w ∧ ∃ now, clock_during w w' now ∧ ∀ k,
    entry_of k (w_st w') =
      (e ← (if decide (k = nid identity) then id else fmap node_missed) (entry_of k (w_st w));
       if decide (status e = "offline" ∧ (last_seen e < now - 72 * 3600)%Z) then None else Some e)) w.
Proof.
  intros Hwf Hids Hc Hd.
  destruct (round_isolated identity w Hids Hc Hd) as (j & j' & Hle & Hrun).
  unfold wp. rewrite Hrun. split; [done|]. split; [done|]. exists (o_time (outcome j)).
  split; [by exists j|]. intros k.
  unfold entry_of. simpl. etrans; [apply cleaned_lookup; apply exec_all_refines;
    [done|by apply Forall_fmap, Forall_true]|].
  f_equal. by apply missed_lookup.
Qed.
End gossip_properties.

(** ** Witnesses *)

Module GossipWitnesses.
Import Samples.
#[local] Existing Instance calm_env_laws.

Definition me : NodeIdentity :=
  mkNodeIdentity (sample_signing "001") (sample_encryption "002") "a:1" "permanent" "open".
Definition row (i addr st : string) : NodeEntry :=
  mkNode i addr "permanent" "open" [] "" 5 0 st 5.
Definition state (t : list NodeEntry) (conns : gmap string PeerConnection) : World NodeState :=
  mkWorld 0 [] (mkNodeState (mkDB t [] [] []) conns [] [] created).

(** The peer holds [n2] as offline. *)
Definition peer_table : list NodeEntry := [row "n1" "x:1" "online"; row "n2" "y:2" "offline"].
Definition gossip : Packet :=
  mkPacket "gossip" (VBin (or_else [] (packb (VDict [(KStr "nodes", VList (to_dict <$> peer_table))]))))
    "id" "n1" "" (VBin []) (VInt 3) (VInt 1).

Lemma gossip_merges_tables_witness :
  let w := state [row "n1" "z:9" "online"] ∅ in
  wp (handle_gossip (env:=calm_env) gossip) (λ r w', r = Ok () ∧ w_trace w' = [] ∧ ∀ k,
    match entry_of k (w_st w), select_pk node_key (VStr k) peer_table with
    | Some e, _ => entry_of k (w_st w') = Some e
    | None, Some e => ∃ i n, entry_of k (w_st w') =
        Some (mkNode (VStr k) (address e) (ntype e) (access e) [] ""
          (o_time (@outcome _ _ calm_env i)) 0 "online" n)
    | None, None => entry_of k (w_st w') = None
    end) w.
Proof.
  intros w. refine (gossip_merges_tables (env:=calm_env) gossip peer_table w _ _).
  - vm_compute. reflexivity.
  - repeat constructor; repeat (eexists; try split); try reflexivity; discriminate.
Defined.

Definition link : PeerConnection := mkConn 4 "n1" [] (VBin []) (nid me).

Lemma ping_counts_when_written_witness :
  let w := state [row "n1" "z:9" "offline"] {["n1" := link]} in
  wp (ping_node (env:=calm_env) me (row "n1" "z:9" "offline")) (λ r w', r = Ok () ∧
    (∃ d, w_trace w' = w_trace w ++ [IoSend 4 d]) ∧
    entry_of "n1" (w_st w') = Some (node_seen 1000000 (row "n1" "z:9" "offline"))) w.
Proof.
  intros w. refine (ping_counts_when_written (env:=calm_env) me "n1" (row "n1" "z:9" "offline")
    link w _ _ _ _ _); vm_compute; reflexivity.
Defined.

Lemma isolated_round_witness :
  let w := state [row "n1" "z:9" "online"; row (nid me) "a:1" "online"] ∅ in
  wp (round (env:=offline_env) me) (λ r w', r = Ok () ∧ w_trace w' = w_trace w ∧
    ∃ now, clock_between (H1:=offline_env) (w_tick w) (w_tick w') now ∧ ∀ k,
    entry_of k (w_st w') =
      (e ← (if decide (k = nid me) then id else fmap node_missed) (entry_of k (w_st w));
       if decide (status e = "offline" ∧ (last_seen e < now - 72 * 3600)%Z) then None else Some e)) w.
Proof.
  intros w. refine (isolated_round (env:=offline_env) me w _ _ _ _).
  - split; simpl; try (repeat constructor; try discriminate).
    + unfold unique. simpl. intros Hx%list_elem_of_singleton. discriminate.
    + unfold unique. simpl. apply not_elem_of_nil.
  - repeat constructor; eexists; reflexivity.
  - reflexivity.
  - intros i. exists ConnectError. reflexivity.
Defined.
End GossipWitnesses.
