(* ===== verification/Node.v ===== *)
(** * The node ([node/node.py])

    The orchestrator: construction, joining a network, sending a message, the
    dispatcher and its handlers.  [event] is what can happen to a running node,
    and [step] the change it makes when its handler runs to its end before the next
    event; [Interleaving] does without that assumption. *)
From stdpp Require Import pretty.
From S2P Require Import Prelude PyVal Interfaces Text Json Effects Crypto Protocol Auth Identity Table Storage Transport Router Gossip.
From S2P Require Samples.

(** ** Addresses *)

Definition digit_value (a : Ascii.ascii) : option Z :=
  let n := Ascii.N_of_ascii a in
  if (48 <=? n)%N && (n <=? 57)%N then Some (Z.of_N (n - 48)) else None.

(** Digits, with single underscores between them; [acc] is what precedes. *)
Fixpoint int_digits (acc : Z) (s : string) : option Z :=
  match s with
  | "" => Some acc
  | String a s =>
      match digit_value a with
      | Some d => int_digits (10 * acc + d) s
      | None =>
          if decide (a = "_"%char) then
            match s with
            | "" => None
            | String b s =>
                match digit_value b with
                | Some d => int_digits (10 * acc + d) s
                | None => None
                end
            end
          else None
      end
  end%string.

Definition int_unsigned (s : string) : option Z :=
  match s with
  | "" => None
  | String a s => d ← digit_value a; int_digits d s
  end%string.

Fixpoint skip_spaces (s : string) : string :=
  match s with
  | String a s' => if is_space a then skip_spaces s' else s
  | "" => ""
  end%string.
Fixpoint drop_trailing_spaces (s : string) : string :=
  match s with
  | "" => ""
  | String a s' =>
      let r := drop_trailing_spaces s' in
      if is_space a && bool_decide (r = "") then "" else String a r
  end%string.

(** The decimal digits of Unicode 14, beyond those of ASCII, are runs of ten code
    points, each from one of these zeros on; and the white space beyond ASCII. *)
Definition decimal_zeros : list N :=
  [1632; 1776; 1984; 2406; 2534; 2662; 2790; 2918; 3046; 3174; 3302; 3430; 3558; 3664;
   3792; 3872; 4160; 4240; 6112; 6160; 6470; 6608; 6784; 6800; 6992; 7088; 7232; 7248;
   42528; 43216; 43264; 43472; 43504; 43600; 44016; 65296; 66720; 68912; 69734; 69872;
   69942; 70096; 70384; 70736; 70864; 71248; 71360; 71472; 71904; 72016; 72784; 73040;
   73120; 92768; 92864; 93008; 120782; 120792; 120802; 120812; 120822; 123200; 123632;
   125264; 130032]%N.
Definition wide_spaces : list N :=
  [133; 160; 5760; 8192; 8193; 8194; 8195; 8196; 8197; 8198; 8199; 8200; 8201; 8202; 8232;
   8233; 8239; 8287; 12288]%N.
(** [int(s)] first writes digits and white space in ASCII, and [?] for what is
    neither. *)
Definition ascii_point (c : N) : N :=
  if (c <? 127)%N then c
  else if existsb (N.eqb c) wide_spaces then 32%N
  else match List.find (λ z, within z (z + 9) c) decimal_zeros with
       | Some z => (48 + (c - z))%N
       | None => 63%N
       end.
Definition to_ascii (s : string) : string := of_codes (ascii_point <$> points s).

(** [int(s)] *)
Definition py_int (s : string) : result Z :=
  let s := drop_trailing_spaces (skip_spaces (to_ascii s)) in
  let r := match s with
    | String "-" s => Z.opp <$> int_unsigned s
    | String "+" s => int_unsigned s
    | _ => int_unsigned s
    end%string in
  from_option Ok (Raise ValueError) r.

Definition split_address (address : pyval) : result (string * Z) :=
  match address with
  | VStr s =>
      match split_last ":" s with
      | Some (host, port) => p ← py_int port; mret (host, p)
      | None => Raise ValueError
      end
  | VBin _ => Raise TypeError
  | _ => Raise AttributeError
  end.

Section node.
Context `{!MsgPack} `{!PyRepr} `{!PyFloat} `{!Ed25519} `{!E2E} {env : Env}.
Context {m : Type → Type} `{!MRet m, !MBind m, !MThrow m, !MLift m}.
Context `{!MGets NodeState m, !MModify NodeState m, !MEmit NodeState m, !MInteract NodeState m}.
Context `{!MCatch m, !MFinally m, !MAwait m}.

(** ** Construction *)

(** [Node.__init__] over an opened database *)
Definition new_node (d : DB) : NodeState := mkNodeState d ∅ [] [] created.

Definition create (identity_path : string) (fs : gmap string string) (d : DB)
    : result (NodeIdentity * NodeState) :=
  identity ← load_node identity_path fs; mret (identity, new_node d).

(** The node's own row. *)
Definition register_genesis (identity : NodeIdentity) (addr acc : string) : m unit :=
  seen ← time;
  added ← time;
  upsert_node (new_entry (VStr (nid identity)) addr "permanent" acc seen added).

Definition create_genesis (addr identity_path acc : string) (fs : gmap string string)
    : m (NodeIdentity * gmap string string) :=
  identity ← generate_node addr "permanent" acc;
  fs ← lift (save_node identity identity_path fs);
  register_genesis identity addr acc ;;
  mret (identity, fs).

Context (identity : NodeIdentity) (has_handler : bool).

(** ** [Node.start] and [Node.stop] *)

Definition start : m unit :=
  '(host, port) ← lift (split_address (n_address identity));
  Transport.start host port ;;
  Gossip.start.

(** [Storage.close] *)
Definition close_storage : m unit :=
  up ← gets (λ s, lf_db (ns_life s));
  if up : bool then await (mret ()) ;; modify (set_open false) else mret ().

Definition stop : m unit := Gossip.stop ;; Transport.stop ;; close_storage.

Definition join (bootstrap_address : string) : m unit :=
  conn ← connect identity bootstrap_address;
  seen ← time;
  added ← time;
  upsert_node (new_entry (VStr (peer_node_id conn)) bootstrap_address "permanent" "open" seen added).

(** The payload of an encrypted message. *)
Definition sealed (e : Encrypted) : pyval := VDict [
  (KStr "ephemeral_pubkey", VBin (ephemeral_pubkey e));
  (KStr "nonce", VBin (nonce e));
  (KStr "ciphertext", VBin (ciphertext e))].

Definition send_message (to_cell_at_node : string) (plaintext : bytes)
    (from_cell_id : option string) : m unit :=
  match split_first "@" to_cell_at_node with
  | None => throw ValueError
  | Some (c, _) =>
      cell ← get_cell (VStr c);
      match cell with
      | None => throw ValueError
      | Some cell =>
          encrypted ← encrypt plaintext (enc_pubkey cell);
          b ← lift (encode_payload (sealed encrypted));
          let from := match from_cell_id with
            | Some f => if decide (f ≠ "") then f +:+ "@" +:+ nid identity else nid identity
            | None => nid identity
            end in
          pkt ← new_packet T.MSG b (VStr from) (VStr to_cell_at_node);
          route identity has_handler pkt
      end
  end.

(** ** Handlers *)

(** The first [try] block of the handlers: [decode_payload(pkt.payload)[k]] *)
Definition payload_field (pkt : Packet) (k : string) : result pyval :=
  data ← decode_payload (payload pkt); py_getitem data k.

Definition handle_node_remove (pkt : Packet) : m unit :=
  match payload_field pkt "node_id" with
  | Raise _ => mret ()
  | Ok id => remove_node id ;; lift (py_slice8 id)
  end.

(** [dict.pop(node_id, None)] *)
Definition registry_pop (id : pyval) : m unit :=
  match id with
  | VStr s => registry_remove s
  | VList _ | VDict _ => throw TypeError
  | _ => mret ()
  end.

Definition handle_node_leaving (pkt : Packet) : m unit :=
  remove_node (from_addr pkt) ;;
  registry_pop (from_addr pkt) ;;
  lift (py_slice8 (from_addr pkt)).

Definition presence_dict (c : pyval) (p : option PresenceEntry) : pyval := VDict [
  (KStr "cell_id", c);
  (KStr "home_node_id", from_option (λ p, VStr (home_node_id p)) VNone p);
  (KStr "visiting_node_id", from_option VStr VNone (p ≫= visiting_node_id))].

Definition handle_presence_query (pkt : Packet) (conn : PeerConnection) : m unit :=
  match payload_field pkt "cell_id" with
  | Raise _ => mret ()
  | Ok c =>
      presence ← get_presence c;
      b ← lift (encode_payload (presence_dict c presence));
      response ← new_packet T.PRESENCE_RESPONSE b (VStr (nid identity)) (from_addr pkt);
      send_via identity conn response ;; mret ()
  end.

(** The fields of a registration. *)
Definition register_fields (pkt : Packet) : result (pyval * bytes * bytes * bool) :=
  data ← decode_payload (payload pkt);
  c ← py_getitem data "cell_id";
  sp ← py_getitem data "signing_pubkey";
  sp ← py_bytes sp;
  ep ← py_getitem data "enc_pubkey";
  ep ← py_bytes ep;
  home ← py_get data "is_home" (VBool true);
  mret (c, sp, ep, truthy home).

Definition handle_cell_register (pkt : Packet) (conn : PeerConnection) : m unit :=
  match register_fields pkt with
  | Raise _ => mret ()
  | Ok (c, sp, ep, home) =>
      if decide (sp ≠ peer_signing_pubkey conn) then mret () else
      if decide (c ≠ VStr (peer_node_id conn)) then mret () else
      let c := peer_node_id conn in
      register_cell c sp ep home ;;
      update_presence c (nid identity) None ;;
      flush_buffer identity has_handler c
  end.

(** ** [_dispatch] *)

Definition dispatch (pkt : Packet) (conn : PeerConnection) : m unit :=
  let t := type pkt in
  if decide (t = VStr T.PING) then handle_ping identity pkt conn
  else if decide (t = VStr T.PONG) then handle_pong pkt
  else if decide (t = VStr T.GOSSIP) then handle_gossip pkt
  else if decide (t = VStr T.MSG) then route identity has_handler pkt
  else if decide (t = VStr T.NODE_REMOVE) then handle_node_remove pkt
  else if decide (t = VStr T.NODE_LEAVING) then handle_node_leaving pkt
  else if decide (t = VStr T.PRESENCE_QUERY) then handle_presence_query pkt conn
  else if decide (t = VStr T.PRESENCE_RESPONSE) then mret ()
  else if decide (t = VStr T.CELL_REGISTER) then handle_cell_register pkt conn
  else lift (py_slice8 (from_addr pkt)).

Definition register_cell_locally (c : string) (sp ep : bytes) : m unit :=
  register_cell c sp ep true ;; update_presence c (nid identity) None.

(** ** The running node *)

(** A socket connects to us; a frame arrives on a connection; a connection
    closes; [_handle_incoming] cleans up after one; the gossip timer fires; the
    embedder calls a method. *)
Inductive event :=
  | Incoming (s : socket)
  | Frame (conn : PeerConnection) (raw : bytes)
  | Closed (conn : PeerConnection)
  | IncomingDone (conn : PeerConnection)
  | GossipTimer
  | Start
  | Stop
  | Join (addr : string)
  | SendMessage (to : string) (plaintext : bytes) (from : option string)
  | RegisterLocally (c : string) (sp ep : bytes).

(** A frame that cannot be processed ends the connection's loop. *)
Definition on_event (e : event) : m unit :=
  match e with
  | Incoming s => accept identity s
  | Frame conn raw => catch (recv_frame dispatch conn raw) (λ _, end_loop conn)
  | Closed conn => end_loop conn
  | IncomingDone conn => end_incoming conn
  | GossipTimer => loop_turn identity
  | Start => start
  | Stop => stop
  | Join addr => join addr
  | SendMessage to plaintext from => send_message to plaintext from
  | RegisterLocally c sp ep => register_cell_locally c sp ep
  end.

(** When an event can happen: the server accepts sockets while it is up, frames
    arrive on connections that are being read, and the timer fires while the gossip
    task runs.  The embedder uses the node as long as its storage is open, and
    registers a cell under the identifier that its key spells. *)
Definition enabled (e : event) (s : NodeState) : Prop :=
  match e with
  | Incoming _ => lf_server (ns_life s) = Active
  | Frame conn _ => conn ∈ ns_loops s ∧ lf_db (ns_life s) = true
  | Closed conn => conn ∈ ns_loops s
  | IncomingDone conn => conn ∈ lf_handlers (ns_life s) ∧ conn ∉ ns_loops s
  | GossipTimer => lf_gossip (ns_life s) = Active
  | Start | Join _ | SendMessage _ _ _ => lf_db (ns_life s) = true
  | Stop => True
  | RegisterLocally c sp _ => c = bytes_hex sp ∧ lf_db (ns_life s) = true
  end.

End node.

(** An event runs to its end before the next one. *)
Section running.
Context `{!MsgPack} `{!PyRepr} `{!Ed25519} `{!E2E} {env : Env}.
Context (identity : NodeIdentity) (has_handler : bool).

Inductive step : relation (World NodeState) :=
  | step_event e w : enabled e (w_st w) → step w (on_event identity has_handler e w).2.

(** Starting from a database that a node left behind. *)
Definition reachable (w : World NodeState) : Prop :=
  ∃ d k, db_inv d ∧ rtc step (mkWorld k [] (new_node d)) w.
End running.

(** ** The invariant *)

(** The tables keep their constraints, a node is offline exactly when it missed
    three pings in a row, cells are filed under their keys, and so are the
    connections. *)
Record node_inv (s : NodeState) : Prop := {
  ni_db : db_inv (ns_db s);
  ni_conns : registry_ok (ns_conns s);
  ni_loops : Forall conn_ok (ns_loops s);
}.

Lemma node_rel_inv allowed home s s' : node_rel (program allowed home) s s' → node_inv s → node_inv s'.
Proof.
  intros ([_ Hd] & Hc & _) [? ? ?]. destruct Hc as [? ?]; [done..|].
  split; [by eapply (steps_inv allowed home)|done..].
Qed.

(** Running what keeps to the program's statements. *)
Lemma run_node_inv {A} (x : M NodeState A) w :
  pres (node_rel (program anything None)) x → node_inv (w_st w) → node_inv (w_st (x w).2).
Proof. intros Hx Hw. eapply node_rel_inv; [by apply Hx, node_rel_refl|done]. Qed.

Lemma new_node_inv d : db_inv d → node_inv (new_node d).
Proof. intros Hd. split; [done| |constructor]. intros id conn Hid. simpl in Hid. by rewrite lookup_empty in Hid. Qed.

Section node_lemmas.
Context `{!MsgPack} `{!PyRepr} `{!Ed25519} `{!E2E} {env : Env}.
Context {m : Type → Type} `{EffectRules NodeState m}.
Context (identity : NodeIdentity) (has_handler : bool).
Context (allowed : pyval → Prop) (home : option string).
Context (Hhome : ∀ h, home = Some h → h = nid identity).
Abbreviation ok := (pres (node_rel (program allowed home))).

Lemma ok_new_entry i a t c s n : (∀ i', bind_text i = Ok i' → allowed i') →
  ok (upsert_node (new_entry i a t c s n)).
Proof. by apply pres_new_entry. Qed.
Lemma ok_remove_node k : ok (remove_node k).
Proof. apply (pres_remove_node _ (program allowed home)); [apply node_rel_exec|done]. Qed.
Lemma ok_register_cell c sp ep h : c = bytes_hex sp → ok (register_cell c sp ep h).
Proof.
  intros Hc. apply (pres_register_cell _ (program allowed home)); [apply node_rel_exec|done].
Qed.
Lemma ok_update_presence c : ok (update_presence c (nid identity) None).
Proof.
  apply (pres_update_presence _ (program allowed home)); [apply node_rel_exec|].
  intros now. split; [done|]. intros h Hh. symmetry. by apply Hhome.
Qed.
Lemma buffer_or_home :
  (∀ i c n b now, program allowed home
     (BufferMessage (mkMessage i c n b now (now + TTL_MESSAGE_SECS)%Z))) ∨
  (∀ d, holds_in (program allowed home) d → homed_only (nid identity) d).
Proof.
  destruct home as [h|] eqn:E; [right|by left]. intros d Hd. by rewrite <-(Hhome h).
Qed.
#[local] Hint Resolve buffer_or_home : core.
Lemma ok_route p : ok (route identity has_handler p).
Proof. by apply pres_route; auto. Qed.
Lemma ok_flush_buffer c : ok (flush_buffer identity has_handler c).
Proof. by apply pres_flush_buffer; auto. Qed.

Lemma ok_join addr : (∀ key, proved key → allowed (VStr (bytes_hex key))) → ok (join identity addr).
Proof.
  intros Ha. unfold join.
  eapply pres_bind_returns; [apply _|apply pres_connect|apply connect_returns|intros conn [Hc Hk]].
  do 2 (apply pres_bind; [apply _|apply pres_time, _|intros ?]).
  apply ok_new_entry. rewrite Hc. intros i [= <-]. by apply Ha.
Qed.

Lemma ok_send_message to txt f : ok (send_message identity has_handler to txt f).
Proof.
  unfold send_message. destruct (split_first "@" to) as [[c x]|]; [|apply pres_throw, _].
  apply pres_bind; [apply _|apply pres_st_get_cell|intros [cell|]]; [|apply pres_throw, _].
  apply pres_bind; [apply _|unfold encrypt; pres_auto|intros e].
  apply pres_bind; [apply _|apply pres_lift, _|intros b].
  apply pres_bind; [apply _|apply pres_new_packet, _|intros p]. apply ok_route.
Qed.

Lemma ok_node_remove p : ok (handle_node_remove p).
Proof.
  unfold handle_node_remove. case_match; [|apply pres_ret, _].
  apply pres_bind; [apply _|apply ok_remove_node|intros; apply pres_lift, _].
Qed.
Lemma ok_node_leaving p : ok (handle_node_leaving p).
Proof.
  unfold handle_node_leaving. apply pres_bind; [apply _|apply ok_remove_node|intros _].
  apply pres_bind; [apply _| |intros; apply pres_lift, _].
  destruct (from_addr p); eauto with pres typeclass_instances.
Qed.
Lemma ok_presence_query p conn : ok (handle_presence_query identity p conn).
Proof.
  unfold handle_presence_query. case_match; [|apply pres_ret, _].
  apply pres_bind; [apply _|apply pres_st_get_presence|intros e]. pres_auto.
Qed.
Lemma ok_cell_register p conn :
  conn_ok conn → ok (handle_cell_register identity has_handler p conn).
Proof.
  intros Hc. unfold handle_cell_register.
  destruct (register_fields p) as [[[[c sp] ep] h]|e]; [|apply pres_ret, _].
  destruct (decide (sp ≠ _)) as [|Hsp%dec_stable]; [apply pres_ret, _|].
  case_decide; [apply pres_ret, _|]. cbv zeta.
  apply pres_bind; [apply _|apply ok_register_cell; by rewrite Hsp|intros _].
  apply pres_bind; [apply _|apply ok_update_presence|intros _]. apply ok_flush_buffer.
Qed.

Lemma ok_dispatch p conn : conn_ok conn →
  (type p = VStr T.GOSSIP → gossip_names allowed p) → ok (dispatch identity has_handler p conn).
Proof.
  intros Hc Hg. unfold dispatch.
  repeat (case_decide; [first [by apply pres_handle_ping|by apply pres_handle_pong
    |apply (pres_handle_gossip _ allowed); [done|by apply Hg]|apply ok_route|apply ok_node_remove|apply ok_node_leaving
    |apply ok_presence_query|by apply ok_cell_register|apply pres_ret, _]|]).
  apply pres_lift, _.
Qed.

Lemma ok_register_locally c sp ep :
  c = bytes_hex sp → ok (register_cell_locally identity c sp ep).
Proof.
  unfold register_cell_locally. intros Hc. apply pres_bind; [apply _|by apply ok_register_cell|intros _].
  apply ok_update_presence.
Qed.

Lemma ok_set_life f : ok (modify (set_life f)).
Proof. apply pres_modify. intros s. by apply node_rel_same_db. Qed.
#[local] Hint Resolve ok_set_life : pres.
Lemma ok_start : ok (start identity).
Proof. unfold start, Transport.start, Gossip.start, set_server, set_gossip. pres_auto. Qed.
Lemma ok_stop : ok stop.
Proof.
  unfold stop, Gossip.stop, Transport.stop, close_server, registry_all, peer_close, close_storage,
    set_server, set_gossip, set_open.
  pres_auto.
Qed.

(** What the handlers rely on: the connection's identifier spells its key. *)
Definition event_ok (e : event) : Prop :=
  match e with
  | Frame conn _ => conn_ok conn
  | RegisterLocally c sp _ => c = bytes_hex sp
  | _ => True
  end.

(** The nodes that an event may bring: those that a GOSSIP packet lists which its peer
    has signed, and, where an address is joined, those whose keys have signed a nonce
    that we drew. *)
Definition event_names (e : event) : Prop :=
  match e with
  | Frame conn raw => ∀ p, unpack raw = Ok p →
      verify_packet p (peer_signing_pubkey conn) = Ok true →
      type p = VStr T.GOSSIP → gossip_names allowed p
  | Join _ => ∀ key, proved key → allowed (VStr (bytes_hex key))
  | _ => True
  end.

Lemma enabled_ok e s : Forall conn_ok (ns_loops s) → enabled e s → event_ok e.
Proof. rewrite Forall_forall. destruct e; simpl; naive_solver. Qed.

Lemma ok_event e : event_ok e → event_names e → ok (on_event identity has_handler e).
Proof.
  intros He Hn. destruct e as [s|conn raw|conn|conn| | | |addr|to b f|c sp ep]; simpl in *.
  - apply pres_accept.
  - apply pres_catch; [apply _| |intros; apply pres_end_loop]. apply pres_recv_frame.
    intros p Hu Hv. apply ok_dispatch; auto.
  - apply pres_end_loop.
  - apply pres_end_incoming.
  - by apply pres_loop_turn.
  - apply ok_start.
  - apply ok_stop.
  - by apply ok_join.
  - apply ok_send_message.
  - by apply ok_register_locally.
Qed.
End node_lemmas.

Lemma event_names_anything `{!MsgPack} `{!PyRepr} `{!Ed25519} `{!E2E} {env : Env} e :
  event_names anything e.
Proof.
  destruct e; simpl; try done. intros p _ _ _ nodes l _ _. by apply Forall_forall.
Qed.

Section step_lemmas.
Context `{!MsgPack} `{!PyRepr} `{!Ed25519} `{!E2E} {env : Env}.
Context (identity : NodeIdentity) (has_handler : bool).

Lemma step_node_inv w w' :
  step identity has_handler w w' → node_inv (w_st w) → node_inv (w_st w').
Proof.
  intros [e w1 He] Hi. eapply run_node_inv; [|exact Hi].
  apply ok_event; [done|eapply enabled_ok; [apply Hi|done]|apply event_names_anything].
Qed.
End step_lemmas.

(** *** Runs of the handlers *)

Lemma select_deleted k t : select_pk node_key (VStr k) (delete_where (is_node (VStr k)) t) = None.
Proof.
  destruct (select_pk _ _ _) as [e|] eqn:He; [|done].
  apply select_pk_Some in He as [[Hn _]%list_elem_of_filter Hk]. destruct Hn. by split.
Qed.

Section node_runs.
Context `{!MsgPack} `{!PyRepr} `{!Ed25519} `{!E2E} {env : Env}.
Context (identity : NodeIdentity) (has_handler : bool).
Implicit Types (w : World NodeState).

(** A frame that verifies is dispatched, and the loop goes on. *)
Lemma recv_verified op conn raw p w :
  unpack raw = Ok p → verify_packet p (peer_signing_pubkey conn) = Ok true →
  recv_frame op conn raw w = (Ok (), (op p conn w).2).
Proof. intros Hu Hv. rewrite recv_frame_classify. unfold classify. by rewrite Hu; simpl; rewrite Hv. Qed.

(** The branch of [dispatch] for each type. *)
Ltac dispatch_to := intros Ht; unfold dispatch; rewrite Ht;
  repeat rewrite decide_False by discriminate; by rewrite ?decide_True by done.
Lemma dispatch_pong p conn : type p = VStr T.PONG →
  dispatch identity has_handler p conn = handle_pong p.
Proof. dispatch_to. Qed.
Lemma dispatch_gossip p conn : type p = VStr T.GOSSIP →
  dispatch identity has_handler p conn = handle_gossip p.
Proof. dispatch_to. Qed.
Lemma dispatch_msg p conn : type p = VStr T.MSG →
  dispatch identity has_handler p conn = route identity has_handler p.
Proof. dispatch_to. Qed.
Lemma dispatch_remove p conn : type p = VStr T.NODE_REMOVE →
  dispatch identity has_handler p conn = handle_node_remove p.
Proof. dispatch_to. Qed.
Lemma dispatch_leaving p conn : type p = VStr T.NODE_LEAVING →
  dispatch identity has_handler p conn = handle_node_leaving p.
Proof. dispatch_to. Qed.
Lemma dispatch_register p conn : type p = VStr T.CELL_REGISTER →
  dispatch identity has_handler p conn = handle_cell_register identity has_handler p conn.
Proof. dispatch_to. Qed.

Lemma run_remove k w :
  remove_node (VStr k) w =
  (Ok (), mkWorld (w_tick w) (w_trace w)
    (set_db (exec (RemoveNode (VStr k)) (ns_db (w_st w))) (w_st w))).
Proof. done. Qed.

Lemma run_register c sp ep h n w :
  (register_cell c sp ep h ;; update_presence c n None) w =
  (Ok (), mkWorld (2 + w_tick w) (w_trace w) (set_db
    (exec (UpdatePresence (mkPresence c n None (o_time (outcome (S (w_tick w))))))
       (exec (RegisterCell (mkCell c sp ep (o_time (outcome (w_tick w))) h)) (ns_db (w_st w))))
    (w_st w))).
Proof. done. Qed.

Lemma registered c sp ep h n t t' s :
  let s' := set_db (exec (UpdatePresence (mkPresence c n None t))
    (exec (RegisterCell (mkCell c sp ep t' h)) (ns_db s))) s in
  (∃ x, select_pk cell_key c (cells (ns_db s')) = Some x ∧
     signing_pubkey x = sp ∧ enc_pubkey x = ep) ∧
  ∃ p, presence_of c s' = Some p ∧ hops p = [n].
Proof.
  intros s'. unfold presence_of, s'. simpl. rewrite <-!to_map_lookup.
  rewrite (to_map_upsert cell_key _ _ _ c) by done.
  rewrite (to_map_upsert presence_key _ _ _ c) by done. rewrite !lookup_insert_eq.
  split; (eexists; split; [done|]).
  - by destruct (to_map cell_key _ !! c).
  - by destruct (to_map presence_key _ !! c).
Qed.
End node_runs.

(** ** Properties *)

Section node_properties.
Context `{!MsgPack} `{!PyRepr} `{!Ed25519} `{!E2E} {env : Env}.
Context (identity : NodeIdentity) (has_handler : bool).
Implicit Types (w : World NodeState).

(** A node is consistent in every reachable state.  Whatever peers connect,
    whatever frames they send, however connections and gossip rounds fail, and
    whatever the embedder asks for, every table keeps distinct primary keys and
    its NOT NULL columns, messages expire 72 hours after they were stored, a node
    is offline exactly when it has missed three pings in a row, every cell is
    filed under the hexadecimal form of its key, and every registered connection
    under the identifier of the key its peer proved. *)
Theorem reachable_node_inv w :
  reachable identity has_handler w → node_inv (w_st w).
Proof.
  intros (d & k & Hd & Hrtc). remember (mkWorld k [] (new_node d)) as w0 eqn:Hw0.
  assert (node_inv (w_st w0)) as Hi by (rewrite Hw0; by apply new_node_inv). clear Hw0.
  induction Hrtc as [|w1 w2 w3 Hs _ IH]; [done|]. by apply IH, (step_node_inv _ _ _ _ Hs).
Qed.

(** C9: a peer can register no cell but itself.  Unless the identifier and the
    signing key in a CELL_REGISTER packet are those of the connection it came
    over, the handler does nothing at all. *)
Theorem cell_register_authenticated pkt conn w :
  ¬ (∃ ep h, register_fields pkt =
       Ok (VStr (peer_node_id conn), peer_signing_pubkey conn, ep, h)) →
  handle_cell_register identity has_handler pkt conn w = (Ok (), w).
Proof.
  intros Hno. unfold handle_cell_register.
  destruct (register_fields pkt) as [[[[c sp] ep] h]|e]; [|done].
  destruct (decide (sp ≠ _)) as [|Hsp%dec_stable]; [done|].
  destruct (decide (c ≠ _)) as [|Hc%dec_stable]; [done|].
  destruct Hno. exists ep, h. by rewrite Hsp, Hc.
Qed.

(** C10: a cell that registers gets what was kept for it.  When the packet
    carries the identifier and key of its own connection, the connection is
    registered, the sends succeed, and what is kept for the cell can be delivered
    (each message has a text for its id, and decodes to a packet for the cell that
    this node can sign and pack), then the handler stores the cell with its keys, makes this node its only hop, writes every buffered message of the cell
    that has not expired to the cell's socket, in order, and leaves none of them
    in the buffer. *)
Theorem cell_register_delivers_buffer pkt conn ep h frame w :
  let c := peer_node_id conn in
  let now := o_time (outcome (2 + w_tick w)) in
  let ms := filter (deliverable c now) (message_buffer (ns_db (w_st w))) in
  register_fields pkt = Ok (VStr c, peer_signing_pubkey conn, ep, h) →
  c ≠ "" → db_wf (ns_db (w_st w)) → ns_conns (w_st w) !! c = Some conn →
  (∀ i, o_send (outcome i) = Ok ()) → Forall (batch_ok identity c frame) ms →
  wp (handle_cell_register identity has_handler pkt conn) (λ r w', r = Ok () ∧
    (∃ x, select_pk cell_key c (cells (ns_db (w_st w'))) = Some x ∧
       signing_pubkey x = peer_signing_pubkey conn ∧ enc_pubkey x = ep) ∧
    homed_here identity c (w_st w') ∧
    w_trace w' = w_trace w ++ ((λ m, IoSend (ws conn) (frame m)) <$> ms) ∧
    Forall (λ m, ¬ deliverable c now m) (message_buffer (ns_db (w_st w')))) w.
Proof.
  intros c now ms Hf Hc0 Hwf Hconn Hs Hb.
  pose proof (run_register c (peer_signing_pubkey conn) ep h (nid identity) w) as Hreg.
  match type of Hreg with _ = (_, ?x) => set (w1 := x) in Hreg end.
  destruct (registered c (peer_signing_pubkey conn) ep h (nid identity)
    (o_time (outcome (S (w_tick w)))) (o_time (outcome (w_tick w))) (w_st w)) as [Hcell Hhome].
  assert (db_wf (ns_db (w_st w1))) as Hwf1.
  { apply exec_wf; [exact I|]. by apply exec_wf; [exact I|]. }
  destruct (flush_live identity has_handler c frame conn w1 Hwf1 Hc0 Hhome Hconn Hs Hb)
    as (w' & Hrun & Ht & Hst & Hbuf).
  assert (handle_cell_register identity has_handler pkt conn w = (Ok (), w')) as Hall.
  { unfold handle_cell_register. rewrite Hf, !decide_False by (intros Hx; by apply Hx). cbv zeta.
    exact Hrun. }
  unfold wp. rewrite Hall. cbn [fst snd]. destruct Hst as (Hst & Hpr). split_and!.
  - done.
  - by rewrite Hst.
  - unfold homed_here, presence_of in *. by rewrite Hpr.
  - exact Ht.
  - apply Forall_forall. intros m [_ ?]%Hbuf. done.
Qed.

(** C40: any peer can make a node forget another one.  A NODE_LEAVING packet is
    believed about the sender address that it states, which nothing ties to the
    connection: if it verifies under the key of the connection it came over, the
    victim's row is deleted and its connection unregistered. *)
Theorem leaving_believed_from_anyone conn raw p victim w :
  unpack raw = Ok p → verify_packet p (peer_signing_pubkey conn) = Ok true →
  type p = VStr T.NODE_LEAVING → from_addr p = VStr victim →
  wp (recv_frame (dispatch identity has_handler) conn raw) (λ r w', r = Ok () ∧
    entry_of victim (w_st w') = None ∧ ns_conns (w_st w') !! victim = None ∧
    w_trace w' = w_trace w) w.
Proof.
  intros Hu Hv Ht Hf. unfold wp. rewrite (recv_verified _ _ _ _ _ Hu Hv).
  rewrite dispatch_leaving by done. unfold handle_node_leaving. rewrite Hf.
  rewrite (run_bind _ _ _ _ _ (run_remove victim w)). split; [done|].
  split_and!; [apply select_deleted|apply lookup_delete_eq|done].
Qed.

(** Any peer can make a dead node look alive.  A PONG refreshes the node its
    sender address states: an offline node that has missed its pings is online
    again, seen now. *)
Theorem pong_believed_from_anyone conn raw p victim e w :
  unpack raw = Ok p → verify_packet p (peer_signing_pubkey conn) = Ok true →
  type p = VStr T.PONG → from_addr p = VStr victim → entry_of victim (w_st w) = Some e →
  wp (recv_frame (dispatch identity has_handler) conn raw) (λ r w', r = Ok () ∧
    entry_of victim (w_st w') = Some (mkNode (node_id e) (address e) (ntype e) (access e) (cert e)
      (parent_node e) (o_time (outcome (w_tick w))) 0 "online" (added_at e))) w.
Proof.
  intros Hu Hv Ht Hf He. unfold wp. rewrite (recv_verified _ _ _ _ _ Hu Hv).
  rewrite dispatch_pong by done. unfold handle_pong. rewrite Hf.
  split; [done|]. unfold entry_of in *. simpl. by rewrite update_select_node, He.
Qed.

(** A removal does not last.  A node that is removed by a NODE_REMOVE
    packet is back, online and seen now, as soon as the table of any peer that
    still lists it arrives, even if that peer lists it as offline. *)
Theorem gossip_undoes_removal conn conn' p g k es e w :
  type p = VStr T.NODE_REMOVE → payload_field p "node_id" = Ok (VStr k) →
  type g = VStr T.GOSSIP → gossip_nodes g = Ok (VList (to_dict <$> es)) → Forall plain es →
  select_pk node_key (VStr k) es = Some e →
  let w1 := (dispatch identity has_handler p conn w).2 in
  let w2 := (dispatch identity has_handler g conn' w1).2 in
  entry_of k (w_st w1) = None ∧
  ∃ i n, entry_of k (w_st w2) =
    Some (mkNode (VStr k) (address e) (ntype e) (access e) [] "" (o_time (outcome i)) 0 "online" n).
Proof.
  intros Hp Hk Hg Hn Hes He w1 w2.
  assert (entry_of k (w_st w1) = None) as Hnone.
  { unfold w1. rewrite dispatch_remove by done. unfold handle_node_remove.
    rewrite Hk, (run_bind _ _ _ _ _ (run_remove k w)). apply select_deleted. }
  split; [done|].
  destruct (merge_all_plain es w1 Hes) as (w' & Hrun & _ & Hm).
  specialize (Hm k). unfold merged in Hm. rewrite Hnone, He in Hm.
  unfold w2. rewrite dispatch_gossip by done. unfold handle_gossip. rewrite Hn.
  cbn [py_iter]. by rewrite (run_lift _ _ _ _ eq_refl), Hrun.
Qed.

(** A presence query is answered truthfully: one frame goes back on the
    connection, carrying a packet for the asker that verifies under our key and
    says where the cell is at home and which node it visits, or nothing if the
    cell is unknown; and nothing else changes. *)
Theorem presence_query_answered `{!MsgPackLaws} `{!Ed25519Laws} `{!EnvLaws} pkt conn c f w :
  skp_ok (n_signing identity) → payload_field pkt "cell_id" = Ok (VStr c) →
  let d := presence_dict (VStr c) (presence_of c (w_st w)) in
  packable d = true → (Z.of_nat (psize d) < 2^32)%Z →
  from_addr pkt = VStr f → atom_ok (VStr f) = true → o_send (outcome (2 + w_tick w)) = Ok () →
  wp (handle_presence_query identity pkt conn) (λ r w', r = Ok () ∧ w_st w' = w_st w ∧
    ∃ frame q, w_trace w' = w_trace w ++ [IoSend (ws conn) frame] ∧ unpack frame = Ok q ∧
      type q = VStr T.PRESENCE_RESPONSE ∧ to_addr q = VStr f ∧
      verify_packet q (sk_public (n_signing identity)) = Ok true ∧
      decode_payload (payload q) = Ok d) w.
Proof.
  intros Hk Hc d Hd Hsz Hf Hfs Hs. unfold wp, handle_presence_query. rewrite Hc, Hf.
  rewrite (run_bind _ _ _ _ _ (run_get_presence c w)). fold d.
  destruct (unpackb_packb d Hd) as (b & Hb & Hub). unfold encode_payload.
  rewrite (run_lift _ _ _ _ Hb).
  destruct (signed_frame (n_signing identity) T.PRESENCE_RESPONSE b (o_uuid (outcome (w_tick w)))
    (nid identity) f (o_time (outcome (S (w_tick w))))) as (q & frame & Hq & Hp & Hu & Hv & Ht & Hpl & _ & Hto);
    try done.
  - apply Z.ltb_lt. apply packb_size in Hb. lia.
  - unfold atom_ok. by rewrite uuid4_text.
  - by apply nid_ok.
  - apply time_range.
  - unfold new_packet, uuid4, time, send_via, peer_send, transport_sign. run_simpl.
    rewrite Hq. run_simpl. rewrite Hp, run_ws_send by done. run_simpl. split; [done|]. split; [done|].
    exists frame, q. split_and!; try done. unfold decode_payload. by rewrite Hpl.
Qed.
End node_properties.

(** ** Witnesses *)

Module NodeWitnesses.
Import Samples.
#[local] Existing Instance calm_env_laws.

Definition me : NodeIdentity :=
  mkNodeIdentity (sample_signing "001") (sample_encryption "002") "a:1" "permanent" "open".
Definition peer_key : SigningKeypair := sample_signing "003".
Definition peer_id : string := bytes_hex (sk_public peer_key).
Definition link : PeerConnection := mkConn 4 peer_id (sk_public peer_key) (VBin []) (nid me).
Definition row (i addr st : string) (missed : Z) : NodeEntry :=
  mkNode i addr "permanent" "open" [] "" 5 missed st 5.
Definition state (d : DB) (conns : gmap string PeerConnection) : World NodeState :=
  mkWorld 0 [] (mkNodeState d conns [link] [] created).

(** A packet of the given type, signed by the peer. *)
Definition from_peer (t from : string) (doc : pyval) : Packet :=
  let p := mkPacket t (VBin (or_else [] (packb doc))) "id" from "" (VBin []) (VInt 3) (VInt 1) in
  or_else p (sign_packet p peer_key).
Definition frame_of (p : Packet) : bytes := or_else [] (pack p).

Lemma reachable_node_inv_witness :
  node_inv (w_st (on_event (env:=calm_env) me false Start (mkWorld 0 [] (new_node empty_db))).2).
Proof.
  apply (reachable_node_inv (env:=calm_env) me false). exists empty_db, 0.
  split; [apply empty_db_inv|]. apply rtc_once. constructor. reflexivity.
Defined.

Definition claim_other : Packet := from_peer T.CELL_REGISTER peer_id
  (VDict [(KStr "cell_id", VStr "victim"); (KStr "signing_pubkey", VBin (sk_public peer_key));
          (KStr "enc_pubkey", VBin [])]).

Lemma cell_register_authenticated_witness :
  handle_cell_register (env:=calm_env) me false claim_other link (state empty_db ∅) =
  (Ok (), state empty_db ∅).
Proof.
  apply (cell_register_authenticated (env:=calm_env) me false).
  intros (ep & h & Hf). vm_compute in Hf. discriminate.
Defined.

Definition waiting : Packet :=
  mkPacket "msg" (VBin ["009"%byte]) "m1" "x@n9" (VStr (peer_id +:+ "@" +:+ nid me)) (VBin [])
    (VInt 3) (VInt 1).
Definition signed_waiting : Packet := or_else waiting (transport_sign me waiting).
Definition stored : BufferedMessage :=
  mkMessage "m1" peer_id (nid me) (or_else [] (serialize_packet waiting)) 1000000
    (1000000 + TTL_MESSAGE_SECS).
Definition claim_self : Packet := from_peer T.CELL_REGISTER peer_id
  (VDict [(KStr "cell_id", VStr peer_id); (KStr "signing_pubkey", VBin (sk_public peer_key));
          (KStr "enc_pubkey", VBin ["007"%byte])]).

Lemma cell_register_delivers_buffer_witness :
  let w := state (mkDB [] [] [] [stored]) {[peer_id := link]} in
  wp (handle_cell_register (env:=calm_env) me false claim_self link) (λ r w', r = Ok () ∧
    (∃ x, select_pk cell_key peer_id (cells (ns_db (w_st w'))) = Some x ∧
       signing_pubkey x = sk_public peer_key ∧ enc_pubkey x = ["007"%byte]) ∧
    homed_here me peer_id (w_st w') ∧
    w_trace w' = w_trace w ++ [IoSend 4 (frame_of signed_waiting)] ∧
    Forall (λ m, ¬ deliverable peer_id 1000000 m) (message_buffer (ns_db (w_st w')))) w.
Proof.
  intros w. refine (cell_register_delivers_buffer (env:=calm_env) me false claim_self link
    ["007"%byte] true (λ _, frame_of signed_waiting) w _ _ _ _ _ _).
  - vm_compute. reflexivity.
  - discriminate.
  - split; try (vm_compute; repeat constructor). apply not_elem_of_nil.
  - vm_compute. reflexivity.
  - reflexivity.
  - simpl. rewrite filter_cons, decide_True.
    + constructor; [|constructor]. split; [exists "m1"; reflexivity|].
      exists waiting, (nid me), signed_waiting. split_and!; vm_compute; reflexivity.
    + split; [reflexivity|]. vm_compute. reflexivity.
Defined.

Definition bye : Packet := from_peer T.NODE_LEAVING "victim" VNone.
Definition with_victim : World NodeState :=
  state (mkDB [row "victim" "v:1" "online" 0] [] [] []) {["victim" := link]}.

Lemma leaving_believed_from_anyone_witness :
  wp (recv_frame (dispatch (env:=calm_env) me false) link (frame_of bye)) (λ r w', r = Ok () ∧
    entry_of "victim" (w_st w') = None ∧ ns_conns (w_st w') !! "victim" = None ∧
    w_trace w' = w_trace with_victim) with_victim.
Proof.
  apply (leaving_believed_from_anyone (env:=calm_env) me false link (frame_of bye) bye "victim");
    vm_compute; reflexivity.
Defined.

Definition fake_pong : Packet := from_peer T.PONG "victim" VNone.
Definition with_dead_victim : World NodeState :=
  state (mkDB [row "victim" "v:1" "offline" 7] [] [] []) ∅.

Lemma pong_believed_from_anyone_witness :
  wp (recv_frame (dispatch (env:=calm_env) me false) link (frame_of fake_pong)) (λ r w', r = Ok () ∧
    entry_of "victim" (w_st w') =
      Some (mkNode "victim" "v:1" "permanent" "open" [] "" 1000000 0 "online" 5)) with_dead_victim.
Proof.
  apply (pong_believed_from_anyone (env:=calm_env) me false link (frame_of fake_pong) fake_pong
    "victim" (row "victim" "v:1" "offline" 7)); vm_compute; reflexivity.
Defined.

Definition remove_victim : Packet :=
  from_peer T.NODE_REMOVE peer_id (VDict [(KStr "node_id", VStr "victim")]).
Definition stale_table : list NodeEntry := [row "victim" "v:1" "offline" 9].
Definition stale_gossip : Packet := from_peer T.GOSSIP peer_id
  (VDict [(KStr "nodes", VList (to_dict <$> stale_table))]).

Lemma gossip_undoes_removal_witness :
  let w1 := (dispatch (env:=calm_env) me false remove_victim link with_victim).2 in
  let w2 := (dispatch (env:=calm_env) me false stale_gossip link w1).2 in
  entry_of "victim" (w_st w1) = None ∧
  ∃ i n, entry_of "victim" (w_st w2) =
    Some (mkNode "victim" "v:1" "permanent" "open" [] "" (o_time (@outcome _ _ calm_env i)) 0 "online" n).
Proof.
  refine (gossip_undoes_removal (env:=calm_env) me false link link remove_victim stale_gossip "victim"
    stale_table (row "victim" "v:1" "offline" 9) with_victim _ _ _ _ _ _);
    try (vm_compute; reflexivity).
  repeat constructor; repeat (eexists; try split); try reflexivity; discriminate.
Defined.

Definition query : Packet := from_peer T.PRESENCE_QUERY peer_id (VDict [(KStr "cell_id", VStr "c1")]).
Definition with_presence : World NodeState :=
  state (mkDB [] [] [mkPresence "c1" "n2" (Some "n3") 5] []) ∅.

Lemma presence_query_answered_witness :
  wp (handle_presence_query (env:=calm_env) me query link) (λ r w', r = Ok () ∧
    w_st w' = w_st with_presence ∧
    ∃ frame q, w_trace w' = w_trace with_presence ++ [IoSend 4 frame] ∧ unpack frame = Ok q ∧
      type q = VStr T.PRESENCE_RESPONSE ∧ to_addr q = VStr peer_id ∧
      verify_packet q (sk_public (n_signing me)) = Ok true ∧
      decode_payload (payload q) = Ok (VDict [(KStr "cell_id", VStr "c1");
        (KStr "home_node_id", VStr "n2"); (KStr "visiting_node_id", VStr "n3")])) with_presence.
Proof.
  refine (presence_query_answered (env:=calm_env) me query link "c1" peer_id with_presence
    _ _ _ _ _ _ _); vm_compute; reflexivity.
Defined.
End NodeWitnesses.
