(* ===== verification/Network.v ===== *)
(** * Two nodes

    What an exchange of gossip achieves between two nodes that are connected: one
    node writes its table ([GossipEngine._exchange]), the frame crosses the wire,
    and the other one verifies and merges it ([Transport._recv_loop],
    [GossipEngine.handle_gossip]).  Each node has its own environment. *)
From S2P Require Import Prelude PyVal Interfaces Effects Crypto Protocol Auth Identity Table Storage Transport Router Gossip Node.
From S2P Require Samples.

(** ** The document of a table *)

(** A row that an honest node sends, with its size in a packet. *)
Definition portable (size : Z) (e : NodeEntry) : Prop :=
  plain e ∧ scalars_ok (to_dict e) = true ∧ (Z.of_nat (psize (to_dict e)) ≤ size)%Z.
(** A table that fits a packet. *)
Definition transferable (size : Z) (es : list NodeEntry) : Prop :=
  Forall (portable size) es ∧ (Z.of_nat (length es) * size + 100 < 2^32)%Z.
Definition gossip_doc (es : list NodeEntry) : pyval :=
  VDict [(KStr "nodes", VList (to_dict <$> es))].

Lemma portable_plain size es : Forall (portable size) es → Forall plain es.
Proof. intros Hes. eapply Forall_impl; [exact Hes|]. by intros e (He & _). Qed.

Lemma rows_size size es : Forall (portable size) es →
  (Z.of_nat (foldr (λ v n, psize v + n)%nat 0%nat (to_dict <$> es)) ≤ Z.of_nat (length es) * size)%Z.
Proof.
  induction 1 as [|e es (_ & _ & He) _ IH]; [done|].
  rewrite fmap_cons. cbn [foldr length]. lia.
Qed.
Lemma row_depth e : plain e → depth (to_dict e) = 1.
Proof.
  intros ((i & Hi & _) & (a & Ha & _) & (t & Ht) & (c & Hc)). unfold to_dict.
  rewrite Hi, Ha, Ht, Hc. cbn [depth foldr snd]. by destruct (truthy _).
Qed.
Lemma rows_depth es : Forall plain es →
  foldr (λ v n, max (depth v) n) 0 (to_dict <$> es) ≤ 1.
Proof.
  induction 1 as [|e es He _ IH]; [simpl; lia|].
  rewrite fmap_cons. cbn [foldr]. rewrite row_depth by done. lia.
Qed.

Lemma table_packs `{!MsgPack, !MsgPackLaws} size es : transferable size es →
  ∃ b, packb (gossip_doc es) = Ok b ∧ unpackb b = Ok (gossip_doc es) ∧ small b = true.
Proof.
  intros [Hes Hlen]. pose proof (rows_size _ _ Hes) as Hsize.
  pose proof (rows_depth _ (portable_plain _ _ Hes)) as Hdepth.
  assert (Z.of_nat (length es) < 2^32)%Z as Hrows.
  { assert (es = [] ∨ (1 ≤ size)%Z) as [->|Hpos]; [|done|nia].
    destruct Hes as [|e es (_ & _ & He) _]; [by left|right].
    unfold to_dict in He. cbn [psize] in He. lia. }
  destruct (unpackb_packb (gossip_doc es)) as (b & Hb & Hub).
  - unfold packable. rewrite andb_true_iff. split.
    + unfold gossip_doc. cbn [scalars_ok forallb fst snd fmap list_fmap].
      rewrite bool_decide_true by (by apply (bool_decide_unpack _)).
      rewrite !andb_true_iff. split_and!; try done.
      * apply Z.ltb_lt. by rewrite length_fmap.
      * rewrite forallb_forall. intros v Hv. apply list_elem_of_In, list_elem_of_fmap in Hv as (e & -> & He).
        rewrite Forall_forall in Hes. by apply Hes.
    + apply Nat.leb_le. unfold gossip_doc. cbn [depth foldr snd]. lia.
  - exists b. split; [done|]. split; [done|]. apply packb_size in Hb.
    unfold gossip_doc in Hb. cbn [psize foldr fst snd key_size] in Hb.
    apply Z.ltb_lt. change (length (str_encode "nodes")) with 5 in Hb. lia.
Qed.

(** What a merge adds is portable again. *)
Lemma to_dict_scalars e : scalars_ok (to_dict e) = forallb scalars_ok
  [node_id e; address e; ntype e; access e;
   if truthy (VBin (cert e)) then VStr (bytes_hex (cert e)) else "";
   VStr (parent_node e); VInt (last_seen e); VStr (status e)].
Proof.
  unfold to_dict. cbn [scalars_ok forallb fst snd].
  rewrite bool_decide_true by (by apply (bool_decide_unpack _)).
  repeat match goal with |- context [key_ok ?k] => change (key_ok k) with true end.
  match goal with |- context [small (?x :: ?l)] => change (small (x :: l)) with true end.
  done.
Qed.
Lemma to_dict_size e : psize (to_dict e) = 99 + foldr (λ v n, psize v + n) 0
  [node_id e; address e; ntype e; access e;
   if truthy (VBin (cert e)) then VStr (bytes_hex (cert e)) else "";
   VStr (parent_node e); VInt (last_seen e); VStr (status e)].
Proof.
  unfold to_dict. generalize (node_id e) (address e) (ntype e) (access e)
    (if truthy (VBin (cert e)) then VStr (bytes_hex (cert e)) else VStr "")
    (VStr (parent_node e)) (VInt (last_seen e)) (VStr (status e)).
  intros v1 v2 v3 v4 v5 v6 v7 v8. cbn [psize foldr fst snd].
  repeat match goal with |- context [key_size ?k] =>
    let n := eval vm_compute in (key_size k) in change (key_size k) with n end.
  lia.
Qed.
Lemma new_row_portable size e now n : portable size e → (0 ≤ now < 2^63)%Z →
  portable (size + 6) (new_entry (node_id e) (address e) (ntype e) (access e) now n).
Proof.
  unfold portable. rewrite !to_dict_scalars, !to_dict_size.
  cbn [forallb foldr node_id address ntype access cert parent_node last_seen status new_entry].
  rewrite !andb_true_iff. intros (Hp & (H1 & H2 & H3 & H4 & _) & Hz) Hnow.
  split; [exact Hp|]. split.
  - do 4 (split; [done|]). do 2 (split; [reflexivity|]). split; [|by split].
    cbn [scalars_ok]. rewrite andb_true_iff, Z.leb_le, Z.ltb_lt. lia.
  - change (psize (VStr "online")) with 11. change (truthy (VBin [])) with false.
    destruct (truthy (VBin (cert e))); cbn [psize] in *;
      change (length (str_encode "")) with 0 in *; lia.
Qed.

(** ** Merging, row by row *)

Section merging.
Context `{!MsgPack} `{!PyRepr} `{!Ed25519} `{!E2E} {env : Env}.
Implicit Types (w : World NodeState).

(** The rows that a merge of [es] adds. *)
Definition copied (es : list NodeEntry) (x : NodeEntry) : Prop :=
  ∃ e j n, e ∈ es ∧ x = new_entry (node_id e) (address e) (ntype e) (access e) (o_time (outcome j)) n.

Lemma merge_all_rows es w : Forall plain es → ∃ w' new,
  for_each (to_dict <$> es) merge_entry w = (Ok (), w') ∧
  w_st w' = set_db (set_nodes (λ t, t ++ new) (ns_db (w_st w))) (w_st w) ∧
  Forall (copied es) new ∧ length new ≤ length es.
Proof.
  intros Hes. revert w. induction Hes as [|e es He _ IH]; intros w.
  { exists w, []. split; [done|]. split; [|by split]. unfold set_nodes, set_db.
    rewrite app_nil_r. by destruct (w_st w) as [[]]. }
  pose proof He as ((i & Hi & _) & _).
  destruct (merge_plain e i w He Hi) as (w1 & Hrun & _ & Hs1).
  destruct (IH w1) as (w' & new & Hrun' & Hs & Hnew & Hlen).
  rewrite fmap_cons. cbn [for_each length].
  assert (∀ x, copied es x → copied (e :: es) x) as Hmono.
  { intros x (e' & j & n & Hin & ->). exists e', j, n. split; [by right|done]. }
  destruct (entry_of i (w_st w)).
  - exists w', new. rewrite (run_bind _ _ _ _ _ Hrun), Hs, Hs1. split; [done|]. split; [done|].
    split; [by eapply Forall_impl|lia].
  - destruct Hs1 as (j & n & Hs1). eexists w', (_ :: new).
    rewrite (run_bind _ _ _ _ _ Hrun), Hs, Hs1. split; [done|]. split.
    + unfold set_db, set_nodes. simpl. by rewrite <-(assoc (++)).
    + split; [|simpl; lia]. constructor; [|by eapply Forall_impl].
      exists e, j, n. split; [by left|]. by rewrite Hi.
Qed.
End merging.

(** ** One push *)

Section push.
Context `{!MsgPack} `{!PyRepr} `{!Ed25519} `{!E2E} {env : Env}.
Context `{!MsgPackLaws} `{!Ed25519Laws}.
Implicit Types (w : World NodeState).

(** [q] is a GOSSIP packet with the rows [es], signed by [kp], and [frame] is its
    form on the wire. *)
Definition carries_table (kp : SigningKeypair) (es : list NodeEntry) (q : Packet) (frame : bytes) : Prop :=
  unpack frame = Ok q ∧ verify_packet q (sk_public kp) = Ok true ∧ type q = VStr T.GOSSIP ∧
  gossip_nodes q = Ok (VList (to_dict <$> es)).

Lemma exchange_run `{!EnvLaws} A e conn i size w :
  skp_ok (n_signing A) → node_id e = VStr i → ns_conns (w_st w) !! i = Some conn →
  transferable size (node_table (ns_db (w_st w))) → o_send (outcome (2 + w_tick w)) = Ok () →
  ∃ q frame, carries_table (n_signing A) (node_table (ns_db (w_st w))) q frame ∧
    exchange A e w =
      (Ok (), mkWorld (3 + w_tick w) (w_trace w ++ [IoSend (ws conn) frame]) (w_st w)).
Proof.
  intros Hk Hi Hc Ht Hs. destruct (table_packs _ _ Ht) as (b & Hb & Hub & Hsmall).
  destruct (signed_frame (n_signing A) T.GOSSIP b (o_uuid (outcome (w_tick w))) (nid A) ""
    (o_time (outcome (S (w_tick w))))) as (q & frame & Hq & Hp & Hu & Hv & Hty & Hpl & _); try done.
  - unfold atom_ok. by rewrite uuid4_text.
  - by apply nid_ok.
  - apply time_range.
  - exists q, frame. split.
    + split_and!; try done. unfold gossip_nodes, decode_payload. rewrite Hpl.
      cbn [as_bytes mbind result_bind]. by rewrite Hub.
    + unfold exchange, registry_get, get_all_nodes, query, make_gossip, encode_payload, new_packet,
        uuid4, time. rewrite Hi. run_simpl. rewrite Hc. run_simpl.
      change (VDict _) with (gossip_doc (node_table (get_db (w_st w)))).
      change (get_db (w_st w)) with (ns_db (w_st w)). rewrite Hb. run_simpl.
      unfold send_via, transport_sign, peer_send. run_simpl. rewrite Hq. run_simpl.
      by rewrite Hp, run_ws_send by done.
Qed.

Lemma receive_table B handler conn frame kp es q w :
  carries_table kp es q frame → peer_signing_pubkey conn = sk_public kp → Forall plain es →
  ∃ w' new, recv_frame (dispatch B handler) conn frame w = (Ok (), w') ∧ w_trace w' = w_trace w ∧
    w_st w' = set_db (set_nodes (λ t, t ++ new) (ns_db (w_st w))) (w_st w) ∧
    Forall (copied es) new ∧ length new ≤ length es ∧
    ∀ k, merged k (entry_of k (w_st w)) (select_pk node_key (VStr k) es) (w_st w').
Proof.
  intros (Hu & Hv & Hty & Hn) Hk Hes. rewrite (recv_verified _ _ _ q) by (by rewrite ?Hk).
  rewrite dispatch_gossip by done. unfold handle_gossip. rewrite Hn. cbn [py_iter].
  rewrite (run_lift _ _ _ _ eq_refl).
  destruct (merge_all_plain es w Hes) as (w' & Hrun & Ht & Hm).
  destruct (merge_all_rows es w Hes) as (w2 & new & Hrun2 & Hs & Hnew & Hlen).
  rewrite Hrun in Hrun2. injection Hrun2 as <-. rewrite Hrun. by exists w', new.
Qed.
End push.

(** Whether a node lists an identifier. *)
Definition listed (k : string) (s : NodeState) : Prop := is_Some (entry_of k s).
Lemma merged_listed `{!Ed25519} `{!E2E} {env : Env} k old r s : merged k old r s → listed k s ↔ is_Some old ∨ is_Some r.
Proof.
  unfold merged, listed. destruct old as [e|], r as [e'|].
  - intros ->. naive_solver.
  - intros ->. naive_solver.
  - intros (i & n & ->). naive_solver.
  - intros ->. unfold is_Some. naive_solver.
Qed.

Lemma copied_portable `{!Ed25519} `{!E2E} {env : Env} `{!EnvLaws} size es new :
  Forall (portable size) es → Forall (copied es) new → Forall (portable (size + 6)) new.
Proof.
  intros Hes Hnew. eapply Forall_impl; [exact Hnew|]. intros x (e & j & n & He & ->).
  apply new_row_portable; [|apply time_range]. rewrite Forall_forall in Hes. auto.
Qed.
Lemma portable_more size size' es : (size ≤ size')%Z →
  Forall (portable size) es → Forall (portable size') es.
Proof.
  intros Hle Hes. eapply Forall_impl; [exact Hes|]. intros e (Hp & Hs & Hz). split_and!; [done..|lia].
Qed.

(** ** Properties *)

(** Two nodes that exchange gossip agree on who is in the network.  [A] sends
    its table to [B], and then [B] its own to [A], over the connection between
    them.  Each writes one frame, which the other accepts; in the end both list
    exactly the identifiers that either of them listed, and each has kept the rows
    it had.  The two nodes have their own clocks, randomness and states. *)
Theorem gossip_converges `{!MsgPack} `{!PyRepr} `{!Ed25519} `{!E2E} `{!MsgPackLaws} `{!Ed25519Laws}
    (EA EB : Env) `{!@EnvLaws _ _ EA} `{!@EnvLaws _ _ EB} (A B : NodeIdentity) hA hB connA connB
    eA eB size (wA wB : World NodeState) :
  skp_ok (n_signing A) → skp_ok (n_signing B) →
  node_id eA = VStr (nid A) → node_id eB = VStr (nid B) →
  ns_conns (w_st wA) !! nid B = Some connA → peer_signing_pubkey connA = sk_public (n_signing B) →
  ns_conns (w_st wB) !! nid A = Some connB → peer_signing_pubkey connB = sk_public (n_signing A) →
  (∀ j, o_send (@outcome _ _ EA j) = Ok ()) → (∀ j, o_send (@outcome _ _ EB j) = Ok ()) →
  let tA := node_table (ns_db (w_st wA)) in
  let tB := node_table (ns_db (w_st wB)) in
  Forall (portable size) tA → Forall (portable size) tB → (0 ≤ size)%Z →
  (Z.of_nat (length tA + length tB) * (size + 6) + 100 < 2^32)%Z →
  wp (exchange (env:=EA) A eB) (λ r1 wA1, r1 = Ok () ∧ ∃ f1,
    w_trace wA1 = w_trace wA ++ [IoSend (ws connA) f1] ∧
    wp (recv_frame (dispatch (env:=EB) B hB) connB f1) (λ r2 wB1, r2 = Ok () ∧
      wp (exchange (env:=EB) B eA) (λ r3 wB2, r3 = Ok () ∧ ∃ f2,
        w_trace wB2 = w_trace wB ++ [IoSend (ws connB) f2] ∧
        wp (recv_frame (dispatch (env:=EA) A hA) connA f2) (λ r4 wA2, r4 = Ok () ∧
          w_trace wA2 = w_trace wA1 ∧ ∀ k,
            (listed k (w_st wA2) ↔ listed k (w_st wA) ∨ listed k (w_st wB)) ∧
            (listed k (w_st wB2) ↔ listed k (w_st wA) ∨ listed k (w_st wB)) ∧
            (∀ x, entry_of k (w_st wA) = Some x → entry_of k (w_st wA2) = Some x) ∧
            (∀ x, entry_of k (w_st wB) = Some x → entry_of k (w_st wB2) = Some x))
          wA1) wB1) wB) wA.
Proof.
  intros HkA HkB HeA HeB HcA HpA HcB HpB HsA HsB tA tB HtA HtB Hpos Hsize.
  rewrite Nat2Z.inj_add in Hsize.
  destruct (exchange_run (env:=EA) A eB connA (nid B) size wA) as (q1 & f1 & Hf1 & Hrun1); try done.
  { split; [done|]. fold tA. nia. }
  destruct (receive_table (env:=EB) B hB connB f1 (n_signing A) tA q1 wB Hf1 HpB)
    as (wB1 & newB & Hrun2 & Ht2 & Hst2 & Hnew2 & Hlen2 & Hm2); [by eapply portable_plain|].
  assert (node_table (ns_db (w_st wB1)) = tB ++ newB) as HtB1 by by rewrite Hst2.
  assert (Forall (portable (size + 6)) (tB ++ newB)) as HpB1.
  { apply Forall_app. split; [eapply portable_more; [|done]; lia|]. by apply (copied_portable (env:=EB) size tA). }
  destruct (exchange_run (env:=EB) B eA connB (nid A) (size + 6) wB1) as (q2 & f2 & Hf2 & Hrun3);
    try done.
  { by rewrite Hst2. }
  { rewrite HtB1. split; [done|]. rewrite length_app, Nat2Z.inj_add. nia. }
  rewrite HtB1 in Hf2.
  set (wA1 := mkWorld (3 + w_tick wA) (w_trace wA ++ [IoSend (ws connA) f1]) (w_st wA)) in *.
  destruct (receive_table (env:=EA) A hA connA f2 (n_signing B) (tB ++ newB) q2 wA1 Hf2 HpA)
    as (wA2 & newA & Hrun4 & Ht4 & _ & _ & _ & Hm4); [by eapply portable_plain|].
  unfold wp. rewrite Hrun1. split; [done|]. exists f1. split; [done|].
  cbn [fst snd]. fold wA1. rewrite Hrun2. split; [done|]. cbn [fst snd]. rewrite Hrun3.
  split; [done|]. exists f2. split; [by rewrite <-Ht2|].
  rewrite Hrun4. split; [done|]. split; [done|]. intros k. specialize (Hm2 k). specialize (Hm4 k).
  cbn [fst snd w_st wA1] in *.
  pose proof (merged_listed _ _ _ _ Hm2) as HlB. pose proof (merged_listed _ _ _ _ Hm4) as HlA.
  rewrite <-HtB1 in HlA. change (select_pk _ _ (node_table _)) with (entry_of k (w_st wB1)) in HlA.
  change (select_pk _ _ tA) with (entry_of k (w_st wA)) in HlB.
  fold (listed k (w_st wA)) (listed k (w_st wB)) in HlB.
  fold (listed k (w_st wA)) (listed k (w_st wB1)) in HlA.
  split_and!; [tauto|tauto|..]; intros x Hx; unfold merged in *.
  - by rewrite Hx in Hm4.
  - by rewrite Hx in Hm2.
Qed.

(** ** Witnesses *)

Module NetworkWitnesses.
Import Samples.
#[local] Existing Instance calm_env_laws.

Definition a : NodeIdentity :=
  mkNodeIdentity (sample_signing "001") (sample_encryption "002") "a:1" "permanent" "open".
Definition b : NodeIdentity :=
  mkNodeIdentity (sample_signing "003") (sample_encryption "004") "b:2" "permanent" "open".
Definition row (i addr st : string) : NodeEntry :=
  mkNode i addr "permanent" "open" [] "" 5 0 st 5.
Definition link (s : socket) (peer self : NodeIdentity) : PeerConnection :=
  mkConn s (nid peer) (sk_public (n_signing peer)) (VBin []) (nid self).
Definition state (t : list NodeEntry) (self peer : NodeIdentity) : World NodeState :=
  mkWorld 0 [] (mkNodeState (mkDB t [] [] []) {[nid peer := link 4 peer self]} [] [] created).

(** Both know a node that the other one does not, and [a] knows [b] as offline. *)
Definition at_a : World NodeState := state [row (nid a) "a:1" "online"; row (nid b) "b:2" "offline"] a b.
Definition at_b : World NodeState := state [row (nid b) "b:2" "online"; row "n3" "c:3" "online"] b a.

Lemma row_portable i addr st : i ≠ "" → addr ≠ "" →
  scalars_ok (to_dict (row i addr st)) = true →
  (Z.of_nat (psize (to_dict (row i addr st))) <=? 1000)%Z = true → portable 1000 (row i addr st).
Proof.
  intros Hi Ha Hs Hz. split; [|split; [done|by apply Z.leb_le]].
  split_and!; [by exists i|by exists addr|by eexists|by eexists].
Qed.

Lemma gossip_converges_witness :
  wp (exchange (env:=calm_env) a (row (nid b) "b:2" "offline")) (λ r1 wA1, r1 = Ok () ∧ ∃ f1,
    w_trace wA1 = [IoSend 4 f1] ∧
    wp (recv_frame (dispatch (env:=calm_env) b false) (link 4 a b) f1) (λ r2 wB1, r2 = Ok () ∧
      wp (exchange (env:=calm_env) b (row (nid a) "a:1" "online")) (λ r3 wB2, r3 = Ok () ∧ ∃ f2,
        w_trace wB2 = [IoSend 4 f2] ∧
        wp (recv_frame (dispatch (env:=calm_env) a false) (link 4 b a) f2) (λ r4 wA2, r4 = Ok () ∧
          w_trace wA2 = w_trace wA1 ∧ ∀ k,
            (listed k (w_st wA2) ↔ listed k (w_st at_a) ∨ listed k (w_st at_b)) ∧
            (listed k (w_st wB2) ↔ listed k (w_st at_a) ∨ listed k (w_st at_b)) ∧
            (∀ x, entry_of k (w_st at_a) = Some x → entry_of k (w_st wA2) = Some x) ∧
            (∀ x, entry_of k (w_st at_b) = Some x → entry_of k (w_st wB2) = Some x))
          wA1) wB1) at_b) at_a.
Proof.
  refine (gossip_converges calm_env calm_env a b false false (link 4 b a) (link 4 a b)
    (row (nid a) "a:1" "online") (row (nid b) "b:2" "offline") 1000 at_a at_b
    _ _ _ _ _ _ _ _ _ _ _ _ _ _); try reflexivity; try discriminate.
  - repeat constructor; apply row_portable; first [discriminate|vm_compute; reflexivity].
  - repeat constructor; apply row_portable; first [discriminate|vm_compute; reflexivity].
Defined.
End NetworkWitnesses.
