(* ===== verification/Spread.v ===== *)
(** * A network of nodes

    Gossip among any number of nodes ([GossipEngine._exchange],
    [GossipEngine.handle_gossip]).  The nodes stand in a line, each connected to the
    next; every node has its own environment, identity and state.  A push takes the
    table of a node over the wire to its neighbour, and a sweep pushes from one end
    of the line to the other, as rounds of gossip do when they reach the nodes in
    that order. *)
From S2P Require Import Prelude PyVal Interfaces Effects Crypto Protocol Auth Identity Table Storage Transport Router Gossip Node Network.
From S2P Require Samples.

Section spread.
Context `{!MsgPack} `{!PyRepr} `{!Ed25519} `{!E2E}.

(** A node of the network: its environment, identity, whether the application has
    a callback, and its state. *)
Record peer := mkPeer {
  p_env : Env; p_self : NodeIdentity; p_handler : bool; p_world : World NodeState }.
Definition p_state (A : peer) : NodeState := w_st (p_world A).
Definition p_table (A : peer) : list NodeEntry := node_table (ns_db (p_state A)).

(** [B] takes in a frame that [A] has written to the connection between them. *)
Definition deliver (A B : peer) (w : World NodeState) (io : io) : World NodeState :=
  match io, ns_conns (w_st w) !! nid (p_self A) with
  | IoSend _ frame, Some conn =>
      (recv_frame (dispatch (env:=p_env B) (p_self B) (p_handler B)) conn frame w).2
  | _, _ => w
  end.
(** [A] sends its table to [B], if it lists it, and [B] receives what was sent. *)
Definition push (A B : peer) : peer * peer :=
  match entry_of (nid (p_self B)) (p_state A) with
  | None => (A, B)
  | Some e =>
      let w := (exchange (env:=p_env A) (p_self A) e (p_world A)).2 in
      let frames := drop (length (w_trace (p_world A))) (w_trace w) in
      (mkPeer (p_env A) (p_self A) (p_handler A) w,
       mkPeer (p_env B) (p_self B) (p_handler B) (fold_left (deliver A B) frames (p_world B)))
  end.

(** A sweep: each node pushes to the next. *)
Fixpoint sweep_from (A : peer) (l : list peer) : list peer :=
  match l with
  | [] => [A]
  | B :: l => let '(A', B') := push A B in A' :: sweep_from B' l
  end.
Definition sweep (l : list peer) : list peer :=
  match l with [] => [] | A :: l => sweep_from A l end.
(** There and back again. *)
Definition both_ways (l : list peer) : list peer := reverse (sweep (reverse (sweep l))).

(** [A] can gossip to [B]: it lists it, each has a connection to the other that
    was opened with the other's key, and what [A] writes gets through. *)
Record can_push (A B : peer) : Prop := {
  cp_laws : @EnvLaws _ _ (p_env A) ∧ @EnvLaws _ _ (p_env B);
  cp_keys : skp_ok (n_signing (p_self A));
  cp_listed : listed (nid (p_self B)) (p_state A);
  cp_conn : is_Some (ns_conns (p_state A) !! nid (p_self B));
  cp_back : ∃ conn, ns_conns (p_state B) !! nid (p_self A) = Some conn ∧
    peer_signing_pubkey conn = sk_public (n_signing (p_self A));
  cp_send : ∀ j, o_send (@outcome _ _ (p_env A) j) = Ok ();
}.
Definition linked (A B : peer) : Prop := can_push A B ∧ can_push B A.
Definition in_line (l : list peer) : Prop :=
  ∀ i A B, l !! i = Some A → l !! S i = Some B → linked A B.

(** What a push keeps of a node. *)
Definition same_peer (A A' : peer) : Prop :=
  p_env A' = p_env A ∧ p_self A' = p_self A ∧ p_handler A' = p_handler A ∧
  ns_conns (p_state A') = ns_conns (p_state A) ∧
  ∀ k, listed k (p_state A) → listed k (p_state A').

#[local] Instance same_peer_preorder : PreOrder same_peer.
Proof.
  split; [intros A; by repeat split|].
  intros A B C (E1 & E2 & E3 & E4 & E5) (K1 & K2 & K3 & K4 & K5).
  split_and!; [congruence..|auto].
Qed.
Lemma can_push_same A A' B B' : same_peer A A' → same_peer B B' → can_push A B → can_push A' B'.
Proof.
  intros (E1 & E2 & _ & E4 & E5) (K1 & K2 & _ & K4 & _) [Hl Hk Hls Hc Hb Hs].
  split; rewrite ?E1, ?E2, ?E4, ?K1, ?K2, ?K4; auto.
Qed.
Lemma linked_same A A' B B' : same_peer A A' → same_peer B B' → linked A B → linked A' B'.
Proof. intros HA HB [? ?]. split; eauto using can_push_same. Qed.
Lemma linked_sym A B : linked A B → linked B A.
Proof. intros [? ?]. by split. Qed.

Lemma in_line_cons A B l : in_line (A :: B :: l) ↔ linked A B ∧ in_line (B :: l).
Proof.
  split.
  - intros Hl. split; [by apply (Hl 0)|]. intros i. apply (Hl (S i)).
  - intros [Hab Hl] [|i] X Y; [by intros [= <-] [= <-]|]. apply Hl.
Qed.
Lemma in_line_same l l' : Forall2 same_peer l l' → in_line l → in_line l'.
Proof.
  intros Hs Hl i A' B' HA HB.
  destruct (Forall2_lookup_r _ _ _ _ _ Hs HA) as (A & HA0 & HsA).
  destruct (Forall2_lookup_r _ _ _ _ _ Hs HB) as (B & HB0 & HsB).
  eapply linked_same; eauto.
Qed.
Lemma in_line_reverse l : in_line l → in_line (reverse l).
Proof.
  intros Hl i A B HA HB.
  pose proof (lookup_lt_Some _ _ _ HB) as Hlt. rewrite length_reverse in Hlt.
  rewrite reverse_lookup in HA, HB by lia. apply linked_sym.
  apply (Hl (length l - S (S i))); [done|].
  by replace (S (length l - S (S i))) with (length l - S i) by lia.
Qed.

(** ** One push *)

Context `{!MsgPackLaws} `{!Ed25519Laws}.

Lemma run_push A B size : can_push A B → transferable size (p_table A) →
  ∃ A' B', push A B = (A', B') ∧ same_peer A A' ∧ same_peer B B' ∧ p_state A' = p_state A ∧
    (Forall (portable size) (p_table B) → Forall (portable (size + 6)) (p_table B')) ∧
    length (p_table B') ≤ length (p_table A) + length (p_table B) ∧
    ∀ k, listed k (p_state B') ↔ listed k (p_state A) ∨ listed k (p_state B).
Proof.
  intros [[HlA HlB] Hk [e He] [cA HcA] (cB & HcB & Hpk) Hsend] Ht.
  assert (node_id e = VStr (nid (p_self B))) as Hid.
  { apply select_pk_Some in He as [_ Hkey]. unfold node_key in Hkey.
    by destruct (node_id e); simpl in Hkey; simplify_eq. }
  destruct (exchange_run (env:=p_env A) (p_self A) e cA _ size (p_world A) Hk Hid HcA Ht (Hsend _))
    as (q & f & Hf & Hrun).
  destruct (receive_table (env:=p_env B) (p_self B) (p_handler B) cB f _ _ q (p_world B) Hf Hpk)
    as (wB & new & Hrecv & _ & Hst & Hnew & Hlen & Hm); [eapply portable_plain, Ht|].
  unfold push, p_state. unfold p_state in He. rewrite He, Hrun. cbn [snd w_trace].
  rewrite drop_app_length. cbn [fold_left]. unfold deliver. unfold p_state in HcB.
  rewrite HcB, Hrecv. cbn [snd]. do 2 eexists. split; [reflexivity|].
  assert (∀ k, listed k (w_st wB) ↔ listed k (p_state A) ∨ listed k (p_state B)) as Hl.
  { intros k. rewrite (merged_listed (env:=p_env B) _ _ _ _ (Hm k)). unfold listed. tauto. }
  unfold same_peer, p_table, p_state in *. cbn [p_env p_self p_handler p_world w_st].
  split_and!; try done.
  - rewrite Hst. by cbn [ns_conns set_db].
  - intros k Hlk. apply Hl. by right.
  - intros HB. rewrite Hst. cbn [ns_db set_db set_nodes node_table]. apply Forall_app.
    split; [eapply portable_more; [|done]; lia|]. eapply (copied_portable (env:=p_env B)); [|done].
    apply Ht.
  - rewrite Hst. cbn [ns_db set_db set_nodes node_table]. rewrite length_app. lia.
Qed.

(** ** One sweep *)

(** [R] is what a sweep makes of [l]: each node lists what it listed and what those
    before it listed; [P] is what the first one hears. *)
Fixpoint hears (P : string → Prop) (l R : list peer) : Prop :=
  match l, R with
  | [], [] => True
  | A :: l, A' :: R =>
      (∀ k, listed k (p_state A') ↔ P k ∨ listed k (p_state A)) ∧
      hears (λ k, P k ∨ listed k (p_state A)) l R
  | _, _ => False
  end.
Lemma hears_ext P Q l R : (∀ k, P k ↔ Q k) → hears P l R → hears Q l R.
Proof.
  revert P Q R. induction l as [|A l IH]; intros P Q [|A' R] HPQ; try done.
  intros [HA HR]. split; [intros k; rewrite HA; specialize (HPQ k); tauto|].
  eapply IH; [|exact HR]. intros k. specialize (HPQ k). simpl. tauto.
Qed.

Definition rows (l : list peer) : nat := sum_list_with (λ A, length (p_table A)) l.
Definition small_rows (size : Z) (A : peer) : Prop := Forall (portable size) (p_table A).
(** [n] rows that have passed [h] nodes fit a packet. *)
Definition room (n h : nat) (size : Z) : Prop :=
  (0 ≤ size ∧ Z.of_nat n * (size + 6 * Z.of_nat h) + 100 < 2^32)%Z.

Lemma small_rows_more size size' A : (size ≤ size')%Z → small_rows size A → small_rows size' A.
Proof. apply portable_more. Qed.
Lemma same_refl l : Forall2 same_peer l l.
Proof. induction l; constructor; [reflexivity|done]. Qed.

Lemma run_sweep A l size : in_line (A :: l) → Forall (small_rows size) (A :: l) →
  room (rows (A :: l)) (length l) size →
  Forall2 same_peer (A :: l) (sweep_from A l) ∧
  Forall (small_rows (size + 6 * Z.of_nat (length l))) (sweep_from A l) ∧
  Forall (λ B, length (p_table B) ≤ rows (A :: l)) (sweep_from A l) ∧
  hears (λ _, False) (A :: l) (sweep_from A l).
Proof.
  revert A size. induction l as [|B l IH]; intros A size Hl Hs [Hpos Hroom]; cbn [sweep_from].
  { inversion_clear Hs as [|? ? HA _]. cbn [length]. split_and!.
    - apply same_refl.
    - repeat constructor. eapply small_rows_more; [|exact HA]. lia.
    - repeat constructor. unfold rows. simpl. lia.
    - by split; [intros k; tauto|]. }
  apply in_line_cons in Hl as [[Hab _] Hl]. inversion_clear Hs as [|? ? HA HBl].
  inversion_clear HBl as [|? ? HB Hls]. unfold rows in *. cbn [sum_list_with length] in *.
  destruct (run_push A B size Hab) as (A' & B' & -> & HsA & HsB & HtA & HpB & HlB & Hk).
  { split; [exact HA|]. nia. }
  destruct (IH B' (size + 6)%Z) as (I1 & I2 & I3 & I4).
  - eapply in_line_same; [|exact Hl]. constructor; [done|apply same_refl].
  - constructor; [by apply HpB|]. eapply Forall_impl; [exact Hls|].
    intros C. apply small_rows_more. lia.
  - unfold room, rows. cbn [sum_list_with]. split; [lia|]. nia.
  - assert (p_table A' = p_table A) as HeA by (unfold p_table; by rewrite HtA).
    replace (size + 6 + 6 * Z.of_nat (length l))%Z with (size + 6 * Z.of_nat (S (length l)))%Z in I2 by lia.
    unfold rows in *. cbn [sum_list_with] in *. split_and!.
    + constructor; [done|]. inversion_clear I1 as [|? X ? R HBX HR]. constructor; [|done].
      etransitivity; [exact HsB|done].
    + constructor; [|done]. unfold small_rows. rewrite HeA. eapply small_rows_more; [|exact HA]. lia.
    + constructor; [rewrite HeA; lia|]. eapply Forall_impl; [exact I3|]. intros C HC. simpl in HC. lia.
    + split; [intros k; rewrite HtA; tauto|]. destruct (sweep_from B' l) as [|X R]; [done|].
      destruct I4 as [HX HR]. split; [intros k; rewrite HX, Hk; tauto|].
      eapply hears_ext; [|exact HR]. intros k. cbn beta. rewrite Hk. tauto.
Qed.

Lemma hears_from P l R k B : hears P l R → B ∈ R → listed k (p_state B) →
  P k ∨ ∃ A, A ∈ l ∧ listed k (p_state A).
Proof.
  revert P R. induction l as [|A l IH]; intros P [|A' R] HR HB Hk; try done; [by apply not_elem_of_nil in HB|].
  destruct HR as [HA HR]. apply elem_of_cons in HB as [->|HB].
  - apply HA in Hk as [Hk|Hk]; [by left|right]. exists A. split; [by left|done].
  - destruct (IH _ _ HR HB Hk) as [[Hk'|Hk']|(C & HC & Hk')].
    + by left.
    + right. exists A. split; [by left|done].
    + right. exists C. split; [by right|done].
Qed.
Lemma hears_all P l R k B : hears P l R → B ∈ R → P k → listed k (p_state B).
Proof.
  revert P R. induction l as [|A l IH]; intros P [|A' R] HR HB Hk; try done; [by apply not_elem_of_nil in HB|].
  destruct HR as [HA HR]. apply elem_of_cons in HB as [->|HB]; [apply HA; by left|].
  eapply IH; [exact HR|exact HB|]. by left.
Qed.
Lemma hears_last P l R k Z : hears P l R → last R = Some Z →
  (P k ∨ ∃ A, A ∈ l ∧ listed k (p_state A)) → listed k (p_state Z).
Proof.
  revert P R. induction l as [|A l IH]; intros P [|A' R] HR HZ Hk; try done.
  destruct HR as [HA HR].
  assert ((P k ∨ listed k (p_state A)) ∨ ∃ C, C ∈ l ∧ listed k (p_state C)) as Hk'.
  { destruct Hk as [Hk|(C & [->|HC]%elem_of_cons & Hk)]; [by left; left|by left; right|].
    right. by exists C. }
  destruct R as [|X R].
  - injection HZ as <-. destruct l; [|done]. apply HA.
    destruct Hk' as [?|(C & HC & _)]; [done|]. by apply not_elem_of_nil in HC.
  - by eapply IH.
Qed.
Lemma hears_length P l R : hears P l R → length R = length l.
Proof.
  revert P R. induction l as [|A l IH]; intros P [|A' R]; try done. cbn [hears length].
  intros [_ HR]. by f_equal; eapply IH.
Qed.

Lemma rows_le n l : Forall (λ A, length (p_table A) ≤ n) l → rows l ≤ length l * n.
Proof. induction 1; unfold rows in *; cbn [sum_list_with length]; lia. Qed.
Lemma Forall2_reverse_same l l' : Forall2 same_peer l l' → Forall2 same_peer (reverse l) (reverse l').
Proof. apply Forall2_reverse. Qed.

(** A sweep of a line, with enough room. *)
Lemma sweep_line l size : l ≠ [] → in_line l → Forall (small_rows size) l →
  room (rows l) (length l) size →
  Forall2 same_peer l (sweep l) ∧ Forall (small_rows (size + 6 * Z.of_nat (length l))) (sweep l) ∧
  rows (sweep l) ≤ length l * rows l ∧ hears (λ _, False) l (sweep l).
Proof.
  intros Hne Hl Hs Hroom. destruct l as [|A l]; [done|]. cbn [sweep].
  destruct (run_sweep A l size Hl Hs) as (I1 & I2 & I3 & I4).
  { unfold room in *. cbn [length] in Hroom. nia. }
  split_and!; [done| |rewrite <-(hears_length _ _ _ I4); by apply rows_le|done].
  eapply Forall_impl; [exact I2|]. intros B. apply small_rows_more. cbn [length]. lia.
Qed.

(** ** What a node knows, as a set

    The abstract state of gossip is the set of identifiers that a node lists;
    taking in a table is a union. *)
Definition id_text (e : NodeEntry) : option string :=
  match node_id e with VStr i => Some i | _ => None end.
Definition ids (t : list NodeEntry) : gset string := list_to_set (omap id_text t).
Definition knowledge (s : NodeState) : gset string := ids (node_table (ns_db s)).

Lemma elem_of_ids k t : k ∈ ids t ↔ is_Some (select_pk node_key (VStr k) t).
Proof.
  unfold ids. rewrite elem_of_list_to_set, list_elem_of_omap. induction t as [|e t IH].
  - split; [by intros (? & ?%not_elem_of_nil & _)|by intros []].
  - cbn [select_pk]. change (node_key e) with (sql_key (node_id e)). unfold id_text in *. setoid_rewrite elem_of_cons. case_decide as He.
    + split; [by eexists|]. intros _. exists e. split; [by left|].
      by apply sql_key_Some in He as [<- _].
    + rewrite <-IH. split; [|by intros (x & Hx & Hi); exists x; split; [right|]].
      intros (x & [->|Hx] & Hi); [|by exists x]. by destruct (node_id e); simplify_eq.
Qed.
Lemma knowledge_listed k s : k ∈ knowledge s ↔ listed k s.
Proof. apply elem_of_ids. Qed.

Lemma union_ids_permutation tables tables' : tables ≡ₚ tables' → ⋃ (ids <$> tables) = ⋃ (ids <$> tables').
Proof.
  intros Hp. apply set_eq. intros k. rewrite !elem_of_union_list.
  assert (ids <$> tables ≡ₚ ids <$> tables') as Hids by by rewrite Hp.
  by split; intros (X & HX & Hk); exists X; (split; [|done]); [rewrite <-Hids|rewrite Hids].
Qed.

(** A GOSSIP packet that carries the table [es] of an honest node. *)
Definition brings (es : list NodeEntry) (pkt : Packet) : Prop :=
  gossip_nodes pkt = Ok (VList (to_dict <$> es)) ∧ Forall plain es.

Lemma run_handle_gossip {env : Env} es pkt (w : World NodeState) : brings es pkt → ∃ w',
  handle_gossip pkt w = (Ok (), w') ∧ knowledge (w_st w') = knowledge (w_st w) ∪ ids es.
Proof.
  intros [Hg Hes]. unfold handle_gossip. rewrite Hg. cbn [py_iter].
  destruct (merge_all_plain es w Hes) as (w' & Hrun & _ & Hm). exists w'.
  rewrite (run_lift _ _ _ _ eq_refl), Hrun. split; [done|]. apply set_eq. intros k.
  rewrite elem_of_union, !knowledge_listed, elem_of_ids.
  rewrite (merged_listed (env:=env) _ _ _ _ (Hm k)). done.
Qed.
Lemma run_gossips {env : Env} tables pkts (w : World NodeState) : Forall2 brings tables pkts → ∃ w',
  for_each pkts handle_gossip w = (Ok (), w') ∧
  knowledge (w_st w') = knowledge (w_st w) ∪ ⋃ (ids <$> tables).
Proof.
  intros Hp. revert w. induction Hp as [|es pkt tables pkts Hb _ IH]; intros w.
  { exists w. split; [done|]. cbn. by rewrite (right_id_L ∅ (∪)). }
  destruct (run_handle_gossip es pkt w Hb) as (w1 & Hrun1 & Hk1).
  destruct (IH w1) as (w2 & Hrun2 & Hk2). exists w2. cbn [for_each].
  rewrite (run_bind _ _ _ _ _ Hrun1). split; [done|].
  by rewrite Hk2, Hk1, fmap_cons, union_list_cons, (assoc_L (∪)).
Qed.

(** ** Properties *)

(** C19: gossip reaches everybody.  [n] nodes stand in a line, each connected to its
    neighbours, whom it lists; each node pushes its table to the next one, from one
    end to the other, and then back.  In the end every node lists exactly the
    identifiers that some node listed at first, and all connections are as they
    were.  The nodes have their own clocks, randomness and states; [size] bounds
    what a row takes of a packet, and there must be room for all rows. *)
Theorem sweeps_converge l size :
  in_line l → Forall (small_rows size) l → room (length l * rows l) (2 * length l) size →
  Forall2 same_peer l (both_ways l) ∧
  ∀ B, B ∈ both_ways l → ∀ k, listed k (p_state B) ↔ ∃ A, A ∈ l ∧ listed k (p_state A).
Proof.
  intros Hl Hs [Hpos Hroom]. destruct (decide (l = [])) as [->|Hne].
  { split; [constructor|]. by intros B ?%not_elem_of_nil. }
  assert (1 ≤ length l) as Hlen by (destruct l; [done|simpl; lia]).
  destruct (sweep_line l size Hne Hl Hs) as (I1 & I2 & I3 & I4); [unfold room; nia|].
  pose proof (hears_length _ _ _ I4) as HlenR. unfold both_ways.
  set (R := sweep l) in *. set (size' := (size + 6 * Z.of_nat (length l))%Z) in *.
  assert (rows (reverse R) = rows R) as Hrev.
  { unfold rows. generalize R. clear. intros R. induction R as [|A R IH]; [done|].
    rewrite reverse_cons, sum_list_with_app. cbn [sum_list_with]. lia. }
  assert (reverse R ≠ []) as HneR.
  { intros Hn. apply (f_equal length) in Hn. rewrite length_reverse in Hn. simpl in Hn. lia. }
  destruct (sweep_line (reverse R) size' HneR) as (J1 & _ & _ & J4).
  { apply in_line_reverse. by eapply in_line_same. }
  { by apply Forall_reverse. }
  { unfold room. rewrite Hrev, length_reverse, HlenR. unfold size'. nia. }
  split.
  { etransitivity; [exact I1|]. rewrite <-(reverse_involutive R) at 1. by apply Forall2_reverse. }
  intros B HB k. rewrite elem_of_reverse in HB. split.
  - intros Hk. destruct (hears_from _ _ _ k _ J4 HB Hk) as [[]|(C & HC & Hk')].
    rewrite elem_of_reverse in HC. by destruct (hears_from _ _ _ k _ I4 HC Hk') as [[]|].
  - intros Hk. pose proof (head_reverse R) as Hlast.
    destruct (reverse R) as [|Z R']; [done|]. cbn [head] in Hlast.
    assert (listed k (p_state Z)) as HZ by (eapply hears_last; [exact I4|done|by right]).
    destruct (sweep (Z :: R')) as [|X T]; [done|]. destruct J4 as [HX HT].
    apply elem_of_cons in HB as [->|HB]; [apply HX; by right|].
    eapply hears_all; [exact HT|exact HB|by right].
Qed.

(** C21: the order of gossip does not matter for which nodes are known.  A node that
    takes in tables of honest nodes, one packet after the other, comes to list the
    identifiers that it listed and those that the tables list; so two nodes that
    listed the same identifiers and receive the same tables, each in an order of its
    own, at times of its own, list the same identifiers in the end.  (The address
    that is kept for one does depend on the order: the first table wins.) *)
Theorem gossip_refines_union (EA EB : Env) tables tables' pkts pkts' (w w' : World NodeState) :
  Forall2 brings tables pkts → Forall2 brings tables' pkts' → tables ≡ₚ tables' →
  knowledge (w_st w) = knowledge (w_st w') →
  wp (for_each pkts (handle_gossip (env:=EA))) (λ r w1, r = Ok () ∧
    knowledge (w_st w1) = knowledge (w_st w) ∪ ⋃ (ids <$> tables) ∧
    wp (for_each pkts' (handle_gossip (env:=EB))) (λ r' w1', r' = Ok () ∧
      knowledge (w_st w1') = knowledge (w_st w1)) w') w.
Proof.
  intros Hp Hp' Hperm Hk.
  destruct (run_gossips (env:=EA) tables pkts w Hp) as (w1 & Hrun & Hk1).
  destruct (run_gossips (env:=EB) tables' pkts' w' Hp') as (w1' & Hrun' & Hk1').
  unfold wp. rewrite Hrun, Hrun'. cbn [fst snd]. split_and!; try done.
  rewrite Hk1, Hk1', Hk. by rewrite (union_ids_permutation _ _ Hperm).
Qed.
End spread.

(** ** Witnesses *)

Module SpreadWitnesses.
Import Samples.
#[local] Existing Instance calm_env_laws.

Definition ident (s e : byte) (addr : string) : NodeIdentity :=
  mkNodeIdentity (sample_signing s) (sample_encryption e) addr "permanent" "open".
Definition n1 := ident "001" "002" "a:1".
Definition n2 := ident "003" "004" "b:2".
Definition n3 := ident "005" "006" "c:3".
Definition row_of (n : NodeIdentity) : NodeEntry :=
  mkNode (nid n) (n_address n) "permanent" "open" [] "" 5 0 "online" 5.
Definition conn (s : socket) (peer self : NodeIdentity) : PeerConnection :=
  mkConn s (nid peer) (sk_public (n_signing peer)) (VBin []) (nid self).
Definition at_node (n : NodeIdentity) (known : list NodeIdentity) (cs : list PeerConnection) : peer :=
  mkPeer calm_env n false (mkWorld 0 [] (mkNodeState (mkDB (row_of <$> n :: known) [] [] [])
    (list_to_map ((λ c, (peer_node_id c, c)) <$> cs)) [] [] created)).
(** Three nodes: the ones at the ends do not know each other. *)
Definition line : list peer := [
  at_node n1 [n2] [conn 1 n2 n1];
  at_node n2 [n1; n3] [conn 2 n1 n2; conn 3 n3 n2];
  at_node n3 [n2] [conn 4 n2 n3]].

#[local] Ltac pushes := split;
  [split; apply calm_env_laws|reflexivity|eexists; reflexivity|eexists; reflexivity
  |eexists; split; reflexivity|by intros j].
Lemma in_line_line : in_line line.
Proof.
  intros [|[|[|i]]] A B; [intros [= <-] [= <-]; split; pushes..|done|].
  by destruct i.
Qed.
Lemma line_rows : Forall (small_rows 1000) line.
Proof.
  repeat constructor; try done; first
    [by eexists|by vm_compute|vm_compute; discriminate].
Qed.

Lemma sweeps_converge_witness :
  Forall2 same_peer line (both_ways line) ∧
  ∀ B, B ∈ both_ways line → ∀ k,
    listed k (p_state B) ↔ ∃ A, A ∈ line ∧ listed k (p_state A).
Proof.
  apply (sweeps_converge line 1000); [apply in_line_line|apply line_rows|by vm_compute].
Defined.

(** Two tables, received in either order, by nodes with the same knowledge. *)
Definition table1 : list NodeEntry := [row_of n1; row_of n2].
Definition table2 : list NodeEntry := [row_of n2; row_of n3].
Definition packet_with (t : list NodeEntry) : Packet :=
  mkPacket "gossip" (VBin (or_else [] (packb (gossip_doc t)))) "id" "x" "" (VBin []) (VInt 3) (VInt 1).
Lemma packet_brings t : Forall plain t → gossip_nodes (packet_with t) = Ok (VList (to_dict <$> t)) →
  brings t (packet_with t).
Proof. by split. Qed.
Lemma rows_plain : Forall plain [row_of n1; row_of n2; row_of n3].
Proof. repeat constructor; repeat (eexists; try split); try reflexivity; discriminate. Qed.

Lemma gossip_refines_union_witness :
  let w : World NodeState := mkWorld 0 [] (new_node empty_db) in
  wp (for_each (packet_with <$> [table1; table2]) (handle_gossip (env:=calm_env))) (λ r w1, r = Ok () ∧
    knowledge (w_st w1) = ∅ ∪ ⋃ (ids <$> [table1; table2]) ∧
    wp (for_each (packet_with <$> [table2; table1]) (handle_gossip (env:=calm_env))) (λ r' w1', r' = Ok () ∧
      knowledge (w_st w1') = knowledge (w_st w1)) w) w.
Proof.
  intros w. pose proof rows_plain as Hp. rewrite !Forall_cons in Hp. destruct Hp as (H1 & H2 & H3 & _).
  assert (brings table1 (packet_with table1) ∧ brings table2 (packet_with table2)) as [B1 B2].
  { split; (apply packet_brings; [apply Forall_cons; split; [done|by apply Forall_singleton]|by vm_compute]). }
  apply (gossip_refines_union calm_env calm_env [table1; table2] [table2; table1]);
    [by do 2 (constructor; [done|])..|apply Permutation_swap|done].
Defined.
End SpreadWitnesses.
