(* ===== verification/Rounds.v ===== *)
(** * A round of gossip over live connections

    What [GossipEngine._round] does when the node is connected to every node that
    it knows and the sockets take what is written: the counterpart of
    [Gossip.isolated_round]. *)
From S2P Require Import Prelude PyVal Interfaces Effects Crypto Protocol Auth Identity Table Storage Transport Router Gossip Node Network.
From S2P Require Samples.

(** ** Rows that have been seen *)

(** [t'] is [t] after the nodes [ks] were seen, at times of which [C] holds. *)
Definition seen_row (C : Z → Prop) (ks : list pyval) (e e' : NodeEntry) : Prop :=
  (node_id e ∈ ks → ∃ now, C now ∧ e' = node_seen now e) ∧ (node_id e ∉ ks → e' = e).
Definition table_seen (C : Z → Prop) (ks : list pyval) : list NodeEntry → list NodeEntry → Prop :=
  Forall2 (seen_row C ks).

Lemma table_seen_mono (C C' : Z → Prop) ks t t' :
  (∀ now, C now → C' now) → table_seen C ks t t' → table_seen C' ks t t'.
Proof.
  intros HC Ht. eapply Forall2_impl; [exact Ht|]. intros e e' [Hin Hni]. split; [|done]. intros Hk.
  destruct (Hin Hk) as (now & ? & ->). eauto.
Qed.

Lemma is_node_text i e : is_node (VStr i) e ↔ node_id e = VStr i.
Proof.
  unfold is_node, node_key. split.
  - intros [_ Hk]. by destruct (node_id e); simpl in Hk; simplify_eq.
  - by intros ->.
Qed.
Lemma table_seen_nil C t : table_seen C [] t t.
Proof.
  apply Forall2_same_length_lookup_2; [done|]. intros i e e' He He'. simplify_eq.
  split; [by intros ?%not_elem_of_nil|done].
Qed.
Lemma table_seen_cons (C : Z → Prop) i now ks t t' : C now →
  table_seen C ks (update_where (is_node (VStr i)) (node_seen now) t) t' →
  table_seen C (VStr i :: ks) t t'.
Proof.
  intros Hnow Ht. unfold table_seen, update_where in *. rewrite Forall2_fmap_l in Ht.
  eapply Forall2_impl; [exact Ht|]. intros e e'. unfold compose, seen_row.
  case_decide as Hi; rewrite is_node_text in Hi.
  - cbn [node_seen node_id]. intros [Hin Hni]. split; [intros _|rewrite elem_of_cons; tauto].
    destruct (decide (node_id e ∈ ks)) as [Hk|Hk].
    + destruct (Hin Hk) as (n & Hn & ->). by exists n.
    + rewrite (Hni Hk). by exists now.
  - intros [Hin Hni]. split; rewrite elem_of_cons; [|tauto]. intros [?|?]; [done|auto].
Qed.
Lemma table_seen_rows (C : Z → Prop) (P Q : NodeEntry → Prop) ks t t' : table_seen C ks t t' →
  (∀ e, P e → Q e) → (∀ e now, P e → C now → Q (node_seen now e)) →
  Forall P t → Forall Q t'.
Proof.
  intros Ht HPQ Hseen HP. induction Ht as [|e e' t t' [Hin Hni] _ IH]; [done|].
  inversion_clear HP as [|? ? He HPt]. constructor; [|auto].
  destruct (decide (node_id e ∈ ks)) as [Hk|Hk]; [|rewrite (Hni Hk); auto].
  destruct (Hin Hk) as (now & Hnow & ->). auto.
Qed.

Lemma seen_portable size e now : portable size e → (0 ≤ now < 2^63)%Z →
  portable (size + 6) (node_seen now e).
Proof.
  unfold portable. rewrite !to_dict_scalars, !to_dict_size.
  cbn [forallb foldr node_id address ntype access cert parent_node last_seen status node_seen].
  rewrite !andb_true_iff. intros (Hp & (? & ? & ? & ? & ? & ? & _ & _ & _) & Hz) Hnow.
  split; [exact Hp|]. split.
  - split_and!; try done. cbn [scalars_ok]. rewrite andb_true_iff, Z.leb_le, Z.ltb_lt. lia.
  - change (psize (VStr "online")) with 11. cbn [psize] in *. lia.
Qed.
Lemma portable_id size e : portable size e → ∃ i, node_id e = VStr i ∧ atom_ok (VStr i) = true.
Proof.
  unfold portable. rewrite to_dict_scalars. cbn [forallb]. rewrite andb_true_iff.
  intros (((i & Hi & _) & _) & [Hs _] & _). exists i. split; [done|]. rewrite Hi in Hs.
  unfold atom_ok. by rewrite Hs.
Qed.

(** What the clean-up leaves of the table, for an identifier that has been seen. *)
Lemma cleaned_seen (C : Z → Prop) cutoff ks t t' k : table_seen C ks t t' → (∀ e, e ∈ t → node_id e = VStr k → VStr k ∈ ks) →
  match select_pk node_key (VStr k) t with
  | Some e => ∃ now, C now ∧ select_pk node_key (VStr k) (delete_where (node_expired cutoff) t') =
      Some (node_seen now e)
  | None => select_pk node_key (VStr k) (delete_where (node_expired cutoff) t') = None
  end.
Proof.
  intros Ht Hks. induction Ht as [|e e' t t' [Hin Hni] _ IH]; [done|].
  assert (∀ x, x ∈ t → node_id x = VStr k → VStr k ∈ ks) as Hks' by (intros x Hx; apply Hks; by right).
  specialize (IH Hks'). unfold delete_where in *. rewrite filter_cons. cbn [select_pk].
  assert (node_key e' = node_key e) as Hkey.
  { unfold node_key. destruct (decide (node_id e ∈ ks)) as [Hk|Hk]; [|by rewrite (Hni Hk)].
    by destruct (Hin Hk) as (now & _ & ->). }
  case_decide as He.
  - assert (node_id e = VStr k) as Hid by (by apply sql_key_Some in He as [-> _]).
    destruct Hin as (now & HC & ->); [rewrite Hid; apply (Hks e); [by left|done]|].
    exists now. split; [done|]. rewrite decide_True by (intros [? _]; discriminate).
    cbn [select_pk]. by rewrite decide_True.
  - case_decide; [|exact IH]. cbn [select_pk]. by rewrite decide_False by by rewrite Hkey.
Qed.

(** ** The run *)

Section rounds.
Context `{!MsgPack} `{!PyRepr} `{!Ed25519} `{!E2E} {env : Env}.
Context (identity : NodeIdentity).
Implicit Types (w : World NodeState).

(** What is written to the connection with [e]. *)
Definition wrote (s : NodeState) (e : NodeEntry) (P : string → bytes → Prop) (x : io) : Prop :=
  ∃ i conn frame, node_id e = VStr i ∧ ns_conns s !! i = Some conn ∧ x = IoSend (ws conn) frame ∧
    P i frame.
Definition pinged (s : NodeState) (e : NodeEntry) : io → Prop := wrote s e (is_ping identity).
Definition sent_table (s : NodeState) (t : list NodeEntry) (e : NodeEntry) : io → Prop :=
  wrote s e (λ _ frame, ∃ q, carries_table (n_signing identity) t q frame).
(** The node is connected to [e]. *)
Definition connected (s : NodeState) (e : NodeEntry) : Prop :=
  ∃ i conn, node_id e = VStr i ∧ ns_conns s !! i = Some conn.

Lemma wrote_conns s s' e P x : ns_conns s = ns_conns s' → wrote s e P x → wrote s' e P x.
Proof. unfold wrote. by intros ->. Qed.

(** The draw of [random.sample]. *)
Lemma run_sample {A} n (l : list A) w : n ≤ length l → ∃ l' rest k,
  w_tick w ≤ k ∧ sample n l w = (Ok l', mkWorld k (w_trace w) (w_st w)) ∧ length l' = n ∧ l' ++ rest ≡ₚ l.
Proof.
  revert l w. induction n as [|n IH]; intros l w Hn.
  { exists [], l, (w_tick w). split; [done|]. split; [by destruct w|done]. }
  destruct l as [|x l]; [simpl in Hn; lia|].
  cbn [sample]. erewrite run_bind by reflexivity. cbn [w_tick].
  set (j := _ mod _). assert (j < length (x :: l)) as Hj by (apply Nat.mod_upper_bound; discriminate).
  destruct (lookup_lt_is_Some_2 _ _ Hj) as [y Hy]. rewrite Hy.
  destruct (IH (take j (x :: l) ++ drop (S j) (x :: l)) (mkWorld (S (w_tick w)) (w_trace w) (w_st w)))
    as (l' & rest & k & Hle & Hs & Hlen & Hp).
  { rewrite length_app, length_take, length_drop. lia. }
  rewrite (run_bind _ _ _ _ _ Hs). exists (y :: l'), rest, k. simpl in Hle.
  split; [lia|]. split; [done|].
  split; [simpl; by f_equal|]. rewrite <-app_comm_cons, Hp, Permutation_middle.
  by rewrite (take_drop_middle _ _ _ Hy).
Qed.

Context `{!MsgPackLaws} `{!Ed25519Laws} `{!EnvLaws}.
Context (Hk : skp_ok (n_signing identity)) (Hsend : ∀ j, o_send (outcome j) = Ok ()).

Lemma run_pings nodes w :
  Forall (λ e, ∃ i, node_id e = VStr i ∧ atom_ok (VStr i) = true) nodes →
  Forall (connected (w_st w)) (others identity nodes) →
  ∃ k ios t, w_tick w ≤ k ∧ for_each nodes (λ entry,
      if decide (node_id entry = VStr (nid identity)) then mret () else ping_node identity entry) w =
    (Ok (), mkWorld k (w_trace w ++ ios) (set_db (set_nodes (λ _, t) (ns_db (w_st w))) (w_st w))) ∧
    Forall2 (pinged (w_st w)) (others identity nodes) ios ∧
    table_seen (clock_between (w_tick w) k) (node_id <$> others identity nodes)
      (node_table (ns_db (w_st w))) t.
Proof.
  intros Hids. revert w. induction Hids as [|e nodes (i & Hi & Ha) _ IH]; intros w Hc.
  { exists (w_tick w), [], (node_table (ns_db (w_st w))). split_and!; [done| |constructor|apply table_seen_nil].
    rewrite app_nil_r. by destruct w as [? ? [[] ? ? ? ?]]. }
  unfold others in *. cbn [for_each]. rewrite filter_cons in Hc |- *.
  destruct (decide (node_id e = VStr (nid identity))) as [He|He].
  - rewrite decide_False in Hc |- * by (intros Hx; by apply Hx). apply (IH w Hc).
  - rewrite decide_True in Hc |- * by done. inversion_clear Hc as [|? ? (i' & conn & Hi' & Hconn) Hc'].
    assert (i' = i) as -> by congruence.
    destruct (run_ping_connected identity i e conn w Hk Hi Ha Hconn (Hsend _)) as (d & Hd & Hrun).
    rewrite (run_bind _ _ _ _ _ Hrun).
    match goal with |- context [for_each nodes _ ?w1] => destruct (IH w1 Hc') as (k & ios & t & Hle & Hr & Hp & Ht) end.
    exists k, (IoSend (ws conn) d :: ios), t. cbn [w_st w_trace w_tick] in *. split_and!.
    + lia.
    + rewrite Hr. unfold set_db, set_nodes. simpl. by rewrite <-(assoc (++)).
    + constructor; [by exists i, conn, d|exact Hp].
    + rewrite fmap_cons, Hi. eapply (table_seen_cons _ _ (o_time (outcome (3 + w_tick w)))).
      * exists (3 + w_tick w). split; [lia|done].
      * eapply table_seen_mono; [|exact Ht]. intros now (j & Hj & ->). exists j. split; [lia|done].
Qed.

Lemma run_exchanges peers size w :
  Forall (connected (w_st w)) peers → transferable size (node_table (ns_db (w_st w))) →
  ∃ k ios, w_tick w ≤ k ∧ for_each peers (exchange identity) w = (Ok (), mkWorld k (w_trace w ++ ios) (w_st w)) ∧
    Forall2 (sent_table (w_st w) (node_table (ns_db (w_st w)))) peers ios.
Proof.
  intros Hc Ht. revert w Hc Ht. induction peers as [|e peers IH]; intros w Hc Ht.
  { exists (w_tick w), []. rewrite app_nil_r. split; [done|]. by destruct w. }
  inversion_clear Hc as [|? ? (i & conn & Hi & Hconn) Hc'].
  destruct (exchange_run identity e conn i size w Hk Hi Hconn Ht (Hsend _)) as (q & d & Hq & Hrun).
  cbn [for_each]. rewrite (run_bind _ _ _ _ _ Hrun).
  match goal with |- context [for_each peers _ ?w1] => destruct (IH w1 Hc' Ht) as (k & ios & Hle & Hr & Hp) end.
  exists k, (IoSend (ws conn) d :: ios). cbn [w_st w_trace w_tick] in *. split_and!.
  - lia.
  - rewrite Hr. by rewrite <-(assoc (++)).
  - constructor; [|exact Hp]. exists i, conn, d. by split_and!; [..|exists q].
Qed.

(** The states of a round: after the pings, and after the clean-up. *)
Lemma run_round w size :
  let s := w_st w in
  let t := node_table (ns_db s) in
  Forall (portable size) t → (0 ≤ size)%Z → (Z.of_nat (length t) * (size + 6) + 100 < 2^32)%Z →
  Forall (connected s) (others identity t) →
  ∃ k pings peers gossips t' cutoff w',
    round identity w = (Ok (), w') ∧
    w_trace w' = w_trace w ++ pings ++ gossips ∧ w_tick w' = k ∧
    Forall2 (pinged s) (others identity t) pings ∧
    length peers = min GOSSIP_FANOUT (length (online_peers identity t)) ∧
    peers ⊆+ online_peers identity t ∧
    Forall2 (sent_table s (node_table (ns_db (w_st w')))) peers gossips ∧
    ns_conns (w_st w') = ns_conns s ∧
    node_table (ns_db (w_st w')) = delete_where (node_expired cutoff) t' ∧
    table_seen (clock_during w w') (node_id <$> others identity t) t t'.
Proof.
  intros s t Ht Hpos Hroom Hc.
  assert (Forall (λ e, ∃ i, node_id e = VStr i ∧ atom_ok (VStr i) = true) t) as Hids
    by (eapply Forall_impl; [exact Ht|]; intros e; apply portable_id).
  destruct (run_pings t w Hids Hc) as (k1 & pings & t' & Hle1 & Hrun1 & Hp & Hseen).
  set (online := online_peers identity t). set (n := min GOSSIP_FANOUT (length online)).
  set (s2 := set_db (exec (CleanupMessages (o_time (outcome (S k1))))
    (exec (CleanupNodes (o_time (outcome k1) - TTL_NODE_OFFLINE_SECS))
      (set_nodes (λ _, t') (ns_db s)))) s).
  destruct (run_sample n online (mkWorld (S (S k1)) (w_trace w ++ pings) s2))
    as (peers & rest & k2 & Hle2 & Hrun2 & Hlen & Hperm); [unfold n; lia|].
  assert (peers ⊆+ online) as Hsub by (rewrite <-Hperm; apply submseteq_inserts_r; reflexivity).
  destruct (run_exchanges peers (size + 6) (mkWorld k2 (w_trace w ++ pings) s2))
    as (k3 & gossips & Hle3 & Hrun3 & Hg).
  - apply Forall_forall. intros e He. rewrite Forall_forall in Hc. apply Hc.
    pose proof (elem_of_submseteq _ _ _ He Hsub) as [[_ Hne] Hin]%list_elem_of_filter.
    by apply list_elem_of_filter.
  - split.
    + apply Forall_forall. intros e [_ He]%list_elem_of_filter. revert e He. apply Forall_forall.
      eapply (table_seen_rows _ (portable size)); [exact Hseen| | |exact Ht].
      * intros e (? & ? & ?). split_and!; [done..|lia].
      * intros e now He (j & _ & ->). apply seen_portable; [done|apply time_range].
    + assert (length (node_table (ns_db s2)) ≤ length t) as Hle.
      { assert (length t = length t') as -> by apply (Forall2_length _ _ _ Hseen). apply length_filter. }
      cbn [w_st]. pose proof (Z.mul_le_mono_nonneg_r (Z.of_nat (length (node_table (ns_db s2))))
        (Z.of_nat (length t)) (size + 6)). lia.
  - exists k3, pings, peers, gossips, t', (o_time (outcome k1) - TTL_NODE_OFFLINE_SECS)%Z.
    eexists. split.
    + unfold round. rewrite (run_bind _ _ w t w) by done. rewrite (run_bind _ _ _ _ _ Hrun1).
      erewrite run_bind by reflexivity. erewrite run_bind by reflexivity. cbv zeta.
      fold online. fold n. refine (eq_trans (run_bind _ _ _ _ _ Hrun2) _). exact Hrun3.
    + cbn [w_trace w_st w_tick] in *. split_and!; try done; [by rewrite (assoc (++))|].
      eapply table_seen_mono; [|exact Hseen]. intros now (j & Hj & ->). exists j. split; [lia|done].
Qed.
End rounds.

(** ** Properties *)

(** C22: a round between live connections.  If the node is connected to every other
    node that it lists, and the sockets take what is written, a round writes one
    signed PING to each of them, in the order of the table, and then its table, as
    it is after the pings, to as many of the online ones as there are, but at most
    three, all different.  Every other node it lists is then online, with no missed
    ping, last seen at a time that the clock shows during the round; none is
    forgotten; and no connection changes. *)
Theorem connected_round `{!MsgPack} `{!PyRepr} `{!Ed25519} `{!E2E} {env : Env} `{!MsgPackLaws}
    `{!Ed25519Laws} `{!EnvLaws} (identity : NodeIdentity) size (w : World NodeState) :
  let s := w_st w in
  let t := node_table (ns_db s) in
  skp_ok (n_signing identity) → (∀ j, o_send (outcome j) = Ok ()) →
  Forall (portable size) t → (0 ≤ size)%Z → (Z.of_nat (length t) * (size + 6) + 100 < 2^32)%Z →
  Forall (connected s) (others identity t) →
  wp (round identity) (λ r w', r = Ok () ∧ ∃ pings peers gossips,
    w_trace w' = w_trace w ++ pings ++ gossips ∧
    Forall2 (pinged identity s) (others identity t) pings ∧
    Forall2 (sent_table identity s (node_table (ns_db (w_st w')))) peers gossips ∧
    length peers = min 3 (length (online_peers identity t)) ∧ peers ⊆+ online_peers identity t ∧
    ns_conns (w_st w') = ns_conns s ∧
    ∀ i, i ≠ nid identity →
      match entry_of i s with
      | Some e => ∃ now, clock_during w w' now ∧ entry_of i (w_st w') = Some (node_seen now e)
      | None => entry_of i (w_st w') = None
      end) w.
Proof.
  intros s t Hk Hsend Ht Hpos Hroom Hc.
  destruct (run_round identity Hk Hsend w size Ht Hpos Hroom Hc)
    as (k & pings & peers & gossips & t' & cutoff & w' & Hrun & Htr & _ & Hp & Hlen & Hsub & Hg &
        Hcs & Htab & Hseen).
  unfold wp. rewrite Hrun. split; [done|]. exists pings, peers, gossips. split_and!; try done.
  intros i Hi. unfold entry_of. cbn [snd]. rewrite Htab. eapply cleaned_seen; [exact Hseen|].
  intros e He Hid. rewrite <-Hid. apply list_elem_of_fmap. exists e. split; [done|].
  apply list_elem_of_filter. split; [|done]. rewrite Hid. congruence.
Qed.

(** ** Witnesses *)

Module RoundsWitnesses.
Import Samples.
#[local] Existing Instance calm_env_laws.

Definition me : NodeIdentity :=
  mkNodeIdentity (sample_signing "001") (sample_encryption "002") "a:1" "permanent" "open".
Definition row (i st : string) : NodeEntry :=
  mkNode i "h:1" "permanent" "open" [] "" 5 2 st 5.
Definition link (s : socket) (i : string) : PeerConnection := mkConn s i [] (VBin []) (nid me).
(** Four other nodes, one of which has missed its pings. *)
Definition here : World NodeState := mkWorld 0 [] (mkNodeState
  (mkDB [row "n1" "online"; row (nid me) "online"; row "n2" "offline"; row "n3" "online"; row "n4" "online"]
    [] [] [])
  {["n1" := link 1 "n1"; "n2" := link 2 "n2"; "n3" := link 3 "n3"; "n4" := link 4 "n4"]} [] [] created).

Lemma connected_round_witness :
  wp (round (env:=calm_env) me) (λ r w', r = Ok () ∧ ∃ pings gossips,
    w_trace w' = pings ++ gossips ∧ length pings = 4 ∧ length gossips = 3 ∧
    ∃ now, clock_between (H1:=calm_env) 0 (w_tick w') now ∧ entry_of "n2" (w_st w') = Some (node_seen now (row "n2" "offline"))) here.
Proof.
  assert (Forall (portable 1000) (node_table (ns_db (w_st here)))) as Ht.
  { repeat constructor; try done; first [by eexists|by vm_compute|vm_compute; discriminate]. }
  destruct (connected_round (env:=calm_env) me 1000 here eq_refl ltac:(done) Ht ltac:(done) ltac:(by vm_compute))
    as (Hr & pings & peers & gossips & Htr & Hp & Hg & Hlen & _ & _ & Hseen).
  - repeat constructor; by do 2 eexists.
  - split; [exact Hr|]. exists pings, gossips. split; [exact Htr|].
    split; [by rewrite <-(Forall2_length _ _ _ Hp)|].
    split; [by rewrite <-(Forall2_length _ _ _ Hg), Hlen|]. by apply (Hseen "n2").
Defined.
End RoundsWitnesses.
