(* ===== verification/Lifecycle.v ===== *)
(** * The life of a node: creation, start and stop

    Properties of the parts of [Node] that begin and end things: [Node.create]
    and [Node.create_genesis], [Node.start] and [Node.stop] with what they call of
    the transport, the gossip engine and the storage. *)
From S2P Require Import Prelude PyVal Interfaces Text Json Effects Crypto Protocol Auth Identity Table Storage Transport Router Gossip Node.
From S2P Require Samples.

(** The sockets of some connections, and those that a node finds in its registry,
    in the registry's order. *)
Definition sockets (conns : list PeerConnection) : list socket := ws <$> conns.
Definition registered (conns : gmap string PeerConnection) : list PeerConnection :=
  (map_to_list conns).*2.

(** The connections that the server serves; none, if there is no server. *)
Definition served (s : NodeState) : list PeerConnection :=
  if decide (lf_server (ns_life s) = Absent) then [] else lf_handlers (ns_life s).
(** What is left of the registry and of the receive loops when they are closed. *)
Definition conns_without (hs : list PeerConnection) : gmap string PeerConnection → gmap string PeerConnection :=
  filter (λ kc, kc.1 ∉ peer_node_id <$> hs).
Definition loops_without (hs : list PeerConnection) : list PeerConnection → list PeerConnection :=
  filter (λ c, c ∉ hs).
Definition without (hs : list PeerConnection) (s : NodeState) : NodeState :=
  set_handlers (loops_without hs) (set_loops (loops_without hs) (set_conns (conns_without hs) s)).

(** A phase once it has been stopped: what was never created stays so. *)
Definition ended (p : phase) : phase := if decide (p = Absent) then Absent else Ended.

Section lifecycle_lemmas.
Context `{!MsgPack} `{!PyRepr} `{!Ed25519} `{!E2E} {env : Env}.
Implicit Types (w : World NodeState).

Lemma run_closes conns w :
  for_each conns peer_close w =
  (Ok (), mkWorld (w_tick w) (w_trace w ++ (IoClose <$> sockets conns)) (w_st w)).
Proof.
  revert w. induction conns as [|conn conns IH]; intros w; csimpl.
  { rewrite app_nil_r. by destruct w. }
  unfold peer_close, ws_close. rewrite bindE, awaitE, emitE, IH. simpl. by rewrite <-(assoc (++)).
Qed.

Lemma conns_without_cons h hs m :
  conns_without hs (delete (peer_node_id h) m) = conns_without (h :: hs) m.
Proof.
  apply map_eq. intros i. apply option_eq. intros c. unfold conns_without.
  rewrite !map_lookup_filter_Some, lookup_delete_Some. csimpl. rewrite not_elem_of_cons.
  naive_solver.
Qed.
Lemma loops_without_cons h hs l :
  loops_without hs (filter (λ c, c ≠ h) l) = loops_without (h :: hs) l.
Proof.
  unfold loops_without. rewrite list_filter_filter. apply list_filter_iff. intros c.
  rewrite not_elem_of_cons. naive_solver.
Qed.
Lemma without_nil s : without [] s = s.
Proof.
  destruct s as [d c l p [sv g b h]]. unfold without, set_handlers, set_loops, set_conns, set_life. simpl.
  assert (∀ l0, loops_without [] l0 = l0) as Hl.
  { unfold loops_without. induction l0 as [|x l0 IH]; [done|].
    rewrite filter_cons_True by apply not_elem_of_nil. by f_equal. }
  rewrite !Hl. f_equal. apply map_filter_id. intros. apply not_elem_of_nil.
Qed.
Lemma run_end_handler conn w :
  end_handler conn w = (Ok (), mkWorld (w_tick w) (w_trace w ++ [IoClose (ws conn)])
    (set_handlers (filter (λ c, c ≠ conn)) (set_conns (delete (peer_node_id conn))
      (set_loops (filter (λ c, c ≠ conn)) (set_conns (delete (peer_node_id conn)) (w_st w)))))).
Proof. done. Qed.
Lemma run_end_handlers hs w :
  for_each hs end_handler w =
  (Ok (), mkWorld (w_tick w) (w_trace w ++ (IoClose <$> sockets hs)) (without hs (w_st w))).
Proof.
  revert w. induction hs as [|h hs IH]; intros w; csimpl.
  { rewrite app_nil_r, without_nil. by destruct w. }
  rewrite bindE, run_end_handler, IH. cbn [w_tick w_trace w_st].
  rewrite <-(assoc (++)). do 2 f_equal. destruct (w_st w) as [d c l p [sv g b h']].
  unfold without, set_handlers, set_loops, set_conns, set_life. simpl.
  by rewrite !loops_without_cons, delete_delete_eq, conns_without_cons.
Qed.

(** What [Node.stop] writes, in order, and what it leaves. *)
Definition stop_trace (s : NodeState) : list io :=
  (if decide (lf_server (ns_life s) = Absent) then [] else [IoUnserve]) ++
  (IoClose <$> sockets (served s)) ++
  (IoClose <$> sockets (registered (conns_without (served s) (ns_conns s)))).
Definition stopped (s : NodeState) : NodeState :=
  set_open false (set_server (ended (lf_server (ns_life s)))
    (set_gossip (ended (lf_gossip (ns_life s))) (without (served s) s))).

Lemma run_gossip_stop w :
  Gossip.stop w = (Ok (), mkWorld (w_tick w) (w_trace w)
    (set_gossip (ended (lf_gossip (ns_life (w_st w)))) (w_st w))).
Proof.
  unfold Gossip.stop, ended. rewrite bindE, getsE. destruct w as [k t [d c l p [s g b h]]]; simpl.
  case_decide as Hg; [|done]. by rewrite Hg.
Qed.

Lemma run_transport_stop w :
  Transport.stop w = (Ok (), mkWorld (w_tick w) (w_trace w ++ stop_trace (w_st w))
    (set_server (ended (lf_server (ns_life (w_st w)))) (without (served (w_st w)) (w_st w)))).
Proof.
  unfold Transport.stop, stop_trace, ended, close_server, registry_all, served.
  rewrite bindE, getsE. case_decide as Hs; run_simpl.
  - rewrite run_closes, without_nil. simpl.
    assert (conns_without [] (ns_conns (w_st w)) = ns_conns (w_st w)) as ->.
    { exact (f_equal ns_conns (without_nil (w_st w))). }
    destruct w as [k t [d c l p [s g b h]]]. simpl in *. by rewrite Hs.
  - rewrite run_end_handlers. run_simpl. rewrite run_closes. cbn [w_tick w_trace w_st].
    by rewrite <-!(assoc (++)).
Qed.

Lemma run_stop w :
  Node.stop w = (Ok (), mkWorld (w_tick w) (w_trace w ++ stop_trace (w_st w)) (stopped (w_st w))).
Proof.
  unfold Node.stop. rewrite bindE, run_gossip_stop, bindE, run_transport_stop.
  unfold close_storage. destruct w as [k t [d c l p [s g b h]]]; simpl. run_simpl. simpl.
  by destruct b.
Qed.

Lemma run_start identity host port w :
  split_address (n_address identity) = Ok (host, port) → o_serve (outcome (w_tick w)) = Ok () →
  Node.start identity w = (Ok (), mkWorld (S (w_tick w)) (w_trace w ++ [IoServe host port])
    (set_life (λ l, mkLife Active Active (lf_db l) (lf_handlers l)) (w_st w))).
Proof.
  intros Ha Hs. unfold Node.start, Transport.start, Gossip.start. rewrite bindE, liftE, Ha.
  unfold ask_result. rewrite !bindE, awaitE, !bindE, askE, liftE. by rewrite Hs.
Qed.
Lemma run_start_bad identity e w :
  split_address (n_address identity) = Raise e → Node.start identity w = (Raise e, w).
Proof. intros Ha. unfold Node.start. by rewrite bindE, liftE, Ha. Qed.

(** A node that lists itself: its row, in a consistent database. *)
Definition lists_itself (identity : NodeIdentity) (addr : string) (d : DB) : Prop :=
  db_inv d ∧ ∃ e, select_pk node_key (VStr (nid identity)) (node_table d) = Some e ∧
    address e = VStr addr ∧ status e = "online".

Lemma run_register_genesis identity addr acc d k t :
  db_inv d → ∃ k' d', register_genesis identity addr acc (mkWorld k t (new_node d)) =
    (Ok (), mkWorld k' t (new_node d')) ∧ lists_itself identity addr d'.
Proof.
  intros Hd. unfold register_genesis, time. run_simpl.
  match goal with |- context [upsert_node (new_entry _ _ _ _ ?s ?a) ?w0] =>
    destruct (run_upsert_new (nid identity) addr "permanent" acc s a w0) as (n & k' & Hrun) end.
  rewrite Hrun. simpl. do 2 eexists. split; [done|]. split.
  - apply (exec_inv anything None (UpsertNode _)); [|done]. by split_and!.
  - simpl. rewrite <-to_map_lookup, (to_map_upsert node_key _ _ _ (VStr (nid identity))) by done.
    rewrite lookup_insert_eq. eexists. split; [done|]. by destruct (to_map _ _ !! _).
Qed.
End lifecycle_lemmas.

(** ** Properties *)

Section lifecycle_properties.
Context `{!MsgPack} `{!PyRepr} `{!Ed25519} `{!E2E} {env : Env}.
Implicit Types (w : World NodeState).

(** A node starts completely or not at all.  An address that is not of the
    form [host:port] raises before anything has happened; if the server cannot be
    put up, that exception is raised, and no server and no gossip task is
    recorded; otherwise the server listens on the host and port of the node's own
    address, and gossip runs. *)
Theorem start_spec identity w :
  wp (Node.start identity) (λ r w',
    match split_address (n_address identity), o_serve (outcome (w_tick w)) with
    | Raise e, _ => r = Raise e ∧ w' = w
    | Ok _, Raise e => r = Raise e ∧ w_trace w' = w_trace w ∧ w_st w' = w_st w
    | Ok (host, port), Ok _ => r = Ok () ∧ w_trace w' = w_trace w ++ [IoServe host port] ∧
        w_st w' = set_life (λ l, mkLife Active Active (lf_db l) (lf_handlers l)) (w_st w)
    end) w.
Proof.
  unfold wp, Node.start, Transport.start, Gossip.start. rewrite bindE, liftE.
  destruct (split_address (n_address identity)) as [[host port]|e]; [|done].
  unfold ask_result. rewrite !bindE, awaitE, !bindE, askE, liftE.
  by destruct (o_serve (outcome (w_tick w))) as [[]|e].
Qed.

(** C11: stopping a node silences it.  [stop] always succeeds.  If there is a server it
    is taken down, which closes the sockets that it has accepted and ends their
    handlers: the connections are no longer read, and whatever is registered under
    the identifiers of their peers is unregistered.  Then the sockets of the
    connections that are still registered are closed, and no others, and the
    database is closed; no table changes.  Afterwards no socket is accepted and no
    gossip round begins, and no handler of the server is left. *)
Theorem stop_spec w :
  let s := w_st w in
  let served := if decide (lf_server (ns_life s) = Absent) then [] else lf_handlers (ns_life s) in
  let left := conns_without served (ns_conns s) in
  wp Node.stop (λ r w', r = Ok () ∧
    w_trace w' = w_trace w ++
      (if decide (lf_server (ns_life s) = Absent) then [] else [IoUnserve]) ++
      (IoClose <$> sockets served) ++ (IoClose <$> sockets (registered left)) ∧
    ns_db (w_st w') = ns_db s ∧ ns_conns (w_st w') = left ∧
    (∀ conn, conn ∈ ns_loops (w_st w') ↔ conn ∈ ns_loops s ∧ conn ∉ served) ∧
    (∀ conn, conn ∈ lf_handlers (ns_life (w_st w')) ↔ conn ∈ lf_handlers (ns_life s) ∧ conn ∉ served) ∧
    lf_db (ns_life (w_st w')) = false ∧
    ¬ enabled GossipTimer (w_st w') ∧ ∀ sock, ¬ enabled (Incoming sock) (w_st w')) w.
Proof.
  intros s hs left. unfold wp. rewrite run_stop. fold s.
  assert (∀ p, ended p ≠ Active) as Hended by (intros p; unfold ended; by case_decide).
  assert (∀ conn l, conn ∈ loops_without hs l ↔ conn ∈ l ∧ conn ∉ hs) as Hl.
  { intros conn l. unfold loops_without. rewrite list_elem_of_filter. naive_solver. }
  split_and!; try done; simpl; intros; first [apply Hl|apply Hended].
Qed.

(** Stopping misses connections.  When a peer is connected a second time,
    the end of the first connection's loop unregisters the second connection; if the
    node dialed that one, the server does not close it either, and if no other
    connection uses its socket, [stop] leaves the socket open and its receive loop
    running. *)
Theorem stop_leaves_reconnected_peer_open old new w :
  peer_node_id old = peer_node_id new → old ≠ new →
  ns_conns (w_st w) !! peer_node_id new = Some new → new ∈ ns_loops (w_st w) →
  (∀ conn, conn ∈ lf_handlers (ns_life (w_st w)) → ws conn ≠ ws new) →
  (∀ id conn, ns_conns (w_st w) !! id = Some conn → ws conn = ws new → conn = new) →
  registry_ok (ns_conns (w_st w)) → IoClose (ws new) ∉ w_trace w →
  let w1 := (end_loop (m:=M NodeState) old w).2 in
  let w2 := (Node.stop (m:=M NodeState) w1).2 in
  new ∈ ns_loops (w_st w2) ∧ IoClose (ws new) ∉ w_trace w2.
Proof.
  intros Hid Hne Hc Hl Hdial Hsock Hreg Hnew w1 w2.
  assert (w2 = mkWorld (w_tick w1) (w_trace w1 ++ stop_trace (w_st w1)) (stopped (w_st w1))) as ->.
  { unfold w2. by rewrite run_stop. }
  assert (∀ c, c ∈ served (w_st w1) → ws c ≠ ws new) as Hserved.
  { unfold served. case_decide; [by intros c ?%not_elem_of_nil|apply Hdial]. }
  split; simpl.
  - unfold loops_without. rewrite !list_elem_of_filter. split; [|by auto]. intros Hin.
    by apply (Hserved new Hin).
  - unfold stop_trace, sockets. rewrite !elem_of_app. intros [?|[Hu|[Hcl|Hcl]]]; [done|..].
    + case_decide; [by apply not_elem_of_nil in Hu|]. by apply list_elem_of_singleton in Hu.
    + apply list_elem_of_fmap in Hcl as (s & [= <-] & (c & Hws & Hin)%list_elem_of_fmap).
      by apply (Hserved c Hin).
    + apply list_elem_of_fmap in Hcl as (s & [= <-] & (conn & Hws & Hin)%list_elem_of_fmap).
      apply list_elem_of_fmap in Hin as ([id conn'] & -> & Hin). simpl in Hws.
      apply elem_of_map_to_list, map_lookup_filter_Some in Hin as [Hin _]. simpl in Hin.
      rewrite Hid in Hin. apply lookup_delete_Some in Hin as [Hid' Hin].
      rewrite (Hsock id conn') in Hin by done. by apply Hreg in Hin as [<- _].
Qed.

(** A genesis node is whole.  Over a consistent database, [create_genesis]
    returns an identity at the given address, writes it to the given file and
    touches no other, and lists the node itself, online, in a database that is
    still consistent; loading the file with [create] later gives back the same
    identity, over the same database. *)
Theorem genesis_then_create `{!PyFloat} `{!Ed25519Laws} `{!E2ELaws} addr path acc fs d w :
  utf8_valid addr = true → utf8_valid acc = true → db_inv d → w_st w = new_node d →
  wp (create_genesis addr path acc fs) (λ r w', ∃ i fs', r = Ok (i, fs') ∧
    n_address i = VStr addr ∧ skp_ok (n_signing i) ∧ ekp_ok (n_encryption i) ∧
    db_inv (ns_db (w_st w')) ∧ w_st w' = new_node (ns_db (w_st w')) ∧
    (∃ e, entry_of (nid i) (w_st w') = Some e ∧ address e = VStr addr ∧ status e = "online") ∧
    create path fs' (ns_db (w_st w')) = Ok (i, w_st w') ∧
    ∀ other, other ≠ path → fs' !! other = fs !! other) w.
Proof.
  intros Ha Hc Hd Hw. unfold create_genesis, generate_node, gen_signing, gen_encryption.
  unfold wp. run_simpl.
  set (i := mkNodeIdentity _ _ _ _ _).
  destruct (save_load_node i path fs) as (t & Hs & Hl); [by split_and!|].
  rewrite Hs. run_simpl. rewrite Hw.
  destruct (run_register_genesis i addr acc d (S (S (w_tick w))) (w_trace w) Hd)
    as (k & d1 & -> & Hd1 & Hrow).
  run_simpl. exists i, (<[path := t]> fs). split_and!; try done.
  - unfold create. by rewrite Hl.
  - intros other Ho. by rewrite lookup_insert_ne.
Qed.
End lifecycle_properties.

(** ** Witnesses *)

Module LifecycleWitnesses.
Import Samples TransportWitnesses.

Lemma stop_leaves_reconnected_peer_open_witness :
  let w1 := (end_loop (m:=M NodeState) (link 1) reconnected).2 in
  let w2 := (Node.stop (m:=M NodeState) w1).2 in
  link 2 ∈ ns_loops (w_st w2) ∧ IoClose 2 ∉ w_trace w2.
Proof.
  refine (stop_leaves_reconnected_peer_open (link 1) (link 2) reconnected _ _ _ _ _ _ _ _).
  - reflexivity.
  - discriminate.
  - vm_compute. reflexivity.
  - apply list_elem_of_here.
  - intros conn []%not_elem_of_nil.
  - change (ns_conns (w_st reconnected)) with ({[nid bob := link 2]} : gmap string PeerConnection).
    intros id conn [_ <-]%lookup_singleton_Some _. reflexivity.
  - change (ns_conns (w_st reconnected)) with ({[nid bob := link 2]} : gmap string PeerConnection).
    intros id conn [<- <-]%lookup_singleton_Some. split; vm_compute; reflexivity.
  - apply not_elem_of_nil.
Defined.

Lemma genesis_then_create_witness :
  wp (create_genesis (env:=calm_env) "a:1" "node.json" "open" ∅) (λ r w', ∃ i fs', r = Ok (i, fs') ∧
    n_address i = VStr "a:1" ∧ skp_ok (n_signing i) ∧ ekp_ok (n_encryption i) ∧
    db_inv (ns_db (w_st w')) ∧ w_st w' = new_node (ns_db (w_st w')) ∧
    (∃ e, entry_of (nid i) (w_st w') = Some e ∧ address e = "a:1" ∧ status e = "online") ∧
    create "node.json" fs' (ns_db (w_st w')) = Ok (i, w_st w') ∧
    ∀ other, other ≠ "node.json" → fs' !! other = (∅ : gmap string string) !! other)
    (mkWorld 0 [] (new_node empty_db)).
Proof.
  refine (genesis_then_create (env:=calm_env) "a:1" "node.json" "open" ∅ empty_db _ _ _ _ _);
    first [apply empty_db_inv|reflexivity].
Defined.
End LifecycleWitnesses.
