(* ===== verification/Interleaving.v ===== *)
(** * The node as an interleaved system

    The coroutines of a node share its state and take turns at their [await]s
    ([Tasks]).  A turn begins the handler of an event, or resumes one up to its next
    [await].

    The receive loop of a connection handles one frame at a time, and so does
    the gossip loop with its rounds; everything else may overlap. *)
From S2P Require Import Prelude PyVal Interfaces Effects Resumption Tasks Crypto Protocol Auth Identity Table Storage Transport Router Gossip Node.
From S2P Require Samples.

(** The tasks and configurations of a node. *)
Abbreviation Task := (Tasks.Task NodeState event).
Abbreviation Config := (Tasks.Config NodeState event).

Section system.
Context `{!MsgPack} `{!PyRepr} `{!Ed25519} `{!E2E} {env : Env}.
Context (identity : NodeIdentity) (has_handler : bool).

(** The loop that an event belongs to, if it does. *)
Inductive loop := Receiving (conn : PeerConnection) | Gossiping.
Definition loop_of (e : event) : option loop :=
  match e with
  | Frame conn _ | Closed conn => Some (Receiving conn)
  | GossipTimer => Some Gossiping
  | _ => None
  end.

(** No other task of the event's loop is under way. *)
Definition ready (e : event) (T : list Task) : Prop :=
  Forall (λ t, loop_of e = None ∨ loop_of (t_event t) ≠ loop_of e) T.

Definition begin_task (e : event) : Task := mkTask e (on_event identity has_handler e).

(** A cancelled round of gossip is dropped at the [await] where it stands: no
    [except Exception] catches the cancellation and no [finally] is pending. *)
Inductive turn : relation Config :=
  | turn_begin e w T :
      enabled e (w_st w) → ready e T →
      turn (mkConfig w T) (mkConfig w (T ++ [begin_task e]))
  | turn_progress c c' : progress c c' → turn c c'
  | turn_cancel m T1 T2 w :
      lf_gossip (ns_life (w_st w)) = Ended →
      turn (mkConfig w (T1 ++ mkTask GossipTimer m :: T2)) (mkConfig w (T1 ++ T2)).

(** Starting from a database that a node left behind. *)
Definition interleaved (c : Config) : Prop :=
  ∃ d k, db_inv d ∧ rtc turn (mkConfig (mkWorld k [] (new_node d)) []) c.

End system.

(** ** Lemmas *)

Section system_lemmas.
Context `{!MsgPack} `{!PyRepr} `{!Ed25519} `{!E2E} {env : Env}.
Context (identity : NodeIdentity) (has_handler : bool).

Lemma run_schedule_turns l c c' :
  run_schedule l c = Some c' → rtc (turn identity has_handler) c c'.
Proof.
  intros Hl%run_schedule_progress. eapply (rtc_congruence id); [apply turn_progress|done].
Qed.

(** *** The invariant *)

Context (allowed : pyval → Prop) (home : option string).
Context (Hhome : ∀ h, home = Some h → h = nid identity).
Abbreviation changed c c' :=
  (node_rel (program allowed home) (w_st (cf_world c)) (w_st (cf_world c'))).

Definition config_ok (c : Config) : Prop :=
  node_inv (w_st (cf_world c)) ∧ within (node_rel (program allowed home)) c.
(** The events under way bring no other nodes than those allowed. *)
Definition tasks_name (c : Config) : Prop :=
  Forall (λ t, event_names allowed (t_event t)) (cf_tasks c).

Lemma progress_ok c c' : progress c c' → config_ok c → config_ok c' ∧ changed c c'.
Proof.
  intros Hp [Hi Hin]. destruct (progress_within _ _ _ Hp Hin) as [Hin' Hc].
  split; [split; [by eapply node_rel_inv|done]|done].
Qed.
Lemma turn_ok c c' : turn identity has_handler c c' → tasks_name c' → config_ok c →
  config_ok c' ∧ changed c c'.
Proof.
  destruct 1 as [e w T He _|c c' Hp|m T1 T2 w _]; [|by intros _; apply progress_ok|].
  - intros [_ [Hn _]%Forall_cons_1]%Forall_app (Hi & Hin). split; [split; [done|]|apply Hin].
    apply within_begin; [done|]. apply ok_event; [done| |done]. eapply enabled_ok; [apply Hi|done].
  - intros _ (Hi & Hin). split; [|apply Hin]. split; [done|]. by eapply within_drop.
Qed.
Lemma progress_names c c' : progress c c' → tasks_name c → tasks_name c'.
Proof. apply progress_events. Qed.
Lemma run_schedule_names l c c' : run_schedule l c = Some c' → tasks_name c →
  rtc (λ c1 c2, turn identity has_handler c1 c2 ∧ tasks_name c2) c c'.
Proof.
  revert c. induction l as [|i l IH]; intros c; cbn [run_schedule]; [by intros [= <-]|].
  destruct (run_task i c) as [c1|] eqn:E; [|done]. intros Hl Hn.
  apply run_task_progress in E. pose proof (progress_names _ _ E Hn).
  eapply rtc_l; [split; [by apply turn_progress|done]|by apply IH].
Qed.

Lemma turns_ok c c' :
  rtc (λ c1 c2, turn identity has_handler c1 c2 ∧ tasks_name c2) c c' → config_ok c →
  config_ok c' ∧ changed c c'.
Proof.
  induction 1 as [c|c1 c2 c3 [Ht Hn] _ IH]; intros Hok; [split; [done|apply Hok]|].
  destruct (turn_ok _ _ Ht Hn Hok) as [Hok2 Hl]. destruct (IH Hok2). split; [done|by etrans].
Qed.
End system_lemmas.

(** Starting from a database. *)
Lemma turns_from `{!MsgPack} `{!PyRepr} `{!Ed25519} `{!E2E} {env : Env} identity has_handler
    allowed home d k c :
  (∀ h, home = Some h → h = nid identity) → db_inv d → holds_in (program allowed home) d →
  rtc (λ c1 c2, turn identity has_handler c1 c2 ∧ tasks_name allowed c2)
    (mkConfig (mkWorld k [] (new_node d)) []) c →
  node_inv (w_st (cf_world c)) ∧
  steps (program_stmt allowed home) d (ns_db (w_st (cf_world c))).
Proof.
  intros Hh Hd Hin Hrtc.
  destruct (turns_ok identity has_handler allowed home Hh _ _ Hrtc) as [[Hi _] [[_ Hs] _]]; [|done].
  split; [by apply new_node_inv|]. split; [by apply node_rel_refl|constructor].
Qed.
Lemma turns_named `{!MsgPack} `{!PyRepr} `{!Ed25519} `{!E2E} {env : Env} identity has_handler c c' :
  rtc (turn identity has_handler) c c' →
  rtc (λ c1 c2, turn identity has_handler c1 c2 ∧ tasks_name anything c2) c c'.
Proof.
  apply rtc_subrel. intros c1 c2 Ht. split; [done|].
  apply Forall_true. intros. apply event_names_anything.
Qed.

(** *** Every operation is the same one in [Res] and in [M] *)

Section storage_same.
Context `{!PyRepr} `{!Ed25519} `{!E2E} {env : Env} {S : Type} `{!HasDB S}.
Abbreviation both x := (same (S:=S) x x) (only parsing).

Lemma same_query {A} (f : DB → A) : both (query f).
Proof. unfold query. same_auto. Qed.
Lemma same_run st : both (run st).
Proof. unfold run. same_auto. Qed.
#[local] Hint Resolve same_query same_run : same.
Lemma same_upsert_node e : both (upsert_node e).
Proof. unfold upsert_node. same_auto. Qed.
Lemma same_get_node k : both (get_node k).
Proof. unfold get_node. same_auto. Qed.
Lemma same_get_all_nodes : both get_all_nodes.
Proof. unfold get_all_nodes. same_auto. Qed.
Lemma same_update_node_ping k b : both (update_node_ping k b).
Proof. unfold update_node_ping. same_auto. Qed.
Lemma same_remove_node k : both (remove_node k).
Proof. unfold remove_node. same_auto. Qed.
Lemma same_cleanup_expired_nodes : both cleanup_expired_nodes.
Proof. unfold cleanup_expired_nodes. same_auto. Qed.
Lemma same_register_cell c sp ep h : both (register_cell c sp ep h).
Proof. unfold register_cell. same_auto. Qed.
Lemma same_get_cell k : both (get_cell k).
Proof. unfold get_cell. same_auto. Qed.
Lemma same_update_presence c h v : both (update_presence c h v).
Proof. unfold update_presence. same_auto. Qed.
Lemma same_get_presence k : both (get_presence k).
Proof. unfold get_presence. same_auto. Qed.
Lemma same_buffer_message i c n b : both (buffer_message i c n b).
Proof. unfold buffer_message. same_auto. Qed.
Lemma same_get_buffered c : both (get_buffered c).
Proof. unfold get_buffered. same_auto. Qed.
Lemma same_delete_buffered k : both (delete_buffered k).
Proof. unfold delete_buffered. same_auto. Qed.
Lemma same_cleanup_expired_messages : both cleanup_expired_messages.
Proof. unfold cleanup_expired_messages. same_auto. Qed.
End storage_same.

#[export] Hint Resolve same_upsert_node same_get_node same_get_all_nodes same_update_node_ping
  same_remove_node same_cleanup_expired_nodes same_register_cell same_get_cell
  same_update_presence same_get_presence same_buffer_message same_get_buffered
  same_delete_buffered same_cleanup_expired_messages : same.

Section node_same.
Context `{!MsgPack} `{!PyRepr} `{!Ed25519} `{!E2E} {env : Env}.
Context (identity : NodeIdentity) (has_handler : bool).
Abbreviation both x := (same (S:=NodeState) x x) (only parsing).

Lemma same_new_packet t b f d : both (new_packet t b f d).
Proof. unfold new_packet. same_auto. Qed.
#[local] Hint Resolve same_new_packet : same.
Lemma same_do_auth w e : both (do_auth identity w e).
Proof.
  unfold do_auth, make_challenge, make_auth_challenge, make_response, make_auth_response.
  same_auto.
Qed.
#[local] Hint Resolve same_do_auth : same.
Lemma same_open_connection u e : both (open_connection identity u e).
Proof. unfold open_connection, registry_add, spawn. same_auto. Qed.
Lemma same_registry_get id : both (registry_get id).
Proof. unfold registry_get. same_auto. Qed.
#[local] Hint Resolve same_open_connection same_registry_get : same.
Lemma same_connect a : both (connect identity a).
Proof. unfold connect. same_auto. Qed.
Lemma same_connect_to_node n a : both (connect_to_node identity n a).
Proof. unfold connect_to_node. same_auto. Qed.
Lemma same_peer_send conn p : both (peer_send conn p).
Proof. unfold peer_send. same_auto. Qed.
#[local] Hint Resolve same_connect same_connect_to_node same_peer_send : same.
Lemma same_send_via conn p : both (send_via identity conn p).
Proof. unfold send_via. same_auto. Qed.
Lemma same_send_to id p : both (send_to identity id p).
Proof. unfold send_to, registry_remove. same_auto. Qed.
Lemma same_end_loop conn : both (end_loop conn).
Proof. unfold end_loop, registry_remove. same_auto. Qed.
#[local] Hint Resolve same_send_via same_send_to same_end_loop : same.
Lemma same_accept w : both (accept identity w).
Proof. unfold accept, registry_add, spawn. same_auto. Qed.

Lemma same_deliver_local p : both (deliver_local identity has_handler p).
Proof. unfold deliver_local, on_message. same_auto. Qed.
Lemma same_send_by_connecting n p : both (send_by_connecting identity n p).
Proof. unfold send_by_connecting. same_auto. Qed.
#[local] Hint Resolve same_deliver_local same_send_by_connecting : same.
Lemma same_send_to_node n p : both (send_to_node identity has_handler n p).
Proof. unfold send_to_node. same_auto. Qed.
#[local] Hint Resolve same_send_to_node : same.
Lemma same_route p : both (route identity has_handler p).
Proof. unfold route, send_visiting. same_auto. Qed.
#[local] Hint Resolve same_route : same.
Lemma same_flush_buffer c : both (flush_buffer identity has_handler c).
Proof. unfold flush_buffer, flush_one. same_auto. Qed.

Lemma same_ping_node e : both (ping_node identity e).
Proof. unfold ping_node, make_ping. same_auto. Qed.
Lemma same_exchange e : both (exchange identity e).
Proof. unfold exchange, make_gossip. same_auto. Qed.
#[local] Hint Resolve same_flush_buffer same_ping_node same_exchange : same.
Lemma same_round : both (round identity).
Proof. unfold round. same_auto. Qed.
Lemma same_merge_entry n : both (merge_entry n).
Proof. unfold merge_entry. same_auto. Qed.
#[local] Hint Resolve same_round same_merge_entry : same.

Lemma same_dispatch p conn : both (dispatch identity has_handler p conn).
Proof.
  unfold dispatch, handle_ping, make_pong, handle_pong, handle_gossip, handle_node_remove,
    handle_node_leaving, registry_pop, registry_remove, handle_presence_query,
    handle_cell_register. same_auto.
Qed.
Lemma same_send_message to text from : both (send_message identity has_handler to text from).
Proof. unfold send_message, encrypt. same_auto. Qed.

Lemma same_on_event e : both (on_event identity has_handler e).
Proof.
  destruct e; cbn [on_event].
  - apply same_accept.
  - apply same_catch; [|intros; apply same_end_loop]. unfold recv_frame.
    same_auto. apply same_dispatch.
  - apply same_end_loop.
  - unfold end_incoming, registry_remove. same_auto.
  - unfold loop_turn. same_auto.
  - unfold start, Transport.start, Gossip.start. same_auto.
  - unfold stop, Gossip.stop, Transport.stop, close_server, end_handler, end_loop, end_incoming,
      registry_remove, registry_all, peer_close, close_storage. same_auto.
  - unfold join. same_auto.
  - apply same_send_message.
  - unfold register_cell_locally. same_auto.
Qed.
End node_same.

(** ** Properties *)

Section properties.
Context `{!MsgPack} `{!PyRepr} `{!Ed25519} `{!E2E} {env : Env}.
Context (identity : NodeIdentity) (has_handler : bool).

(** C1: a node is consistent however its coroutines interleave.  The event loop
    may suspend a handler at every [await] and run any other task meanwhile;
    whatever the order of the turns, the tables keep distinct primary keys and
    their NOT NULL columns, messages expire 72 hours after they were stored, a node
    is offline exactly when it has missed three pings in a row, every cell is
    filed under the hexadecimal form of its key, and every registered connection
    under the hexadecimal form of the key of its peer. *)
Theorem interleaved_node_inv c :
  interleaved identity has_handler c → node_inv (w_st (cf_world c)).
Proof.
  intros (d & k & Hd & Hrtc).
  by eapply (turns_from identity has_handler anything None), turns_named.
Qed.

(** C14: a node lists whom it was told of.  Take any set of identifiers that contains
    those in the table to begin with; those that GOSSIP packets list which verify under
    the key of the connection they arrive on; and, if the node is told to join an
    address, those that spell a key under which a response that the node received
    verifies, to a nonce that the node drew.  Then, however the node's coroutines
    interleave, its table lists members of this set only.  Connecting to the node, or
    sending it anything else, does not make it list anybody. *)
Theorem only_announced_nodes allowed d k c :
  db_inv d → lists_only allowed d →
  rtc (λ c1 c2, turn identity has_handler c1 c2 ∧ tasks_name allowed c2)
    (mkConfig (mkWorld k [] (new_node d)) []) c →
  lists_only allowed (ns_db (w_st (cf_world c))).
Proof.
  intros Hd Ha Hrtc. eapply steps_list, Ha.
  by eapply (turns_from identity has_handler allowed None).
Qed.

(** C13: a node serves its own cells, and no others.  A node whose database knows
    cells of its own only, such as a new one, will never know others, however its
    coroutines interleave, and never puts a message into its buffer.  To route a
    packet to a cell, whatever node its address names, it writes to no connection
    but the cell's own, dials nobody, and changes no table; a packet for a cell
    that is not registered here vanishes without a trace. *)
Theorem own_cells_only d k c :
  db_inv d → homed_only (nid identity) d →
  rtc (turn identity has_handler) (mkConfig (mkWorld k [] (new_node d)) []) c →
  let w := cf_world c in
  homed_only (nid identity) (ns_db (w_st w)) ∧
  message_buffer (ns_db (w_st w)) `sublist_of` message_buffer d ∧
  ∀ pkt cell n, parse_addr (to_addr pkt) = Ok (Some cell, n) →
    let w' := (route (m:=M NodeState) identity has_handler pkt w).2 in
    ns_db (w_st w') = ns_db (w_st w) ∧
    (∃ l, w_trace w' = w_trace w ++ l ∧
       Forall (λ x, ∃ conn frame, ns_conns (w_st w) !! cell = Some conn ∧
         x = IoSend (ws conn) frame) l) ∧
    (presence_of cell (w_st w) = None →
     select_pk cell_key cell (cells (ns_db (w_st w))) = None →
     route (m:=M NodeState) identity has_handler pkt w = (Ok (), w)).
Proof.
  intros Hd Hh Hrtc w.
  destruct (turns_from identity has_handler anything (Some (nid identity)) d k c)
    as [_ Hsteps]; [naive_solver|done|done|by apply turns_named|].
  destruct (steps_homed _ _ _ _ Hsteps Hh) as [Hhome Hbuf].
  split; [done|]. split; [done|]. intros pkt cell n Ha w'.
  destruct (route_serves identity has_handler pkt cell n w Hhome Ha) as [Hdb Ht].
  split; [done|]. split; [done|]. intros. by apply (route_unknown _ _ _ cell n).
Qed.

(** A handler that nobody interrupts computes what its straight-line reading
    says.  Resuming the handler of any event until it is over, with no other task
    in between, gives the result, the frames and the state of running its code
    from the first statement to the last; and the sequential system is the
    interleaved one in which every task is left alone. *)
Theorem uninterrupted_handler e (w : World NodeState) :
  complete (on_event (m:=Res NodeState) identity has_handler e) w =
    on_event (m:=M NodeState) identity has_handler e w ∧
  (enabled e (w_st w) → rtc (turn identity has_handler) (mkConfig w [])
     (mkConfig (on_event (m:=M NodeState) identity has_handler e w).2 [])).
Proof.
  pose proof (same_on_event identity has_handler e w) as Hc.
  split; [done|]. intros He. eapply rtc_l; [apply (turn_begin _ _ e w []); [done|constructor]|].
  rewrite <-Hc. eapply (rtc_congruence id); [apply turn_progress|]. apply (alone e _ [] []).
Qed.

(** Handlers end.  When no new event arrives, then in whatever order the
    tasks are resumed the system comes to rest: from every configuration there is
    no infinite sequence of turns, and a configuration in which a task is left can
    take another turn. *)
Theorem tasks_end :
  well_founded (flip (progress (S:=NodeState) (E:=event))) ∧
  ∀ c : Config, cf_tasks c ≠ [] → ∃ c', progress c c'.
Proof. split; [apply progress_wf|apply progress_exists]. Qed.
End properties.

(** ** Witnesses *)

Module InterleavingWitnesses.
Import Samples NodeWitnesses.

(** The node starts, and while it does so a cell of the embedder registers. *)
Definition fresh : World NodeState := mkWorld 0 [] (new_node empty_db).
Definition cell_key : SigningKeypair := sample_signing "008".
Definition own_cell : event :=
  RegisterLocally (bytes_hex (sk_public cell_key)) (sk_public cell_key) ["009"%byte].
Definition both_begun : Config :=
  mkConfig fresh (begin_task (env:=calm_env) me false <$> [Start; own_cell]).
Definition in_turns : Config :=
  default both_begun (run_schedule [0; 1; 0; 1; 1; 0] both_begun).

Lemma in_turns_reached :
  run_schedule [0; 1; 0; 1; 1; 0] both_begun = Some in_turns.
Proof.
  unfold in_turns. destruct (run_schedule _ _) eqn:E; [reflexivity|].
  apply (f_equal (from_option (λ _, true) false)) in E. vm_compute in E. discriminate.
Qed.

Lemma interleaved_node_inv_witness :
  lf_server (ns_life (w_st (cf_world in_turns))) = Active ∧
  length (cells (ns_db (w_st (cf_world in_turns)))) = 1 ∧ length (cf_tasks in_turns) = 1 ∧
  node_inv (w_st (cf_world in_turns)).
Proof.
  split; [vm_compute; reflexivity|]. split; [vm_compute; reflexivity|].
  split; [vm_compute; reflexivity|].
  apply (interleaved_node_inv (env:=calm_env) me false). exists empty_db, 0.
  split; [apply empty_db_inv|].
  eapply rtc_l; [apply (turn_begin _ _ Start); [reflexivity|constructor]|].
  eapply rtc_l; [apply (turn_begin _ _ own_cell); [by split|constructor; [by left|constructor]]|].
  exact (run_schedule_turns me false _ _ _ in_turns_reached).
Defined.

(** The node joins an address where [bob] answers, and a cell registers meanwhile. *)
Definition bob : NodeIdentity := TransportWitnesses.bob.
Definition bobs_frames : nat → result bytes := λ i,
  if decide (i = 5) then first_frame (E:=calm_env) bob VNone 0
  else if decide (i = 9)
    then second_frame (E:=calm_env) bob (nid me) (o_random calm Auth.NONCE_SIZE) 0
  else Raise ConnectionClosed.
Definition bob_answers : Env := recv_env bobs_frames.
Definition join_begun : Config :=
  mkConfig fresh (begin_task (env:=bob_answers) me false <$> [Join "h:1"; own_cell]).
Definition join_schedule : list nat := replicate 10 0 ++ [1; 0; 1; 0; 1; 0; 0; 0].
Definition joined : Config := default join_begun (run_schedule join_schedule join_begun).

Lemma joined_reached : run_schedule join_schedule join_begun = Some joined.
Proof.
  unfold joined. destruct (run_schedule _ _) eqn:E; [reflexivity|].
  apply (f_equal (from_option (λ _, true) false)) in E. vm_compute in E. discriminate.
Qed.
Lemma only_bob_answers key : proved (H3:=bob_answers) key → bytes_hex key = nid bob.
Proof.
  intros (j & raw & Hr & i & resp & sg & epk & Hu & Ht & Hf & _). revert Hr.
  unfold outcome, bob_answers, recv_env, bobs_frames. simpl. repeat case_decide; [| |done].
  - intros Hr. vm_compute in Hr. injection Hr as <-. vm_compute in Hu. injection Hu as <-. discriminate.
  - intros Hr. vm_compute in Hr. injection Hr as <-. vm_compute in Hu. injection Hu as <-.
    vm_compute in Hf. injection Hf as _ <- _. vm_compute. reflexivity.
Qed.

Lemma only_announced_nodes_witness :
  length (node_table (ns_db (w_st (cf_world joined)))) = 1 ∧
  lists_only (λ i, i = VStr (nid bob)) (ns_db (w_st (cf_world joined))).
Proof.
  split; [vm_compute; reflexivity|].
  apply (only_announced_nodes (env:=bob_answers) me false (λ i, i = VStr (nid bob)) empty_db 0);
    [apply empty_db_inv|constructor|].
  assert (∀ key, proved (H3:=bob_answers) key → VStr (bytes_hex key) = VStr (nid bob)) as Hbob.
  { intros key Hk. f_equal. by apply only_bob_answers. }
  eapply rtc_l; [split; [apply (turn_begin _ _ (Join "h:1")); [reflexivity|constructor]|]|].
  { constructor; [exact Hbob|constructor]. }
  eapply rtc_l; [split; [apply (turn_begin _ _ own_cell); [by split|constructor; [by left|constructor]]|]|].
  { constructor; [exact Hbob|]. constructor; [exact I|constructor]. }
  apply (run_schedule_names me false _ _ _ _ joined_reached).
  constructor; [exact Hbob|]. constructor; [exact I|constructor].
Defined.

(** A message for a cell whose home, the address says, is another node. *)
Definition elsewhere : Packet :=
  mkPacket T.MSG (VBin []) "m1" "x@h" "cell@other" (VBin []) (VInt 3) (VInt 1).

Lemma own_cells_only_witness :
  length (cells (ns_db (w_st (cf_world in_turns)))) = 1 ∧
  message_buffer (ns_db (w_st (cf_world in_turns))) = [] ∧
  route (m:=M NodeState) (env:=calm_env) me false elsewhere (cf_world in_turns) =
    (Ok (), cf_world in_turns).
Proof.
  split; [vm_compute; reflexivity|].
  destruct (own_cells_only (env:=calm_env) me false empty_db 0 in_turns) as (_ & Hbuf & Hroute).
  - apply empty_db_inv.
  - constructor.
  - eapply rtc_l; [apply (turn_begin _ _ Start); [reflexivity|constructor]|].
    eapply rtc_l; [apply (turn_begin _ _ own_cell); [by split|constructor; [by left|constructor]]|].
    exact (run_schedule_turns me false _ _ _ in_turns_reached).
  - split; [by apply sublist_nil_r in Hbuf|].
    destruct (Hroute elsewhere "cell" (VStr "other") eq_refl) as (_ & _ & Hrun).
    apply Hrun; vm_compute; reflexivity.
Defined.

Lemma uninterrupted_handler_witness :
  rtc (turn (env:=calm_env) me false) (mkConfig fresh [])
    (mkConfig (on_event (m:=M NodeState) (env:=calm_env) me false own_cell fresh).2 []).
Proof. apply (uninterrupted_handler (env:=calm_env) me false own_cell fresh). by split. Defined.

Lemma tasks_end_witness : ∃ c', progress in_turns c'.
Proof. apply tasks_end. vm_compute. discriminate. Defined.
End InterleavingWitnesses.
