(* ===== verification/Races.v ===== *)
(** * Races between coroutines

    What a handler read before an [await] need not hold after it.  Two handlers
    of the node act on such a reading: the merge of a gossiped table looks an
    identifier up and then inserts it, and the router reads the presence of a
    cell, tries to deliver, and then stores the message.  This file shows, for
    any contents, a schedule of two tasks in which the reading is stale. *)
From S2P Require Import Prelude PyVal Interfaces Effects Resumption Tasks Crypto Protocol Auth Identity Table Storage Transport Router Gossip Node Interleaving.
From S2P Require Samples.

(** [m] first hands over, then reads [f] of the state and hands over again; with
    what it read, it goes on as [k] says, if nobody interrupts it any more. *)
Definition reads {S A B} (m : Res S A) (f : S → B) (k : B → M S A) : Prop :=
  ∃ m1, (∀ w, resume m w = (inr m1, w)) ∧
    ∀ w, ∃ m2, resume m1 w = (inr m2, w) ∧ same (k (f (w_st w))) m2.

Section reads.
Context {S : Type}.

Lemma reads_await {B} (f : S → B) : reads (await (gets f)) f mret.
Proof.
  eexists. split; [done|]. intros w. eexists. split; [done|]. intros w'. done.
Qed.

Lemma resume_lift_bind {A B} (r : result A) a (g : A → Res S B) w :
  r = Ok a → resume (lift r ≫= g) w = resume (g a) w.
Proof. by intros ->. Qed.

Lemma reads_lift {A B C} (r : result A) a (g : A → Res S B) (f : S → C) k :
  r = Ok a → reads (g a) f k → reads (lift r ≫= g) f k.
Proof.
  intros Hr (m1 & H1 & H2). exists m1. split; [|done]. intros w.
  by rewrite (resume_lift_bind _ _ _ _ Hr).
Qed.

Lemma reads_bind {A B C} (x : Res S A) (g : A → M S B) (g' : A → Res S B) (f : S → C) k :
  reads x f k → (∀ a, same (g a) (g' a)) → reads (x ≫= g') f (λ c, k c ≫= g).
Proof.
  intros (m1 & H1 & H2) Hg. exists (m1 ≫= g'). split.
  - intros w. unfold mbind, Res_bind. by rewrite resume_then, H1.
  - intros w. destruct (H2 w) as (m2 & Hr & Hs). exists (m2 ≫= g'). split.
    + unfold mbind, Res_bind. by rewrite resume_then, Hr.
    + by apply same_bind.
Qed.

Lemma reads_ext {A B} (m : Res S A) (f : S → B) k k' :
  reads m f k → (∀ b w, k b w = k' b w) → reads m f k'.
Proof.
  intros (m1 & H1 & H2) Hk. exists m1. split; [done|]. intros w.
  destruct (H2 w) as (m2 & Hr & Hs). exists m2. split; [done|]. intros w'. by rewrite Hs.
Qed.

Lemma reads_catch {A C} (x : Res S A) (h : exn → M S A) (h' : exn → Res S A) (f : S → C) k :
  reads x f k → (∀ e, same (h e) (h' e)) → reads (catch x h') f (λ c, catch (k c) h).
Proof.
  intros (m1 & H1 & H2) Hh. exists (catch m1 h'). split.
  - intros w. unfold catch, Res_catch. by rewrite resume_then, H1.
  - intros w. destruct (H2 w) as (m2 & Hr & Hs). exists (catch m2 h'). split.
    + unfold catch, Res_catch. by rewrite resume_then, Hr.
    + by apply same_catch.
Qed.
End reads.

Section schedule.
Context `{!MsgPack} `{!PyRepr} `{!Ed25519} `{!E2E} {env : Env}.
Context (identity : NodeIdentity) (has_handler : bool).
Implicit Types (w : World NodeState).
Abbreviation handler e := (on_event (m:=M NodeState) identity has_handler e).

(** Task [A] reads; task [B] runs from its start to its end; [A] goes on. *)
Lemma read_run_go_on {C} A B (f : NodeState → C) k w :
  reads (on_event identity has_handler A) f k →
  enabled A (w_st w) → enabled B (w_st w) → loop_of A ≠ loop_of B ∨ loop_of B = None →
  let w1 := (handler B w).2 in
  let w2 := (k (f (w_st w)) w1).2 in
  ∃ T, rtc (turn identity has_handler) (mkConfig w []) (mkConfig w1 T) ∧
    rtc (turn identity has_handler) (mkConfig w1 T) (mkConfig w2 []).
Proof.
  intros (m1 & Hr1 & Hr2) HA HB Hloop w1 w2. destruct (Hr2 w) as (m2 & Hm & Hs).
  exists [mkTask A m2]. split.
  - eapply rtc_l; [apply (turn_begin _ _ A w []); [done|constructor]|].
    eapply rtc_l; [apply (turn_progress _ _ (mkConfig w [begin_task identity has_handler A])
      (mkConfig w [mkTask A m1])), (progress_await A _ m1 [] []), Hr1|].
    eapply rtc_l; [apply (turn_progress _ _ (mkConfig w [mkTask A m1])
      (mkConfig w [mkTask A m2])), (progress_await A _ m2 [] []), Hm|].
    eapply rtc_l; [apply (turn_begin _ _ B w [mkTask A m2]); [done|]|].
    { constructor; [|constructor]. simpl. naive_solver. }
    unfold w1. rewrite <-(same_on_event identity has_handler B w).
    eapply (rtc_congruence id); [apply turn_progress|].
    apply (alone B _ [mkTask A m2] []).
  - eapply (rtc_congruence id); [apply turn_progress|].
    unfold w2. rewrite <-(Hs w1). apply (alone A m2 [] []).
Qed.

(** A frame whose handler begins with a reading. *)
Lemma reads_frame {C} conn raw p (f : NodeState → C) k :
  unpack raw = Ok p → verify_packet p (peer_signing_pubkey conn) = Ok true →
  reads (dispatch identity has_handler p conn) f k →
  reads (on_event identity has_handler (Frame conn raw)) f
    (λ c, catch (catch (k c) (λ _, mret ())) (λ _, end_loop conn)).
Proof.
  intros Hu Hv Hd. cbn [on_event]. apply reads_catch; [|intros _; apply same_end_loop].
  unfold recv_frame. apply (reads_lift _ p); [done|]. apply (reads_lift _ true); [done|].
  apply reads_catch; [done|]. intros e. apply same_ret.
Qed.
End schedule.

(** ** Two tables that list the same new node *)

Section merge_race.
Context `{!MsgPack} `{!PyRepr} `{!Ed25519} `{!E2E} {env : Env}.
Context (identity : NodeIdentity) (has_handler : bool).
Implicit Types (w : World NodeState).

(** What [merge_entry] does with a row once it has looked it up. *)
Definition merge_rest (id addr n : pyval) (existing : option NodeEntry) : M NodeState unit :=
  match existing with
  | Some _ => mret ()
  | None =>
      t ← lift (py_get n "type" "permanent");
      a ← lift (py_get n "access" "closed");
      seen ← time;
      added ← time;
      upsert_node (new_entry id addr t a seen added) ;;
      lift (py_slice8 id)
  end.

Lemma reads_merge_entry e i a :
  plain e → node_id e = VStr i → address e = VStr a →
  reads (merge_entry (to_dict e)) (entry_of i) (merge_rest (VStr i) (VStr a) (to_dict e)).
Proof.
  intros ((i' & Hi & Hi0) & (a' & Ha & Ha0) & _) Hid Haddr.
  assert (i' = i ∧ a' = a) as [-> ->] by (split; congruence).
  unfold merge_entry.
  apply (reads_lift _ (VStr i)); [by rewrite <-Hi|]. apply (reads_lift _ (VStr a)); [by rewrite <-Ha|].
  assert (truthy (VStr i) = true ∧ truthy (VStr a) = true) as [-> ->].
  { simpl. by rewrite !bool_decide_false. }
  cbn [negb orb]. unfold get_node. eapply reads_ext.
  - eapply (reads_bind _ (merge_rest (VStr i) (VStr a) (to_dict e))).
    + apply (reads_lift _ (VStr i)); [done|]. apply reads_await.
    + intros [old|]; [apply same_ret|]. unfold merge_rest. same_auto.
  - done.
Qed.

(** The rest, for an identifier that was not found. *)
Lemma merge_rest_run e i a t c w :
  ntype e = VStr t → access e = VStr c → node_id e = VStr i → address e = VStr a →
  ∃ j n k, merge_rest (VStr i) (VStr a) (to_dict e) None w = (Ok (), mkWorld k (w_trace w)
    (set_db (exec (UpsertNode (new_entry (VStr i) (VStr a) (VStr t) (VStr c)
      (o_time (outcome j)) n)) (ns_db (w_st w))) (w_st w))).
Proof.
  intros Ht Hc Hi Ha. unfold merge_rest.
  rewrite (run_lift (py_get (to_dict e) "type" "permanent") _ _ (VStr t)) by by rewrite <-Ht.
  rewrite (run_lift (py_get (to_dict e) "access" "closed") _ _ (VStr c)) by by rewrite <-Hc.
  unfold time. rewrite bindE, askE, bindE, askE.
  match goal with |- context [(upsert_node (new_entry _ _ _ _ ?s ?n) ≫= ?f) ?w0] =>
    destruct (run_upsert_new i a t c s n w0) as (n' & k & Hrun) end.
  rewrite (run_bind _ _ _ _ _ Hrun). exists (w_tick w), n', k. done.
Qed.

Lemma upserted_row e d k :
  node_id e = VStr k →
  ∃ r, select_pk node_key (VStr k) (node_table (exec (UpsertNode e) d)) = Some r ∧
    address r = address e ∧ status r = status e.
Proof.
  intros Hk. assert (node_key e = Some (VStr k)) as Hk' by (unfold node_key; by rewrite Hk).
  simpl. rewrite <-to_map_lookup, (to_map_upsert node_key _ _ _ (VStr k)) by done.
  rewrite lookup_insert_eq. eexists. split; [done|]. by destruct (to_map _ _ !! _).
Qed.

(** A verified frame with the table of an honest peer, run in one go. *)
Lemma gossip_frame_run conn raw p e i w :
  unpack raw = Ok p → verify_packet p (peer_signing_pubkey conn) = Ok true →
  type p = VStr T.GOSSIP → gossip_nodes p = Ok (VList [to_dict e]) → plain e →
  node_id e = VStr i →
  merged i (entry_of i (w_st w)) (Some e)
    (w_st (on_event (m:=M NodeState) identity has_handler (Frame conn raw) w).2).
Proof.
  intros Hu Hv Ht Hg He Hi. cbn [on_event].
  rewrite (run_catch _ _ _ () (dispatch (m:=M NodeState) identity has_handler p conn w).2)
    by by apply recv_verified.
  rewrite dispatch_gossip by done. unfold handle_gossip. rewrite Hg.
  destruct (merge_all_plain [e] w) as (w' & Hrun & _ & Hm); [by constructor|].
  cbn [py_iter]. rewrite (run_lift _ _ _ _ eq_refl). change ([to_dict e]) with (to_dict <$> [e]).
  rewrite Hrun. specialize (Hm i).
  simpl in Hm. unfold node_key in Hm. rewrite Hi in Hm. simpl in Hm.
  by rewrite decide_True in Hm by done.
Qed.

(** Handled in one go, an event leaves the row of [i] alone if there is one. *)
Definition leaves_row (i : string) (e : event) : Prop :=
  ∀ w r, entry_of i (w_st w) = Some r →
    entry_of i (w_st (on_event (m:=M NodeState) identity has_handler e w).2) = Some r.

Lemma gossip_frame_leaves conn raw p e i :
  unpack raw = Ok p → verify_packet p (peer_signing_pubkey conn) = Ok true →
  type p = VStr T.GOSSIP → gossip_nodes p = Ok (VList [to_dict e]) → plain e →
  node_id e = VStr i → leaves_row i (Frame conn raw).
Proof.
  intros Hu Hv Ht Hg He Hi w r Hr.
  pose proof (gossip_frame_run conn raw p e i w Hu Hv Ht Hg He Hi) as Hm.
  by rewrite Hr in Hm.
Qed.

(** C33: gossip can overwrite a node that it found.  [handle_gossip] looks an
    identifier up and, if it is unknown, inserts it; but the look-up and the
    insertion are separate [await]s.  If two peers gossip a node that is new to
    us under different addresses, the second frame can be handled in between:
    the row that it adds is then overwritten with the first peer's address.
    Handled without interruption neither frame changes a row that exists, so in
    either order the row of the first frame would stay. *)
Theorem gossip_merge_race connA rawA pA eA connB rawB pB eB i w :
  unpack rawA = Ok pA → verify_packet pA (peer_signing_pubkey connA) = Ok true →
  type pA = VStr T.GOSSIP → gossip_nodes pA = Ok (VList [to_dict eA]) → plain eA →
  unpack rawB = Ok pB → verify_packet pB (peer_signing_pubkey connB) = Ok true →
  type pB = VStr T.GOSSIP → gossip_nodes pB = Ok (VList [to_dict eB]) → plain eB →
  node_id eA = VStr i → node_id eB = VStr i → entry_of i (w_st w) = None →
  enabled (Frame connA rawA) (w_st w) → enabled (Frame connB rawB) (w_st w) → connA ≠ connB →
  leaves_row i (Frame connA rawA) ∧ leaves_row i (Frame connB rawB) ∧
  ∃ T w1 w2 r1 r2,
    rtc (turn identity has_handler) (mkConfig w []) (mkConfig w1 T) ∧
    entry_of i (w_st w1) = Some r1 ∧ address r1 = address eB ∧
    rtc (turn identity has_handler) (mkConfig w1 T) (mkConfig w2 []) ∧
    entry_of i (w_st w2) = Some r2 ∧ address r2 = address eA.
Proof.
  intros HuA HvA HtA HgA HeA HuB HvB HtB HgB HeB HiA HiB Hnone HA HB Hne.
  split; [by eapply gossip_frame_leaves|]. split; [by eapply gossip_frame_leaves|].
  pose proof HeA as (_ & (a & Ha & _) & (t & Ht) & (c & Hc)).
  assert (∃ k, reads (on_event identity has_handler (Frame connA rawA)) (entry_of i) k ∧
    ∀ w1, k None w1 = (Ok (), (merge_rest (VStr i) (VStr a) (to_dict eA) None w1).2)) as (k & Hk & Hrest).
  { eexists. split.
    - eapply reads_frame; [done..|]. unfold dispatch. rewrite HtA.
      repeat rewrite decide_False by discriminate. rewrite decide_True by done.
      unfold handle_gossip. rewrite HgA. apply (reads_lift _ [to_dict eA]); [done|].
      cbn [for_each]. eapply (reads_bind _ (λ _, mret ())); [by apply reads_merge_entry|].
      intros; apply same_ret.
    - intros w1. destruct (merge_rest_run eA i a t c w1) as (j & n & k & Hrun); [done..|].
      by rewrite !catchE, bindE, Hrun. }
  pose proof (gossip_frame_run connB rawB pB eB i w HuB HvB HtB HgB HeB HiB) as HmB.
  rewrite Hnone in HmB. destruct HmB as (jB & nB & Hr1).
  set (w1 := (on_event (m:=M NodeState) identity has_handler (Frame connB rawB) w).2) in *.
  destruct (read_run_go_on identity has_handler (Frame connA rawA) (Frame connB rawB) (entry_of i)
    k w Hk HA HB) as (T & HT1 & HT2); [left; simpl; congruence|]. fold w1 in HT1, HT2.
  rewrite Hnone, Hrest in HT2.
  destruct (merge_rest_run eA i a t c w1) as (j & n & k' & Hrun); [done..|]. rewrite Hrun in HT2.
  simpl in HT2.
  destruct (upserted_row (new_entry (VStr i) (VStr a) (VStr t) (VStr c) (o_time (outcome j)) n)
    (ns_db (w_st w1)) i) as (r2 & Hr2 & Ha2 & _); [done|].
  do 5 eexists. split_and!; [exact HT1|exact Hr1|done|exact HT2|exact Hr2|].
  by rewrite Ha2, Ha.
Qed.
End merge_race.

(** ** A message for a cell that registers meanwhile *)

Section lost_wakeup.
Context `{!MsgPack} `{!PyRepr} `{!Ed25519} `{!E2E} {env : Env}.
Context (identity : NodeIdentity) (has_handler : bool).
Implicit Types (w : World NodeState).

(** The registration of a cell for which nothing is buffered. *)
Lemma register_frame_run conn raw p ep h w :
  let c := peer_node_id conn in
  unpack raw = Ok p → verify_packet p (peer_signing_pubkey conn) = Ok true →
  type p = VStr T.CELL_REGISTER →
  register_fields p = Ok (VStr c, peer_signing_pubkey conn, ep, h) →
  (∀ m, m ∈ message_buffer (ns_db (w_st w)) → to_cell m ≠ c) →
  ∃ k t t', on_event (m:=M NodeState) identity has_handler (Frame conn raw) w =
    (Ok (), mkWorld k (w_trace w) (set_db
      (exec (UpdatePresence (mkPresence c (nid identity) None t))
         (exec (RegisterCell (mkCell c (peer_signing_pubkey conn) ep t' h)) (ns_db (w_st w))))
      (w_st w))).
Proof.
  intros c Hu Hv Ht Hf Hno. cbn [on_event].
  assert (∀ d, message_buffer d = message_buffer (ns_db (w_st w)) → ∀ now,
    filter (deliverable c now) (message_buffer d) = []) as Hempty.
  { intros d -> now. apply elem_of_nil_inv. intros m [[Hm _] Hin]%list_elem_of_filter.
    by apply (Hno m). }
  erewrite run_catch; [|by apply recv_verified]. rewrite dispatch_register by done.
  unfold handle_cell_register. rewrite Hf, !decide_False by (intros Hx; by apply Hx). cbv zeta.
  fold c. erewrite (run_bind (register_cell c _ _ _)) by reflexivity.
  erewrite (run_bind (update_presence c _ _)) by reflexivity.
  unfold flush_buffer, get_buffered, time, query. run_simpl. rewrite Hempty by done.
  do 3 eexists. reflexivity.
Qed.

(** What [route] does once it has read the presence of the cell [c]. *)
Definition route_rest (pkt : Packet) (c : string) (presence : option PresenceEntry) : M NodeState unit :=
  match presence with
  | None =>
      cell ← get_cell (VStr c);
      match cell with
      | Some _ => deliver_local identity has_handler pkt ;; mret ()
      | None => mret ()
      end
  | Some p =>
      '(sent, pkt) ← send_visiting identity has_handler p pkt;
      if sent : bool then mret () else
      '(sent, pkt) ← send_to_node identity has_handler (VStr (home_node_id p)) pkt;
      if sent : bool then mret () else
      lift (py_slice8 (pid pkt)) ;;
      data ← lift (serialize_packet pkt);
      buffer_message (pid pkt) c (home_node_id p) data
  end.

Lemma reads_route pkt c n :
  parse_addr (to_addr pkt) = Ok (Some c, n) →
  reads (route identity has_handler pkt) (presence_of c) (route_rest pkt c).
Proof.
  intros Ha. unfold route. apply (reads_lift _ (Some c, n)); [done|]. cbn beta iota.
  unfold get_presence. eapply reads_ext.
  - eapply (reads_bind _ (route_rest pkt c)).
    + apply (reads_lift _ (VStr c)); [done|]. apply reads_await.
    + intros [p|]; unfold route_rest, send_visiting; same_auto;
        first [apply same_send_to_node|apply same_deliver_local].
  - done.
Qed.

(** A message can be left behind for a cell that is online.  A node that
    routes a message for a cell whose last known hops cannot be reached stores it,
    to be flushed when the cell registers; but if the cell connects to this very
    node and registers between the look-up of its presence and the insertion, the
    flush finds nothing and the message stays in the buffer, unsent, while the
    cell is connected, registered and at home here.  It takes a presence record
    that names another node, which this version of the program never writes. *)
Theorem route_register_race `{!MsgPackLaws} connA rawA pkt i b s n p connB rawB reg ep h w :
  let c := peer_node_id connB in
  unpack rawA = Ok pkt → verify_packet pkt (peer_signing_pubkey connA) = Ok true →
  type pkt = VStr T.MSG → parse_addr (to_addr pkt) = Ok (Some c, n) →
  pid pkt = VStr i → payload pkt = VBin b → sig pkt = VBin s → v pkt = VInt PROTO_VERSION →
  packable (buffer_dict pkt) = true →
  presence_of c (w_st w) = Some p →
  Forall (λ g, g ≠ nid identity ∧ unreachable g (w_st w)) (hops p) →
  unpack rawB = Ok reg → verify_packet reg (peer_signing_pubkey connB) = Ok true →
  type reg = VStr T.CELL_REGISTER →
  register_fields reg = Ok (VStr c, peer_signing_pubkey connB, ep, h) →
  ns_conns (w_st w) !! c = Some connB → message_buffer (ns_db (w_st w)) = [] →
  enabled (Frame connA rawA) (w_st w) → enabled (Frame connB rawB) (w_st w) → connA ≠ connB →
  ∃ w2 m, rtc (turn identity has_handler) (mkConfig w []) (mkConfig w2 []) ∧
    w_trace w2 = w_trace w ∧
    message_buffer (ns_db (w_st w2)) = [m] ∧ to_cell m = c ∧
    deserialize_packet (bm_payload m) = Some pkt ∧
    homed_here identity c (w_st w2) ∧ ns_conns (w_st w2) !! c = Some connB.
Proof.
  intros c HuA HvA HtA Ha Hi Hb Hs Hv Hpk Hp Hhops HuB HvB HtB Hf Hc Hbuf HA HB Hne.
  assert (∃ k, reads (on_event identity has_handler (Frame connA rawA)) (presence_of c) k ∧
    ∀ w1 w2, route_rest pkt c (Some p) w1 = (Ok (), w2) → k (Some p) w1 = (Ok (), w2))
    as (k & Hk & Hrest).
  { eexists. split.
    - eapply reads_frame; [done..|]. unfold dispatch. rewrite HtA.
      repeat rewrite decide_False by discriminate. rewrite decide_True by done.
      by eapply reads_route.
    - intros w1 w2 Hrun. cbn beta. by rewrite !catchE, Hrun. }
  destruct (register_frame_run connB rawB reg ep h w) as (k1 & t & t' & HrunB); [done..| |].
  { by rewrite Hbuf; intros m ?%not_elem_of_nil. }
  destruct (read_run_go_on identity has_handler (Frame connA rawA) (Frame connB rawB) (presence_of c)
    k w Hk HA HB) as (T & HT1 & HT2); [left; simpl; congruence|].
  rewrite Hp in HT2. rewrite HrunB in HT1, HT2. cbn [snd] in HT1, HT2. fold c in HT1, HT2.
  match type of HT1 with rtc _ _ (mkConfig ?x _) => set (w1 := x) in * end.
  destruct (hops_buffer identity has_handler pkt i b s c p w1) as (k2 & m & _ & Hrun & Hm & Hto & _ & _ & _ & Hd);
    [exact Hhops|done..|].
  assert (unversioned pkt = pkt) as Hsame by (destruct pkt; simpl in *; by subst).
  assert (message_buffer (ns_db (w_st w1)) = []) as Hempty by (unfold w1; simpl; by rewrite Hbuf).
  unfold buffered in Hrun. rewrite Hempty, Hsame in *. cbn [select_pk] in Hrun.
  rewrite <-hops_run in Hrun. rewrite (Hrest w1 _ Hrun) in HT2. cbn [snd] in HT2.
  eexists _, m. split; [etrans; [exact HT1|exact HT2]|]. simpl. rewrite Hbuf.
  split_and!; try done. by apply registered.
Qed.
End lost_wakeup.

(** ** Witnesses *)

Module RacesWitnesses.
Import Samples NodeWitnesses.

(** A second peer, its connection and a packet that it signs. *)
Definition key2 : SigningKeypair := sample_signing "005".
Definition id2 : string := bytes_hex (sk_public key2).
Definition link2 : PeerConnection := mkConn 9 id2 (sk_public key2) (VBin []) (nid me).
Definition from_second (t from : string) (doc : pyval) : Packet :=
  let p := mkPacket t (VBin (or_else [] (packb doc))) "id" from "" (VBin []) (VInt 3) (VInt 1) in
  or_else p (sign_packet p key2).

Definition two_links (d : DB) (conns : gmap string PeerConnection) : World NodeState :=
  mkWorld 0 [] (mkNodeState d conns [link; link2] [] created).

Definition table_of (e : NodeEntry) : pyval := VDict [(KStr "nodes", VList [to_dict e])].
Definition rowA : NodeEntry := row "n9" "a.example:1" "online" 0.
Definition rowB : NodeEntry := row "n9" "b.example:2" "online" 0.
Definition gossipA : Packet := from_peer T.GOSSIP peer_id (table_of rowA).
Definition gossipB : Packet := from_second T.GOSSIP id2 (table_of rowB).

Lemma gossip_merge_race_witness :
  let w := two_links empty_db ∅ in
  leaves_row (env:=calm_env) me false "n9" (Frame link (frame_of gossipA)) ∧
  leaves_row (env:=calm_env) me false "n9" (Frame link2 (frame_of gossipB)) ∧
  ∃ T w1 w2 r1 r2,
    rtc (turn (env:=calm_env) me false) (mkConfig w []) (mkConfig w1 T) ∧
    entry_of "n9" (w_st w1) = Some r1 ∧ address r1 = address rowB ∧
    rtc (turn (env:=calm_env) me false) (mkConfig w1 T) (mkConfig w2 []) ∧
    entry_of "n9" (w_st w2) = Some r2 ∧ address r2 = address rowA.
Proof.
  intros w.
  refine (gossip_merge_race (env:=calm_env) me false link (frame_of gossipA) gossipA rowA
    link2 (frame_of gossipB) gossipB rowB "n9" w _ _ _ _ _ _ _ _ _ _ _ _ _ _ _ _);
    try (vm_compute; reflexivity).
  - repeat split; eexists; split; try reflexivity; discriminate.
  - repeat split; eexists; split; try reflexivity; discriminate.
  - split; [apply list_elem_of_here|reflexivity].
  - split; [apply list_elem_of_further, list_elem_of_here|reflexivity].
  - intros Hx. vm_compute in Hx. discriminate.
Defined.

(** A message for the second peer, which is registered as a cell that was last
    seen at a node nobody can reach. *)
Definition to_second : Packet :=
  let p := mkPacket "msg" (VBin ["009"%byte]) "m1" "x@n9" (VStr (id2 +:+ "@" +:+ "n7")) (VBin [])
    (VInt 3) (VInt 1) in
  or_else p (sign_packet p peer_key).
Definition sig_of (p : Packet) : bytes := match sig p with VBin b => b | _ => [] end.
Definition claim2 : Packet := from_second T.CELL_REGISTER id2
  (VDict [(KStr "cell_id", VStr id2); (KStr "signing_pubkey", VBin (sk_public key2));
          (KStr "enc_pubkey", VBin ["007"%byte])]).

Lemma route_register_race_witness :
  let w := two_links (mkDB [] [] [mkPresence id2 "n7" None 5] []) {[id2 := link2]} in
  ∃ w2 m, rtc (turn (env:=calm_env) me false) (mkConfig w []) (mkConfig w2 []) ∧
    w_trace w2 = [] ∧ message_buffer (ns_db (w_st w2)) = [m] ∧ to_cell m = id2 ∧
    deserialize_packet (bm_payload m) = Some to_second ∧
    homed_here me id2 (w_st w2) ∧ ns_conns (w_st w2) !! id2 = Some link2.
Proof.
  intros w.
  refine (route_register_race (env:=calm_env) me false link (frame_of to_second) to_second "m1"
    ["009"%byte] (sig_of to_second) "n7" (mkPresence id2 "n7" None 5) link2 (frame_of claim2)
    claim2 ["007"%byte] true w _ _ _ _ _ _ _ _ _ _ _ _ _ _ _ _ _ _ _ _);
    try (vm_compute; reflexivity).
  - constructor; [|constructor]. split.
    + intros Hx. vm_compute in Hx. discriminate.
    + split; [vm_compute; reflexivity|]. left. exact I.
  - split; [apply list_elem_of_here|reflexivity].
  - split; [apply list_elem_of_further, list_elem_of_here|reflexivity].
  - intros Hx. vm_compute in Hx. discriminate.
Defined.
End RacesWitnesses.
