(* ===== verification/Client.v ===== *)
(** * The cell client ([node/client.py])

    A cell connects to a node, authenticates, registers itself, and then sends
    and receives messages that are encrypted from cell to cell.  The last part
    composes the client with the node: a message sent by one cell reaches the
    callback of another. *)
From S2P Require Import Prelude PyVal Interfaces Effects Crypto Protocol Auth Identity Table Storage Transport Router Gossip Node.
From S2P Require Samples.

(** The receiving task: created, in its loop, or finished. *)
Inductive task := Pending | Running | Done.

Record ClientState := mkClient {
  cl_ws : option socket;                   (** [_ws] *)
  cl_node_id : string;
  cl_node_key : bytes;                     (** [_node_signing_pubkey] *)
  cl_task : option task;                   (** [_recv_task] *)
  cl_received : list (pyval * bytes);      (** calls of [on_message] *)
}.

Definition new_client : ClientState := mkClient None "" [] None [].

Definition set_ws (w : option socket) (s : ClientState) : ClientState :=
  mkClient w (cl_node_id s) (cl_node_key s) (cl_task s) (cl_received s).
Definition set_node (id : string) (key : bytes) (s : ClientState) : ClientState :=
  mkClient (cl_ws s) id key (cl_task s) (cl_received s).
Definition set_task (t : option task) (s : ClientState) : ClientState :=
  mkClient (cl_ws s) (cl_node_id s) (cl_node_key s) t (cl_received s).
Definition add_received (m : pyval * bytes) (s : ClientState) : ClientState :=
  mkClient (cl_ws s) (cl_node_id s) (cl_node_key s) (cl_task s) (cl_received s ++ [m]).

(** A callback that records the call, and may raise. *)
Definition recorded `{!Ed25519} `{!E2E} {env : Env} {m : Type → Type} `{!MRet m, !MBind m, !MLift m}
    `{!MModify ClientState m, !MInteract ClientState m, !MAwait m} (from : pyval) (plaintext : bytes) : m unit :=
  modify (add_received (from, plaintext)) ;; await (ask_result o_callback).

Section client.
Context `{!MsgPack} `{!PyRepr} `{!Ed25519} `{!E2E} {env : Env}.
Context {m : Type → Type} `{!MRet m, !MBind m, !MThrow m, !MLift m}.
Context `{!MGets ClientState m, !MModify ClientState m, !MEmit ClientState m}.
Context `{!MInteract ClientState m, !MCatch m, !MFinally m, !MAwait m}.
Context (identity : CellIdentity).
(** [self.on_message] *)
Context (on_message : option (pyval → bytes → m unit)).

(** The module's own [_do_auth]. *)
Definition client_auth (w : socket) (expected_peer_id : pyval) : m (bytes * pyval) :=
  let our_id := cid identity in
  '(challenge, n) ← make_challenge our_id (py_or expected_peer_id "");
  data ← lift (pack challenge);
  ws_send w data ;;
  raw ← ws_recv w;
  their_challenge ← lift (unpack raw);
  if decide (type their_challenge ≠ VStr T.AUTH_CHALLENGE) then throw ValueError else
  their_nonce ← lift (challenge_nonce their_challenge);
  response ← make_response our_id (from_addr their_challenge) their_nonce
    (c_signing identity) (c_encryption identity);
  data ← lift (pack response);
  ws_send w data ;;
  raw ← ws_recv w;
  their_response ← lift (unpack raw);
  if decide (type their_response ≠ VStr T.AUTH_RESPONSE) then throw ValueError else
  res ← lift (verify_response their_response n expected_peer_id);
  match res with
  | None => throw ValueError
  | Some a => mret (ar_signing_pubkey a, ar_enc_pubkey a)
  end.

(** The payload of the registration. *)
Definition registration : pyval := VDict [
  (KStr "cell_id", VStr (cid identity));
  (KStr "signing_pubkey", VBin (sk_public (c_signing identity)));
  (KStr "enc_pubkey", VBin (ek_public (c_encryption identity)));
  (KStr "is_home", VBool true)].

Definition client_connect (addr : string) (expected_node_id : pyval) : m unit :=
  w ← ws_connect ("ws://" +:+ addr);
  '(node_signing_pub, _) ← client_auth w expected_node_id;
  modify (set_node (bytes_hex node_signing_pub) node_signing_pub) ;;
  modify (set_ws (Some w)) ;;
  b ← lift (encode_payload registration);
  node_id ← gets cl_node_id;
  reg ← new_packet T.CELL_REGISTER b (VStr (cid identity)) (VStr node_id);
  reg ← lift (sign_packet reg (c_signing identity));
  data ← lift (pack reg);
  ws_send w data ;;
  modify (set_task (Some Pending)).

(** [cancel] and [await]: the loop's [finally] runs if the loop had begun. *)
Definition cancel_task : m unit :=
  t ← gets cl_task;
  match t with
  | Some Running => await (modify (set_ws None))
  | Some Pending => await (mret ())
  | _ => mret ()
  end ;;
  modify (set_task None).

Definition disconnect : m unit :=
  cancel_task ;;
  w ← gets cl_ws;
  match w with
  | Some w => ws_close w ;; modify (set_ws None)
  | None => mret ()
  end.

(** The property [connected] *)
Definition connected : m bool :=
  w ← gets cl_ws;
  match w with Some _ => ask o_open | None => mret false end.

Definition client_send (to_cell_id to_node_id : string) (recipient_enc_pubkey plaintext : bytes)
    : m unit :=
  up ← connected;
  if up : bool then
    enc ← encrypt plaintext recipient_enc_pubkey;
    b ← lift (encode_payload (sealed enc));
    node_id ← gets cl_node_id;
    pkt ← new_packet T.MSG b (VStr (cid identity +:+ "@" +:+ node_id))
      (VStr (to_cell_id +:+ "@" +:+ to_node_id));
    pkt ← lift (sign_packet pkt (c_signing identity));
    data ← lift (pack pkt);
    w ← gets cl_ws;
    match w with Some w => ws_send w data | None => throw AttributeError end
  else throw RuntimeError.

(** The [try] block of [_handle_msg]. *)
Definition open_message (pkt : Packet) : result bytes :=
  data ← decode_payload (payload pkt);
  c ← py_getitem data "ciphertext"; c ← py_bytes c;
  n ← py_getitem data "nonce"; n ← py_bytes n;
  e ← py_getitem data "ephemeral_pubkey"; e ← py_bytes e;
  decrypt c n e (c_encryption identity).

Definition handle_msg (pkt : Packet) : m unit :=
  match open_message pkt with
  | Raise _ => lift (py_slice8 (from_addr pkt))
  | Ok plaintext =>
      match on_message with
      | Some callback => callback (from_addr pkt) plaintext
      | None => mret ()
      end
  end.

Definition client_dispatch (pkt : Packet) : m unit :=
  if decide (type pkt = VStr T.MSG) then handle_msg pkt else mret ().

(** The body of the receive loop: here every exception ends the loop. *)
Definition client_frame (raw : bytes) : m unit :=
  pkt ← lift (unpack raw);
  key ← gets cl_node_key;
  ok ← lift (verify_packet pkt key);
  if ok : bool then client_dispatch pkt else mret ().

(** The [finally] of [_recv_loop], and the end of its task. *)
Definition end_client_loop : m unit :=
  modify (set_ws None) ;; modify (set_task (Some Done)).

(** [_recv_loop] over the frames that arrive until the socket closes. *)
Definition client_recv_loop (frames : list bytes) : m unit :=
  modify (set_task (Some Running)) ;;
  catch (for_each frames client_frame) (λ _, mret ()) ;;
  end_client_loop.

(** The same loop, one event at a time: a frame, or the end of the socket. *)
Definition client_arrives (a : option bytes) : m unit :=
  t ← gets cl_task;
  match t with
  | None | Some Done => mret ()
  | Some _ =>
      modify (set_task (Some Running)) ;;
      match a with
      | Some raw => catch (client_frame raw) (λ _, end_client_loop)
      | None => end_client_loop
      end
  end.
End client.

(** ** Lemmas *)

(** The handshake uses the keys of an identity only. *)
Definition as_node `{!Ed25519} `{!E2E} (i : CellIdentity) : NodeIdentity :=
  mkNodeIdentity (c_signing i) (c_encryption i) VNone VNone VNone.

Lemma hex_no_at b : str_mem "@" (bytes_hex b) = false.
Proof.
  assert (∀ x s, str_mem "@" s = false →
    str_mem "@" (String (hex_digit (Byte.to_N x / 16)) (String (hex_digit (Byte.to_N x mod 16)) s))
    = false) as Hx by (intros []; done).
  induction b as [|x b IH]; [done|]. by apply Hx.
Qed.

(** Two identifiers joined by an at sign. *)
Lemma atom_ok_address a b :
  length a < 1000 → length b < 1000 → atom_ok (VStr (bytes_hex a +:+ "@" +:+ bytes_hex b)) = true.
Proof.
  intros Ha Hb. unfold atom_ok. rewrite andb_true_r. cbn [scalars_ok].
  assert (∀ x s, utf8_valid s = true →
    utf8_valid (String (hex_digit (Byte.to_N x / 16)) (String (hex_digit (Byte.to_N x mod 16)) s))
    = true) as Hx by (intros []; done).
  rewrite andb_true_iff. split.
  - assert (utf8_valid ("@" +:+ bytes_hex b) = true) as Hat by apply (utf8_hex b).
    clear Ha. induction a as [|x a IH]; [done|]. by apply Hx.
  - apply Z.ltb_lt. rewrite !str_encode_app, !length_app, !hex_length. simpl. lia.
Qed.

Section client_lemmas.
Context `{!MsgPack} `{!PyRepr} `{!Ed25519} `{!E2E} {env : Env}.

Lemma client_auth_do_auth i s e (w : World ClientState) :
  client_auth i s e w =
  (conn ← do_auth (as_node i) s e; mret (peer_signing_pubkey conn, peer_enc_pubkey conn)) w.
Proof.
  unfold client_auth, do_auth. change (nid (as_node i)) with (cid i). cbv zeta. run_simpl.
  destruct (make_challenge (m:=M ClientState) _ _ w) as [[[p n]|x] w1]; [|done]. run_simpl.
  destruct (pack p) as [d|x]; [|done]. run_simpl.
  destruct (ws_send (m:=M ClientState) s d w1) as [[[]|x] w2]; [|done]. run_simpl.
  destruct (ws_recv (m:=M ClientState) s w2) as [[raw|x] w3]; [|done]. run_simpl.
  destruct (unpack raw) as [ch|x]; [|done]. case_decide; [done|]. run_simpl.
  destruct (challenge_nonce ch) as [n'|x]; [|done]. run_simpl.
  change (c_signing i) with (n_signing (as_node i)).
  change (c_encryption i) with (n_encryption (as_node i)).
  destruct (make_response (m:=M ClientState) _ _ _ _ _ w3) as [[q|x] w4]; [|done]. run_simpl.
  destruct (pack q) as [d'|x]; [|done]. run_simpl.
  destruct (ws_send (m:=M ClientState) s d' w4) as [[[]|x] w5]; [|done]. run_simpl.
  destruct (ws_recv (m:=M ClientState) s w5) as [[raw'|x] w6]; [|done]. run_simpl.
  destruct (unpack raw') as [r|x]; [|done]. case_decide; [done|]. run_simpl.
  by destruct (verify_response r n e) as [[a|]|x].
Qed.

(** Signing anew forgets the old signature. *)
Lemma resign p kp q kp' : sign_packet p kp = Ok q → sign_packet q kp' = sign_packet p kp'.
Proof. intros (d & Hd & ->)%sign_packet_spec. unfold sign_packet. by rewrite sign_data_with_sig. Qed.

(** The registration can be encoded, and is read back as what it claims. *)
Lemma registration_encodes `{!MsgPackLaws} i :
  length (sk_public (c_signing i)) = 32 → length (ek_public (c_encryption i)) = 32 →
  ∃ b, encode_payload (registration i) = Ok b ∧ small b = true ∧
    ∀ pkt, payload pkt = VBin b → register_fields pkt =
      Ok (VStr (cid i), sk_public (c_signing i), ek_public (c_encryption i), true).
Proof.
  intros Ls Le. destruct (unpackb_packb (registration i)) as (b & Hb & Hu).
  { unfold packable, registration. change (depth _ <=? 500) with true. rewrite andb_true_r.
    assert (scalars_ok (VStr (cid i)) = true) as Hc by (apply scalars_ok_hex; lia).
    cbn [scalars_ok forallb fst snd] in *. rewrite Hc.
    rewrite (small_length (sk_public (c_signing i)) 32) by done.
    by rewrite (small_length (ek_public (c_encryption i)) 32). }
  exists b. split; [done|]. split.
  - apply packb_size in Hb. unfold registration, cid in Hb.
    cbn [psize foldr fst snd key_size] in Hb. rewrite hex_length, Ls, Le in Hb.
    apply Z.ltb_lt. simpl in Hb. lia.
  - intros pkt Hp. unfold register_fields, decode_payload. rewrite Hp. simpl. by rewrite Hu.
Qed.

(** An encrypted payload can be encoded, and its recipient can open it. *)
Lemma sealed_opens `{!MsgPackLaws} i e plaintext :
  length (ephemeral_pubkey e) = 32 → length (nonce e) = 12 →
  length (ciphertext e) = length plaintext + 16 → (Z.of_nat (length plaintext) < 2^31)%Z →
  decrypt (ciphertext e) (nonce e) (ephemeral_pubkey e) (c_encryption i) = Ok plaintext →
  ∃ b, encode_payload (sealed e) = Ok b ∧ small b = true ∧
    ∀ pkt, payload pkt = VBin b → open_message i pkt = Ok plaintext.
Proof.
  intros He Hn Hc Hp Hd.
  destruct (unpackb_packb (sealed e)) as (b & Hb & Hu).
  { unfold packable, sealed. change (depth _ <=? 500) with true. rewrite andb_true_r.
    cbn [scalars_ok forallb fst snd].
    rewrite (small_length (ephemeral_pubkey e) 32) by done.
    rewrite (small_length (nonce e) 12) by done.
    assert (small (ciphertext e) = true) as -> by (apply Z.ltb_lt; lia). done. }
  exists b. split; [done|]. split.
  - apply packb_size in Hb. unfold sealed in Hb. cbn [psize foldr fst snd key_size] in Hb.
    apply Z.ltb_lt. rewrite He, Hn, Hc in Hb. simpl in Hb. lia.
  - intros pkt Hpl. unfold open_message, decode_payload. rewrite Hpl. simpl. by rewrite Hu.
Qed.

(** A verified message is opened and handed to the callback. *)
Lemma client_receives i raw q plaintext (w : World ClientState) :
  unpack raw = Ok q → verify_packet q (cl_node_key (w_st w)) = Ok true →
  type q = VStr T.MSG → open_message i q = Ok plaintext →
  client_frame i (Some recorded) raw w = (o_callback (outcome (w_tick w)),
    mkWorld (S (w_tick w)) (w_trace w) (add_received (from_addr q, plaintext) (w_st w))).
Proof.
  intros Hu Hv Ht Ho. unfold client_frame. rewrite (run_lift _ _ _ _ Hu).
  erewrite run_bind by reflexivity. rewrite (run_lift _ _ _ _ Hv).
  unfold client_dispatch. rewrite decide_True by done. unfold handle_msg. by rewrite Ho.
Qed.

(** The node of a connected cell forwards a verified message to it. *)
Lemma node_forwards N handler connA connB raw q q' c n frame (w : World NodeState) :
  unpack raw = Ok q → verify_packet q (peer_signing_pubkey connA) = Ok true →
  type q = VStr T.MSG → to_addr q = VStr (c +:+ "@" +:+ n) → str_mem "@" c = false → c ≠ "" →
  homed_here N c (w_st w) → ns_conns (w_st w) !! c = Some connB →
  transport_sign N q = Ok q' → pack q' = Ok frame → o_send (outcome (w_tick w)) = Ok () →
  recv_frame (dispatch N handler) connA raw w =
  (Ok (), mkWorld (S (w_tick w)) (w_trace w ++ [IoSend (ws connB) frame]) (w_st w)).
Proof.
  intros Hu Hv Ht Hto Hat Hc Hh Hconn Hq Hp Hs.
  rewrite (recv_verified _ _ _ _ _ Hu Hv), dispatch_msg by done.
  by rewrite (route_to_live_cell N handler q q' frame c (VStr n) connB w)
    by (done || by rewrite Hto, parse_addr_cell).
Qed.
End client_lemmas.

(** The sockets that [disconnect] closes: none, once the receive loop has begun. *)
Definition closed_sockets (s : ClientState) : list socket :=
  match cl_task s, cl_ws s with
  | Some Running, _ | _, None => []
  | _, Some w => [w]
  end.
Lemma run_disconnect (w : World ClientState) :
  disconnect w = (Ok (), mkWorld (w_tick w) (w_trace w ++ (IoClose <$> closed_sockets (w_st w)))
    (mkClient None (cl_node_id (w_st w)) (cl_node_key (w_st w)) None (cl_received (w_st w)))).
Proof.
  destruct w as [k t [[sk|] id key [[]|] re]];
    unfold disconnect, cancel_task, closed_sockets, gets, M_gets, modify, M_modify, ws_close, await,
      M_await, emit, M_emit, mbind, M_bind; simpl; by rewrite ?app_nil_r.
Qed.

(** *** The receive loop *)

(** What a frame means to a client that knows its node by [key]. *)
Inductive verdict := Dropped | Message (from : pyval) (plaintext : bytes) | Fatal.
Definition client_verdict `{!MsgPack} `{!PyRepr} `{!Ed25519} `{!E2E} (i : CellIdentity)
    (key raw : bytes) : verdict :=
  match unpack raw with
  | Raise _ => Fatal
  | Ok pkt =>
      match verify_packet pkt key with
      | Raise _ => Fatal
      | Ok false => Dropped
      | Ok true =>
          if decide (type pkt = VStr T.MSG) then
            match open_message i pkt with
            | Ok plaintext => Message (from_addr pkt) plaintext
            | Raise _ => match py_slice8 (from_addr pkt) with Ok _ => Dropped | Raise _ => Fatal end
            end
          else Dropped
      end
  end.

(** The messages that the callback is given, which is called at the instants from [k]
    on: those of the frames, in order, up to the first frame that cannot be processed
    or the first call that raises. *)
Fixpoint messages `{!MsgPack} `{!PyRepr} `{!Ed25519} `{!E2E} {env : Env} (i : CellIdentity)
    (key : bytes) (k : nat) (frames : list bytes) : list (pyval * bytes) :=
  match frames with
  | [] => []
  | raw :: frames =>
      match client_verdict i key raw with
      | Fatal => []
      | Dropped => messages i key k frames
      | Message from plaintext =>
          (from, plaintext) ::
          match o_callback (outcome k) with Ok _ => messages i key (S k) frames | Raise _ => [] end
      end
  end.

Section client_loop.
Context `{!MsgPack} `{!PyRepr} `{!Ed25519} `{!E2E} {env : Env}.
Context (i : CellIdentity).

Lemma client_frame_verdict raw (w : World ClientState) :
  match client_verdict i (cl_node_key (w_st w)) raw with
  | Fatal => ∃ e, client_frame i (Some recorded) raw w = (Raise e, w)
  | Dropped => client_frame i (Some recorded) raw w = (Ok (), w)
  | Message from plaintext => client_frame i (Some recorded) raw w =
      (o_callback (outcome (w_tick w)),
       mkWorld (S (w_tick w)) (w_trace w) (add_received (from, plaintext) (w_st w)))
  end.
Proof.
  unfold client_verdict, client_frame. run_simpl.
  destruct (unpack raw) as [pkt|e]; [|by eexists]. run_simpl.
  destruct (verify_packet pkt _) as [[]|e]; [|done|by eexists].
  unfold client_dispatch. case_decide; [|done]. unfold handle_msg.
  destruct (open_message i pkt) as [plaintext|e].
  - done.
  - rewrite liftE. destruct (py_slice8 _) as [[]|e']; [done|by eexists].
Qed.

(** One round of the loop after the other. *)
Lemma arrives_running on_message a (w : World ClientState) : cl_task (w_st w) = Some Running →
  client_arrives i on_message a w = match a with
    | Some raw => catch (client_frame i on_message raw) (λ _, end_client_loop) w
    | None => end_client_loop w
    end.
Proof.
  intros Ht. unfold client_arrives. rewrite bindE, getsE, Ht, bindE, modifyE.
  destruct w as [k t [sk id key tk re]]. simpl in *. subst. by destruct a.
Qed.
Lemma arrives_done on_message a (w : World ClientState) : cl_task (w_st w) = Some Done →
  client_arrives i on_message a w = (Ok (), w).
Proof. intros Ht. unfold client_arrives. by rewrite bindE, getsE, Ht. Qed.
Lemma all_arrive_done on_message l (w : World ClientState) : cl_task (w_st w) = Some Done →
  for_each l (client_arrives i on_message) w = (Ok (), w).
Proof.
  intros Ht. induction l as [|a l IH]; [done|]. cbn [for_each]. by rewrite bindE, arrives_done.
Qed.

(** A callback that leaves the client's task alone. *)
Definition same_task : relation ClientState := λ s s', cl_task s' = cl_task s.
#[local] Instance same_task_preorder : PreOrder same_task.
Proof. split; [by intros s|]. intros s t u Hs Ht. unfold same_task in *. congruence. Qed.
Definition quiet (on_message : option (pyval → bytes → M ClientState unit)) : Prop :=
  ∀ f from plaintext, on_message = Some f → pres same_task (f from plaintext).

Lemma recorded_quiet : quiet (Some recorded).
Proof.
  intros f from plaintext [= <-]. unfold recorded. apply pres_bind; [apply _| |intros _].
  - apply pres_modify. by unfold same_task.
  - eauto with pres typeclass_instances.
Qed.
Lemma pres_client_frame on_message raw : quiet on_message →
  pres same_task (client_frame i on_message raw).
Proof.
  intros Hq. unfold client_frame, client_dispatch, handle_msg. pres_auto.
Qed.

Lemma loop_by_events on_message frames (w : World ClientState) : quiet on_message →
  cl_task (w_st w) = Some Running →
  (catch (for_each frames (client_frame i on_message)) (λ _, mret ()) ;; end_client_loop) w =
  (for_each (Some <$> frames) (client_arrives i on_message) ;; client_arrives i on_message None) w.
Proof.
  intros Hq. revert w. induction frames as [|raw frames IH]; intros w Ht; csimpl.
  - by rewrite !bindE, catchE, retE, arrives_running.
  - pose proof (pres_client_frame on_message raw Hq w eq_refl) as Hk. unfold same_task in Hk.
    rewrite !bindE, catchE, !bindE, arrives_running, catchE by done.
    destruct (client_frame i on_message raw w) as [[[]|e] w1]; simpl in Hk.
    + specialize (IH w1). rewrite !bindE, catchE in IH. apply IH. congruence.
    + rewrite retE. unfold end_client_loop. run_simpl.
      by rewrite all_arrive_done, arrives_done by done.
Qed.
End client_loop.

(** ** Properties *)

(** The packet that carries a message from [A], a cell of [N], to [B], a cell of [N2]. *)
Section message_frames.
Context `{!MsgPack} `{!PyRepr} `{!Ed25519} `{!E2E} `{!MsgPackLaws} `{!Ed25519Laws}.

Lemma message_frame (E : Env) `{!@EnvLaws _ _ E} (A B : CellIdentity) (N N2 : NodeIdentity) b k kp :
  skp_ok (c_signing A) → skp_ok (c_signing B) → skp_ok (n_signing N) → skp_ok (n_signing N2) →
  small b = true →
  skp_ok kp →
  let from := cid A +:+ "@" +:+ nid N in
  let to := cid B +:+ "@" +:+ nid N2 in
  let p := mkPacket T.MSG (VBin b) (VStr (o_uuid (@outcome _ _ E k))) (VStr from) (VStr to) (VBin [])
             (VInt (o_time (@outcome _ _ E (S k)))) (VInt PROTO_VERSION) in
  ∃ q frame, sign_packet p kp = Ok q ∧ pack q = Ok frame ∧
    unpack frame = Ok q ∧ verify_packet q (sk_public kp) = Ok true ∧
    type q = VStr T.MSG ∧ payload q = VBin b ∧ from_addr q = VStr from ∧ to_addr q = VStr to.
Proof.
  intros HA HB HN HN2 Hb Hkp from to p.
  assert (∀ kp, skp_ok kp → length (sk_public kp) = 32) as L32
    by (intros kp' ->; apply ed_public_length).
  apply signed_frame; try done.
  - unfold atom_ok. by rewrite (uuid4_text k).
  - apply atom_ok_address; rewrite L32; done || lia.
  - apply atom_ok_address; rewrite L32; done || lia.
  - apply (time_range (S k)).
Qed.
End message_frames.

Lemma cid_nonempty `{!Ed25519} `{!E2E} `{!Ed25519Laws} (B : CellIdentity) : skp_ok (c_signing B) → cid B ≠ "".
Proof.
  intros HB Hx. unfold cid in Hx. pose proof (hex_length (sk_public (c_signing B))) as Hl.
  rewrite Hx, HB, ed_public_length in Hl. simpl in Hl. lia.
Qed.

(** What sending a message writes. *)
Section client_send_runs.
Context `{!MsgPack} `{!PyRepr} `{!Ed25519} `{!E2E} `{!MsgPackLaws} `{!Ed25519Laws} `{!E2ELaws}.
Context {env : Env} `{!EnvLaws}.

(** [q] is the packet [frame] encodes, with text addresses, signed by [kp]. *)
Definition carries (kp : SigningKeypair) (b : bytes) (from to : string) (q : Packet)
    (frame : bytes) : Prop :=
  pack q = Ok frame ∧ unpack frame = Ok q ∧ verify_packet q (sk_public kp) = Ok true ∧
  type q = VStr T.MSG ∧ payload q = VBin b ∧ from_addr q = VStr from ∧ to_addr q = VStr to.

Lemma client_send_run (A B : CellIdentity) (N N2 : NodeIdentity) m s (w : World ClientState) :
  skp_ok (c_signing A) → skp_ok (c_signing B) → ekp_ok (c_encryption B) → skp_ok (n_signing N) →
  skp_ok (n_signing N2) →
  (Z.of_nat (length m) < 2^31)%Z → cl_ws (w_st w) = Some s → cl_node_id (w_st w) = nid N →
  o_open (outcome (w_tick w)) = true → (∀ j, o_send (outcome j) = Ok ()) →
  let from := cid A +:+ "@" +:+ nid N in
  let to := cid B +:+ "@" +:+ nid N2 in
  ∃ b q frame k,
    client_send A (cid B) (nid N2) (ek_public (c_encryption B)) m w =
      (Ok (), mkWorld k (w_trace w ++ [IoSend s frame]) (w_st w)) ∧
    carries (c_signing A) b from to q frame ∧
    (∀ pkt, payload pkt = VBin b → open_message B pkt = Ok m) ∧
    ∀ kp, skp_ok kp → ∃ q' frame', sign_packet q kp = Ok q' ∧ carries kp b from to q' frame'.
Proof.
  intros HsA HsB HeB HsN HsN2 Hm Hws Hid Hopen SA from to.
  set (w1 := mkWorld (S (w_tick w)) (w_trace w) (w_st w)).
  pose proof (decrypt_encrypt w1 m (c_encryption B) HeB) as Henc.
  unfold wp in Henc. destruct (encrypt (m:=M ClientState) m (ek_public (c_encryption B)) w1) as [rE w2] eqn:Erun.
  destruct Henc as (Hst2 & Htr2 & e & Hr & Le & Ln & Lc & Hdec). cbn [fst snd] in *. subst rE.
  destruct (sealed_opens B e m Le Ln Lc Hm Hdec) as (b & Hb & Hsmall & Hopens).
  pose proof (λ kp, message_frame env A B N N2 b (w_tick w2) kp HsA HsB HsN HsN2 Hsmall) as Hframe.
  destruct (Hframe _ HsA) as (q & frame & Hq & Hp & Hrest).
  exists b, q, frame, (3 + w_tick w2). split_and!; [| |done|].
  - unfold client_send.
    assert (connected w = (Ok true, w1)) as Hup.
    { unfold connected, gets, M_gets, ask, interact, M_interact, mbind,
      M_bind. rewrite Hws. by rewrite Hopen. }
    rewrite (run_bind _ _ _ _ _ Hup), (run_bind _ _ _ _ _ Erun), (run_lift _ _ _ _ Hb).
    do 2 (erewrite run_bind by reflexivity). rewrite Hst2. simpl. rewrite Hid.
    rewrite (run_lift _ _ _ _ Hq), (run_lift _ _ _ _ Hp).
    erewrite run_bind by reflexivity. simpl. rewrite Hws.
    rewrite run_ws_send by done. simpl. by rewrite Htr2.
  - done.
  - intros kp Hkp. rewrite (resign _ _ _ kp Hq).
    destruct (Hframe _ Hkp) as (q' & frame' & Hq' & Hp' & Hrest'). by exists q', frame'.
Qed.
End client_send_runs.

Section client_properties.
Context `{!MsgPack} `{!PyRepr} `{!Ed25519} `{!E2E}.
Context `{!MsgPackLaws} `{!Ed25519Laws} `{!E2ELaws}.

(** C24: a cell that connects to an honest node gets itself registered.  If the
    socket opens, the sends succeed and the node answers the handshake by the
    protocol, then [connect] returns; the client remembers the node's identifier
    and key; and of the three frames it wrote two are those of the handshake, and
    the last is a CELL_REGISTER packet that verifies under the cell's key and claims
    exactly the cell's own identifier and keys, which is what the node checks
    against the connection. *)
Theorem connect_registers (us them : Env) `{!@EnvLaws _ _ us} `{!@EnvLaws _ _ them}
    (i : CellIdentity) (n : NodeIdentity) addr e e' s k' (w : World ClientState) :
  skp_ok (c_signing i) → ekp_ok (c_encryption i) →
  skp_ok (n_signing n) → ekp_ok (n_encryption n) →
  e = VNone ∨ e = VStr (nid n) → e' = VNone ∨ e' = VStr (cid i) →
  let k := S (w_tick w) in
  o_dial (@outcome _ _ us (w_tick w)) = Ok s → (∀ j, o_send (@outcome _ _ us j) = Ok ()) →
  o_recv (@outcome _ _ us (4 + k)) = first_frame (E:=them) n e' k' →
  o_recv (@outcome _ _ us (8 + k)) =
    second_frame (E:=them) n (cid i) (o_random (@outcome _ _ us k) Auth.NONCE_SIZE) k' →
  wp (client_connect (env:=us) i addr e) (λ r w', r = Ok () ∧
    cl_ws (w_st w') = Some s ∧ cl_node_id (w_st w') = nid n ∧
    cl_node_key (w_st w') = sk_public (n_signing n) ∧ cl_task (w_st w') = Some Pending ∧
    ∃ d1 d2 frame reg, w_trace w' = w_trace w ++
        [IoDial ("ws://" +:+ addr) s; IoSend s d1; IoSend s d2; IoSend s frame] ∧
      first_frame (E:=us) (as_node i) e k = Ok d1 ∧
      second_frame (E:=us) (as_node i) (nid n) (o_random (@outcome _ _ them k') Auth.NONCE_SIZE) k = Ok d2 ∧
      unpack frame = Ok reg ∧ type reg = VStr T.CELL_REGISTER ∧
      verify_packet reg (sk_public (c_signing i)) = Ok true ∧
      register_fields reg =
        Ok (VStr (cid i), sk_public (c_signing i), ek_public (c_encryption i), true)) w.
Proof.
  intros Hsk Hek Hsn Hen He He' k Hd Hs Hr1 Hr2.
  destruct (expected_atom_ok n e Hsn He) as [OE ME].
  destruct (expected_atom_ok (as_node i) e' Hsk He') as [OE' _].
  set (w1 := mkWorld k (w_trace w ++ [IoDial ("ws://" +:+ addr) s]) (w_st w)).
  destruct (do_auth_honest (us:=us) (them:=them) (as_node i) n s e e' k' w1)
    as (d1 & d2 & D1 & D2 & Hauth); [done..|].
  set (w2 := mkWorld (9 + k) (w_trace w1 ++ [IoSend s d1; IoSend s d2])
    (set_ws (Some s) (set_node (nid n) (sk_public (n_signing n)) (w_st w)))).
  assert (length (sk_public (c_signing i)) = 32) as Ls by (rewrite Hsk; apply ed_public_length).
  assert (length (ek_public (c_encryption i)) = 32) as Le by (rewrite Hek; apply x_public_length).
  destruct (registration_encodes i Ls Le) as (b & Hb & Hsmall & Hfields).
  destruct (signed_frame (c_signing i) T.CELL_REGISTER b (o_uuid (@outcome _ _ us (9 + k))) (cid i)
    (nid n) (o_time (@outcome _ _ us (10 + k)))) as (q & frame & Hq & Hp & Hun & Hv & Ht & Hpl & _);
    try done.
  { unfold atom_ok. by rewrite (uuid4_text (9 + k)). }
  { by apply (nid_ok (as_node i)). }
  { by apply nid_ok. }
  { apply (time_range (10 + k)). }
  assert (client_connect (env:=us) i addr e w = (Ok (), mkWorld (12 + k)
    (w_trace w2 ++ [IoSend s frame]) (set_task (Some Pending) (w_st w2)))) as Hrun.
  { unfold client_connect.
    assert (ws_connect (H1:=us) ("ws://" +:+ addr) w = (Ok s, w1)) as Hdial.
    { unfold ws_connect, await, M_await, ask_result, ask, interact, M_interact, lift, M_lift,
      mbind, M_bind. simpl. by rewrite Hd. }
    rewrite (run_bind _ _ _ _ _ Hdial).
    assert (client_auth (env:=us) i s e w1 = (Ok (sk_public (n_signing n), VBin (ek_public (n_encryption n))),
      mkWorld (9 + k) (w_trace w2) (w_st w))) as Ha.
    { rewrite client_auth_do_auth, (run_bind _ _ _ _ _ Hauth). done. }
    rewrite (run_bind _ _ _ _ _ Ha). cbn [fst snd].
    do 2 (erewrite run_bind by reflexivity). rewrite (run_lift _ _ _ _ Hb).
    do 2 (erewrite run_bind by reflexivity). simpl.
    rewrite (run_lift _ _ _ _ Hq), (run_lift _ _ _ _ Hp).
    erewrite run_bind by (apply run_ws_send; apply Hs). done. }
  unfold wp. rewrite Hrun. cbn [fst snd]. split; [done|]. do 4 (split; [done|]).
  exists d1, d2, frame, q. split_and!; try done.
  - simpl. by rewrite <-!(assoc (++)).
  - by apply Hfields.
Qed.

(** A message travels from cell to cell.  Cell [A] sends [m] to cell [B] of
    the node [N] that both are connected to, encrypted for [B].  [A] writes one
    frame; [N], receiving it on [A]'s connection, writes one frame on [B]'s; and
    [B], receiving that, calls its callback with [m] and the address of [A].  The
    three parties have their own clocks, randomness and states. *)
Theorem message_travels_end_to_end (EA EN EB : Env) `{!@EnvLaws _ _ EA} `{!@EnvLaws _ _ EN}
    (A B : CellIdentity) (N : NodeIdentity) (m : bytes) handler sA connA connB
    (wA : World ClientState) (wN : World NodeState) (wB : World ClientState) :
  skp_ok (c_signing A) → skp_ok (c_signing B) → ekp_ok (c_encryption B) → skp_ok (n_signing N) →
  (Z.of_nat (length m) < 2^31)%Z →
  cl_ws (w_st wA) = Some sA → cl_node_id (w_st wA) = nid N →
  o_open (@outcome _ _ EA (w_tick wA)) = true → (∀ j, o_send (@outcome _ _ EA j) = Ok ()) →
  peer_signing_pubkey connA = sk_public (c_signing A) →
  homed_here N (cid B) (w_st wN) → ns_conns (w_st wN) !! cid B = Some connB →
  (∀ j, o_send (@outcome _ _ EN j) = Ok ()) →
  cl_node_key (w_st wB) = sk_public (n_signing N) →
  let from := cid A +:+ "@" +:+ nid N in
  wp (client_send (env:=EA) A (cid B) (nid N) (ek_public (c_encryption B)) m) (λ rA wA',
    rA = Ok () ∧ ∃ frame, w_trace wA' = w_trace wA ++ [IoSend sA frame] ∧
    wp (recv_frame (dispatch (env:=EN) N handler) connA frame) (λ rN wN',
      rN = Ok () ∧ w_st wN' = w_st wN ∧
      ∃ frame', w_trace wN' = w_trace wN ++ [IoSend (ws connB) frame'] ∧
      wp (client_frame B (Some (recorded (env:=EB))) frame') (λ rB wB',
        rB = o_callback (@outcome _ _ EB (w_tick wB)) ∧
        w_st wB' = add_received (VStr from, m) (w_st wB)) wB) wN) wA.
Proof.
  intros HsA HsB HeB HsN Hm Hws Hid Hopen SA HkA Hhome HcB SN HkB from.
  destruct (client_send_run (env:=EA) A B N N m sA wA HsA HsB HeB HsN HsN Hm Hws Hid Hopen SA)
    as (b & q & frame & k & Hrun & (_ & Hu & Hv & Ht & _ & _ & Hto) & Ho & Hre).
  destruct (Hre _ HsN) as (q' & frame' & Hq' & Hp' & Hu' & Hv' & Ht' & Hpl' & Hf' & _).
  unfold wp. rewrite Hrun. split; [done|]. exists frame. split; [done|].
  rewrite (node_forwards (env:=EN) N handler connA connB frame q q' (cid B) (nid N) frame' wN);
    try done; [|by rewrite HkA|apply hex_no_at|].
  - split; [done|]. split; [done|]. exists frame'. split; [done|].
    rewrite (client_receives (env:=EB) B frame' q' m wB); try done; [|by rewrite HkB|by apply Ho].
    split; [done|]. by rewrite Hf'.
  - by apply cid_nonempty.
Qed.

(** C16: a client delivers the messages its node vouches for, and no others.  The
    receive loop goes through the frames in order.  A frame whose signature is found
    not to match the node's key, that is of another type than MSG, or that cannot be
    decrypted, is skipped.  The message of any other is handed to the callback.  The
    loop ends with the first frame that is no packet, that cannot be checked or whose
    sender cannot be logged, and with the first callback that raises; nothing of this
    reaches the caller.  In the end the client has no socket and its task is done. *)
Theorem client_recv_loop_delivers {env : Env} i frames (w : World ClientState) :
  wp (client_recv_loop i (Some recorded) frames) (λ r w', r = Ok () ∧ w_trace w' = w_trace w ∧
    w_st w' = mkClient None (cl_node_id (w_st w)) (cl_node_key (w_st w)) (Some Done)
      (cl_received (w_st w) ++ messages i (cl_node_key (w_st w)) (w_tick w) frames)) w.
Proof.
  unfold wp, client_recv_loop, end_client_loop. rewrite bindE, modifyE, bindE, catchE.
  set (w0 := mkWorld _ _ _).
  assert (∀ w1, w_trace w1 = w_trace w → cl_node_key (w_st w1) = cl_node_key (w_st w) →
    cl_node_id (w_st w1) = cl_node_id (w_st w) →
    let '(r, w2) := for_each frames (client_frame i (Some recorded)) w1 in
    w_trace w2 = w_trace w ∧ cl_node_id (w_st w2) = cl_node_id (w_st w) ∧
    cl_node_key (w_st w2) = cl_node_key (w_st w) ∧
    cl_received (w_st w2) =
      cl_received (w_st w1) ++ messages i (cl_node_key (w_st w)) (w_tick w1) frames) as Hloop.
  { induction frames as [|raw frames IH]; intros w1 Ht Hk Hn; cbn [for_each messages].
    { by rewrite retE, app_nil_r. }
    pose proof (client_frame_verdict i raw w1) as Hf. rewrite Hk in Hf. rewrite bindE.
    destruct (client_verdict _ _ raw) as [|from plaintext|].
    - rewrite Hf. by apply IH.
    - rewrite Hf. destruct (o_callback (outcome (w_tick w1))) as [[]|x]; [|done].
      specialize (IH (mkWorld (S (w_tick w1)) (w_trace w1)
        (add_received (from, plaintext) (w_st w1))) Ht Hk Hn).
      destruct (for_each (m:=M ClientState) frames _ _) as [r w2]. simpl in IH. by rewrite <-(assoc (++)) in IH.
    - destruct Hf as [e ->]. by rewrite app_nil_r. }
  specialize (Hloop w0 eq_refl eq_refl eq_refl).
  destruct (for_each (m:=M ClientState) frames _ w0) as [[[]|e] [k2 t2 s2]]; simpl in Hloop;
    destruct Hloop as (Ht & Hn & Hk & Hr); simpl; split_and!; try done;
    unfold set_task, set_ws; simpl; by rewrite Hn, Hk, Hr.
Qed.

(** Disconnecting leaves the socket open.  If the receive loop of a
    connected client has begun, its [finally] forgets the socket before
    [disconnect] looks for it, so [disconnect] returns without having closed
    anything; a client whose loop has not begun does close it. *)
Theorem disconnect_leaves_socket_open s (w : World ClientState) :
  cl_ws (w_st w) = Some s →
  wp disconnect (λ r w', r = Ok () ∧ cl_ws (w_st w') = None ∧ cl_task (w_st w') = None ∧
    w_trace w' = w_trace w ++
      match cl_task (w_st w) with Some Running => [] | _ => [IoClose s] end) w.
Proof.
  intros Hs. unfold wp. rewrite run_disconnect. cbn [fst snd w_st w_trace cl_ws cl_task].
  do 3 (split; [done|]). unfold closed_sockets. rewrite Hs. by destruct (cl_task (w_st w)) as [[]|].
Qed.
End client_properties.

(** ** Witnesses *)

Module ClientWitnesses.
Import Samples.
#[local] Existing Instance recv_env_laws.
#[local] Existing Instance calm_env_laws.

Definition alice : CellIdentity := mkCellIdentity (sample_signing "001") (sample_encryption "002") "alice".
Definition bob : CellIdentity := mkCellIdentity (sample_signing "003") (sample_encryption "004") "bob".
Definition hub : NodeIdentity :=
  mkNodeIdentity (sample_signing "005") (sample_encryption "006") "h:1" "permanent" "open".
Definition start : World ClientState := mkWorld 0 [] new_client.

(** What [alice] receives from the hub, its handshake starting at instant 0. *)
Definition from_hub : nat → result bytes := λ i,
  if decide (i = 5) then first_frame (E:=calm_env) hub VNone 0
  else if decide (i = 9)
    then second_frame (E:=calm_env) hub (cid alice) (o_random calm Auth.NONCE_SIZE) 0
  else Raise ConnectionClosed.

Lemma connect_registers_witness :
  wp (client_connect (env:=recv_env from_hub) alice "h:1" (VStr (nid hub))) (λ r w', r = Ok () ∧
    cl_ws (w_st w') = Some 7 ∧ cl_node_id (w_st w') = nid hub ∧
    cl_node_key (w_st w') = sk_public (n_signing hub) ∧ cl_task (w_st w') = Some Pending ∧
    ∃ d1 d2 frame reg, w_trace w' = w_trace start ++
        [IoDial ("ws://" +:+ "h:1") 7; IoSend 7 d1; IoSend 7 d2; IoSend 7 frame] ∧
      first_frame (E:=recv_env from_hub) (as_node alice) (VStr (nid hub)) 1 = Ok d1 ∧
      second_frame (E:=recv_env from_hub) (as_node alice) (nid hub) (o_random calm Auth.NONCE_SIZE) 1 = Ok d2 ∧
      unpack frame = Ok reg ∧ type reg = VStr T.CELL_REGISTER ∧
      verify_packet reg (sk_public (c_signing alice)) = Ok true ∧
      register_fields reg =
        Ok (VStr (cid alice), sk_public (c_signing alice), ek_public (c_encryption alice), true)) start.
Proof.
  apply (connect_registers (recv_env from_hub) calm_env alice hub "h:1" (VStr (nid hub)) VNone 7 0 start);
    first [reflexivity|right; reflexivity|left; reflexivity|vm_compute; reflexivity].
Defined.

Definition online : World ClientState :=
  mkWorld 0 [] (mkClient (Some 3) (nid hub) (sk_public (n_signing hub)) (Some Running) []).
Definition link (s : socket) (c : CellIdentity) : PeerConnection :=
  mkConn s (cid c) (sk_public (c_signing c)) (VBin (ek_public (c_encryption c))) (nid hub).
Definition hub_state : World NodeState :=
  mkWorld 0 [] (mkNodeState (mkDB [] [] [mkPresence (cid bob) (nid hub) None 5] [])
    {[cid bob := link 2 bob]} [link 1 alice; link 2 bob] [] created).

Lemma message_travels_end_to_end_witness :
  let m := str_encode "hello" in
  let from := cid alice +:+ "@" +:+ nid hub in
  wp (client_send (env:=calm_env) alice (cid bob) (nid hub) (ek_public (c_encryption bob)) m) (λ rA wA',
    rA = Ok () ∧ ∃ frame, w_trace wA' = w_trace online ++ [IoSend 3 frame] ∧
    wp (recv_frame (dispatch (env:=calm_env) hub false) (link 1 alice) frame) (λ rN wN',
      rN = Ok () ∧ w_st wN' = w_st hub_state ∧
      ∃ frame', w_trace wN' = w_trace hub_state ++ [IoSend 2 frame'] ∧
      wp (client_frame bob (Some (recorded (env:=calm_env))) frame') (λ rB wB',
        rB = Ok () ∧ w_st wB' = add_received (VStr from, m) (w_st online)) online) hub_state) online.
Proof.
  refine (message_travels_end_to_end calm_env calm_env calm_env alice bob hub (str_encode "hello") false 3
    (link 1 alice) (link 2 bob) online hub_state online _ _ _ _ _ _ _ _ _ _ _ _ _ _);
    try reflexivity.
  exists (mkPresence (cid bob) (nid hub) None 5). split; vm_compute; reflexivity.
Defined.

(** A message for [bob] that the hub vouches for, one that [alice] signed
    herself, and a frame that is no packet. *)
Definition note (kp : SigningKeypair) : bytes :=
  let text := str_encode "hello" in
  let e := (encrypt (m:=M ClientState) (H1:=calm_env) text (ek_public (c_encryption bob)) start).1 in
  let b := or_else [] (e ← e; encode_payload (sealed e)) in
  let p := mkPacket T.MSG (VBin b) "id" "x@h" "y@h" (VBin []) (VInt 3) (VInt 1) in
  or_else [] (p ← sign_packet p kp; pack p).
Definition incoming_frames : list bytes :=
  [note (n_signing hub); note (c_signing alice); ["193"%byte]; note (n_signing hub)].

Lemma client_recv_loop_delivers_witness :
  wp (client_recv_loop bob (Some (recorded (env:=calm_env))) incoming_frames)
    (λ r w', r = Ok () ∧ w_trace w' = [] ∧
      w_st w' = mkClient None (nid hub) (sk_public (n_signing hub)) (Some Done)
        [(VStr "x@h", str_encode "hello")]) online.
Proof.
  assert (messages (env:=calm_env) bob (sk_public (n_signing hub)) 0 incoming_frames =
    [(VStr "x@h", str_encode "hello")]) as <- by (vm_compute; reflexivity).
  exact (client_recv_loop_delivers (env:=calm_env) bob incoming_frames online).
Defined.

Lemma disconnect_leaves_socket_open_witness :
  wp disconnect (λ r w', r = Ok () ∧ cl_ws (w_st w') = None ∧ cl_task (w_st w') = None ∧
    w_trace w' = w_trace online ++ []) online.
Proof. exact (disconnect_leaves_socket_open 3 online eq_refl). Defined.
End ClientWitnesses.
