(* ===== verification/Relay.v ===== *)
(** * A message on its way through the network

    [Router] says what one node does with a packet.  Here a message goes from cell
    to cell through any number of nodes: each verifies it with the key of the
    connection that it came on, signs it with its own key in place of the signature
    that it carried, and hands it to the node that is responsible for the cell, or
    to the cell itself.  What is encrypted stays as it is. *)
From S2P Require Import Prelude PyVal Interfaces Effects Crypto Protocol Auth Identity Table Storage Transport Router Gossip Node Client.
From S2P Require Samples.

Section relays.
Context `{!MsgPack} `{!PyRepr} `{!Ed25519} `{!E2E}.

(** A node on the way, the connection that the message reaches it on, and the one
    that it passes the message on to. *)
Record relay := mkRelay {
  rl_env : Env;
  rl_node : NodeIdentity;
  rl_handler : bool;
  rl_world : World NodeState;
  rl_from : PeerConnection;
  rl_to : PeerConnection;
}.

(** The connection that leads to the cell [c]: its own, if the first hop is the node
    itself, and else that of the first hop. *)
Definition way (c : string) (N : NodeIdentity) (s : NodeState) : option PeerConnection :=
  p ← presence_of c s;
  h ← head (hops p);
  ns_conns s !! (if decide (h = nid N) then c else h).

(** The relay knows the way, and what it writes gets through. *)
Definition on_way (c : string) (r : relay) : Prop :=
  skp_ok (n_signing (rl_node r)) ∧ way c (rl_node r) (w_st (rl_world r)) = Some (rl_to r) ∧
  ∀ j, o_send (@outcome _ _ (rl_env r) j) = Ok ().

(** Each relay knows the one before it by its key; [key] is the sender's. *)
Definition key_of (r : relay) : bytes := sk_public (n_signing (rl_node r)).
Fixpoint linked (key : bytes) (l : list relay) : Prop :=
  match l with
  | [] => True
  | r :: l => peer_signing_pubkey (rl_from r) = key ∧ linked (key_of r) l
  end.
Definition last_key (key : bytes) (l : list relay) : bytes := from_option key_of key (last l).

(** The relay receives [frame], writes [frame'] on the connection onwards, nothing
    else, and is left as it was. *)
Definition passes (r : relay) (frame frame' : bytes) : Prop :=
  wp (recv_frame (dispatch (env:=rl_env r) (rl_node r) (rl_handler r)) (rl_from r) frame)
    (λ res w', res = Ok () ∧ w_st w' = w_st (rl_world r) ∧
      w_trace w' = w_trace (rl_world r) ++ [IoSend (ws (rl_to r)) frame']) (rl_world r).
Fixpoint carried (frame : bytes) (l : list relay) (frame' : bytes) : Prop :=
  match l with
  | [] => frame' = frame
  | r :: l => ∃ next, passes r frame next ∧ carried next l frame'
  end.

(** ** Lemmas *)

Lemma route_on_way {env : Env} N handler pkt q d c n conn (w : World NodeState) :
  parse_addr (to_addr pkt) = Ok (Some c, n) → c ≠ "" → way c N (w_st w) = Some conn →
  transport_sign N pkt = Ok q → pack q = Ok d → o_send (outcome (w_tick w)) = Ok () →
  route N handler pkt w =
  (Ok (), mkWorld (S (w_tick w)) (w_trace w ++ [IoSend (ws conn) d]) (w_st w)).
Proof.
  intros Ha Hc Hw Hq Hd Hs. unfold way in Hw.
  destruct (presence_of c (w_st w)) as [p|] eqn:Hp; [|done]. simpl in Hw.
  rewrite (route_hops _ _ _ _ _ _ _ Ha Hp).
  destruct (hops p) as [|h hs]; [done|]. cbn [try_hops]. simpl in Hw. case_decide as Hh.
  - subst h. pose proof (send_to_live N c pkt q d conn w Hw Hq Hd Hs) as Hrun.
    unfold send_to_node, deliver_local. rewrite decide_True by done.
    rewrite !bindE, liftE, Ha, bindE, decide_True, Hrun by done. by run_simpl.
  - by rewrite bindE, bindE, (send_to_node_live _ _ _ _ _ _ _ _ Hh Hw Hq Hd Hs).
Qed.

Context `{!MsgPackLaws} `{!Ed25519Laws} `{!E2ELaws}.

(** A packet that carries a message keeps doing so, whoever signs it. *)
Definition signable (b : bytes) (from to : string) (q : Packet) : Prop :=
  ∀ kp, skp_ok kp → ∃ q' frame', sign_packet q kp = Ok q' ∧ carries kp b from to q' frame'.

Lemma signable_again b from to q kp q' :
  signable b from to q → sign_packet q kp = Ok q' → signable b from to q'.
Proof. intros Hq Hs kp' Hkp. rewrite (resign _ _ _ kp' Hs). by apply Hq. Qed.

Lemma relay_passes r kp b from c n q frame :
  on_way c r → peer_signing_pubkey (rl_from r) = sk_public kp →
  str_mem "@" c = false → c ≠ "" → signable b from (c +:+ "@" +:+ n) q →
  carries kp b from (c +:+ "@" +:+ n) q frame →
  ∃ q' frame', passes r frame frame' ∧ signable b from (c +:+ "@" +:+ n) q' ∧
    carries (n_signing (rl_node r)) b from (c +:+ "@" +:+ n) q' frame'.
Proof.
  intros (Hkp & Hway & Hs) Hkey Hat Hc Hq (_ & Hu & Hv & Ht & _ & _ & Hto).
  destruct (Hq _ Hkp) as (q' & frame' & Hsign & Hcar). exists q', frame'.
  split; [|split; [by eapply signable_again|done]]. destruct Hcar as [Hp _].
  unfold passes, wp. rewrite (recv_verified _ _ _ _ _ Hu) by by rewrite Hkey.
  rewrite dispatch_msg by done.
  by rewrite (route_on_way _ _ _ q' frame' c (VStr n) (rl_to r))
    by (done || by rewrite Hto, parse_addr_cell).
Qed.

Lemma relays_carry l kp b from c n q frame :
  Forall (on_way c) l → linked (sk_public kp) l →
  str_mem "@" c = false → c ≠ "" → signable b from (c +:+ "@" +:+ n) q →
  carries kp b from (c +:+ "@" +:+ n) q frame →
  ∃ kp' q' frame', carried frame l frame' ∧ sk_public kp' = last_key (sk_public kp) l ∧
    carries kp' b from (c +:+ "@" +:+ n) q' frame'.
Proof.
  intros Hl Hlink Hat Hc. revert kp q frame Hlink.
  induction Hl as [|r l Hr Hl IH]; intros kp q frame Hlink Hq Hcar; [by exists kp, q, frame|].
  destruct Hlink as [Hkey Hlink].
  destruct (relay_passes r kp b from c n q frame) as (q1 & f1 & Hpass & Hq1 & Hc1); [done..|].
  destruct (IH _ _ _ Hlink Hq1 Hc1) as (kp' & q' & f' & Hcarried & Hlast & Hcar').
  exists kp', q', f'. split_and!; [by exists f1| |done].
  rewrite Hlast. unfold last_key. rewrite last_cons. by destruct (last l).
Qed.
End relays.

(** ** A node that has to be dialled first *)

Section dialling.
Context `{!MsgPack} `{!PyRepr} `{!Ed25519} `{!E2E} `{!MsgPackLaws} `{!Ed25519Laws} `{!E2ELaws}.
Context {us them : Env} `{!@EnvLaws _ _ us} `{!@EnvLaws _ _ them}.

(** The connection to [peer] over [s], once it is authenticated, and the state that
    keeps it and reads from it. *)
Definition dialled (s : socket) (peer me : NodeIdentity) : PeerConnection :=
  mkConn s (nid peer) (sk_public (n_signing peer)) (VBin (ek_public (n_encryption peer))) (nid me).
Definition connected_to (conn : PeerConnection) (s : NodeState) : NodeState :=
  set_loops (cons conn) (set_conns <[peer_node_id conn := conn]> s).

Lemma connect_to_honest (me peer : NodeIdentity) addr s e' k' (w : World NodeState) :
  skp_ok (n_signing me) → ekp_ok (n_encryption me) →
  skp_ok (n_signing peer) → ekp_ok (n_encryption peer) →
  e' = VNone ∨ e' = VStr (nid me) →
  let k := S (w_tick w) in
  o_dial (@outcome _ _ us (w_tick w)) = Ok s → (∀ j, o_send (@outcome _ _ us j) = Ok ()) →
  o_recv (@outcome _ _ us (4 + k)) = first_frame (E:=them) peer e' k' →
  o_recv (@outcome _ _ us (8 + k)) =
    second_frame (E:=them) peer (nid me) (o_random (@outcome _ _ us k) Auth.NONCE_SIZE) k' →
  ∃ d1 d2, first_frame (E:=us) me (VStr (nid peer)) k = Ok d1 ∧
    second_frame (E:=us) me (nid peer) (o_random (@outcome _ _ them k') Auth.NONCE_SIZE) k = Ok d2 ∧
    connect_to_node (env:=us) me (VStr (nid peer)) addr w =
    (Ok (dialled s peer me),
     mkWorld (10 + w_tick w)
       (w_trace w ++ [IoDial ("ws://" +:+ py_str addr) s; IoSend s d1; IoSend s d2])
       (connected_to (dialled s peer me) (w_st w))).
Proof.
  intros Hsm Hem Hsp Hep He' k Hd Hs Hr1 Hr2.
  set (w1 := mkWorld k (w_trace w ++ [IoDial ("ws://" +:+ py_str addr) s]) (w_st w)).
  destruct (expected_atom_ok peer (VStr (nid peer)) Hsp) as [Ho Hm]; [by right|].
  destruct (expected_atom_ok me e' Hsm He') as [Ho' _].
  destruct (do_auth_honest (us:=us) (them:=them) me peer s (VStr (nid peer)) e' k' w1)
    as (d1 & d2 & D1 & D2 & Hrun); [done..|].
  exists d1, d2. split; [done|]. split; [done|]. unfold connect_to_node, open_connection, ws_connect, ask_result.
  rewrite bindE, awaitE, bindE, bindE, askE, liftE, Hd. run_simpl. fold k. fold w1.
  rewrite Hrun. unfold registry_add, spawn. run_simpl. unfold w1. simpl.
  by rewrite <-(assoc (++)).
Qed.
End dialling.

(** ** Properties *)

(** C2: a message travels from cell to cell, through any number of nodes.  Cell [A]
    sends [m] to cell [B] of the node [home], encrypted for [B], over its node [N].  Take
    any nodes that hand the message on: each knows the one before it by its key -
    the first knows [A] by [A]'s - and the first hop towards [B] that its presence
    table gives, or [B] itself, is connected to it.  Then [A] writes one frame; each
    node, receiving it, writes one frame on the connection onwards and is left as it
    was; and [B], receiving that of the last node and knowing that node's key, calls
    its callback with [m] and the address of [A].  All the parties have their own
    clocks, randomness and states. *)
Theorem message_crosses_nodes `{!MsgPack} `{!PyRepr} `{!Ed25519} `{!E2E} `{!MsgPackLaws} `{!Ed25519Laws}
    `{!E2ELaws} (EA EB : Env) `{!@EnvLaws _ _ EA} (A B : CellIdentity) (N home : NodeIdentity) (m : bytes)
    (l : list relay) sA (wA wB : World ClientState) :
  skp_ok (c_signing A) → skp_ok (c_signing B) → ekp_ok (c_encryption B) →
  skp_ok (n_signing N) → skp_ok (n_signing home) → (Z.of_nat (length m) < 2^31)%Z →
  cl_ws (w_st wA) = Some sA → cl_node_id (w_st wA) = nid N →
  o_open (@outcome _ _ EA (w_tick wA)) = true → (∀ j, o_send (@outcome _ _ EA j) = Ok ()) →
  Forall (on_way (cid B)) l → linked (sk_public (c_signing A)) l →
  cl_node_key (w_st wB) = last_key (sk_public (c_signing A)) l →
  let from := cid A +:+ "@" +:+ nid N in
  wp (client_send (env:=EA) A (cid B) (nid home) (ek_public (c_encryption B)) m) (λ rA wA',
    rA = Ok () ∧ ∃ frame frame', w_trace wA' = w_trace wA ++ [IoSend sA frame] ∧
    carried frame l frame' ∧
    wp (client_frame B (Some (recorded (env:=EB))) frame') (λ rB wB',
      rB = o_callback (@outcome _ _ EB (w_tick wB)) ∧
      w_st wB' = add_received (VStr from, m) (w_st wB)) wB) wA.
Proof.
  intros HsA HsB HeB HsN HsH Hm Hws Hid Hopen SA Hl Hlink HkB from.
  destruct (client_send_run (env:=EA) A B N home m sA wA HsA HsB HeB HsN HsH Hm Hws Hid Hopen SA)
    as (b & q & frame & k & Hrun & Hcar & Ho & Hre).
  destruct (relays_carry l _ b from (cid B) (nid home) q frame Hl Hlink (hex_no_at _)
    (cid_nonempty B HsB) Hre Hcar) as (kp & q' & frame' & Hcarried & Hkp & Hcar').
  destruct Hcar' as (_ & Hu & Hv & Ht & Hpl & Hf & _).
  unfold wp. rewrite Hrun. split; [done|]. exists frame, frame'. do 2 (split; [done|]).
  rewrite (client_receives (env:=EB) B frame' q' m wB); try done; [|by rewrite HkB, <-Hkp|by apply Ho].
  split; [done|]. by rewrite Hf.
Qed.

(** C7: a node opens the connection that a packet needs.  When the first hop towards
    the cell is a node that is not connected, but listed as online, and that answers
    the handshake as it should, then routing dials the address in the table, writes
    the two frames of the handshake and then the packet, signed anew; the connection
    is kept, under the identifier that was asked for, and read from; and the database
    is as it was. *)
Theorem route_dials_next_hop `{!MsgPack} `{!PyRepr} `{!Ed25519} `{!E2E} `{!MsgPackLaws} `{!Ed25519Laws}
    `{!E2ELaws} (us them : Env) `{!@EnvLaws _ _ us} `{!@EnvLaws _ _ them}
    (me peer : NodeIdentity) handler pkt q d c n p rest entry s e' k' (w : World NodeState) :
  skp_ok (n_signing me) → ekp_ok (n_encryption me) →
  skp_ok (n_signing peer) → ekp_ok (n_encryption peer) → nid peer ≠ nid me →
  parse_addr (to_addr pkt) = Ok (Some c, n) → presence_of c (w_st w) = Some p →
  hops p = nid peer :: rest → ns_conns (w_st w) !! nid peer = None →
  entry_of (nid peer) (w_st w) = Some entry → status entry = "online" →
  transport_sign me pkt = Ok q → pack q = Ok d →
  e' = VNone ∨ e' = VStr (nid me) →
  let k := S (w_tick w) in
  o_dial (@outcome _ _ us (w_tick w)) = Ok s → (∀ j, o_send (@outcome _ _ us j) = Ok ()) →
  o_recv (@outcome _ _ us (4 + k)) = first_frame (E:=them) peer e' k' →
  o_recv (@outcome _ _ us (8 + k)) =
    second_frame (E:=them) peer (nid me) (o_random (@outcome _ _ us k) Auth.NONCE_SIZE) k' →
  wp (route (env:=us) me handler pkt) (λ r w', r = Ok () ∧
    (∃ d1 d2, first_frame (E:=us) me (VStr (nid peer)) k = Ok d1 ∧
      second_frame (E:=us) me (nid peer) (o_random (@outcome _ _ them k') Auth.NONCE_SIZE) k = Ok d2 ∧
      w_trace w' = w_trace w ++
      [IoDial ("ws://" +:+ py_str (address entry)) s; IoSend s d1; IoSend s d2; IoSend s d]) ∧
    ns_conns (w_st w') !! nid peer = Some (dialled s peer me) ∧
    dialled s peer me ∈ ns_loops (w_st w') ∧ ns_db (w_st w') = ns_db (w_st w)) w.
Proof.
  intros Hsm Hem Hsp Hep Hne Ha Hp Hh Hnone Hentry Hon Hq Hd He' k Hdial Hs Hr1 Hr2.
  destruct (connect_to_honest (us:=us) (them:=them) me peer (address entry) s e' k' w)
    as (d1 & d2 & D1 & D2 & Hrun); [done..|].
  unfold wp. rewrite (route_hops _ _ _ _ _ _ _ Ha Hp), Hh. cbn [try_hops].
  unfold send_to_node. rewrite decide_False by congruence.
  rewrite bindE, bindE, bindE, send_to_missing by done. cbn [fst snd].
  unfold send_by_connecting. rewrite bindE, run_get_node, Hentry.
  rewrite decide_False by (intros Hx; by apply Hx).
  rewrite catchE, bindE, Hrun, bindE, liftE, Hq, catchE, bindE. unfold peer_send.
  rewrite bindE, liftE, Hd, run_ws_send by done. run_simpl. split; [done|].
  split; [exists d1, d2; by rewrite <-(assoc (++))|].
  split; [by apply lookup_insert_eq|]. split; [by left|done].
Qed.

(** ** Witnesses *)

Module RelayWitnesses.
Import Samples ClientWitnesses.
#[local] Existing Instance calm_env_laws.

(** Alice is a cell of the hub and Bob one of the port, which the hub is connected
    to. *)
Definition port : NodeIdentity :=
  mkNodeIdentity (sample_signing "007") (sample_encryption "008") "p:1" "permanent" "open".
Definition to_peer (s : socket) (peer self : NodeIdentity) : PeerConnection :=
  mkConn s (nid peer) (sk_public (n_signing peer)) (VBin []) (nid self).
Definition bob_at_port : PresenceEntry := mkPresence (cid bob) (nid port) None 5.
Definition knowing_bob (conns : gmap string PeerConnection) : World NodeState :=
  mkWorld 0 [] (mkNodeState (mkDB [] [] [bob_at_port] []) conns [] [] created).
Definition route_to_bob : list relay := [
  mkRelay calm_env hub false (knowing_bob {[nid port := to_peer 4 port hub]})
    (link 1 alice) (to_peer 4 port hub);
  mkRelay calm_env port false (knowing_bob {[cid bob := link 2 bob]})
    (to_peer 6 hub port) (link 2 bob)].
Definition bob_online : World ClientState :=
  mkWorld 0 [] (mkClient (Some 3) (nid port) (sk_public (n_signing port)) (Some Running) []).

Lemma message_crosses_nodes_witness :
  let m := str_encode "hello" in
  wp (client_send (env:=calm_env) alice (cid bob) (nid port) (ek_public (c_encryption bob)) m) (λ rA wA',
    rA = Ok () ∧ ∃ frame frame', w_trace wA' = w_trace online ++ [IoSend 3 frame] ∧
    carried frame route_to_bob frame' ∧
    wp (client_frame bob (Some (recorded (env:=calm_env))) frame') (λ rB wB',
      rB = Ok () ∧ w_st wB' = add_received (VStr (cid alice +:+ "@" +:+ nid hub), m) (w_st bob_online))
      bob_online) online.
Proof.
  refine (message_crosses_nodes calm_env calm_env alice bob hub port (str_encode "hello") route_to_bob 3
    online bob_online _ _ _ _ _ _ _ _ _ _ _ _ _);
    try reflexivity; repeat constructor.
Defined.

(** The hub knows the port only from gossip, and has to dial it. *)
Definition port_frames : nat → result bytes := λ i,
  if decide (i = 5) then first_frame (E:=calm_env) port VNone 0
  else if decide (i = 9)
    then second_frame (E:=calm_env) port (nid hub) (o_random calm Auth.NONCE_SIZE) 0
  else Raise ConnectionClosed.
Definition port_row : NodeEntry := mkNode (nid port) "p:1" "permanent" "open" [] "" 5 0 "online" 5.
Definition unconnected : World NodeState :=
  mkWorld 0 [] (mkNodeState (mkDB [port_row] [] [bob_at_port] []) ∅ [] [] created).
Definition to_bob : Packet :=
  mkPacket "msg" (VBin ["009"%byte]) "m1" "x@h" (cid bob +:+ "@" +:+ nid port) (VBin []) (VInt 3) (VInt 1).
Definition to_bob_signed : Packet := or_else to_bob (transport_sign hub to_bob).
Definition to_bob_wire : bytes := or_else [] (pack to_bob_signed).

Lemma route_dials_next_hop_witness :
  wp (route (env:=recv_env port_frames) hub false to_bob) (λ r w', r = Ok () ∧
    (∃ d1 d2, first_frame (E:=recv_env port_frames) hub (VStr (nid port)) 1 = Ok d1 ∧
      second_frame (E:=recv_env port_frames) hub (nid port) (o_random calm Auth.NONCE_SIZE) 1 = Ok d2 ∧
      w_trace w' = [IoDial ("ws://" +:+ "p:1") 7; IoSend 7 d1; IoSend 7 d2; IoSend 7 to_bob_wire]) ∧
    ns_conns (w_st w') !! nid port = Some (dialled 7 port hub) ∧
    dialled 7 port hub ∈ ns_loops (w_st w') ∧ ns_db (w_st w') = ns_db (w_st unconnected)) unconnected.
Proof.
  refine (route_dials_next_hop (recv_env port_frames) calm_env hub port false to_bob to_bob_signed
    to_bob_wire (cid bob) (VStr (nid port)) bob_at_port [] port_row 7 VNone 0 unconnected
    _ _ _ _ _ _ _ _ _ _ _ _ _ _ _ _ _ _);
    first [apply recv_env_laws|reflexivity|left; reflexivity|discriminate|vm_compute; reflexivity].
Defined.
End RelayWitnesses.
