(* ===== verification/Sessions.v ===== *)
(** * The client as an interleaved system

    What an application does with a [CellClient] - connect, send, disconnect - and
    what its receive loop does with the frames that arrive are tasks that take
    turns at their [await]s ([Tasks]).  [Client] says what each of them computes
    when nobody interrupts it; here they may interrupt each other. *)
From S2P Require Import Prelude PyVal Interfaces Effects Resumption Tasks Crypto Protocol Auth Identity Table Storage Transport Router Gossip Node Client.
From S2P Require Samples.

(** What a client is asked to do, and what reaches its receive loop: a frame, or
    the end of the socket. *)
Inductive client_event :=
  | Connect (addr : string) (expected_node_id : pyval)
  | Say (to_cell_id to_node_id : string) (recipient_enc_pubkey plaintext : bytes)
  | Leave
  | Arrives (a : option bytes).

Section client_system.
Context `{!MsgPack} `{!PyRepr} `{!Ed25519} `{!E2E} {env : Env}.
Context (identity : CellIdentity).

Section on_client.
Context {m : Type → Type} `{!MRet m, !MBind m, !MThrow m, !MLift m}.
Context `{!MGets ClientState m, !MModify ClientState m, !MEmit ClientState m}.
Context `{!MInteract ClientState m, !MCatch m, !MFinally m, !MAwait m}.
Definition on_client (e : client_event) : m unit :=
  match e with
  | Connect addr expected => client_connect identity addr expected
  | Say c n key text => client_send identity c n key text
  | Leave => disconnect
  | Arrives a => client_arrives identity (Some recorded) a
  end.
End on_client.

(** Which events can begin.  The loop takes frames while its task is alive, one at
    a time.  A client connects when no receive task is alive and no other [connect]
    is under way; the class does not expect to be connected twice. *)
Definition alive (s : ClientState) : Prop :=
  cl_task s = Some Pending ∨ cl_task s = Some Running.
Definition is_arrival (e : client_event) : Prop := match e with Arrives _ => True | _ => False end.
Definition is_connect (e : client_event) : Prop := match e with Connect _ _ => True | _ => False end.
Definition can_begin (e : client_event) (s : ClientState) (T : list (Task ClientState client_event)) : Prop :=
  match e with
  | Connect _ _ => ¬ alive s ∧ Forall (λ t, ¬ is_connect (t_event t)) T
  | Arrives _ => alive s ∧ Forall (λ t, ¬ is_arrival (t_event t)) T
  | Say _ _ _ _ | Leave => True
  end.

(** A run, with the events that have begun so far.  The cancellation of the receive
    task reaches a frame that is being handled at the [await] where it stands. *)
Inductive session : list client_event → Config ClientState client_event → Prop :=
  | session_new k : session [] (mkConfig (mkWorld k [] new_client) [])
  | session_begin events e w T :
      session events (mkConfig w T) → can_begin e (w_st w) T →
      session (events ++ [e]) (mkConfig w (T ++ [mkTask e (on_client e)]))
  | session_progress events c c' : session events c → progress c c' → session events c'
  | session_cancel events a m T1 T2 w :
      session events (mkConfig w (T1 ++ mkTask (Arrives a) m :: T2)) → ¬ alive (w_st w) →
      session events (mkConfig w (T1 ++ T2)).

(** ** The invariant *)

(** [arrived] are the frames that reach the receive loop. *)
Context (arrived : bytes → Prop).

(** A message that the application was given: a frame that arrived carried it, in a
    packet that is signed with a key that was proved, encrypted for the client. *)
Definition vouched (msg : pyval * bytes) : Prop := ∃ raw q key,
  arrived raw ∧ unpack raw = Ok q ∧ proved key ∧ verify_packet q key = Ok true ∧
  type q = VStr T.MSG ∧ from_addr q = msg.1 ∧ open_message identity q = Ok msg.2.

Record client_inv (s : ClientState) : Prop := {
  ci_key : cl_node_key s = [] ∨ proved (cl_node_key s);
  ci_id : cl_node_id s = bytes_hex (cl_node_key s);
  ci_received : Forall vouched (cl_received s);
}.
(** The frame of an event is among those. *)
Definition arrives_in (e : client_event) : Prop :=
  match e with Arrives (Some raw) => arrived raw | _ => True end.
Definition keeps : relation ClientState := λ s s', client_inv s ∧ client_inv s'.
#[local] Instance keeps_change : Change keeps.
Proof. split; [intros s t u [? _] [_ ?]; by split|by intros s s' [_ ?]]. Qed.

Section keeps.
Context {m : Type → Type} `{EffectRules ClientState m}.

Lemma client_auth_proves w e :
  returns (λ '(key, _), proved key) (client_auth identity w e).
Proof.
  unfold client_auth. cbv zeta. apply returns_challenge_bind. intros ch i.
  do 4 (apply returns_bind; intros ?). case_decide; [apply knows_throw|].
  do 4 (apply returns_bind; intros ?). apply returns_recv_bind. intros j raw Hr.
  apply returns_lift_bind. intros resp Hu. case_decide as Ht; [apply knows_throw|].
  apply returns_lift_bind. intros [ar|] Ha; [|apply knows_throw]. apply knows_ret.
  by apply (verified_proves j raw resp i e).
Qed.

Lemma pres_keeps f : (∀ s, client_inv s → client_inv (f s)) → pres keeps (modify (m:=m) f).
Proof. intros Hf. apply pres_modify. intros s [Hs _]. split; auto. Qed.
Lemma pres_set_ws x : pres keeps (modify (m:=m) (set_ws x)).
Proof. apply pres_keeps. by intros s []. Qed.
Lemma pres_set_task x : pres keeps (modify (m:=m) (set_task x)).
Proof. apply pres_keeps. by intros s []. Qed.
#[local] Hint Resolve pres_set_ws pres_set_task : pres.

Lemma pres_client_auth w e : pres keeps (client_auth identity w e).
Proof.
  unfold client_auth, make_challenge, make_response, make_auth_challenge, make_auth_response, new_packet.
  pres_auto.
Qed.
Lemma pres_client_connect addr e : pres keeps (client_connect identity addr e).
Proof.
  unfold client_connect, new_packet. apply pres_bind; [apply _|apply pres_ws_connect, _|intros w].
  eapply pres_bind_returns; [apply _|apply pres_client_auth|apply client_auth_proves|].
  intros [key enc] Hkey. apply pres_bind; [apply _| |intros _; pres_auto].
  apply pres_keeps. intros s [_ _ Hr]. split; [by right|done..].
Qed.
Lemma pres_client_send c n key text : pres keeps (client_send identity c n key text).
Proof. unfold client_send, connected, encrypt, new_packet. pres_auto. Qed.
Lemma pres_disconnect : pres keeps disconnect.
Proof. unfold disconnect, cancel_task. pres_auto. Qed.

Context `{!Ed25519Laws}.

Lemma proved_key pkt key : key = [] ∨ proved key → verify_packet pkt key = Ok true → proved key.
Proof.
  intros [->|?]; [|done]. intros (d & s & k & _ & _ & _ & Hl & _)%verify_packet_true.
  by rewrite ed_load_bad_key in Hl.
Qed.
Lemma pres_recorded from text : vouched (from, text) → pres keeps (recorded (m:=m) from text).
Proof.
  intros Hv. unfold recorded. apply pres_bind; [apply _| |intros _; pres_auto].
  apply pres_keeps. intros s [Hk Hi Hr]. split; [done..|].
  apply Forall_app. split; [done|]. by constructor.
Qed.
Lemma pres_client_frame_keeps raw : arrived raw →
  pres keeps (client_frame identity (Some (recorded (m:=m))) raw).
Proof.
  intros Hraw. unfold client_frame. apply pres_lift_bind; [apply _|intros pkt Hu].
  apply (pres_bind_knows _ (λ key, key = [] ∨ proved key)); [apply pres_gets, _| |intros key Hkey].
  { apply knows_gets. by intros s [[Hk _ _] _]. }
  apply pres_lift_bind; [apply _|]. intros [] Hok; [|apply pres_ret, _].
  unfold client_dispatch, handle_msg. case_decide as Ht; [|apply pres_ret, _].
  destruct (open_message identity pkt) as [text|x] eqn:Ho; [|apply pres_lift, _].
  apply pres_recorded. exists raw, pkt, key. split_and!; try done. by eapply proved_key.
Qed.
Lemma pres_on_client e : arrives_in e → pres keeps (on_client (m:=m) e).
Proof.
  intros He. destruct e as [addr x|c n key text| |a]; cbn [on_client].
  - apply pres_client_connect.
  - apply pres_client_send.
  - apply pres_disconnect.
  - unfold client_arrives, end_client_loop. destruct a as [raw|]; [|pres_auto].
    pose proof (pres_client_frame_keeps raw He). pres_auto.
Qed.
End keeps.

Lemma session_within `{!Ed25519Laws} events c :
  session events c → Forall arrives_in events → within keeps c.
Proof.
  induction 1 as [k|events e w T _ IH _|events c c' _ IH Hp|events a m T1 T2 w _ IH _]; intros Hin.
  - split; [|constructor]. assert (client_inv new_client); [|done].
    split; [by left|done|constructor].
  - apply Forall_app in Hin as [Hin [He _]%Forall_cons_1].
    apply within_begin; [by apply IH|by apply pres_on_client].
  - by destruct (progress_within keeps _ _ Hp (IH Hin)).
  - by eapply within_drop, IH.
Qed.
End client_system.

(** ** Properties *)

(** C15: a client trusts nobody but the node that it has authenticated.  However
    connecting, sending, disconnecting and the frames that arrive interleave, and
    whatever fails: the key that the client takes for its node's is unset or proved,
    which means that a response that the client received verifies under it, to a nonce
    that the client drew; the node's identifier spells that key; and every message
    that the application was given came in a frame that arrived, as a packet of type
    MSG that verifies under a key proved in this way, was encrypted for this client's
    key, and is reported with the sender that the packet states. *)
Theorem client_trusts_its_node `{!MsgPack} `{!PyRepr} `{!Ed25519} `{!E2E} {env : Env} `{!Ed25519Laws}
    (identity : CellIdentity) events c :
  session identity events c →
  let s := w_st (cf_world c) in
  (cl_node_key s = [] ∨ proved (cl_node_key s)) ∧ cl_node_id s = bytes_hex (cl_node_key s) ∧
  ∀ from plaintext, (from, plaintext) ∈ cl_received s → ∃ raw q key,
    Arrives (Some raw) ∈ events ∧ unpack raw = Ok q ∧ proved key ∧ verify_packet q key = Ok true ∧
    type q = VStr T.MSG ∧ from_addr q = from ∧ open_message identity q = Ok plaintext.
Proof.
  intros Hs s.
  destruct (session_within identity (λ raw, Arrives (Some raw) ∈ events) events c Hs)
    as [[[Hk Hi Hr] _] _].
  { apply Forall_forall. by intros [| | |[raw|]] He. }
  split; [done|]. split; [done|]. intros from plaintext Hin.
  rewrite Forall_forall in Hr. by apply (Hr _ Hin).
Qed.

(** ** Witnesses *)

Module SessionsWitnesses.
Import Samples ClientWitnesses.
#[local] Existing Instance calm_env_laws.

(** Bob connects to the hub, and a message arrives. *)
Definition hub_frames : nat → result bytes := λ i,
  if decide (i = 5) then first_frame (E:=calm_env) hub VNone 0
  else if decide (i = 9)
    then second_frame (E:=calm_env) hub (cid bob) (o_random calm Auth.NONCE_SIZE) 0
  else Raise ConnectionClosed.
Definition bobs_env : Env := recv_env hub_frames.
Definition hello : client_event := Arrives (Some (note (n_signing hub))).
Notation tasks_of_bob := (Config ClientState client_event).
Definition served (e : client_event) (n : nat) (w : World ClientState) : option tasks_of_bob :=
  run_schedule (replicate n 0) (mkConfig w [mkTask e (on_client (env:=bobs_env) bob e)]).
Definition connected_at : tasks_of_bob :=
  default (mkConfig start []) (served (Connect "h:1" VNone) 13 start).
Definition told : tasks_of_bob :=
  default connected_at (served hello 3 (cf_world connected_at)).
Definition bobs_client : ClientState :=
  mkClient (Some 7) (nid hub) (sk_public (n_signing hub)) (Some Running)
    [(VStr "x@h", str_encode "hello")].

Lemma session_served e n events w c : can_begin e (w_st w) [] →
  session (env:=bobs_env) bob events (mkConfig w []) → served e n w = Some c →
  session (env:=bobs_env) bob (events ++ [e]) c.
Proof.
  intros He Hs Hrun%run_schedule_progress.
  assert (session (env:=bobs_env) bob (events ++ [e])
    (mkConfig w [mkTask e (on_client (env:=bobs_env) bob e)])) as Hb by by apply (session_begin _ _ _ w []).
  refine (rtc_ind_r (λ c, session (env:=bobs_env) bob (events ++ [e]) c) _ Hb _ c Hrun).
  intros c1 c2 _ Hp Hc. by eapply session_progress.
Qed.

Lemma bob_told : session (env:=bobs_env) bob [Connect "h:1" VNone; hello] told.
Proof.
  apply (session_served hello 3 [Connect "h:1" VNone] (cf_world connected_at)).
  - split; [left; vm_compute; exact eq_refl|constructor].
  - assert (mkConfig (cf_world connected_at) [] = connected_at) as -> by (vm_compute; exact eq_refl).
    apply (session_served (Connect "h:1" VNone) 13 [] start); [|apply session_new|vm_compute; exact eq_refl].
    split; [by intros [|]|constructor].
  - vm_compute. exact eq_refl.
Qed.

Lemma client_trusts_its_node_witness :
  w_st (cf_world told) = bobs_client ∧
  session (env:=bobs_env) bob [Connect "h:1" VNone; hello] told ∧
  ∃ raw q key, Arrives (Some raw) ∈ [Connect "h:1" VNone; hello] ∧ unpack raw = Ok q ∧
    proved (H3:=bobs_env) key ∧ verify_packet q key = Ok true ∧ type q = VStr T.MSG ∧
    from_addr q = VStr "x@h" ∧ open_message bob q = Ok (str_encode "hello").
Proof.
  assert (w_st (cf_world told) = bobs_client) as Hs by (vm_compute; exact eq_refl).
  split; [exact Hs|]. split; [exact bob_told|].
  apply (client_trusts_its_node (env:=bobs_env) bob _ told bob_told).
  rewrite Hs. by left.
Defined.
End SessionsWitnesses.
