(* ===== verification/Repl.v ===== *)
(** * The interactive prompt ([nevod.py], [_cell_connect])

    One line of input at a time: [interpret] says what a line asks for, given the
    contact book and the node the cell is connected to, [repl_line] carries it out
    and prints a [reply], and [repl] runs the prompt, while the client's receive
    loop shows the messages that arrive. *)
From S2P Require Import Prelude PyVal Interfaces Text Effects Crypto Protocol Auth Identity Table Storage Transport Router Gossip Node Client.
From S2P Require Samples.

(** ** Text *)

(** The characters that [str.strip] and [str.split] treat as white space, each
    as its UTF-8 encoding. *)
Definition char_of (l : list N) : string :=
  str_decode (from_option id "000"%byte ∘ Byte.of_N <$> l).
Definition py_spaces : list string := char_of <$>
  [[9]; [10]; [11]; [12]; [13]; [28]; [29]; [30]; [31]; [32]; [194; 133]; [194; 160];
   [225; 154; 128]; [226; 128; 128]; [226; 128; 129]; [226; 128; 130]; [226; 128; 131];
   [226; 128; 132]; [226; 128; 133]; [226; 128; 134]; [226; 128; 135]; [226; 128; 136];
   [226; 128; 137]; [226; 128; 138]; [226; 128; 168]; [226; 128; 169]; [226; 128; 175];
   [226; 129; 159]; [227; 128; 128]]%N.
Definition is_py_space (c : string) : bool := bool_decide (c ∈ py_spaces).

Fixpoint drop_spaces (l : list string) : list string :=
  match l with
  | c :: l' => if is_py_space c then drop_spaces l' else l
  | [] => []
  end.

Definition join_chars (l : list string) : string := foldr String.append "" l.

(** [s.strip()] *)
Definition strip (s : string) : string :=
  join_chars (reverse (drop_spaces (reverse (drop_spaces (utf8_chars s))))).

(** [s.split()]: [word] is the word being read *)
Fixpoint words (word : list string) (l : list string) : list (list string) :=
  match l with
  | [] => if decide (word = []) then [] else [word]
  | c :: l =>
      if is_py_space c then if decide (word = []) then words [] l else word :: words [] l
      else words (word ++ [c]) l
  end.
Definition split_words (s : string) : list string := join_chars <$> words [] (utf8_chars s).

(** [s.split(": ", 1)] when [": "] occurs in [s] *)
Fixpoint split_colon (s : string) : option (string * string) :=
  match s with
  | "" => None
  | String a s' =>
      match a, s' with
      | ":"%char, String " " r => Some ("", r)
      | _, _ => prod_map (String a) id <$> split_colon s'
      end
  end%string.

Definition split_addr (addr_str default_node_id : string) : string * string :=
  match split_first "@" addr_str with
  | Some (c, n) => (c, n)
  | None => (addr_str, default_node_id)
  end.

(** ** Commands *)

(** An entry of the contact book. *)
Record Contact := mkContact {
  ct_alias : string;
  ct_cell : string;
  ct_node : string;
  ct_key : bytes;
}.

Definition contact_key (c : Contact) : option string := Some (ct_alias c).
Definition contact_merge (old new : Contact) : Contact :=
  mkContact (ct_alias old) (ct_cell new) (ct_node new) (ct_key new).

(** Assigning to a key of a dictionary keeps the key's place. *)
Definition set_contact (c : Contact) (book : list Contact) : list Contact :=
  upsert contact_key contact_merge c book.
Definition find_contact (alias : string) (book : list Contact) : option Contact :=
  select_pk contact_key alias book.

(** [bytes.fromhex(hex)] of the right length *)
Definition parse_key (hex : string) : option bytes :=
  match bytes_fromhex hex with
  | Ok b => if decide (length b = 32) then Some b else None
  | Raise _ => None
  end.

Inductive command :=
  | Quit                                   (** end of input, [/quit] *)
  | Skip                                   (** an empty line *)
  | List_contacts
  | Usage
  | Bad_key
  | Add (c : Contact)
  | Unknown_alias (head : string)
  | Send (cell node : string) (key : bytes) (message : string)
  | Help.

(** [/add <alias> <addr> <enc_pub>], after [/add ] *)
Definition interpret_add (args node_id : string) : command :=
  match split_words args with
  | [alias; addr_str; enc_hex] =>
      let '(c, n) := split_addr addr_str node_id in
      match parse_key enc_hex with
      | Some k => Add (mkContact alias c n k)
      | None => Bad_key
      end
  | _ => Usage
  end.

(** [<alias>: <msg>] or [<addr> <enc_pub>: <msg>] *)
Definition interpret_message (book : list Contact) (node_id head message : string) : command :=
  let head := strip head in
  match find_contact head book with
  | Some c => Send (ct_cell c) (ct_node c) (ct_key c) message
  | None =>
      match split_first " " head with
      | Some (addr_str, enc_hex) =>
          let '(c, n) := split_addr addr_str node_id in
          match parse_key (strip enc_hex) with
          | Some k => Send c n k message
          | None => Bad_key
          end
      | None => Unknown_alias head
      end
  end.

(** [line] as [readline] returns it; [""] is the end of the input. *)
Definition interpret (book : list Contact) (node_id line : string) : command :=
  if decide (line = "") then Quit else
  let line := strip line in
  if decide (line = "") then Skip else
  if decide (line ∈ ["/quit"; "/exit"; "quit"; "exit"]) then Quit else
  if decide (line = "/contacts") then List_contacts else
  match after_prefix "/add " line with
  | Some args => interpret_add args node_id
  | None =>
      match split_colon line with
      | Some (head, message) => interpret_message book node_id head message
      | None => Help
      end
  end.

(** ** Execution *)

Inductive reply :=
  | No_contacts
  | Contacts (book : list Contact)
  | Add_usage
  | Bad_enc_pub
  | Saved (alias : string)
  | No_such_alias (head : string)
  | Sent
  | Send_error (e : exn)
  | See_usage.

(** [s[:n]] *)
Definition first_chars (n : nat) (s : string) : string := join_chars (take n (utf8_chars s)).

(** The line that a reply prints, and the exception it tells of. *)
Definition line_out (text : string) : io := IoPrint false (text +:+ newline).
Definition contact_line (c : Contact) : string :=
  "  " +:+ ct_alias c +:+ ": " +:+ first_chars 16 (ct_cell c) +:+ "...@" +:+
  first_chars 16 (ct_node c) +:+ "...".
Definition print_reply (r : reply) : list io :=
  match r with
  | No_contacts => [line_out "  (no contacts)"]
  | Contacts book => line_out ∘ contact_line <$> book
  | Add_usage => [line_out "  usage: /add <alias> <cell_id>[@<node_id>] <enc_pub_hex>"]
  | Bad_enc_pub => [IoPrintExn false "  bad enc_pub: " ValueError]
  | Saved alias => [line_out ("  saved: " +:+ alias)]
  | No_such_alias head =>
      [line_out ("  unknown alias '" +:+ head +:+ "' — use /add or provide enc_pub")]
  | Sent => [line_out "  [sent]"]
  | Send_error e => [IoPrintExn false "  send error: " e]
  | See_usage => [line_out "  ?  type /quit to exit or see usage above"]
  end.

(** [from_addr[:24]], as it is printed.  A verified packet has a text there; of
    other types only the failure matters. *)
Definition from_text `{!PyRepr} (from : pyval) : result string :=
  match from with
  | VStr s => Ok (first_chars 24 s)
  | _ => py_slice8 from ;; Ok (py_repr from)
  end.

(** The callback of the session: [on_message] of [_cell_connect]. *)
Definition show_message `{!PyRepr} (from : pyval) (plaintext : bytes) : M ClientState unit :=
  let text := decode_replace plaintext in
  from ← lift (from_text from);
  echo (newline +:+ "  [" +:+ from +:+ "]: " +:+ text) ;;
  echo_nonl "> ".

Section repl.
Context `{!MsgPack} `{!PyRepr} `{!Ed25519} `{!E2E} {env : Env}.
Context (identity : CellIdentity).

Definition say (r : reply) : M ClientState unit := for_each (print_reply r) emit.

(** The contact book afterwards; [None] ends the loop. *)
Definition repl_line (book : list Contact) (line : string)
    : M ClientState (option (list Contact)) :=
  node_id ← gets cl_node_id;
  match interpret book node_id line with
  | Quit => mret None
  | Skip => mret (Some book)
  | List_contacts => say (if decide (book = []) then No_contacts else Contacts book) ;; mret (Some book)
  | Usage => say Add_usage ;; mret (Some book)
  | Bad_key => say Bad_enc_pub ;; mret (Some book)
  | Add c => say (Saved (ct_alias c)) ;; mret (Some (set_contact c book))
  | Unknown_alias h => say (No_such_alias h) ;; mret (Some book)
  | Send c n k m =>
      catch (client_send identity c n k (str_encode m) ;; say Sent) (λ e, say (Send_error e)) ;;
      mret (Some book)
  | Help => say See_usage ;; mret (Some book)
  end.

(** What happens at a prompt: frames arrive, or the end of the socket, and then a
    line is typed.  [None] is an interruption from the keyboard. *)
Record turn := mkTurn { arrivals : list (option bytes); typed : option string }.

(** [while cell.connected]; nothing typed any more is the end of the input. *)
Fixpoint repl (book : list Contact) (turns : list turn) : M ClientState unit :=
  up ← connected;
  if up : bool then
    echo_nonl "> " ;;
    match turns with
    | [] => mret ()
    | t :: turns =>
        for_each (arrivals t) (client_arrives identity (Some show_message)) ;;
        match typed t with
        | None => mret ()
        | Some line =>
            r ← repl_line book line;
            match r with
            | None => mret ()
            | Some book => repl book turns
            end
        end
    end
  else mret ().

(** The session once connected: its [finally] disconnects. *)
Definition session (turns : list turn) : M ClientState unit :=
  finally (repl [] turns) (echo (newline +:+ "disconnecting...") ;; disconnect).
End repl.

(** ** Lemmas *)

(** *** Characters of a text *)

(** Not in the middle of a character. *)
Definition starts (s : string) : bool :=
  match s with "" => true | String a _ => negb (is_continuation a) end.

Lemma starts_app s t : s ≠ "" → starts (s +:+ t) = starts s.
Proof. by destruct s. Qed.
Lemma utf8_chars_cons a s : ∃ c cs, utf8_chars (String a s) = c :: cs.
Proof. cbn [utf8_chars]. repeat case_match; eauto. Qed.
Lemma utf8_chars_app s t : starts t = true → utf8_chars (s +:+ t) = utf8_chars s ++ utf8_chars t.
Proof.
  intros Ht. induction s as [|a s IH]; [done|].
  change (String a s +:+ t) with (String a (s +:+ t)). destruct s as [|b s].
  - change ("" +:+ t) with t. cbn [utf8_chars app]. destruct t as [|b t]; [done|].
    destruct (utf8_chars (String b t)) eqn:E; [done|]. cbn [starts] in Ht.
    by apply negb_true_iff in Ht as ->.
  - destruct (utf8_chars_cons b s) as (c & cs & Hc). rewrite Hc in IH.
    change (String b s +:+ t) with (String b (s +:+ t)) in *.
    cbn [utf8_chars] in IH, Hc |- *. cbn [utf8_chars]. rewrite IH, Hc. cbn [app].
    by destruct (is_continuation b).
Qed.
Lemma join_utf8_chars s : join_chars (utf8_chars s) = s.
Proof.
  induction s as [|a s IH]; [done|]. cbn [utf8_chars].
  destruct s as [|b s]; [done|]. destruct (utf8_chars (String b s)) as [|c cs]; [by rewrite <-IH|].
  rewrite <-IH. by destruct (is_continuation b).
Qed.

Lemma encoded_starts c u t : encoded c u → starts (u +:+ t) = true.
Proof.
  destruct 1 as [a Ha|a b c Ha _ _|a b d c Ha _ _ _ _ _|a b d e c Ha _ _ _ _ _ _]; cbn;
    revert Ha; destruct a as [[] [] [] [] [] [] [] []]; cbn; done || lia.
Qed.
Lemma valid_starts s : utf8_valid s = true → starts s = true.
Proof. intros [->|(c & u & t & Hu & -> & _)]%valid_cons; [done|]. by eapply encoded_starts. Qed.

(** A character is what encodes one code point. *)
Lemma utf8_chars_encoded c u t :
  encoded c u → starts t = true → utf8_chars (u +:+ t) = u :: utf8_chars t.
Proof.
  intros Hu Ht. rewrite utf8_chars_app by done. assert (utf8_chars u = [u]) as ->; [|done].
  assert (∀ b, (128 ≤ Ascii.N_of_ascii b ≤ 191)%N → is_continuation b = true) as Hcont.
  { intros b. destruct b as [[] [] [] [] [] [] [] []]; cbn; done || lia. }
  destruct Hu as [a Ha|a b c Ha Hb _|a b d c Ha Hb _ _ Hd _|a b d e c Ha Hb _ _ Hd He _];
    cbn [utf8_chars]; rewrite ?Hcont by done; done.
Qed.

(** *** Words, and texts that do not end in white space *)

Definition word (s : string) : Prop :=
  s ≠ "" ∧ utf8_valid s = true ∧ Forall (λ c, is_py_space c = false) (utf8_chars s).
Definition sentence (s : string) : Prop :=
  utf8_valid s = true ∧ ∃ l c, utf8_chars s = l ++ [c] ∧ is_py_space c = false.
(** Starting and ending with a character that is not white space. *)
Definition trimmed (s : string) : Prop :=
  ∃ c d l l', utf8_chars s = c :: l ∧ utf8_chars s = l' ++ [d] ∧
    is_py_space c = false ∧ is_py_space d = false.

Lemma word_starts s t : word s → starts (s +:+ t) = true.
Proof. intros (Hne & Hv & _). rewrite starts_app by done. by apply valid_starts. Qed.
Lemma word_not_nil s : word s → utf8_chars s ≠ [].
Proof.
  intros (Hne & _). destruct s as [|a s]; [done|]. by destruct (utf8_chars_cons a s) as (? & ? & ->).
Qed.
Lemma word_sentence s : word s → sentence s.
Proof.
  intros Hw. pose proof (word_not_nil s Hw) as Hne. destruct Hw as (_ & Hv & Hs). split; [done|].
  destruct (exists_last Hne) as (l & c & Hl). exists l, c. split; [done|].
  rewrite Hl in Hs. by apply Forall_app in Hs as [_ [? _]%Forall_cons].
Qed.
Lemma word_app s t : word s → word t → word (s +:+ t).
Proof.
  intros (Hs & Hvs & Fs) (Ht & Hvt & Ft). split; [by destruct s|]. split; [by rewrite valid_app|].
  rewrite utf8_chars_app by by apply valid_starts. by apply Forall_app.
Qed.
(** Between a word and a sentence there may be anything. *)
Lemma trimmed_app x y z :
  word x → starts (y +:+ z) = true → sentence z → trimmed (x +:+ y +:+ z).
Proof.
  intros Hx Hyz (Hv & l & d & Hz & Hd). pose proof (word_not_nil x Hx) as Hne.
  destruct Hx as (_ & _ & Fx). unfold trimmed. rewrite !utf8_chars_app by (done || by apply valid_starts).
  destruct (utf8_chars x) as [|c cs]; [done|]. apply Forall_cons in Fx as [Hc _].
  exists c, d. do 2 eexists. split; [done|]. split; [|done]. rewrite Hz, !(assoc (++)). done.
Qed.
Lemma word_trimmed s : word s → trimmed s.
Proof.
  intros Hw. pose proof (word_not_nil s Hw) as Hne. destruct (word_sentence s Hw) as (_ & l' & d & Hd & ?).
  destruct Hw as (_ & _ & Hs). unfold trimmed. destruct (utf8_chars s) as [|c l]; [done|].
  apply Forall_cons in Hs as [Hc _]. by exists c, d, l, l'.
Qed.

(** Stripping a line removes its end. *)
Lemma strip_line s e : trimmed s → e = "" ∨ e = newline → strip (s +:+ e) = s.
Proof.
  intros (c & d & l & l' & Hc & Hd & Sc & Sd) He.
  assert (utf8_chars (s +:+ e) = utf8_chars s ++ utf8_chars e) as Hu.
  { apply utf8_chars_app. by destruct He as [-> | ->]. }
  assert (drop_spaces (reverse (utf8_chars s)) = reverse (utf8_chars s)) as Hlast.
  { rewrite Hd, reverse_app. cbn. by rewrite Sd. }
  assert (∀ r, drop_spaces (utf8_chars s ++ r) = utf8_chars s ++ r) as Hfirst.
  { intros r. rewrite Hc. cbn. by rewrite Sc. }
  unfold strip. rewrite Hu, Hfirst, reverse_app.
  assert (drop_spaces (reverse (utf8_chars e) ++ reverse (utf8_chars s)) = reverse (utf8_chars s)) as ->.
  { destruct He as [-> | ->]; exact Hlast. }
  by rewrite reverse_involutive, join_utf8_chars.
Qed.

Lemma words_last w l :
  Forall (λ c, is_py_space c = false) l → w ++ l ≠ [] → words w l = [w ++ l].
Proof.
  revert w. induction l as [|c l IH]; intros w; cbn [words].
  - rewrite app_nil_r. intros _ Hw. by rewrite decide_False.
  - intros [-> Hl]%Forall_cons Hw. rewrite IH; rewrite <-?(assoc (++)); try done.
Qed.
Lemma words_first w l c r :
  Forall (λ c, is_py_space c = false) l → w ++ l ≠ [] → is_py_space c = true →
  words w (l ++ c :: r) = (w ++ l) :: words [] r.
Proof.
  intros Hl Hw Hc. revert w Hw. induction Hl as [|x l Hx _ IH]; intros w Hw; cbn [words app].
  - rewrite Hc, app_nil_r in *. by rewrite decide_False.
  - rewrite Hx, IH; rewrite <-?(assoc (++)); done.
Qed.

Lemma split_colon_app w m :
  str_mem ":" w = false → split_colon (w +:+ ": " +:+ m) = Some (w, m).
Proof.
  induction w as [|a w IH]; [done|]. cbn [str_mem]. rewrite orb_false_iff, bool_decide_eq_false.
  intros [Ha Hw]. change (String a w +:+ ": " +:+ m) with (String a (w +:+ ": " +:+ m)).
  assert (split_colon (String a (w +:+ ": " +:+ m)) =
    prod_map (String a) id <$> split_colon (w +:+ ": " +:+ m)) as ->.
  { clear -Ha. cbn [split_colon]. destruct a as [[] [] [] [] [] [] [] []]; try done. }
  by rewrite IH.
Qed.

Lemma find_set_contact c book : find_contact (ct_alias c) (set_contact c book) =
  Some (mkContact (ct_alias c) (ct_cell c) (ct_node c) (ct_key c)).
Proof.
  unfold find_contact, set_contact. rewrite <-to_map_lookup.
  rewrite (to_map_upsert contact_key _ _ _ (ct_alias c)) by done. rewrite lookup_insert_eq.
  destruct (to_map contact_key book !! ct_alias c) as [old|] eqn:E; [|by destruct c]. simpl.
  rewrite to_map_lookup in E. apply select_pk_Some in E as [_ [= Ho]].
  unfold contact_merge. by rewrite Ho.
Qed.

Lemma str_mem_app c s t : str_mem c (s +:+ t) = str_mem c s || str_mem c t.
Proof.
  induction s as [|a s IH]; [done|]. change (String a s +:+ t) with (String a (s +:+ t)).
  cbn [str_mem]. by rewrite IH, orb_assoc.
Qed.

Lemma split_three x y z :
  word x → word y → word z → split_words (x +:+ " " +:+ y +:+ " " +:+ z) = [x; y; z].
Proof.
  intros Hx Hy Hz. unfold split_words.
  assert (utf8_chars (x +:+ " " +:+ y +:+ " " +:+ z) = utf8_chars x ++ " " :: utf8_chars y ++
    " " :: utf8_chars z) as ->.
  { rewrite (utf8_chars_app x), (utf8_chars_app " "), (utf8_chars_app y), (utf8_chars_app " ");
      try done; [|by apply word_starts].
    apply valid_starts, Hz. }
  pose proof (word_not_nil x Hx). pose proof (word_not_nil y Hy). pose proof (word_not_nil z Hz).
  rewrite words_first; [|apply Hx|done|done].
  rewrite words_first; [|apply Hy|done|done].
  rewrite words_last; [|apply Hz|done].
  csimpl. by rewrite !join_utf8_chars.
Qed.

(** A graphic ASCII character is no white space. *)
Definition graphic (a : Ascii.ascii) : bool :=
  let n := Ascii.N_of_ascii a in ((33 <=? n) && (n <=? 126))%N.
Lemma graphic_word s : s ≠ "" → Forall (λ a, graphic a = true) (chars s) → word s.
Proof.
  intros Hne Hs. split; [done|]. clear Hne. unfold chars in Hs.
  induction s as [|a s IH]; [by split|]. apply Forall_cons in Hs as [Ha Hs].
  destruct (IH Hs) as [Hv Hf].
  assert (encoded (Ascii.N_of_ascii a) (String a "")) as He.
  { constructor. unfold graphic in Ha. lia. }
  change (String a s) with (String a "" +:+ s). split; [by rewrite (encoded_valid _ _ _ He)|].
  rewrite (utf8_chars_encoded _ _ _ He) by by apply valid_starts. constructor; [|done].
  by destruct a as [[] [] [] [] [] [] [] []].
Qed.
Lemma hex_word b : b ≠ [] → word (bytes_hex b).
Proof.
  intros Hb. apply graphic_word; [by destruct b|]. clear Hb.
  assert (∀ x, graphic (hex_digit (Byte.to_N x / 16)) = true ∧
    graphic (hex_digit (Byte.to_N x mod 16)) = true) as Hx by (intros []; done).
  induction b as [|x b IH]; [constructor|]. destruct (Hx x). by repeat constructor.
Qed.

(** *** Entering a contact and writing to it *)

Definition add_args (c : Contact) : string :=
  ct_alias c +:+ " " +:+ (ct_cell c +:+ "@" +:+ ct_node c) +:+ " " +:+ bytes_hex (ct_key c).

(** What can be entered: words, an at sign only between cell and node, a key of
    32 bytes. *)
Definition contact_ok (c : Contact) : Prop :=
  word (ct_alias c) ∧ word (ct_cell c) ∧ word (ct_node c) ∧
  str_mem "@" (ct_cell c) = false ∧ length (ct_key c) = 32.

Lemma contact_words c :
  contact_ok c → word (ct_cell c +:+ "@" +:+ ct_node c) ∧ word (bytes_hex (ct_key c)).
Proof.
  intros (_ & Hc & Hn & _ & Hk). split; [|by apply hex_word; intros Hx; rewrite Hx in Hk].
  apply word_app; [done|]. apply word_app; [|done]. apply graphic_word; [done|by repeat constructor].
Qed.

Lemma interpret_add_line book nd c :
  contact_ok c → interpret book nd (("/add " +:+ add_args c) +:+ newline) = Add c.
Proof.
  intros Hok. destruct (contact_words c Hok) as [Ha Hh].
  pose proof Hok as (Hx & Hc & Hn & Hat & Hk).
  assert (strip (("/add " +:+ add_args c) +:+ newline) = "/add " +:+ add_args c) as Hstrip.
  { apply strip_line; [|by right]. unfold add_args.
    set (mid := " " +:+ ct_alias c +:+ " " +:+ (ct_cell c +:+ "@" +:+ ct_node c) +:+ " ").
    assert ("/add " +:+ ct_alias c +:+ " " +:+ (ct_cell c +:+ "@" +:+ ct_node c) +:+ " " +:+ bytes_hex (ct_key c)
      = "/add" +:+ mid +:+ bytes_hex (ct_key c)) as ->.
    { unfold mid. by rewrite !str_app_assoc. }
    apply trimmed_app; [apply graphic_word; [done|by repeat constructor]|done|by apply word_sentence]. }
  unfold interpret. rewrite decide_False by discriminate. rewrite Hstrip.
  rewrite decide_False by discriminate.
  rewrite decide_False by (rewrite !elem_of_cons, elem_of_nil; intuition discriminate).
  rewrite decide_False by discriminate.
  change (after_prefix "/add " ("/add " +:+ ?z)) with (Some z).
  unfold interpret_add, add_args. rewrite split_three by done.
  unfold split_addr. change ("@" +:+ ct_node c) with (String "@" (ct_node c)).
  rewrite split_first_app by done. unfold parse_key.
  rewrite bytes_fromhex_hex, decide_True by done. by destruct c.
Qed.

Lemma encoded_blank c u : encoded c u → u ≠ " " → str_mem " " u = false.
Proof.
  assert (∀ b, (128 ≤ Ascii.N_of_ascii b)%N → bool_decide (b = " "%char) = false) as Hb.
  { intros b Hb. apply bool_decide_eq_false. by intros ->. }
  intros Hu Hne.
  destruct Hu as [a Ha|a b c Ha Hb' _|a b d c Ha Hb' _ _ Hd _|a b d e c Ha Hb' _ _ Hd He _]; cbn [str_mem].
  - rewrite bool_decide_false; [done|]. by intros ->.
  - rewrite !Hb by lia. done.
  - rewrite !Hb by lia. done.
  - rewrite !Hb by lia. done.
Qed.
Lemma word_no_blank x : word x → str_mem " " x = false.
Proof.
  intros (_ & Hv & Hf). revert x Hv Hf. refine (valid_ind _ _ _); [done|].
  intros c u t Hu Ht IH. rewrite (utf8_chars_encoded _ _ _ Hu) by by apply valid_starts.
  intros [Hsp Hf]%Forall_cons. rewrite str_mem_app, (encoded_blank _ _ Hu) by by intros ->.
  by apply IH.
Qed.

(** A line that addresses a contact is no [/add]. *)
Lemma prefix_not_alias x m : word x → after_prefix "/add " (x +:+ ": " +:+ m) = None.
Proof.
  intros Hx. destruct (after_prefix _ _) as [r|] eqn:E; [|done]. exfalso.
  apply after_prefix_Some in E.
  assert (split_first " " (x +:+ ": " +:+ m) = Some (x +:+ ":", m)) as Hs.
  { change (x +:+ ": " +:+ m) with (x +:+ ":" +:+ String " " m). rewrite str_app_assoc.
    apply split_first_app. by rewrite str_mem_app, word_no_blank. }
  rewrite E in Hs. simpl in Hs. injection Hs as Hs _. apply (f_equal chars) in Hs.
  rewrite chars_app in Hs. change (chars "/add") with (["/"; "a"; "d"]%char ++ ["d"%char]) in Hs.
  by apply app_inj_tail in Hs as [_ ?].
Qed.

Lemma interpret_to_contact book nd c m :
  contact_ok c → str_mem ":" (ct_alias c) = false → sentence m →
  find_contact (ct_alias c) book = Some c →
  interpret book nd ((ct_alias c +:+ ": " +:+ m) +:+ newline) =
  Send (ct_cell c) (ct_node c) (ct_key c) m.
Proof.
  intros (Hx & _) Hcolon Hm Hfind. set (line := ct_alias c +:+ ": " +:+ m).
  assert (str_mem " " line = true) as Hsp.
  { unfold line. rewrite !str_mem_app. simpl. by rewrite orb_true_r. }
  assert (strip (line +:+ newline) = line) as Hstrip.
  { apply strip_line; [|by right]. by apply (trimmed_app _ ": " m). }
  unfold interpret.
  rewrite decide_False by (intros Hl; unfold line in Hl; destruct Hx; by destruct (ct_alias c)).
  rewrite Hstrip. rewrite decide_False by (intros Hl; by rewrite Hl in Hsp).
  rewrite decide_False.
  2: { rewrite !elem_of_cons, elem_of_nil. intros Hl. rewrite <-not_false_iff_true in Hsp.
    apply Hsp. by destruct Hl as [-> | [-> | [-> | [-> | []]]]]. }
  rewrite decide_False by (intros Hl; by rewrite Hl in Hsp).
  unfold line. rewrite prefix_not_alias by done. rewrite split_colon_app by done.
  unfold interpret_message.
  assert (strip (ct_alias c) = ct_alias c) as ->.
  { pose proof (strip_line (ct_alias c) "" (word_trimmed _ Hx) (or_introl eq_refl)) as Hs.
    assert (ct_alias c +:+ "" = ct_alias c) as Hnil.
    { generalize (ct_alias c). induction s as [|a s IH]; [done|]. exact (f_equal (String a) IH). }
    by rewrite Hnil in Hs. }
  by rewrite Hfind.
Qed.

(** A world in which more has been printed. *)
Definition printed {S} (l : list io) (w : World S) : World S :=
  mkWorld (w_tick w) (w_trace w ++ l) (w_st w).

(** *** Operations that never raise *)

Definition total {S A} (x : M S A) : Prop := ∀ w, ∃ a w', x w = (Ok a, w').

Section total.
Context {S : Type}.
Lemma total_bind {A B} (x : M S A) (f : A → M S B) :
  total x → (∀ a, total (f a)) → total (x ≫= f).
Proof. intros Hx Hf w. rewrite bindE. destruct (Hx w) as (a & w' & ->). apply Hf. Qed.
Lemma total_catch {A} (x : M S A) h : (∀ e, total (h e)) → total (catch x h).
Proof. intros Hh w. rewrite catchE. destruct (x w) as [[a|e] w']; [by do 2 eexists|apply Hh]. Qed.
Lemma total_for_each {A} (l : list A) (body : A → M S unit) :
  (∀ a, total (body a)) → total (for_each l body).
Proof.
  intros Hb. induction l as [|x l IH]; cbn [for_each]; [by do 2 eexists|]. by apply total_bind.
Qed.
Lemma total_ret {A} (a : A) : total (mret (M:=M S) a).
Proof. by do 2 eexists. Qed.
Lemma total_emit e : total (emit (m:=M S) e).
Proof. by do 2 eexists. Qed.
Lemma total_gets {A} (f : S → A) : total (gets (m:=M S) f).
Proof. by do 2 eexists. Qed.
Lemma total_modify (f : S → S) : total (modify (m:=M S) f).
Proof. by do 2 eexists. Qed.
End total.
Create HintDb total discriminated.
#[export] Hint Resolve total_bind total_catch total_for_each total_ret total_emit total_gets
  total_modify : total.

Section prompt_total.
Context `{!MsgPack} `{!PyRepr} `{!Ed25519} `{!E2E} {env : Env}.
Context (identity : CellIdentity).

Lemma total_connected : total connected.
Proof. intros w. unfold connected. rewrite bindE, getsE. case_match; by do 2 eexists. Qed.
Lemma total_end_client_loop : total end_client_loop.
Proof. unfold end_client_loop. auto with total. Qed.
#[local] Hint Resolve total_connected total_end_client_loop : total.
Lemma total_client_arrives on_message a : total (client_arrives identity on_message a).
Proof.
  unfold client_arrives. apply total_bind; [auto with total|]. intros [[]|]; auto with total;
    apply total_bind; auto with total; intros []; destruct a; auto with total.
Qed.
Lemma total_say r : total (say r).
Proof. unfold say. auto with total. Qed.
#[local] Hint Resolve total_client_arrives total_say : total.
Lemma total_repl_line book line : total (repl_line identity book line).
Proof.
  unfold repl_line. apply total_bind; [auto with total|]. intros nd.
  destruct (interpret book nd line); auto with total.
Qed.
#[local] Hint Resolve total_repl_line : total.
Lemma total_repl book turns : total (repl identity book turns).
Proof.
  revert book. induction turns as [|t turns IH]; intros book; cbn [repl];
    (apply total_bind; [auto with total|]; intros []; [|auto with total]).
  - unfold echo_nonl. auto with total.
  - apply total_bind; [apply total_emit|]. intros _. apply total_bind; [auto with total|]. intros _.
    destruct (typed t); [|auto with total]. apply total_bind; [auto with total|].
    intros [book'|]; auto with total.
Qed.
End prompt_total.

(** ** Properties *)

Section repl_properties.
Context `{!MsgPack} `{!PyRepr} `{!Ed25519} `{!E2E} {env : Env}.

(** C30: a contact that was added can be written to by its alias.  Let the alias, the
    cell and the node be words, which means texts without white space and not empty,
    without a colon in the alias and without an at sign in the cell; let the key have
    32 bytes, and let the text not end in white space.  Then typing
    [/add alias cell@node key] saves the contact and says so; and typing [alias: text]
    after that makes the client send the text, in UTF-8, to that cell of that node,
    encrypted for exactly the 32 bytes that the key spells, and prints whether it was
    sent. *)
Theorem add_then_write (identity : CellIdentity) book c m (w : World ClientState) :
  contact_ok c → str_mem ":" (ct_alias c) = false → sentence m →
  repl_line identity book (("/add " +:+ add_args c) +:+ newline) w =
    (Ok (Some (set_contact c book)), printed [line_out ("  saved: " +:+ ct_alias c)] w) ∧
  wp (repl_line identity (set_contact c book) ((ct_alias c +:+ ": " +:+ m) +:+ newline))
    (λ r w', r = Ok (Some (set_contact c book)) ∧ ∃ sent w1,
       client_send identity (ct_cell c) (ct_node c) (ct_key c) (str_encode m) w = (sent, w1) ∧
       w' = printed match sent with
         | Ok _ => [line_out "  [sent]"]
         | Raise e => [IoPrintExn false "  send error: " e]
         end w1) w.
Proof.
  intros Hc Hcolon Hm. unfold repl_line. rewrite !bindE, !getsE. split.
  - by rewrite interpret_add_line.
  - unfold wp. rewrite bindE, getsE. rewrite (interpret_to_contact _ _ c) by
      (done || rewrite find_set_contact; by destruct c).
    rewrite bindE, catchE, bindE.
    destruct (client_send (m:=M ClientState) _ _ _ _ _ w) as [[[]|e] w1]; (split; [done|]); by do 2 eexists.
Qed.

(** C18: the prompt cannot be crashed.  Whatever text is typed, whatever arrives
    meanwhile and whatever fails, the session ends without an exception: it prints
    that it disconnects, and leaves a client without a socket and without a
    receive task. *)
Theorem session_ends (identity : CellIdentity) turns (w : World ClientState) :
  wp (session identity turns) (λ r w', r = Ok () ∧ cl_ws (w_st w') = None ∧
    cl_task (w_st w') = None ∧
    ∃ before closed, w_trace w' = before ++ line_out (newline +:+ "disconnecting...") :: closed ∧
      closed = IoClose <$> closed_sockets (w_st (repl identity [] turns w).2)) w.
Proof.
  unfold wp, session, finally, M_finally.
  destruct (total_repl identity [] turns w) as ([] & w1 & ->). unfold echo.
  rewrite bindE, emitE, run_disconnect. cbn [fst snd w_trace w_st]. split_and!; [done..|].
  do 2 eexists. split; [|done]. by rewrite <-(assoc (++)).
Qed.
End repl_properties.

(** ** Witnesses *)

Module ReplWitnesses.
Import Samples.
#[local] Existing Instance calm_env.

Definition alice : CellIdentity := mkCellIdentity (sample_signing "001") (sample_encryption "002") "alice".
Definition online : World ClientState := mkWorld 0 [] (mkClient (Some 3) "hub" [] (Some Running) []).
(** Neither the alias nor the text is ASCII. *)
Definition bob : Contact := mkContact "Боб" "b0b" "n2" (pad32 ["004"%byte]).

Lemma bob_ok : contact_ok bob.
Proof.
  repeat split; try discriminate; try (vm_compute; repeat constructor).
Qed.

Lemma add_then_write_witness :
  repl_line alice [] ("/add Боб b0b@n2 " +:+ bytes_hex (ct_key bob) +:+ newline) online =
    (Ok (Some [bob]), printed [line_out "  saved: Боб"] online) ∧
  wp (repl_line alice [bob] ("Боб: привет, hi" +:+ newline)) (λ r w',
       r = Ok (Some [bob]) ∧ ∃ sent w1,
       client_send alice "b0b" "n2" (ct_key bob) (str_encode "привет, hi") online = (sent, w1) ∧
       w' = printed match sent with
         | Ok _ => [line_out "  [sent]"]
         | Raise e => [IoPrintExn false "  send error: " e]
         end w1) online.
Proof.
  refine (add_then_write alice [] bob "привет, hi" online bob_ok _ _).
  - vm_compute. reflexivity.
  - split; [vm_compute; reflexivity|].
    exists ["п"; "р"; "и"; "в"; "е"; "т"; ","; " "; "h"], "i". split; vm_compute; reflexivity.
Defined.
End ReplWitnesses.
