(* ===== verification/Cli.v ===== *)
(** * The command line ([nevod.py])

    Each command as an operation on the machine it runs on: the identity files,
    the databases, and the node or client it brings up.  Click parses the options;
    the commands take them as arguments.  What happens while a process runs - the
    events of a node, the turns of a prompt - is an argument as well. *)
From S2P Require Import Prelude PyVal Interfaces Text Json Effects Crypto Protocol Auth Identity Table Storage Transport Router Gossip Node Lifecycle Client Repl.
From S2P Require Samples.

Record Process := mkProcess {
  pr_files : gmap string string;      (** identity files, by path *)
  pr_dbs : gmap string DB;            (** database files, by path *)
  pr_node : NodeState;                (** the node, once it is constructed *)
  pr_cell : ClientState;              (** the client, once it is constructed *)
}.

Definition set_files (fs : gmap string string) (p : Process) : Process :=
  mkProcess fs (pr_dbs p) (pr_node p) (pr_cell p).
(** The node's tables are those of its database file: every statement commits. *)
Definition put_node (db_path : string) (s : NodeState) (p : Process) : Process :=
  mkProcess (pr_files p) (<[db_path := ns_db s]> (pr_dbs p)) s (pr_cell p).
Definition put_cell (s : ClientState) (p : Process) : Process :=
  mkProcess (pr_files p) (pr_dbs p) (pr_node p) s.

(** Run an operation on a part of the state. *)
Definition zoom {S T A} (get : T → S) (put : S → T → T) (x : M S A) : M T A := λ w,
  let '(r, w') := x (mkWorld (w_tick w) (w_trace w) (get (w_st w))) in
  (r, mkWorld (w_tick w') (w_trace w') (put (w_st w') (w_st w))).

(** The tables of a database file; a missing file is created empty. *)
Definition opened (db_path : string) (dbs : gmap string DB) : DB := default empty_db (dbs !! db_path).

Section cli.
Context `{!MsgPack} `{!PyRepr} `{!PyFloat} `{!Ed25519} `{!E2E} {env : Env}.

Definition in_node {A} (db_path : string) (x : M NodeState A) : M Process A :=
  zoom pr_node (put_node db_path) x.
Definition in_cell {A} (x : M ClientState A) : M Process A := zoom pr_cell put_cell x.

(** [identity.save(path)] *)
Definition save (saved : gmap string string → result (gmap string string)) : M Process unit :=
  fs ← gets pr_files; fs ← lift (saved fs); modify (set_files fs).

(** [try: load(path)  except FileNotFoundError: ...; sys.exit(1)] *)
Definition load_or_exit {A} (path : string) (load : gmap string string → result A) : M Process A :=
  fs ← gets pr_files;
  match load fs with
  | Raise FileNotFoundError => echo_err ("not found: " +:+ path) ;; throw SystemExit
  | r => lift r
  end.

(** *** Node commands *)

Definition init (address out node_type acc : string) : M Process unit :=
  identity ← generate_node address node_type acc;
  save (save_node identity out) ;;
  echo ("node_id : " +:+ nid identity) ;;
  echo ("address : " +:+ address) ;;
  echo ("type    : " +:+ node_type +:+ " / " +:+ acc) ;;
  echo ("saved   : " +:+ out).

Definition info (identity_path : string) : M Process unit :=
  idt ← load_or_exit identity_path (load_node identity_path);
  echo ("node_id : " +:+ nid idt) ;;
  echo ("address : " +:+ py_str (n_address idt)) ;;
  echo ("type    : " +:+ py_str (n_node_type idt) +:+ " / " +:+ py_str (n_access idt)) ;;
  echo ("enc_pub : " +:+ bytes_hex (ek_public (n_encryption idt))).

(** What reaches a node that nobody embeds: sockets, frames, and its timer. *)
Definition external (e : event) : bool :=
  match e with
  | Incoming _ | Frame _ _ | Closed _ | IncomingDone _ | GossipTimer => true
  | Start | Stop | Join _ | SendMessage _ _ _ | RegisterLocally _ _ _ => false
  end.
#[global] Instance enabled_dec e s : Decision (enabled e s).
Proof. destruct e; simpl; apply _. Defined.

(** An exception ends the task it occurs in, and nothing else. *)
Definition happens (identity : NodeIdentity) (e : event) : M NodeState unit :=
  s ← gets id;
  if decide (external e = true ∧ enabled e s)
  then catch (on_event identity false e) (λ _, mret ()) else mret ().

(** [_run_until_signal]: [events] happen until the signal comes. *)
Definition run_until_signal (identity : NodeIdentity) (db_path : string) (events : list event)
    : M Process unit :=
  finally (in_node db_path (for_each events (happens identity)))
    (echo (newline +:+ "stopping...") ;; in_node db_path Node.stop).

(** [Storage(db_path)], [open], and [Node.__init__] *)
Definition open_node (db_path : string) : M Process unit :=
  modify (λ p, put_node db_path (new_node (opened db_path (pr_dbs p))) p).

(** [Node.create] *)
Definition create_node (identity_path db_path : string) : M Process NodeIdentity :=
  fs ← gets pr_files;
  identity ← lift (load_node identity_path fs);
  open_node db_path ;;
  mret identity.

(** [_genesis] up to the wait for a signal, with [Node.create_genesis] in its
    parts: the file is written before the database is opened. *)
Definition genesis_up (address identity_path db_path acc : string) : M Process NodeIdentity :=
  identity ← generate_node address "permanent" acc;
  save (save_node identity identity_path) ;;
  open_node db_path ;;
  in_node db_path (register_genesis identity address acc) ;;
  echo ("genesis node: " +:+ nid identity) ;;
  echo ("address     : " +:+ address) ;;
  echo ("identity    → " +:+ identity_path) ;;
  echo ("database    → " +:+ db_path) ;;
  in_node db_path (Node.start identity) ;;
  echo "node running — Ctrl+C to stop" ;;
  mret identity.

Definition short_id (identity : NodeIdentity) : string := first_chars 16 (nid identity) +:+ "...".

Definition start_up (identity_path db_path : string) : M Process NodeIdentity :=
  identity ← create_node identity_path db_path;
  in_node db_path (Node.start identity) ;;
  echo ("node : " +:+ short_id identity) ;;
  echo "running — Ctrl+C to stop" ;;
  mret identity.

Definition join_up (bootstrap_addr identity_path db_path : string) : M Process NodeIdentity :=
  identity ← create_node identity_path db_path;
  in_node db_path (Node.start identity) ;;
  in_node db_path (Node.join identity bootstrap_addr) ;;
  echo ("node : " +:+ short_id identity) ;;
  echo ("joined via " +:+ bootstrap_addr) ;;
  echo "running — Ctrl+C to stop" ;;
  mret identity.

(** *** Cell commands *)

Definition cell_init (name : string) (out : option string) : M Process unit :=
  let out := default (name +:+ ".cell.json") out in
  idt ← generate_cell name;
  save (save_cell idt out) ;;
  echo ("name    : " +:+ name) ;;
  echo ("cell_id : " +:+ cid idt) ;;
  echo ("enc_pub : " +:+ bytes_hex (ek_public (c_encryption idt))) ;;
  echo ("saved   : " +:+ out).

Definition cell_info (identity_path : string) : M Process unit :=
  idt ← load_or_exit identity_path (load_cell identity_path);
  echo ("name    : " +:+ py_str (c_name idt)) ;;
  echo ("cell_id : " +:+ cid idt) ;;
  echo ("enc_pub : " +:+ bytes_hex (ek_public (c_encryption idt))).

(** What is printed once the client is connected. *)
Definition banner (idt : CellIdentity) (node_addr : string) : list string := [
  "connected : " +:+ node_addr;
  "cell_id   : " +:+ cid idt;
  "enc_pub   : " +:+ bytes_hex (ek_public (c_encryption idt));
  "";
  "  /add <alias> <cell_id>[@<node>] <enc_pub>";
  "  /contacts";
  "  <alias>: <msg>   OR   <cell_id>[@<node>] <enc_pub>: <msg>";
  "  /quit";
  ""].

Definition cell_connect (identity_path node_addr : string) (turns : list turn) : M Process unit :=
  idt ← load_or_exit identity_path (load_cell identity_path);
  modify (put_cell new_client) ;;
  catch (in_cell (client_connect idt node_addr VNone))
    (λ e, emit (IoPrintExn true "connect failed: " e) ;; throw SystemExit) ;;
  for_each (banner idt node_addr) echo ;;
  in_cell (session idt turns).

(** *** The commands together *)

Inductive invocation :=
  | Init (address out node_type acc : string)
  | Genesis (address identity_path db_path acc : string)
  | StartCmd (identity_path db_path : string)
  | JoinCmd (bootstrap identity_path db_path : string)
  | Info (identity_path : string)
  | CellInit (name : string) (out : option string)
  | CellInfo (identity_path : string)
  | CellConnect (identity_path node_addr : string).

Definition main (c : invocation) (events : list event) (turns : list turn) : M Process unit :=
  match c with
  | Init address out node_type acc => init address out node_type acc
  | Genesis address ip db acc => i ← genesis_up address ip db acc; run_until_signal i db events
  | StartCmd ip db => i ← start_up ip db; run_until_signal i db events
  | JoinCmd bootstrap ip db => i ← join_up bootstrap ip db; run_until_signal i db events
  | Info ip => info ip
  | CellInit name out => cell_init name out
  | CellInfo ip => cell_info ip
  | CellConnect ip addr => cell_connect ip addr turns
  end.

(** The files that a command may write, and the database that it may change. *)
Definition written_file (c : invocation) : option string :=
  match c with
  | Init _ out _ _ => Some out
  | Genesis _ ip _ _ => Some ip
  | CellInit name out => Some (default (name +:+ ".cell.json") out)
  | _ => None
  end.
Definition written_db (c : invocation) : option string :=
  match c with
  | Genesis _ _ db _ | StartCmd _ db | JoinCmd _ _ db => Some db
  | _ => None
  end.
End cli.

(** ** Lemmas *)

(** A machine on which a process begins. *)
Definition boot (fs : gmap string string) (dbs : gmap string DB) : Process :=
  mkProcess fs dbs (new_node empty_db) new_client.

Lemma zoomE {S T A} (get : T → S) put (x : M S A) (w : World T) r w' :
  x (mkWorld (w_tick w) (w_trace w) (get (w_st w))) = (r, w') →
  zoom get put x w = (r, mkWorld (w_tick w') (w_trace w') (put (w_st w') (w_st w))).
Proof. intros Hx. unfold zoom. by rewrite Hx. Qed.

Lemma pres_zoom {S T A} (get : T → S) put (x : M S A) (R : relation S) (Q : relation T) :
  (∀ w, R (w_st w) (w_st (x w).2)) → (∀ t s, R (get t) s → Q t (put s t)) →
  pres Q (zoom get put x).
Proof.
  intros Hx Hput w _. unfold zoom. specialize (Hx (mkWorld (w_tick w) (w_trace w) (get (w_st w)))).
  destruct (x _) as [r w']. simpl in *. by apply Hput.
Qed.

(** *** What a command changes *)

Definition process_inv (p : Process) : Prop :=
  node_inv (pr_node p) ∧ map_Forall (λ _ d, db_inv d) (pr_dbs p).

(** Only the given file and database are written, and consistency is kept. *)
Definition writes (file db : option string) (p p' : Process) : Prop :=
  (∀ path, file ≠ Some path → pr_files p' !! path = pr_files p !! path) ∧
  (∀ path, db ≠ Some path → pr_dbs p' !! path = pr_dbs p !! path) ∧
  (process_inv p → process_inv p').
#[global] Instance writes_preorder file db : PreOrder (writes file db).
Proof.
  split.
  - by intros p.
  - intros p q r (Hf & Hd & Hi) (Hf' & Hd' & Hi'). split_and!; [| |auto]; intros path Hp.
    + rewrite Hf' by done. by apply Hf.
    + rewrite Hd' by done. by apply Hd.
Qed.

Section cli_lemmas.
Context `{!MsgPack} `{!PyRepr} `{!PyFloat} `{!Ed25519} `{!E2E} {env : Env}.

(** An operation of the node that keeps its invariant. *)
Lemma pres_in_node {A} file db (x : M NodeState A) :
  (∀ w, node_inv (w_st w) → node_inv (w_st (x w).2)) → pres (writes file (Some db)) (in_node db x).
Proof.
  intros Hx. eapply (pres_zoom _ _ _ (λ s s', node_inv s → node_inv s')); [exact Hx|].
  intros p s Hs. split_and!; [done|intros path Hp; simpl; by rewrite lookup_insert_ne by congruence|].
  intros [Hn Hd]. split; [by apply Hs|]. apply map_Forall_insert_2; [by apply Hs|done].
Qed.
Lemma pres_in_node_ok {A} file db (x : M NodeState A) :
  pres (node_rel (program anything None)) x → pres (writes file (Some db)) (in_node db x).
Proof. intros Hx. apply pres_in_node. intros w. by apply run_node_inv. Qed.
Lemma pres_in_cell {A} file db (x : M ClientState A) : pres (writes file db) (in_cell x).
Proof. by eapply (pres_zoom _ _ _ (λ _ _, True)). Qed.

Lemma pres_echo file db s : pres (writes file db) (echo (m:=M Process) s).
Proof. by apply pres_emit, _. Qed.
Lemma pres_save path db saved :
  (∀ fs fs', saved fs = Ok fs' → ∀ other, other ≠ path → fs' !! other = fs !! other) →
  pres (writes (Some path) db) (save saved).
Proof.
  intros Hs w _. unfold save. rewrite !bindE, getsE, bindE, liftE.
  destruct (saved _) as [fs'|e] eqn:E; [|done]. rewrite modifyE. cbn [snd w_st].
  split_and!; [|done|done]. intros other Ho. eapply Hs; [done|congruence].
Qed.
Lemma saves_only path v fs fs' : write_json path v fs = Ok fs' →
  ∀ other, other ≠ path → fs' !! other = fs !! other.
Proof.
  unfold write_json. intros (t & _ & [= <-])%result_bind_Ok other Ho. by rewrite lookup_insert_ne.
Qed.
Lemma pres_open_node file db : pres (writes file (Some db)) (open_node db).
Proof.
  intros w _. unfold open_node. rewrite modifyE. cbn [snd w_st].
  split_and!; [done|intros path Hp; simpl; by rewrite lookup_insert_ne by congruence|].
  intros [Hn Hd]. assert (db_inv (opened db (pr_dbs (w_st w)))) as Hopen.
  { unfold opened. destruct (pr_dbs (w_st w) !! db) eqn:E; [by eapply Hd|apply empty_db_inv]. }
  split; [by apply new_node_inv|]. by apply map_Forall_insert_2.
Qed.
Lemma happens_inv identity e (w : World NodeState) :
  node_inv (w_st w) → node_inv (w_st (happens identity e w).2).
Proof.
  intros Hn. unfold happens. rewrite bindE, getsE. case_decide as He; [|done].
  apply run_node_inv; [|done]. apply pres_catch; [apply _| |intros; by apply pres_ret, _].
  apply ok_event; [done|eapply enabled_ok; [apply Hn|apply He]|apply event_names_anything].
Qed.

#[local] Hint Resolve pres_in_cell pres_echo pres_open_node : pres.

Lemma pres_genesis_up address ip db acc :
  pres (writes (Some ip) (Some db)) (genesis_up address ip db acc).
Proof.
  unfold genesis_up, generate_node, gen_signing, gen_encryption. pres_auto.
  all: try (apply pres_save; intros fs fs' Hs; by eapply saves_only).
  all: try (apply pres_in_node_ok; apply ok_start).
  apply pres_in_node_ok. unfold register_genesis. pres_auto. by apply ok_new_entry.
Qed.
Lemma pres_run_until_signal file identity db events :
  pres (writes file (Some db)) (run_until_signal identity db events).
Proof.
  unfold run_until_signal. pres_auto.
  - apply pres_in_node. intros w. revert w. induction events as [|e events IH]; intros w Hn; [done|].
    cbn [for_each]. rewrite bindE. pose proof (happens_inv identity e w Hn) as He.
    destruct (happens identity e w) as [[[]|x] w1]; [by apply IH|done].
  - apply pres_in_node_ok, ok_stop.
Qed.

Lemma pres_create_node file ip db : pres (writes file (Some db)) (create_node ip db).
Proof. unfold create_node. pres_auto. Qed.
Lemma pres_load_or_exit {A} file db path (load : gmap string string → result A) :
  pres (writes file db) (load_or_exit path load).
Proof. unfold load_or_exit. pres_auto. Qed.
#[local] Hint Resolve pres_create_node pres_load_or_exit pres_run_until_signal : pres.

Lemma pres_main c events turns :
  pres (writes (written_file c) (written_db c)) (main c events turns).
Proof.
  destruct c; simpl.
  - unfold init, generate_node, gen_signing, gen_encryption. pres_auto.
    apply pres_save. intros fs fs' Hs. by eapply saves_only.
  - apply pres_bind; [apply _|apply pres_genesis_up|intros; apply pres_run_until_signal].
  - unfold start_up. pres_auto. apply pres_in_node_ok, ok_start.
  - unfold join_up. pres_auto; apply pres_in_node_ok; [apply ok_start|by apply ok_join].
  - unfold info. pres_auto.
  - unfold cell_init, generate_cell, gen_signing, gen_encryption. pres_auto.
    apply pres_save. intros fs fs' Hs. by eapply saves_only.
  - unfold cell_info. pres_auto.
  - unfold cell_connect. pres_auto.
Qed.

(** *** Runs *)

Lemma run_echo s (w : World Process) : echo s w = (Ok (), printed [line_out s] w).
Proof. done. Qed.
Lemma printed_app {S} l l' (w : World S) : printed l' (printed l w) = printed (l ++ l') w.
Proof. unfold printed. simpl. by rewrite (assoc (++)). Qed.

(** An exception in the background does not stop the node from stopping. *)
Lemma run_until_signal_ends identity db events (w : World Process) :
  ∃ k t s, run_until_signal identity db events w =
    (Ok (), mkWorld k (t ++ line_out (newline +:+ "stopping...") :: stop_trace s)
      (put_node db (stopped s) (w_st w))).
Proof.
  assert (∀ w1 : World NodeState, ∃ w2, for_each events (happens identity) w1 = (Ok (), w2)) as Hev.
  { clear w. induction events as [|e events IH]; intros w1; [by eexists|]. cbn [for_each]. rewrite bindE.
    assert (∃ w2, happens identity e w1 = (Ok (), w2)) as [w2 ->]; [|apply IH].
    unfold happens. rewrite bindE, getsE. case_decide; [|by eexists]. rewrite catchE.
    destruct (on_event (m:=M NodeState) _ _ _ _) as [[[]|x] w2]; by eexists. }
  unfold run_until_signal, finally, M_finally, in_node.
  destruct (Hev (mkWorld (w_tick w) (w_trace w) (pr_node (w_st w)))) as [w1 Hw1].
  rewrite (zoomE _ _ _ _ _ _ Hw1), bindE, run_echo.
  erewrite zoomE by apply run_stop. do 3 eexists. f_equal. unfold printed. cbn [w_tick w_trace w_st].
  rewrite <-(assoc (++)). f_equal. unfold put_node. simpl. by rewrite insert_insert_eq.
Qed.

(** The identity that [init] and [genesis] draw at an instant. *)
Definition drawn (k : nat) (address node_type acc : string) : NodeIdentity :=
  let s := o_edkey (outcome k) in
  let e := o_xkey (outcome (S k)) in
  mkNodeIdentity {| sk_private := s; sk_public := ed_public s |}
    {| ek_private := e; ek_public := x_public e |} address node_type acc.

Lemma run_generate_node address t acc (w : World Process) :
  generate_node address t acc w =
  (Ok (drawn (w_tick w) address t acc), mkWorld (S (S (w_tick w))) (w_trace w) (w_st w)).
Proof. done. Qed.

Lemma run_save_node `{!Ed25519Laws} `{!E2ELaws} i path (w : World Process) :
  node_writable i → ∃ text,
    save (save_node i path) w =
      (Ok (), mkWorld (w_tick w) (w_trace w) (set_files (<[path := text]> (pr_files (w_st w))) (w_st w))) ∧
    ∀ fs, fs !! path = Some text → load_node path fs = Ok i.
Proof.
  intros Hi. destruct (save_load_node i path (pr_files (w_st w)) Hi) as (text & Hs & Hl).
  exists text. split.
  - unfold save. by rewrite !bindE, getsE, bindE, liftE, Hs.
  - intros fs Hfs. unfold load_node, read_json in *. rewrite Hfs. by rewrite lookup_insert_eq in Hl.
Qed.

(** Up to its start, a genesis node goes like this. *)
Lemma genesis_before_start `{!Ed25519Laws} `{!E2ELaws} address ip db acc (w : World Process) :
  utf8_valid address = true → utf8_valid acc = true → process_inv (w_st w) →
  let i := drawn (w_tick w) address "permanent" acc in
  ∃ text k d, lists_itself i address d ∧
    (∀ fs, fs !! ip = Some text → load_node ip fs = Ok i) ∧
    genesis_up address ip db acc w = (in_node db (Node.start i) ;;
        echo "node running — Ctrl+C to stop" ;; mret i)
      (printed [line_out ("genesis node: " +:+ nid i); line_out ("address     : " +:+ address);
                line_out ("identity    → " +:+ ip); line_out ("database    → " +:+ db)]
        (mkWorld k (w_trace w) (mkProcess (<[ip := text]> (pr_files (w_st w)))
          (<[db := d]> (pr_dbs (w_st w))) (new_node d) (pr_cell (w_st w))))).
Proof.
  intros Ha Hc [_ Hd] i. unfold genesis_up. rewrite bindE, run_generate_node. fold i.
  destruct (run_save_node i ip (mkWorld (S (S (w_tick w))) (w_trace w) (w_st w))) as (text & Hs & Hl);
    [by split_and!|].
  rewrite bindE, Hs, bindE. unfold open_node. rewrite modifyE, bindE. unfold in_node at 1.
  set (d0 := opened db (pr_dbs (w_st w))).
  assert (db_inv d0) as Hd0.
  { unfold d0, opened. destruct (_ !! db) eqn:E; [by eapply Hd|apply empty_db_inv]. }
  destruct (run_register_genesis i address acc d0 (S (S (w_tick w))) (w_trace w) Hd0)
    as (k & d & Hrun & Hlist).
  exists text, k, d. split; [done|]. split; [done|].
  erewrite zoomE by exact Hrun. rewrite !bindE, run_echo, bindE, run_echo, bindE, run_echo, bindE,
    run_echo. rewrite !printed_app. do 3 f_equal. unfold put_node. simpl. by rewrite insert_insert_eq.
Qed.

Lemma run_create_node ip db i (w : World Process) : load_node ip (pr_files (w_st w)) = Ok i →
  create_node ip db w = (Ok i, mkWorld (w_tick w) (w_trace w)
    (put_node db (new_node (opened db (pr_dbs (w_st w)))) (w_st w))).
Proof. intros Hi. unfold create_node. by rewrite !bindE, getsE, bindE, liftE, Hi. Qed.

(** Bringing the node of a process up. *)
Lemma run_node_start i db host port (w : World Process) :
  split_address (n_address i) = Ok (host, port) → o_serve (outcome (w_tick w)) = Ok () →
  in_node db (Node.start i) w = (Ok (), mkWorld (S (w_tick w)) (w_trace w ++ [IoServe host port])
    (put_node db (set_life (λ l, mkLife Active Active (lf_db l) (lf_handlers l)) (pr_node (w_st w))) (w_st w))).
Proof. intros Ha Hs. unfold in_node. by erewrite zoomE by (by apply run_start). Qed.
End cli_lemmas.

(** ** Properties *)

Section cli_properties.
Context `{!MsgPack} `{!PyRepr} `{!PyFloat} `{!Ed25519} `{!E2E} {env : Env}.

(** C17: a command touches what it is told to.  Whatever happens while it runs,
    even if it fails, [init], [genesis] and [cell init] write no file but the one
    they are given, the other commands write none; only [genesis], [start] and
    [join] change a database, and only the one they are given; and on any machine
    whose databases are all consistent they stay so. *)
Theorem command_writes c events turns (w : World Process) :
  let p := w_st w in
  let p' := w_st (main c events turns w).2 in
  (∀ path, written_file c ≠ Some path → pr_files p' !! path = pr_files p !! path) ∧
  (∀ path, written_db c ≠ Some path → pr_dbs p' !! path = pr_dbs p !! path) ∧
  (process_inv p → process_inv p').
Proof. exact (proj1 (pres_always _ _) (pres_main c events turns) w). Qed.

(** What [init] wrote, [info] shows.  [init] prints the identifier of a new
    identity and what it was given, and saves it; on any machine that has the
    file, [info] prints the same identifier, address, type and access, and the
    encryption key, and changes nothing. *)
Theorem init_then_info `{!Ed25519Laws} `{!E2ELaws} address out t acc (w : World Process) :
  utf8_valid address = true → utf8_valid t = true → utf8_valid acc = true →
  wp (main (Init address out t acc) [] []) (λ r w1, r = Ok () ∧ ∃ i,
    w_trace w1 = w_trace w ++ [
      line_out ("node_id : " +:+ nid i); line_out ("address : " +:+ address);
      line_out ("type    : " +:+ t +:+ " / " +:+ acc); line_out ("saved   : " +:+ out)] ∧
    ∀ w2 : World Process, pr_files (w_st w2) !! out = pr_files (w_st w1) !! out →
      main (Info out) [] [] w2 = (Ok (), printed [
        line_out ("node_id : " +:+ nid i); line_out ("address : " +:+ address);
        line_out ("type    : " +:+ t +:+ " / " +:+ acc);
        line_out ("enc_pub : " +:+ bytes_hex (ek_public (n_encryption i)))] w2)) w.
Proof.
  intros Ha Ht Hc. unfold wp. cbn [main]. unfold init. rewrite bindE, run_generate_node.
  set (i := drawn _ _ _ _).
  destruct (run_save_node i out (mkWorld (S (S (w_tick w))) (w_trace w) (w_st w))) as (text & Hs & Hl);
    [by split_and!|].
  rewrite bindE, Hs, !bindE, run_echo, bindE, run_echo, bindE, run_echo, run_echo, !printed_app.
  split; [done|]. exists i. split; [done|]. intros w2 Hf. cbn in Hf. rewrite lookup_insert_eq in Hf.
  unfold info, load_or_exit. rewrite !bindE, getsE, (Hl _ Hf), liftE, !bindE, run_echo, bindE,
    run_echo, bindE, run_echo, run_echo. by rewrite !printed_app.
Qed.

(** Without its identity file no command does anything.  [info], [cell info]
    and [cell connect] say so and exit; [start] and [join] raise before they have
    opened a database or a socket. *)
Theorem missing_identity path db addr events turns (w : World Process) :
  pr_files (w_st w) !! path = None →
  let told := (Raise SystemExit, printed [IoPrint true ("not found: " +:+ path +:+ newline)] w) in
  main (Info path) events turns w = told ∧
  main (CellInfo path) events turns w = told ∧
  main (CellConnect path addr) events turns w = told ∧
  main (StartCmd path db) events turns w = (Raise FileNotFoundError, w) ∧
  main (JoinCmd addr path db) events turns w = (Raise FileNotFoundError, w).
Proof.
  intros Hp told.
  assert (load_node path (pr_files (w_st w)) = Raise FileNotFoundError ∧
    load_cell path (pr_files (w_st w)) = Raise FileNotFoundError) as [Hn Hc].
  { unfold load_node, load_cell, read_json. by rewrite Hp. }
  cbn [main]. unfold info, cell_info, cell_connect, start_up, join_up, load_or_exit, create_node.
  split_and!; rewrite !bindE, getsE; rewrite ?Hn, ?Hc; try done; rewrite bindE, liftE, Hn; done.
Qed.

(** C37: [genesis] finds a bad address too late.  An address that is not of the
    form [host:port] is only split when the node starts: by then [genesis] has
    written an identity with it, listed it in the database, and announced the
    node.  The command then raises, with no server and nothing stopped; and so
    does every later [start] from that file, on any machine. *)
Theorem bad_address_found_late `{!Ed25519Laws} `{!E2ELaws} address ip db acc events e
    (w : World Process) :
  utf8_valid address = true → utf8_valid acc = true → process_inv (w_st w) →
  split_address (VStr address) = Raise e →
  wp (main (Genesis address ip db acc) events []) (λ r w1, r = Raise e ∧ ∃ i d,
    w_trace w1 = w_trace w ++ [
      line_out ("genesis node: " +:+ nid i); line_out ("address     : " +:+ address);
      line_out ("identity    → " +:+ ip); line_out ("database    → " +:+ db)] ∧
    load_node ip (pr_files (w_st w1)) = Ok i ∧ n_address i = VStr address ∧
    pr_dbs (w_st w1) !! db = Some d ∧ lists_itself i address d ∧
    ∀ db' events' (w2 : World Process), pr_files (w_st w2) !! ip = pr_files (w_st w1) !! ip →
      (main (StartCmd ip db') events' [] w2).1 = Raise e) w.
Proof.
  intros Ha Hc Hi He. unfold wp. cbn [main]. rewrite bindE.
  destruct (genesis_before_start address ip db acc w) as (text & k & d & Hd & Hl & Hrun); [done..|].
  rewrite Hrun. set (i := drawn _ _ _ _) in *. unfold in_node. rewrite bindE.
  erewrite zoomE by (by apply (run_start_bad i e)). cbn [fst snd].
  split; [done|]. exists i, d.
  cbn [w_trace w_st printed put_node pr_files pr_dbs pr_node ns_db new_node].
  split; [done|]. split; [apply Hl; by rewrite lookup_insert_eq|].
  split; [done|]. split; [by rewrite lookup_insert_eq|]. split; [done|].
  intros db' events' w2 Hf. cbn [pr_files put_node] in Hf. rewrite lookup_insert_eq in Hf. unfold start_up.
  rewrite bindE, bindE. rewrite (run_create_node _ _ i) by (by apply Hl). rewrite bindE.
  unfold in_node. by erewrite zoomE by (by apply (run_start_bad i e)).
Qed.

(** C39: a join that fails does not stop the node.  When the bootstrap node cannot
    be reached, [join] raises with the node already started: the server is up, the
    gossip task runs and the database is open, and [stop], which the wait for a
    signal would have called, is never called. *)
Theorem failed_join_leaves_node_up bootstrap ip db events i host port e (w : World Process) :
  load_node ip (pr_files (w_st w)) = Ok i → split_address (n_address i) = Ok (host, port) →
  o_serve (outcome (w_tick w)) = Ok () → str_mem ":" bootstrap = true →
  o_dial (outcome (S (w_tick w))) = Raise e →
  wp (main (JoinCmd bootstrap ip db) events []) (λ r w', r = Raise e ∧
    w_trace w' = w_trace w ++ [IoServe host port] ∧
    ns_life (pr_node (w_st w')) = mkLife Active Active true [] ∧
    ns_db (pr_node (w_st w')) = opened db (pr_dbs (w_st w))) w.
Proof.
  intros Hl Ha Hs Hb Hd. unfold wp. cbn [main]. unfold join_up. rewrite bindE, bindE.
  rewrite (run_create_node _ _ i), bindE by done. rewrite (run_node_start _ _ host port) by done.
  rewrite bindE. unfold in_node. erewrite zoomE.
  2: { unfold Node.join, connect, open_connection, ws_connect, ask_result. rewrite Hb.
    rewrite !bindE, awaitE, !bindE, askE, liftE. cbn [w_tick]. rewrite Hd. reflexivity. }
  by split_and!.
Qed.

(** C12: a node survives its restart.  [genesis] at a well-formed address, the
    server coming up, announces the node, listens on the host and port of the
    address, and lists itself.  Whatever happens until the signal, it stops without
    an error; its tables are consistent.  Where a process then finds its files,
    [start] brings up the same node: the same identity, on the same host and port,
    over exactly the tables that were left, with no connection. *)
Theorem node_survives_restart `{!Ed25519Laws} `{!E2ELaws} address ip db acc host port
    (w : World Process) :
  utf8_valid address = true → utf8_valid acc = true → process_inv (w_st w) →
  split_address (VStr address) = Ok (host, port) → (∀ j, o_serve (outcome j) = Ok ()) →
  wp (genesis_up address ip db acc) (λ r w1, ∃ i, r = Ok i ∧
    w_trace w1 = w_trace w ++ [
      line_out ("genesis node: " +:+ nid i); line_out ("address     : " +:+ address);
      line_out ("identity    → " +:+ ip); line_out ("database    → " +:+ db);
      IoServe host port; line_out "node running — Ctrl+C to stop"] ∧
    ns_life (pr_node (w_st w1)) = mkLife Active Active true [] ∧
    lists_itself i address (ns_db (pr_node (w_st w1))) ∧
    ∀ events, wp (run_until_signal i db events) (λ r w2,
      r = Ok () ∧ lf_db (ns_life (pr_node (w_st w2))) = false ∧
      let d := ns_db (pr_node (w_st w2)) in
      db_inv d ∧ ∀ w3 : World Process, pr_files (w_st w3) !! ip = pr_files (w_st w2) !! ip →
        pr_dbs (w_st w3) !! db = pr_dbs (w_st w2) !! db →
        wp (start_up ip db) (λ r w4, r = Ok i ∧
          w_trace w4 = w_trace w3 ++ [IoServe host port; line_out ("node : " +:+ short_id i);
            line_out "running — Ctrl+C to stop"] ∧
          pr_node (w_st w4) = mkNodeState d ∅ [] [] (mkLife Active Active true [])) w3) w1) w.
Proof.
  intros Ha Hc Hi Hsplit Hs. unfold wp at 1.
  pose proof (proj1 (pres_always _ _) (pres_genesis_up address ip db acc) w) as (_ & _ & Hok). specialize (Hok Hi).
  destruct (genesis_before_start address ip db acc w) as (text & k & d & Hd & Hl & Hrun); [done..|].
  revert Hok. rewrite Hrun. set (i := drawn _ _ _ _) in *.
  rewrite bindE, (run_node_start i db host port), bindE, run_echo, retE by done.
  cbn [fst snd]. match goal with |- process_inv (w_st ?x) → _ => set (w1 := x) end. intros Hok.
  exists i. split; [done|]. split.
  { unfold w1, printed. cbn [w_trace]. by rewrite <-!(assoc (++)). }
  split; [done|]. split; [done|]. intros events.
  pose proof (proj1 (pres_always _ _) (pres_run_until_signal None i db events) w1) as (Hfiles & _ & Hok2).
  specialize (Hok2 Hok). unfold wp at 1.
  destruct (run_until_signal_ends i db events w1) as (k2 & t2 & s & Hend).
  rewrite Hend in *. cbn [fst snd w_st] in *.
  split; [done|]. split; [done|]. split; [apply Hok2|]. intros w3 Hf Hdb. unfold wp, start_up.
  rewrite bindE, (run_create_node _ _ i).
  2: { apply Hl. rewrite Hf. simpl. by rewrite lookup_insert_eq. }
  rewrite bindE, (run_node_start i db host port), bindE, run_echo, bindE, run_echo, retE by done.
  cbn [fst snd]. split; [done|]. split.
  - unfold printed. cbn [w_trace]. by rewrite <-!(assoc (++)).
  - simpl. unfold opened. rewrite Hdb. simpl. by rewrite lookup_insert_eq.
Qed.
End cli_properties.

(** ** Witnesses *)

Module CliWitnesses.
Import Samples.

Definition machine (fs : gmap string string) : World Process := mkWorld 0 [] (boot fs ∅).
Lemma machine_inv fs : process_inv (w_st (machine fs)).
Proof. split; [apply new_node_inv, empty_db_inv|]. apply map_Forall_empty. Qed.

(** A database of somebody else's on the machine, and a genesis whose node is sent
    a socket that fails the handshake. *)
Definition shared : World Process := mkWorld 0 [] (boot ∅ {["other.db" := empty_db]}).
Definition genesis_here : invocation := Genesis "a:1" "node.json" "node.db" "open".

Lemma command_writes_witness :
  pr_dbs (w_st (main (env:=calm_env) genesis_here [Incoming 3] [] shared).2) !! "other.db" =
    Some empty_db ∧
  process_inv (w_st (main (env:=calm_env) genesis_here [Incoming 3] [] shared).2).
Proof.
  destruct (command_writes (env:=calm_env) genesis_here [Incoming 3] [] shared) as (_ & Hd & Hi).
  split; [rewrite Hd; [reflexivity|discriminate]|]. apply Hi.
  split; [apply new_node_inv, empty_db_inv|]. apply map_Forall_singleton, empty_db_inv.
Defined.

Lemma init_then_info_witness :
  wp (main (env:=calm_env) (Init "a:1" "n.json" "permanent" "closed") [] []) (λ r w1, r = Ok () ∧ ∃ i,
    w_trace w1 = [
      line_out ("node_id : " +:+ nid i); line_out "address : a:1";
      line_out "type    : permanent / closed"; line_out "saved   : n.json"] ∧
    ∀ w2 : World Process, pr_files (w_st w2) !! "n.json" = pr_files (w_st w1) !! "n.json" →
      main (env:=calm_env) (Info "n.json") [] [] w2 = (Ok (), printed [
        line_out ("node_id : " +:+ nid i); line_out "address : a:1";
        line_out "type    : permanent / closed";
        line_out ("enc_pub : " +:+ bytes_hex (ek_public (n_encryption i)))] w2)) (machine ∅).
Proof.
  exact (init_then_info (env:=calm_env) "a:1" "n.json" "permanent" "closed" (machine ∅)
    eq_refl eq_refl eq_refl).
Defined.

Lemma missing_identity_witness :
  main (env:=calm_env) (Info "n.json") [] [] (machine ∅) =
    (Raise SystemExit, printed [IoPrint true ("not found: n.json" +:+ newline)] (machine ∅)) ∧
  main (env:=calm_env) (StartCmd "n.json" "n.db") [] [] (machine ∅) =
    (Raise FileNotFoundError, machine ∅).
Proof.
  destruct (missing_identity (env:=calm_env) "n.json" "n.db" "b:2" [] [] (machine ∅)
    (lookup_empty _))
    as (Hi & _ & _ & Hs & _).
  split; [exact Hi|exact Hs].
Defined.

Lemma bad_address_found_late_witness :
  wp (main (env:=calm_env) (Genesis "localhost" "n.json" "n.db" "open") [] []) (λ r w1,
    r = Raise ValueError ∧ ∃ i d,
    w_trace w1 = [
      line_out ("genesis node: " +:+ nid i); line_out "address     : localhost";
      line_out "identity    → n.json"; line_out "database    → n.db"] ∧
    load_node "n.json" (pr_files (w_st w1)) = Ok i ∧ n_address i = "localhost" ∧
    pr_dbs (w_st w1) !! "n.db" = Some d ∧ lists_itself i "localhost" d ∧
    ∀ db' events' (w2 : World Process),
      pr_files (w_st w2) !! "n.json" = pr_files (w_st w1) !! "n.json" →
      (main (env:=calm_env) (StartCmd "n.json" db') events' [] w2).1 = Raise ValueError) (machine ∅).
Proof.
  exact (bad_address_found_late (env:=calm_env) "localhost" "n.json" "n.db" "open" [] ValueError
    (machine ∅) eq_refl eq_refl (machine_inv ∅) eq_refl).
Defined.

(** The file of a node, and an environment in which nobody can be reached. *)
Definition saved : NodeIdentity :=
  mkNodeIdentity (sample_signing "001") (sample_encryption "002") "a:1" "permanent" "open".
Definition with_file : World Process := machine (or_else ∅ (save_node saved "n.json" ∅)).
Definition unreachable_env : Env := λ i, if decide (i = 0) then calm else offline.

Lemma failed_join_leaves_node_up_witness :
  wp (main (env:=unreachable_env) (JoinCmd "b:2" "n.json" "n.db") [] []) (λ r w',
    r = Raise ConnectError ∧ w_trace w' = [IoServe "a" 1] ∧
    ns_life (pr_node (w_st w')) = mkLife Active Active true [] ∧
    ns_db (pr_node (w_st w')) = empty_db) with_file.
Proof.
  refine (failed_join_leaves_node_up (env:=unreachable_env) "b:2" "n.json" "n.db" [] saved "a" 1
    ConnectError with_file _ _ _ _ _); vm_compute; reflexivity.
Defined.

Lemma node_survives_restart_witness :
  wp (genesis_up (env:=calm_env) "a:1" "n.json" "n.db" "open") (λ r w1, ∃ i, r = Ok i ∧
    w_trace w1 = [
      line_out ("genesis node: " +:+ nid i); line_out "address     : a:1";
      line_out "identity    → n.json"; line_out "database    → n.db";
      IoServe "a" 1; line_out "node running — Ctrl+C to stop"] ∧
    ns_life (pr_node (w_st w1)) = mkLife Active Active true [] ∧
    lists_itself i "a:1" (ns_db (pr_node (w_st w1))) ∧
    ∀ events, wp (run_until_signal (env:=calm_env) i "n.db" events) (λ r w2,
      r = Ok () ∧ lf_db (ns_life (pr_node (w_st w2))) = false ∧
      let d := ns_db (pr_node (w_st w2)) in
      db_inv d ∧ ∀ w3 : World Process,
        pr_files (w_st w3) !! "n.json" = pr_files (w_st w2) !! "n.json" →
        pr_dbs (w_st w3) !! "n.db" = pr_dbs (w_st w2) !! "n.db" →
        wp (start_up (env:=calm_env) "n.json" "n.db") (λ r w4, r = Ok i ∧
          w_trace w4 = w_trace w3 ++ [IoServe "a" 1; line_out ("node : " +:+ short_id i);
            line_out "running — Ctrl+C to stop"] ∧
          pr_node (w_st w4) = mkNodeState d ∅ [] [] (mkLife Active Active true [])) w3) w1) (machine ∅).
Proof.
  exact (node_survives_restart (env:=calm_env) "a:1" "n.json" "n.db" "open" "a" 1 (machine ∅)
    eq_refl eq_refl (machine_inv ∅) eq_refl (λ _, eq_refl)).
Defined.
End CliWitnesses.
