(* ===== verification/Flowables.v ===== *)
(** * Drawings: the values from which a document is laid out

    The generator of the presentation builds its document from the flowables of
    the reportlab package: paragraphs in a style, spacers, rules, tables of cells,
    groups that stay together.  The package is not modelled, only the values that
    the script hands to it: [flowable].  Of such values this file defines their
    parts, [parts], and the fonts that they name, [fonts_named].  It also gives a
    specification that the helpers of the script are held to: well-formed values,
    [sound], that stay within a width, [fits].  They are conventions of this
    library about widths and shapes, chosen after the package's manual; they do
    not say what the package accepts, how high anything is or where lines break.

    Lengths are exact.  The unit is 1/72000 of a millimetre, of which a point
    (1/72 of an inch of 25.4 mm) has 25400, so that every length of the script is
    a whole number. *)
From S2P Require Import Prelude PyVal Text.

#[local] Open Scope string_scope.
#[local] Open Scope Z_scope.

Definition mm : Z := 72000.
Definition pt (n : Z) : Z := n * 25400.

(** ** Styles *)

Inductive color := HexColor (hex : string) | white.
Inductive align := TA_LEFT | TA_CENTER | TA_JUSTIFY.

(** The keyword arguments of a style: a [dict] from names to values. *)
Inductive attr := AFont (f : string) | ALength (l : Z) | AColor (c : color) | AAlign (a : align).
Record ParagraphStyle := mkStyle { style_name : string; attrs : gmap string attr }.

Definition fontName (f : string) : string * attr := ("fontName", AFont f).
Definition fontSize (l : Z) : string * attr := ("fontSize", ALength l).
Definition leading (l : Z) : string * attr := ("leading", ALength l).
Definition textColor (c : color) : string * attr := ("textColor", AColor c).
Definition alignment (a : align) : string * attr := ("alignment", AAlign a).
Definition spaceBefore (l : Z) : string * attr := ("spaceBefore", ALength l).
Definition spaceAfter (l : Z) : string * attr := ("spaceAfter", ALength l).
Definition leftIndent (l : Z) : string * attr := ("leftIndent", ALength l).

Definition font_of (st : ParagraphStyle) : option string :=
  match attrs st !! "fontName" with Some (AFont f) => Some f | _ => None end.
(** A length of a style; what is not given is zero. *)
Definition length_of (k : string) (st : ParagraphStyle) : Z :=
  match attrs st !! k with Some (ALength l) => l | _ => 0 end.

(** ** Tables and flowables *)

Inductive op :=
  | FONTNAME (f : string) | FONTSIZE (l : Z) | TEXTCOLOR (c : color)
  | BACKGROUND (c : color) | ROWBACKGROUNDS (cs : list color) | GRID (l : Z) (c : color)
  | ALIGN (a : string) | VALIGN (a : string)
  | TOPPADDING (l : Z) | BOTTOMPADDING (l : Z) | LEFTPADDING (l : Z) | RIGHTPADDING (l : Z)
  | ROUNDEDCORNERS (radii : list Z).
(** A command of a table's style, for the cells from one (column, row) to another. *)
Record command := cmd { cmd_op : op; cmd_from : Z * Z; cmd_to : Z * Z }.

Inductive flowable :=
  | Paragraph (text : string) (st : ParagraphStyle)
  | Spacer (width height : Z)
  | HRFlowable (width : string) (thickness : Z) (c : color) (after before : Z)
  | Table (rows : list (list (string + flowable))) (colWidths : list Z) (style : list command)
  | KeepTogether (l : list flowable).
(** A cell is a text, drawn in the font of its cell, or a flowable. *)
Abbreviation cell := (string + flowable)%type.

(** A flowable with everything in it. *)
Fixpoint parts (f : flowable) : list flowable :=
  f :: match f with
       | Table rows _ _ =>
           flat_map (flat_map (λ x : cell, match x with inl _ => [] | inr g => parts g end)) rows
       | KeepTogether l => flat_map parts l
       | _ => []
       end.
(** The fonts that it names itself: in the style of a paragraph, or in the commands
    of a table. *)
Definition own_fonts (f : flowable) : list string :=
  match f with
  | Paragraph _ st => match font_of st with Some n => [n] | None => [] end
  | Table _ _ style =>
      flat_map (λ c, match cmd_op c with FONTNAME n => [n] | _ => [] end) style
  | _ => []
  end.
Definition fonts_named (f : flowable) : list string := flat_map own_fonts (parts f).
(** A table has as many cells in each row as it has columns. *)
Definition rectangular (f : flowable) : bool :=
  match f with
  | Table rows cws _ => forallb (λ r, (length r =? length cws)%nat) rows
  | _ => true
  end.
(** The width that the columns of a table take together. *)
Definition table_width (f : flowable) : Z :=
  match f with Table _ cws _ => foldr Z.add 0 cws | _ => 0 end.

(** A test of every element with its position, from [i] on. *)
Section foralli.
  Context {A : Type} (P : nat → A → bool).
Fixpoint foralli (i : nat) (l : list A) : bool :=
    match l with [] => true | x :: l => P i x && foralli (S i) l end.
End foralli.

Lemma foralli_spec {A} (P : nat → A → bool) i l :
  foralli P i l = true ↔ ∀ k x, l !! k = Some x → P (i + k)%nat x = true.
Proof.
  revert i. induction l as [|y l IH]; intros i; cbn [foralli]; [by split|].
  rewrite andb_true_iff, IH. split.
  - intros [Hy Hl] [|k] x Hk; [injection Hk as <-; by rewrite Nat.add_0_r|].
    rewrite <-Nat.add_succ_comm. by apply Hl.
  - intros H. split; [rewrite <-(Nat.add_0_r i); by apply (H 0%nat)|].
    intros k x Hk. rewrite Nat.add_succ_comm. by apply (H (S k)).
Qed.

(** ** The cells that a command names *)

(** Negative positions count from the end. *)
Definition resolve (n : nat) (i : Z) : Z := if i <? 0 then Z.of_nat n + i else i.
Definition inside (n : nat) (i : Z) : bool := (0 <=? resolve n i) && (resolve n i <? Z.of_nat n).
Definition between (n : nat) (i j : Z) (k : nat) : bool :=
  (resolve n i <=? Z.of_nat k) && (Z.of_nat k <=? resolve n j).
Definition covers (ncols nrows : nat) (c : command) (col row : nat) : bool :=
  between ncols (fst (cmd_from c)) (fst (cmd_to c)) col &&
  between nrows (snd (cmd_from c)) (snd (cmd_to c)) row.

(** What the last command that covers a cell sets, [d] if there is none. *)
Definition setting {A} (get : op → option A) (d : A) (ncols nrows : nat)
    (style : list command) (col row : nat) : A :=
  fold_left (λ a c, if covers ncols nrows c col row then default a (get (cmd_op c)) else a) style d.

Definition left_padding (o : op) : option Z := match o with LEFTPADDING l => Some l | _ => None end.
Definition right_padding (o : op) : option Z := match o with RIGHTPADDING l => Some l | _ => None end.
Definition cell_font (o : op) : option (option string) :=
  match o with FONTNAME f => Some (Some f) | _ => None end.

(** ** Width *)

(** A flowable fits the width [w]: a paragraph has room beside its indentation, the
    columns of a table are no wider than [w], and what a cell holds fits the column
    less the padding of the cell, which is [pad] where no command sets it. *)
Fixpoint fits (pad w : Z) (f : flowable) : bool :=
  match f with
  | Paragraph _ st => length_of "leftIndent" st <? w
  | Spacer x _ => x <=? w
  | HRFlowable _ _ _ _ _ => 0 <? w
  | Table rows cws style =>
      (foldr Z.add 0 cws <=? w) &&
      foralli (λ r row, foralli (λ c x,
        match x with
        | inl _ => true
        | inr f => fits pad (nth c cws 0
            - setting left_padding pad (length cws) (length rows) style c r
            - setting right_padding pad (length cws) (length rows) style c r) f
        end) 0%nat row) 0%nat rows
  | KeepTogether l => forallb (fits pad w) l
  end.

(** ** Soundness *)

(** The markup of paragraphs: text with balanced bold tags, and no other use of
    the characters that begin a tag or an entity. *)
Inductive mode := Plain | Opened | BoldTag | Closing | BoldEnd.
Definition markup_step (s : option (nat * mode)) (a : Ascii.ascii) : option (nat * mode) :=
  match s with
  | None => None
  | Some (d, Plain) =>
      if decide (a = "<"%char) then Some (d, Opened)
      else if decide (a = "&"%char) then None else Some (d, Plain)
  | Some (d, Opened) =>
      if decide (a = "b"%char) then Some (d, BoldTag)
      else if decide (a = "/"%char) then Some (d, Closing) else None
  | Some (d, BoldTag) => if decide (a = ">"%char) then Some (S d, Plain) else None
  | Some (d, Closing) => if decide (a = "b"%char) then Some (d, BoldEnd) else None
  | Some (d, BoldEnd) =>
      if decide (a = ">"%char) then match d with S d => Some (d, Plain) | O => None end else None
  end.
Definition markup (s : option (nat * mode)) (text : string) : option (nat * mode) :=
  fold_left markup_step (chars text) s.
Definition markup_ok (text : string) : bool :=
  match markup (Some (0%nat, Plain)) text with Some (O, Plain) => true | _ => false end.

(** A colour is written # and six hexadecimal digits. *)
Definition color_ok (c : color) : bool :=
  match c with
  | white => true
  | HexColor (String a h) => bool_decide (a = "#"%char) && (String.length h =? 6)%nat &&
      forallb (λ a, bool_decide (is_Some (hex_value a))) (chars h)
  | HexColor "" => false
  end.

Section sound.
  (** The fonts that the package knows. *)
  Variable known : string → bool.

Definition attr_ok (a : attr) : bool :=
    match a with AFont f => known f | AColor c => color_ok c | ALength l => 0 <=? l | AAlign _ => true end.
(** A style names a font that is known, its colours are colours, no length is
    negative and lines do not overlap. *)
Definition style_ok (st : ParagraphStyle) : bool :=
    forallb (λ p, attr_ok (snd p)) (map_to_list (attrs st)) && bool_decide (is_Some (font_of st)) &&
    (0 <? length_of "fontSize" st) && (length_of "fontSize" st <=? length_of "leading" st).
Definition op_ok (o : op) : bool :=
    match o with
    | FONTNAME f => known f
    | TEXTCOLOR c | BACKGROUND c => color_ok c
    | GRID l c => (0 <=? l) && color_ok c
    | ROWBACKGROUNDS cs => forallb color_ok cs
    | FONTSIZE l | TOPPADDING l | BOTTOMPADDING l | LEFTPADDING l | RIGHTPADDING l => 0 <=? l
    | ROUNDEDCORNERS _ => true
    | ALIGN a => bool_decide (a ∈ ["LEFT"; "CENTER"; "RIGHT"; "DECIMAL"])
    | VALIGN a => bool_decide (a ∈ ["TOP"; "MIDDLE"; "BOTTOM"])
    end.
(** The positions of a command are those of cells.  [ROUNDEDCORNERS] concerns the
    whole table and, in the manual, takes radii only: of the positions that the
    script gives it nothing is said. *)
Definition command_ok (ncols nrows : nat) (c : command) : bool :=
    match cmd_op c with
    | ROUNDEDCORNERS _ => true
    | o => op_ok o &&
        inside ncols (fst (cmd_from c)) && inside nrows (snd (cmd_from c)) &&
        inside ncols (fst (cmd_to c)) && inside nrows (snd (cmd_to c))
    end.

(** A table has a row, every row has a cell for every column, the commands of its
    style name cells that it has, and a cell with a text is given a font. *)
Fixpoint sound (f : flowable) : bool :=
    match f with
    | Paragraph text st => markup_ok text && style_ok st
    | Spacer w h => (0 <=? w) && (0 <=? h)
    | HRFlowable _ th c a b => (0 <=? th) && color_ok c && (0 <=? a) && (0 <=? b)
    | Table rows cws style =>
        (0 <? length rows)%nat && (0 <? length cws)%nat && forallb (λ w, 0 <? w) cws &&
        forallb (λ row, (length row =? length cws)%nat) rows &&
        forallb (command_ok (length cws) (length rows)) style &&
        foralli (λ r row, foralli (λ c x,
          match x with
          | inl _ => bool_decide (is_Some
              (setting cell_font None (length cws) (length rows) style c r))
          | inr f => sound f
          end) 0%nat row) 0%nat rows
    | KeepTogether l => forallb sound l
    end.
End sound.

(** ** Lemmas: markup *)

Lemma markup_app s t u : markup s (t +:+ u) = markup (markup s t) u.
Proof. unfold markup. by rewrite chars_app, fold_left_app. Qed.
Lemma markup_none t : markup None t = None.
Proof. unfold markup. by induction (chars t). Qed.
Lemma markup_cons s a t : markup s (String a t) = markup (markup_step s a) t.
Proof. done. Qed.

(** Text that is well formed on its own is so inside a tag. *)
Lemma markup_step_deeper d m a k d' m' :
  markup_step (Some (d, m)) a = Some (d', m') →
  markup_step (Some ((d + k)%nat, m)) a = Some ((d' + k)%nat, m').
Proof.
  destruct m; cbn [markup_step]; repeat case_decide; try done; try (by intros [= <- <-]).
  destruct d; [done|]. by intros [= <- <-].
Qed.
Lemma markup_deeper t k d m d' m' : markup (Some (d, m)) t = Some (d', m') →
  markup (Some ((d + k)%nat, m)) t = Some ((d' + k)%nat, m').
Proof.
  revert d m. induction t as [|a t IH]; intros d m; [by intros [= <- <-]|].
  rewrite !markup_cons. destruct (markup_step (Some (d, m)) a) as [[d1 m1]|] eqn:Hs.
  - rewrite (markup_step_deeper _ _ _ k _ _ Hs). apply IH.
  - by rewrite markup_none.
Qed.

Lemma markup_okE t : markup_ok t = true ↔ markup (Some (0%nat, Plain)) t = Some (0%nat, Plain).
Proof.
  unfold markup_ok. split; [|by intros ->].
  by destruct (markup _ t) as [[[] []]|].
Qed.
Lemma markup_ok_app t u : markup_ok t = true → markup_ok u = true → markup_ok (t +:+ u) = true.
Proof. rewrite !markup_okE, markup_app. by intros ->. Qed.
Lemma markup_ok_bold t : markup_ok t = true → markup_ok ("<b>" +:+ t +:+ "</b>") = true.
Proof.
  rewrite !markup_okE, !markup_app. intros Ht%(markup_deeper _ 1).
  change (markup _ "<b>") with (Some (1%nat, Plain)). cbn [Nat.add] in Ht. by rewrite Ht.
Qed.

(** ** Lemmas: tables whose commands are for every cell *)

Definition everywhere (o : op) : command := cmd o (0, 0) (-1, -1).

Lemma covers_everywhere ncols nrows o col row : (col < ncols)%nat → (row < nrows)%nat →
  covers ncols nrows (everywhere o) col row = true.
Proof.
  intros Hc Hr. unfold covers, between, resolve. cbn [cmd_from cmd_to everywhere fst snd].
  change (0 <? 0) with false. change (-1 <? 0) with true.
  rewrite !andb_true_iff, !Z.leb_le. cbv iota. lia.
Qed.
Lemma setting_everywhere {A} (get : op → option A) d ncols nrows ops col row :
  (col < ncols)%nat → (row < nrows)%nat →
  setting get d ncols nrows (everywhere <$> ops) col row = fold_left (λ a o, default a (get o)) ops d.
Proof.
  intros Hc Hr. unfold setting. revert d. induction ops as [|o ops IH]; intros d; [done|].
  cbn [fmap list_fmap fold_left]. rewrite covers_everywhere by done. apply IH.
Qed.
Lemma inside_ends n : (0 < n)%nat → inside n 0 = true ∧ inside n (-1) = true.
Proof.
  intros Hn. unfold inside, resolve. change (0 <? 0) with false. change (-1 <? 0) with true.
  rewrite !andb_true_iff, !Z.leb_le, !Z.ltb_lt. cbv iota. lia.
Qed.
Lemma command_everywhere known ncols nrows o : (0 < ncols)%nat → (0 < nrows)%nat →
  command_ok known ncols nrows (everywhere o) = op_ok known o.
Proof.
  intros [Hc Hc']%inside_ends [Hr Hr']%inside_ends. unfold command_ok.
  cbn [cmd_from cmd_to cmd_op everywhere fst snd]. rewrite Hc, Hc', Hr, Hr'.
  destruct o; by rewrite ?andb_true_r.
Qed.

(** One column of flowables, and one row. *)
Definition column (fs : list flowable) (w : Z) (ops : list op) : flowable :=
  Table ((λ f, [inr f]) <$> fs) [w] (everywhere <$> ops).
Definition row (fs : list flowable) (ws : list Z) (ops : list op) : flowable :=
  Table [inr <$> fs] ws (everywhere <$> ops).
(** The width that the padding of a cell leaves of a column. *)
Definition inner (pad : Z) (ops : list op) (w : Z) : Z :=
  w - fold_left (λ a o, default a (left_padding o)) ops pad
    - fold_left (λ a o, default a (right_padding o)) ops pad.

Lemma forallb_Forall {A} (P : A → bool) l : forallb P l = true ↔ Forall (λ x, P x = true) l.
Proof.
  induction l as [|x l IH]; cbn [forallb]; [by split; [constructor|]|].
  by rewrite Forall_cons, andb_true_iff, IH.
Qed.
Lemma forallb_everywhere known ncols nrows ops : (0 < ncols)%nat → (0 < nrows)%nat →
  forallb (command_ok known ncols nrows) (everywhere <$> ops) = forallb (op_ok known) ops.
Proof.
  intros Hc Hr. induction ops as [|o ops IH]; [done|].
  cbn [fmap list_fmap forallb]. rewrite command_everywhere by done. by f_equal.
Qed.

Lemma sound_column known fs w ops : sound known (column fs w ops) = true ↔
  fs ≠ [] ∧ 0 < w ∧ forallb (op_ok known) ops = true ∧ Forall (λ f, sound known f = true) fs.
Proof.
  unfold column. cbn [sound]. rewrite !andb_true_iff, foralli_spec, length_fmap.
  destruct fs as [|f0 fs]; [simpl; naive_solver|]. set (l := f0 :: fs) in *.
  rewrite forallb_everywhere by (simpl; lia). cbn [forallb length].
  rewrite !andb_true_iff, Z.ltb_lt, Forall_lookup. split.
  - intros (((((_ & _) & Hw & _) & _) & Ho) & Hl). split_and!; [done..|].
    intros i f Hf. specialize (Hl i [inr f]). rewrite list_lookup_fmap, Hf in Hl.
    specialize (Hl eq_refl). cbn [foralli] in Hl. by apply andb_true_iff in Hl as [Hl _].
  - intros (_ & Hw & Ho & Hl). split_and!; try done.
    + apply forallb_Forall, Forall_fmap, Forall_true. by intros f.
    + intros k x Hk. rewrite list_lookup_fmap in Hk. apply fmap_Some in Hk as (f & Hf & ->).
      cbn [foralli]. rewrite (Hl _ _ Hf). done.
Qed.
Lemma fits_column pad W fs w ops : fits pad W (column fs w ops) = true ↔
  w ≤ W ∧ Forall (λ f, fits pad (inner pad ops w) f = true) fs.
Proof.
  unfold column. cbn [fits]. rewrite andb_true_iff, foralli_spec, Z.leb_le, length_fmap.
  cbn [foldr length]. rewrite Z.add_0_r, Forall_lookup. apply and_iff_compat_l.
  assert (∀ i f, fs !! i = Some f → (i < length fs)%nat) as Hlt by (intros i f; apply lookup_lt_Some).
  split.
  - intros Hl i f Hf. specialize (Hl i [inr f]). rewrite list_lookup_fmap, Hf in Hl.
    specialize (Hl eq_refl). cbn [foralli] in Hl. apply andb_true_iff in Hl as [Hl _].
    rewrite !setting_everywhere in Hl by (cbn; eauto with lia). exact Hl.
  - intros Hl k x Hk. rewrite list_lookup_fmap in Hk. apply fmap_Some in Hk as (f & Hf & ->).
    cbn [foralli]. rewrite !setting_everywhere by (cbn; eauto with lia).
    apply andb_true_iff. split; [exact (Hl _ _ Hf)|done].
Qed.

Lemma sound_row known fs ws ops : sound known (row fs ws ops) = true ↔
  fs ≠ [] ∧ length fs = length ws ∧ Forall (λ w, 0 < w) ws ∧ forallb (op_ok known) ops = true ∧
  Forall (λ f, sound known f = true) fs.
Proof.
  unfold row. cbn [sound forallb foralli length]. rewrite !andb_true_r, !andb_true_iff, foralli_spec,
    length_fmap, Nat.ltb_lt, Nat.eqb_eq, forallb_Forall, !Forall_lookup. setoid_rewrite Z.ltb_lt.
  split.
  - intros (((((_ & Hn) & Hw) & Hlen) & Ho) & Hl).
    rewrite forallb_everywhere in Ho by lia. split_and!; try done.
    + intros ->. simpl in Hlen. lia.
    + intros i f Hf. apply (Hl i (inr f)). by rewrite list_lookup_fmap, Hf.
  - intros (Hne & Hlen & Hw & Ho & Hl).
    assert (0 < length ws)%nat by (destruct fs; [done|simpl in *; lia]).
    rewrite forallb_everywhere by lia. split_and!; try done; [lia|by apply Nat.ltb_lt|].
    intros k x Hk. rewrite list_lookup_fmap in Hk. apply fmap_Some in Hk as (f & Hf & ->). eauto.
Qed.
Lemma fits_row pad W fs ws ops : length fs = length ws → fits pad W (row fs ws ops) = true ↔
  foldr Z.add 0 ws ≤ W ∧ Forall2 (λ f w, fits pad (inner pad ops w) f = true) fs ws.
Proof.
  intros Hlen. unfold row. cbn [fits foralli]. rewrite andb_true_r, andb_true_iff, foralli_spec, Z.leb_le.
  apply and_iff_compat_l. rewrite Forall2_lookup. split.
  - intros Hl i. destruct (fs !! i) as [f|] eqn:Hf; destruct (ws !! i) as [w|] eqn:Hw.
    + constructor. specialize (Hl i (inr f)). rewrite list_lookup_fmap, Hf in Hl.
      specialize (Hl eq_refl). cbn [Nat.add] in Hl. pose proof (lookup_lt_Some _ _ _ Hw).
      rewrite !setting_everywhere, (nth_lookup_Some _ _ _ _ Hw) in Hl by (cbn; lia). exact Hl.
    + apply lookup_lt_Some in Hf. apply lookup_ge_None in Hw. lia.
    + apply lookup_lt_Some in Hw. apply lookup_ge_None in Hf. lia.
    + constructor.
  - intros Hl k x Hk. rewrite list_lookup_fmap in Hk. apply fmap_Some in Hk as (f & Hf & ->).
    specialize (Hl k). rewrite Hf in Hl. inversion Hl as [? w Hfit Heq Hw|]; subst. cbn [Nat.add].
    pose proof (lookup_lt_Some _ _ _ (eq_sym Hw)).
    rewrite !setting_everywhere, (nth_lookup_Some _ _ _ _ (eq_sym Hw)) by (cbn; lia). exact Hfit.
Qed.
