(* ===== verification/Presentation.v ===== *)
(** * The generator of the presentation

    A model of [generate_zki_v2.py], the script that draws the project's
    presentation as a PDF document.  It looks for fonts, defines a palette and
    styles, has helpers that draw boxes and cards of any content, and builds the
    story, a list of flowables ([Flowables]), which the reportlab package lays out.

    Whether a file exists, whether the package can read a font, and the drawing
    itself are arguments; the theorems are about the values that the package is
    given.  The function [S] of the script is [St] here, since [S]
    is a number's successor. *)
From S2P Require Import Prelude PyVal Text Flowables.

#[local] Open Scope string_scope.
#[local] Open Scope list_scope.
#[local] Open Scope Z_scope.

(** ** Fonts *)

Fixpoint ends_with (t s : string) : bool :=
  if decide (s = t) then true else match s with String _ s => ends_with t s | "" => false end.

Section fonts.
  (** [os.path.exists], the separator of [os.path.join], and whether [TTFont] can
      read the file at a path. *)
  Context (exists_ : string → bool) (sep : string) (loads : string → bool).

Definition FONT_DIRS : list string := ["C:\Windows\Fonts"; "/usr/share/fonts/truetype/dejavu"].
(** [os.path.join(d, n)] for a relative [n]. *)
Definition path_join (d n : string) : string :=
    if decide (d = "") then n else if ends_with sep d then d +:+ n else d +:+ sep +:+ n.
Definition find_font_in (n : string) : list string → option string :=
    fix go ds := match ds with
    | [] => None
    | d :: ds => let p := path_join d n in if exists_ p then Some p else go ds
    end.
Definition find_font (n : string) : option string := find_font_in n FONT_DIRS.
(** [find_font(n) or find_font(m)]; a path is never empty. *)
Definition find_either (n m : string) : option string :=
    match find_font n with Some p => Some p | None => find_font m end.
Definition font_r : option string := find_either "DejaVuSans.ttf" "arial.ttf".
Definition font_b : option string := find_either "DejaVuSans-Bold.ttf" "arialbd.ttf".

(** The fonts registered, by name: [pdfmetrics.registerFont(TTFont(name, path))]. *)
Definition register (name : string) (p : option string) : result (list (string * string)) :=
    match p with
    | Some p => if loads p then Ok [(name, p)] else Raise TTFError
    | None => Ok []
    end.
Definition registered : result (list (string * string)) :=
    rs ← register "R" font_r;
    bs ← register "B" font_b;
    mret (rs ++ bs).
End fonts.

(** The names of the two fonts that the document uses. *)
Class Fonts := mkFonts { F : string; FB : string }.
Definition fonts (r b : option string) : Fonts := {|
  F := match r with Some _ => "R" | None => "Helvetica" end;
  FB := match b with Some _ => "B" | None => "Helvetica-Bold" end |}.

(** ** Palette and page *)

Definition BG : color := HexColor "#0D1117".
Definition BG2 : color := HexColor "#1E293B".
Definition ACC : color := HexColor "#3B82F6".
Definition GRN : color := HexColor "#10B981".
Definition AMB : color := HexColor "#F59E0B".
Definition PUR : color := HexColor "#8B5CF6".
Definition LITE : color := HexColor "#F0F4FF".
Definition GLITE : color := HexColor "#ECFDF5".
Definition ALITE : color := HexColor "#FFFBEB".
Definition PLITE : color := HexColor "#F5F3FF".
Definition MID : color := HexColor "#64748B".
Definition BRD : color := HexColor "#CBD5E1".
Definition WHT : color := white.
(** The size of a page of A4 (ISO 216). *)
Definition A4 : Z * Z := (210 * mm, 297 * mm).
Definition W : Z := fst A4.
Definition H : Z := snd A4.
Definition M : Z := 18 * mm.

Section document.
Context {fs : Fonts}.

(** ** Styles *)

(** [d = dict(...); d.update(kw); ParagraphStyle(n, **d)] *)
Definition St (n : string) (kw : list (string * attr)) : ParagraphStyle :=
  mkStyle n (list_to_map kw ∪
    list_to_map [fontName F; fontSize (pt 10); leading (pt 15); textColor BG]).

Definition sH0 : ParagraphStyle :=
  St "h0" [fontName FB; fontSize (pt 30); leading (pt 38); textColor WHT; alignment TA_CENTER].
Definition sH0s : ParagraphStyle :=
  St "h0s"
    [fontName F; fontSize (pt 11); leading (pt 16); textColor (HexColor "#BFD7FF");
     alignment TA_CENTER].
Definition sH0d : ParagraphStyle :=
  St "h0d"
    [fontName F; fontSize (pt 8); leading (pt 12); textColor (HexColor "#64748B");
     alignment TA_CENTER].
Definition sH1 : ParagraphStyle :=
  St "h1" [fontName FB; fontSize (pt 16); leading (pt 21); textColor ACC; spaceBefore (pt 4)].
Definition sH2 : ParagraphStyle :=
  St "h2" [fontName FB; fontSize (pt 11); leading (pt 15); textColor BG; spaceBefore (pt 3)].
Definition sH2w : ParagraphStyle :=
  St "h2w" [fontName FB; fontSize (pt 12); leading (pt 16); textColor WHT].
Definition sH2p : ParagraphStyle :=
  St "h2p" [fontName FB; fontSize (pt 11); leading (pt 15); textColor PUR].
Definition sBody : ParagraphStyle :=
  St "bd" [fontName F; fontSize (pt 10); leading (pt 15); textColor BG; alignment TA_JUSTIFY].
Definition sBodyW : ParagraphStyle :=
  St "bw" [fontName F; fontSize (pt 10); leading (pt 15); textColor WHT; alignment TA_JUSTIFY].
Definition sMuted : ParagraphStyle :=
  St "mu" [fontName F; fontSize (pt 9); leading (pt 13); textColor MID].
Definition sMutedC : ParagraphStyle :=
  St "mc" [fontName F; fontSize (pt 9); leading (pt 13); textColor MID; alignment TA_CENTER].
Definition sBul : ParagraphStyle :=
  St "bl"
    [fontName F; fontSize (pt 10); leading (pt 15); textColor BG; leftIndent (pt 12);
     spaceAfter (pt 2)].
Definition sBulW : ParagraphStyle :=
  St "bW"
    [fontName F; fontSize (pt 10); leading (pt 15); textColor WHT; leftIndent (pt 12);
     spaceAfter (pt 2)].
Definition sBig : ParagraphStyle :=
  St "Bi" [fontName FB; fontSize (pt 19); leading (pt 25); textColor ACC; alignment TA_CENTER].
Definition sBigP : ParagraphStyle :=
  St "BiP" [fontName FB; fontSize (pt 19); leading (pt 25); textColor PUR; alignment TA_CENTER].
Definition sBigS : ParagraphStyle :=
  St "Bs" [fontName F; fontSize (pt 9); leading (pt 13); textColor MID; alignment TA_CENTER].
Definition sFooter : ParagraphStyle :=
  St "fo" [fontName F; fontSize (pt 8); leading (pt 11); textColor MID; alignment TA_CENTER].
Definition sDOI : ParagraphStyle :=
  St "doi"
    [fontName F; fontSize (pt 8); leading (pt 11); textColor (HexColor "#94A3B8");
     alignment TA_CENTER].
Definition sTag : ParagraphStyle :=
  St "tg" [fontName FB; fontSize (pt 9); leading (pt 12); textColor WHT; alignment TA_CENTER].
Definition sCode : ParagraphStyle :=
  St "cd"
    [fontName F; fontSize (pt 17 / 2); leading (pt 13); textColor (HexColor "#E2E8F0");
     leftIndent (pt 8)].

(** ** Helpers *)

Definition bul (t : string) (st : option ParagraphStyle) : flowable :=
  Paragraph ("• " +:+ t) (default sBul st).
Definition bulw (t : string) : flowable := Paragraph ("• " +:+ t) sBulW.
Definition sp (h : Z) : flowable := Spacer (pt 1) (h * mm).
Definition hr (c : color) (th : Z) : flowable := HRFlowable "100%" th c (2 * mm) (2 * mm).

Definition dbox (items : list flowable) (bg : color) (pad : Z) : flowable :=
  column items (W - 2 * M) [
    BACKGROUND bg;
    TOPPADDING pad;
    BOTTOMPADDING (pt 6);
    LEFTPADDING pad;
    RIGHTPADDING pad;
    ROUNDEDCORNERS [pt 8; pt 8; pt 8; pt 8]].

Definition lbox (text : string) (bg : color) (st : option ParagraphStyle) : flowable :=
  column [Paragraph text (default sBody st)] (W - 2 * M) [
    BACKGROUND bg;
    TOPPADDING (pt 9);
    BOTTOMPADDING (pt 9);
    LEFTPADDING (pt 13);
    RIGHTPADDING (pt 13);
    ROUNDEDCORNERS [pt 6; pt 6; pt 6; pt 6]].

Definition card (icon title subtitle : string) (items : list string) (bg tc : color) : flowable :=
  let cw := (W - 2 * M) / 2 - 4 * mm in
  column (
    [Paragraph (icon +:+ "  " +:+ "<b>" +:+ title +:+ "</b>")
      (St "_t" [fontName FB; fontSize (pt 11); leading (pt 15); textColor tc])] ++
    [Paragraph subtitle (St "_s" [fontName F; fontSize (pt 9); leading (pt 12); textColor MID])] ++
    [sp 1] ++
    ((λ i, Paragraph ("• " +:+ i)
      (St "_i" [fontName F; fontSize (pt 9); leading (pt 13); textColor BG; leftIndent (pt 6);
        spaceAfter (pt 2)])) <$> items)) cw [
    BACKGROUND bg;
    TOPPADDING (pt 9);
    BOTTOMPADDING (pt 9);
    LEFTPADDING (pt 10);
    RIGHTPADDING (pt 10);
    ROUNDEDCORNERS [pt 7; pt 7; pt 7; pt 7]].

Definition cards2 (c1 c2 : flowable) : flowable :=
  row [c1; c2] [(W - 2 * M) / 2; (W - 2 * M) / 2] [
    VALIGN "TOP";
    LEFTPADDING (pt 3);
    RIGHTPADDING (pt 3);
    TOPPADDING (pt 0);
    BOTTOMPADDING (pt 0)].

(** One of the figures of [stat4]: a value, a label and a colour. *)
Definition stat (item : string * string * color) : flowable :=
  let '(val, label, tc) := item in
  let cw := (W - 2 * M) / 4 - 5 * mm in
  column [
    Paragraph val
      (St "_v" [fontName FB; fontSize (pt 18); leading (pt 24); textColor tc; alignment TA_CENTER]);
    Paragraph label sBigS] cw [
    BACKGROUND LITE;
    ALIGN "CENTER";
    TOPPADDING (pt 9);
    BOTTOMPADDING (pt 9);
    ROUNDEDCORNERS [pt 6; pt 6; pt 6; pt 6]].
Definition stat4 (items : list (string * string * color)) : flowable :=
  row (stat <$> items) (replicate 4 ((W - 2 * M) / 4)) [
    ALIGN "CENTER";
    VALIGN "MIDDLE";
    LEFTPADDING (pt 3);
    RIGHTPADDING (pt 3)].

(** ** The story *)

Definition cover : list flowable := [
  dbox
    [Paragraph "NEVOD" sH0; sp 1; Paragraph "Zero Knowledge Infrastructure" sH0s; sp 1;
     Paragraph
       ("Unified network for humans and AI · Portable agent identity · Data dies with the " +:+
        "node") sH0s;
     sp 2;
     Paragraph "Kolpakov Andrey · ORCID: 0009-0004-8678-077X · DOI: 10.5281/zenodo.19734648" sH0d;
     sp 2] BG (pt 18);
  sp 5].
Definition principle : list flowable := [
  dbox
    [Paragraph "Принцип ножа"
       (St "kn"
         [fontName FB; fontSize (pt 14); leading (pt 20); textColor WHT; alignment TA_CENTER]);
     sp 1;
     Paragraph
       ("Производитель ножа не несёт ответственности за то, как его используют. Создатель " +:+
        "инфраструктуры <b>технически не может</b> получить доступ к коммуникациям — не по " +:+
        "политике, а по архитектуре.")
       (St "ks"
         [fontName F; fontSize (pt 10); leading (pt 16); textColor (HexColor "#BFD7FF");
          alignment TA_CENTER]);
     sp 1] BG2 (pt 14);
  sp 4].
Definition stats : list flowable := [
  stat4 [("0", "серверов" +:+ newline +:+ "у разработчика", ACC);
         ("0", "ключей" +:+ newline +:+ "доступных создателю", ACC);
         ("E2E", "узлы видят только" +:+ newline +:+ "blob", GRN);
         ("∞", "применений" +:+ newline +:+ "одного принципа", PUR)];
  sp 5].
Definition one_network : list flowable := [
  Paragraph "Единая сеть для людей и ИИ" sH1;
  hr BRD (pt 1 / 2);
  Paragraph
    ("Nevod — не «мессенджер с поддержкой ИИ» и не «агентная сеть для людей». Это единая " +:+
     "сеть где <b>ячейка есть ячейка</b> — независимо от того кто за keypair-ом: человек " +:+
     "или ИИ-агент.") sBody;
  sp 3;
  dbox
    [Paragraph "Сегодня — разделённые миры" sH2w; sp 2;
     Paragraph
       ("Claude Agent (Anthropic)  ←→  GPT Agent (OpenAI)" +:+
        newline +:+
        "          ↓                              ↓" +:+
        newline +:+
        "   Anthropic видит                 OpenAI видит" +:+
        newline +:+
        "   всё что сказал                  всё что сказал")
       (St "cd2"
         [fontName F; fontSize (pt 9); leading (pt 14); textColor (HexColor "#94A3B8");
          alignment TA_CENTER]);
     sp 2;
     Paragraph "Кто-то всегда видит всё. Нейтральной сети не существует."
       (St "_r"
         [fontName FB; fontSize (pt 10); leading (pt 14); textColor (HexColor "#EF4444");
          alignment TA_CENTER]);
     sp 1] BG2 (pt 12);
  sp 3;
  lbox
    ("<b>В Nevod:</b> одна сеть, один протокол, все равноправны." +:+
     newline +:+
     newline +:+
     "Ячейка_Алиса (человек) · Ячейка_Боб (человек) · Ячейка_Agent_Alice (ИИ Алисы) · " +:+
     "Ячейка_GPT (OpenAI) · Ячейка_MyBot (open-source)" +:+
     newline +:+
     newline +:+
     "→ Все зашифрованы одинаково · Все общаются по одному протоколу · Никто не знает кто " +:+
     "за keypair-ом — человек или ИИ") LITE None;
  sp 5].
Definition portable_identity : list flowable := [
  Paragraph "Портативная идентичность агента" sH1;
  hr BRD (pt 1 / 2);
  Paragraph
    ("Революционное следствие ZKI: <b>пользователь владеет keypair агента</b>, а не " +:+
     "AI-компания. Модель можно менять — идентичность остаётся.") sBody;
  sp 3;
  cards2
    (card "🔑" "Сегодня (без Nevod)" "AI-компания владеет идентичностью"
      ["Anthropic генерирует keypair Claude-агента";
       "Anthropic прекращает сервис → агент исчезает"; "Смена модели = потеря всех контактов";
       "Пользователь зависит от платформы"] (HexColor "#FEF2F2") (HexColor "#DC2626"))
    (card "🔓" "С Nevod" "Пользователь владеет идентичностью"
      ["Пользователь генерирует keypair для агента"; "Январь: под keypair работает Claude 4";
       "Март: пользователь переходит на GPT-5";
       "Июль: запускает локальную Llama — keypair тот же"] GLITE GRN);
  sp 3;
  lbox
    ("<b>Ключевой вывод:</b> keypair = идентичность агента в сети. Контакты знают " +:+
     "keypair. Какая модель работает под ним — их не касается. Идентичность агента " +:+
     "<b>портативна и принадлежит пользователю</b>.") PLITE None;
  sp 5].

(** Half of the page: a heading and ticked items. *)
Definition cw2 : Z := (W - 2 * M) / 2 - 3 * mm.
Definition half (items : list string) (head : string) (bg tc : color) : flowable :=
  column (
    [Paragraph head (St "_h" [fontName FB; fontSize (pt 9); textColor tc])] ++
    ((λ i, Paragraph ("✓ " +:+ i)
      (St "_b" [fontName F; fontSize (pt 9); leading (pt 13); textColor BG; leftIndent (pt 8);
        spaceAfter (pt 2)])) <$> items)) cw2 [
    BACKGROUND bg;
    TOPPADDING (pt 7);
    BOTTOMPADDING (pt 7);
    LEFTPADDING (pt 10);
    RIGHTPADDING (pt 10);
    ROUNDEDCORNERS [pt 5; pt 5; pt 5; pt 5]].
Definition lh : flowable :=
  half
    ["Ключи генерируются локально на устройстве"; "Узлы хранят только зашифрованные blob-ы";
     "ZKP: ключ никогда не передаётся по сети"; "Разработчик не владеет ни одним узлом"]
    "Что встроено в архитектуру" GLITE (HexColor "#065F46").
Definition rh : flowable :=
  half
    ["Нет мастер-ключа разработчика"; "Нет эскроу и резервных копий";
     "Нет субъекта которому предъявить ордер"; "Нет технической возможности расшифровки"]
    "Чего нет в принципе" LITE (HexColor "#1E40AF").
Definition both : flowable :=
  row [lh; rh] [(W - 2 * M) / 2; (W - 2 * M) / 2] [
    VALIGN "TOP"; LEFTPADDING (pt 3); RIGHTPADDING (pt 3)].
Definition zero_access : list flowable := [
  Paragraph "Архитектурная гарантия нулевого доступа" sH1;
  hr BRD (pt 1 / 2);
  both;
  sp 3;
  lbox
    ("<b>Для ИИ-агентов:</b> keypair принадлежит пользователю → AI-компания: «Мы " +:+
     "предоставили модель. Что агент обсуждал — нам технически недоступно. Ключи у " +:+
     "пользователя.» Та же позиция что у производителя ножа.") ALITE None;
  sp 5].
Definition neutral_network : list flowable := [
  Paragraph "Сеть нейтральна — верификация вне протокола" sH1;
  hr BRD (pt 1 / 2);
  Paragraph
    ("Nevod не отвечает на вопрос «это именно Claude а не самозванец?». Это не задача " +:+
     "протокола. Сеть знает одно: <b>keypair существует и имеет право отправлять</b>.") sBody;
  sp 3;
  cards2
    (card "📡" "Что знает сеть" "Протокольный уровень"
      ["Keypair зарегистрирован"; "Подпись сообщения валидна"; "Маршрут доставки";
       "Факт соединения"] LITE ACC)
    (card "🚫" "Что НЕ знает сеть" "Вне протокола — намеренно"
      ["Человек или ИИ за keypair-ом"; "Какая модель работает"; "Содержимое сообщений";
       "Связь между ячейками одного владельца"] (HexColor "#FEF2F2") (HexColor "#DC2626"));
  sp 3;
  lbox
    ("<b>Аналогия:</b> телефонная линия не проверяет голос абонента. Она соединяет. " +:+
     "Верификация «это действительно Иван?» — задача звонящего, не телефонной компании.") GLITE
    None;
  sp 5].

(** A scenario: icon, title, subtitle, items, background and colour. *)
Definition scenario : Type := string * string * string * list string * color * color.
Definition scenario_card (x : scenario) : flowable :=
  let '(icon, title, sub, items, bg, tc) := x in card icon title sub items bg tc.
Definition agent_scenarios_head : list flowable := [
  KeepTogether [Paragraph "Агентные сценарии" sH1; hr BRD (pt 1 / 2)]].
Definition sc : list scenario := [
  ("🤝", "Агент нанимает агента", "Межплатформенное сотрудничество",
   ["Agent_A шифрует задачу keypair Agent_B"; "Платформа A видит факт отправки, не содержимое";
    "Платформа B видит факт получения, не содержимое"; "Nevod-узел: только зашифрованный blob"],
   LITE, ACC);
  ("👥", "Человек и его агент — команда", "Единая идентичность владельца",
   ["Alice (human) + Agent_Alice — оба принадлежат Алисе";
    "Сеть не знает что они связаны (если не объявлено)"; "Агент действует от имени владельца";
    "Приватность для обоих участников"],
   LITE, ACC);
  ("⏱️", "Временный агент для задачи", "Полное уничтожение следов",
   ["nevod temp create → одноразовый keypair"; "Задача выполнена → nevod temp destroy";
    "Вся переписка агента уничтожена"; "Никаких следов кроме результата"],
   LITE, ACC);
  ("🏢", "Агенты компаний на переговорах", "Конфиденциальность B2B",
   ["Компания A (Agent_A) ←→ Компания B (Agent_B)"; "Условия контракта — только между сторонами";
    "Ни платформа A, ни B не видят детали"; "Юридически: оператор не мог видеть содержимое"],
   LITE, ACC)].

(** [for i in range(0, len(sc), 2)]: a row of two cards, from [sc[i:i+2]]. *)
Definition scenario_row (sc : list scenario) (i : nat) : result (list flowable) :=
  let row := scenario_card <$> take 2 (drop i sc) in
  match row !! 0%nat, row !! 1%nat with
  | Some c0, Some c1 => Ok [cards2 c0 c1; sp 4]
  | _, _ => Raise IndexError
  end.
Definition range2 (n : nat) : list nat := (λ k, 2 * k)%nat <$> seq 0 (Nat.div2 (n + 1)).
Fixpoint append_all (l : list (result (list flowable))) : result (list flowable) :=
  match l with
  | [] => Ok []
  | r :: l => a ← r; b ← append_all l; mret (a ++ b)
  end.
Definition scenario_rows (sc : list scenario) : result (list flowable) :=
  append_all (scenario_row sc <$> range2 (length sc)).

Definition eco_rows : list (list string) := [
  ["Протокол"; "Назначение"; "Кто видит"; "Владелец keypair"];
  ["MCP (Anthropic)"; "Агент ↔ Инструменты"; "Anthropic"; "Anthropic"];
  ["OpenAI Assistants"; "Агент ↔ Задачи"; "OpenAI"; "OpenAI"];
  ["LangChain / AutoGPT"; "Агент ↔ Агент"; "Оператор"; "Оператор"];
  ["Nevod"; "Агент ↔ Агент (любые)"; "Никто"; "Пользователь"]].
Definition cw_eco : list Z := (λ f, (W - 2 * M) * f / 100) <$> [28; 28; 22; 22].
Definition et : flowable :=
  Table (fmap (M:=list) inl <$> eco_rows) cw_eco [
    cmd (FONTNAME FB) (0, 0) (-1, 0);
    cmd (FONTNAME F) (0, 1) (-1, -1);
    cmd (FONTSIZE (pt 9)) (0, 0) (-1, -1);
    cmd (BACKGROUND BG) (0, 0) (-1, 0);
    cmd (TEXTCOLOR WHT) (0, 0) (-1, 0);
    cmd (BACKGROUND LITE) (0, 4) (-1, 4);
    cmd (TEXTCOLOR ACC) (0, 4) (-1, 4);
    cmd (FONTNAME FB) (0, 4) (-1, 4);
    cmd (ALIGN "CENTER") (1, 0) (-1, -1);
    cmd (VALIGN "MIDDLE") (0, 0) (-1, -1);
    cmd (GRID (pt 1 / 2) BRD) (0, 0) (-1, -1);
    cmd (ROWBACKGROUNDS [WHT; HexColor "#F8FAFF"]) (0, 1) (-1, 3);
    cmd (TOPPADDING (pt 5)) (0, 0) (-1, -1);
    cmd (BOTTOMPADDING (pt 5)) (0, 0) (-1, -1);
    cmd (LEFTPADDING (pt 7)) (0, 0) (-1, -1);
    cmd (RIGHTPADDING (pt 7)) (0, 0) (-1, -1)].
Definition ecosystem : list flowable := [
  KeepTogether [Paragraph "Место в экосистеме ИИ" sH1; hr BRD (pt 1 / 2)];
  et;
  sp 3;
  lbox
    ("<b>Nevod не конкурирует с MCP или LangChain.</b> Nevod — транспортный и " +:+
     "идентификационный слой между любыми фреймворками. [Claude+MCP] → Nevod ← " +:+
     "[GPT+OpenAI] ← [Llama+LangChain]") LITE None;
  sp 5].

Definition phases : list (string * color * color * list string) := [
  ("Фаза 1 · Ядро", ACC, LITE,
   ["Nevod Node (постоянный + временный)"; "E2E: Ed25519 + X25519 + ChaCha20";
    "ZKP Schnorr аутентификация"; "Gossip + WebSocket + CLI"]);
  ("Фаза 2 · Сеть + Агенты", GRN, GLITE,
   ["Открытые узлы — каталог сообществ"; "cell_type: human | agent";
    "Portable agent keypair (user-owned)"; "Nevod Voice · Nevod Files"]);
  ("Фаза 3 · Экосистема", PUR, PLITE,
   ["Task market для агентов"; "Agent escrow (криптодепозит)"; "Nevod Vote · Nevod Vault";
    "Nevod Box · Enterprise SDK"])].
Definition phase_cell (x : string * color * color * list string) : flowable :=
  let '(title, tc, bg, items) := x in
  column (
    [Paragraph title (St "_pt" [fontName FB; fontSize (pt 10); leading (pt 14); textColor tc])] ++
    ((λ i, Paragraph ("→ " +:+ i)
      (St "_pi" [fontName F; fontSize (pt 17 / 2); leading (pt 13); textColor BG;
        spaceAfter (pt 2)])) <$> items)) ((W - 2 * M) / 3 - 5 * mm) [
    BACKGROUND bg;
    TOPPADDING (pt 8);
    BOTTOMPADDING (pt 8);
    LEFTPADDING (pt 10);
    RIGHTPADDING (pt 10);
    ROUNDEDCORNERS [pt 6; pt 6; pt 6; pt 6]].
Definition phase_cells : list flowable := phase_cell <$> phases.
Definition phase_row : flowable :=
  row phase_cells (replicate 3 ((W - 2 * M) / 3)) [
    VALIGN "TOP"; LEFTPADDING (pt 3); RIGHTPADDING (pt 3)].
Definition roadmap : list flowable := [
  KeepTogether [Paragraph "Roadmap" sH1; hr BRD (pt 1 / 2)];
  phase_row;
  sp 5].
Definition authorship : list flowable := [
  dbox
    [Paragraph "Авторство и первенство" sH2w; sp 2;
     Paragraph
       ("Концепция ZKI, Nevod Protocol и единой сети для людей и ИИ-агентов сформулирована и " +:+
        "задокументирована <b>24 апреля 2026 года</b>.") sBodyW;
     sp 2;
     Paragraph "Kolpakov Andrey"
       (St "_a"
         [fontName FB; fontSize (pt 12); leading (pt 16); textColor WHT; alignment TA_CENTER]);
     sp 1;
     Paragraph
       ("ORCID: 0009-0004-8678-077X  ·  DOI: 10.5281/zenodo.19734648  ·  GitHub: " +:+
        "github.com/avk0978/zki_nevod")
       (St "_l"
         [fontName F; fontSize (pt 17 / 2); leading (pt 13); textColor (HexColor "#94A3B8");
          alignment TA_CENTER]);
     sp 1] BG2 (pt 12);
  sp 3].
Definition footer : list flowable := [
  hr ACC (pt 1);
  sp 2;
  Paragraph "NEVOD · Zero Knowledge Infrastructure · v2 · 2026" sFooter;
  Paragraph "«Данные принадлежат пользователю. Разработчику нечего отдать.»" sMutedC].

Definition story : result (list flowable) :=
  rows ← scenario_rows sc;
  mret (cover ++ principle ++ stats ++ one_network ++ portable_identity ++ zero_access ++
    neutral_network ++ agent_scenarios_head ++ rows ++ ecosystem ++ roadmap ++ authorship ++ footer).
End document.

(** ** The script *)

Record SimpleDocTemplate := mkDoc {
  out : string; pagesize : Z * Z;
  leftMargin : Z; rightMargin : Z; topMargin : Z; bottomMargin : Z;
  title : string; author : string }.

(** What the script hands to the package: the registered fonts, the document and
    its story.  [dir] is the directory of the script. *)
Definition OUT (sep dir : string) : string := path_join sep dir "Nevod_ZKI_v2.pdf".
Definition doc (sep dir : string) : SimpleDocTemplate :=
  mkDoc (OUT sep dir) A4 M M M M "Nevod — Zero Knowledge Infrastructure v2" "Kolpakov Andrey".
Definition presentation (exists_ : string → bool) (sep dir : string) (loads : string → bool) :
    result (list (string * string) * SimpleDocTemplate * list flowable) :=
  names ← registered exists_ sep loads;
  s ← story (fs:=fonts (font_r exists_ sep) (font_b exists_ sep));
  mret (names, doc sep dir, s).
(** [doc.build(s)], and the line that is printed. *)
Definition generate exists_ sep dir loads
    (build : SimpleDocTemplate → list flowable → result unit) : result string :=
  '(_, d, s) ← presentation exists_ sep dir loads;
  build d s ;;
  mret ("PDF создан: " +:+ out d).

(** ** Lemmas: styles and helpers *)

(** The value of a keyword argument. *)
Fixpoint keyword (k : string) (kw : list (string * attr)) : option attr :=
  match kw with
  | [] => None
  | (k', a) :: kw => if String.eqb k k' then Some a else keyword k kw
  end.
Lemma keyword_spec k kw : list_to_map (M:=gmap string attr) kw !! k = keyword k kw.
Proof.
  induction kw as [|[k' a] kw IH]; [done|]. cbn [list_to_map foldr keyword uncurry fst snd].
  destruct (String.eqb_spec k k') as [->|Hk]; [apply lookup_insert_eq|].
  by rewrite lookup_insert_ne by done.
Qed.

Section helpers.
  Context {fs : Fonts} (known : string → bool).
  Context (HF : known F = true) (HFB : known FB = true).

Definition base : list (string * attr) := [fontName F; fontSize (pt 10); leading (pt 15); textColor BG].
(** The keyword arguments with those that [St] adds. *)
Definition argument (kw : list (string * attr)) (k : string) : option attr := keyword k (kw ++ base).

Lemma keyword_app k kw kw' : keyword k (kw ++ kw') =
  match keyword k kw with Some a => Some a | None => keyword k kw' end.
Proof. induction kw as [|[k' a] kw IH]; [done|]. cbn [keyword app]. by destruct (String.eqb k k'). Qed.
Lemma lookup_St n kw k : attrs (St n kw) !! k = argument kw k.
Proof.
  unfold argument. rewrite keyword_app. unfold St. cbn [attrs].
  rewrite lookup_union, !keyword_spec. fold base. by destruct (keyword k kw), (keyword k base).
Qed.
Definition argument_length (kw : list (string * attr)) (k : string) : Z :=
  match argument kw k with Some (ALength l) => l | _ => 0 end.
Lemma length_St n kw k : length_of k (St n kw) = argument_length kw k.
Proof. unfold length_of. by rewrite lookup_St. Qed.

Lemma style_St n kw f : forallb (λ p, attr_ok known (snd p)) kw = true →
  argument kw "fontName" = Some (AFont f) → 0 < argument_length kw "fontSize" →
  argument_length kw "fontSize" <= argument_length kw "leading" → style_ok known (St n kw) = true.
Proof.
  intros Hkw Hf Hsize Hlead. unfold style_ok. rewrite !length_St, !andb_true_iff.
  split_and!; [|apply bool_decide_eq_true; unfold font_of; rewrite lookup_St, Hf; by eexists
    |by apply Z.ltb_lt|by apply Z.leb_le].
  apply forallb_Forall, Forall_forall. intros [k a] Ha%elem_of_map_to_list. cbn [snd].
  rewrite lookup_St in Ha. unfold argument in Ha.
  assert (forallb (λ p, attr_ok known (snd p)) (kw ++ base) = true) as Hall.
  { rewrite forallb_app, Hkw. cbn. by rewrite HF. }
  clear -Ha Hall. induction (kw ++ base) as [|[k' a'] l IH]; [done|].
  cbn [keyword forallb snd] in *. apply andb_true_iff in Hall as [H1 H2].
  destruct (String.eqb k k'); [by injection Ha as <-|auto].
Qed.

#[local] Ltac styled := eapply style_St;
  [cbn [forallb attr_ok snd fontName fontSize leading textColor alignment leftIndent spaceAfter spaceBefore];
   rewrite ?HF, ?HFB; cbn [andb]; try done; rewrite ?andb_true_r; done
  |reflexivity|vm_compute; reflexivity|vm_compute; discriminate].

Lemma sound_paragraph t st : sound known (Paragraph t st) = true ↔
  markup_ok t = true ∧ style_ok known st = true.
Proof. cbn [sound]. by rewrite andb_true_iff. Qed.
Lemma sound_bullets mark n kw items : markup_ok mark = true → style_ok known (St n kw) = true →
  forallb markup_ok items = true →
  Forall (λ f, sound known f = true) ((λ i, Paragraph (mark +:+ i) (St n kw)) <$> items).
Proof.
  intros Hm Hs Hi. apply Forall_fmap. apply forallb_Forall in Hi.
  eapply Forall_impl; [exact Hi|]. intros i Hok. apply sound_paragraph. split; [|done].
  by apply markup_ok_app.
Qed.

(** Texts with well-formed markup, and colours. *)
Definition scenario_ok (x : scenario) : bool :=
  let '(icon, title, sub, items, bg, tc) := x in
  markup_ok icon && markup_ok title && markup_ok sub && forallb markup_ok items &&
  color_ok bg && color_ok tc.

Lemma sound_card x : scenario_ok x = true → sound known (scenario_card x) = true.
Proof.
  destruct x as [[[[[icon title] sub] items] bg] tc]. unfold scenario_ok, scenario_card, card.
  rewrite !andb_true_iff. intros (((((Hi & Ht) & Hs) & Hl) & Hbg) & Htc).
  apply sound_column. split_and!; [done|done| |].
  - cbn [forallb op_ok]. by rewrite Hbg.
  - apply Forall_cons. split; [|apply Forall_cons; split; [|apply Forall_cons; split; [done|]]].
    + apply sound_paragraph. split; [|styled].
      apply markup_ok_app; [done|]. apply (markup_ok_app "  "); [done|]. by apply markup_ok_bold.
    + apply sound_paragraph. split; [done|styled].
    + apply sound_bullets; [done|styled|done].
Qed.

Lemma sound_cards2 c1 c2 : sound known (cards2 c1 c2) = true ↔
  sound known c1 = true ∧ sound known c2 = true.
Proof.
  unfold cards2. rewrite sound_row, !Forall_cons, !Forall_nil. split; [tauto|].
  intros [H1 H2]. by split_and!.
Qed.

Definition stat_ok (x : string * string * color) : bool :=
  markup_ok (fst (fst x)) && markup_ok (snd (fst x)) && color_ok (snd x).
Lemma sound_stat x : stat_ok x = true → sound known (stat x) = true.
Proof.
  destruct x as [[val label] tc]. unfold stat_ok. cbn [fst snd].
  rewrite !andb_true_iff. intros ((Hv & Hl) & Hc). apply sound_column. split_and!; [done..|].
  repeat (apply Forall_cons; split); [..|done]; apply sound_paragraph; split; try done.
  - styled.
  - unfold sBigS. styled.
Qed.
End helpers.

Lemma fits_bullets {fs : Fonts} pad w mark n kw items : argument_length kw "leftIndent" < w →
  Forall (λ f, fits pad w f = true) ((λ i, Paragraph (mark +:+ i) (St n kw)) <$> items).
Proof.
  intros Hw. apply Forall_fmap, Forall_true. intros i. cbn [fits compose].
  rewrite length_St. by apply Z.ltb_lt.
Qed.

(** A card and a stat need the same width whatever they say. *)
Lemma fits_card {fs : Fonts} pad w x : (W - 2 * M) / 2 - 4 * mm <= w → fits pad w (scenario_card x) = true.
Proof.
  destruct x as [[[[[icon title] sub] items] bg] tc]. intros Hw. unfold scenario_card, card.
  apply fits_column. split; [exact Hw|].
  repeat (apply Forall_cons; split; [by cbn [fits]; rewrite ?length_St; vm_compute|]).
  apply fits_bullets. by vm_compute.
Qed.
Lemma fits_cards2 {fs : Fonts} pad c1 c2 : let w := (W - 2 * M) / 2 - pt 6 in
  fits pad w c1 = true → fits pad w c2 = true → fits pad (W - 2 * M) (cards2 c1 c2) = true.
Proof.
  intros w H1 H2. unfold cards2. apply fits_row; [done|]. split; [done|].
  by repeat (apply Forall2_cons; split).
Qed.
Lemma fits_stat4 {fs : Fonts} pad items : length items = 4%nat → 0 <= pad <= pt 12 →
  fits pad (W - 2 * M) (stat4 items) = true.
Proof.
  intros Hlen Hpad. unfold stat4. apply fits_row; [by rewrite length_fmap, Hlen|]. split; [done|].
  destruct items as [|x1 [|x2 [|x3 [|x4 []]]]]; try done.
  assert (∀ x, fits pad (inner pad [ALIGN "CENTER"; VALIGN "MIDDLE"; LEFTPADDING (pt 3);
    RIGHTPADDING (pt 3)] ((W - 2 * M) / 4)) (stat x) = true) as Hx.
  { intros [[val label] tc]. apply fits_column. split; [done|].
    repeat (apply Forall_cons; split); [..|done]; cbn [fits]; unfold sBigS; rewrite length_St;
      apply Z.ltb_lt; unfold inner; cbn [fold_left left_padding right_padding default];
      change (argument_length _ _) with 0; unfold W, M, A4, mm, pt in *; cbn [fst] in *; 
      match goal with |- context [?a / 4] => change (a / 4) with 3132000 end; lia. }
  by repeat (apply Forall2_cons; split).
Qed.

(** ** Lemmas: the loop over the scenarios *)

Lemma range2_SS n : range2 (S (S n)) = 0%nat :: ((λ k, S (S k)) <$> range2 n).
Proof.
  unfold range2. change (S (S n) + 1)%nat with (S (S (n + 1))). cbn [Nat.div2 seq].
  rewrite fmap_cons, <-fmap_S_seq, <-!list_fmap_compose. f_equal. 
  apply list_fmap_ext. intros _ k _. cbn. lia.
Qed.
Lemma scenario_rows_SS {fs : Fonts} x y sc : scenario_rows (x :: y :: sc) =
  b ← scenario_rows sc; mret ([cards2 (scenario_card x) (scenario_card y); sp 4] ++ b).
Proof.
  unfold scenario_rows. cbn [length]. rewrite range2_SS. cbn [fmap list_fmap append_all].
  rewrite <-list_fmap_compose. f_equal.
Qed.

(** ** Lemmas: the fonts *)


(** The fonts that the package knows: two of the fonts that every PDF reader has,
    and those registered. *)
Definition known (names : list (string * string)) (f : string) : bool :=
  bool_decide (f ∈ ["Helvetica"; "Helvetica-Bold"] ++ (fst <$> names)).



(** The cells of the tables of a story, in order. *)
Definition laid_out (s : list flowable) : list flowable :=
  f ← s;
  match f with
  | Table rows _ _ => omap (λ x : cell, match x with inr f => Some f | inl _ => None end) (concat rows)
  | _ => []
  end.

(** Induction two elements at a time. *)
Lemma list_ind2 {A} (P : list A → Prop) :
  P [] → (∀ x, P [x]) → (∀ x y l, P l → P (x :: y :: l)) → ∀ l, P l.
Proof.
  intros H0 H1 H2 l. enough (P l ∧ ∀ x, P (x :: l)) by tauto.
  induction l as [|x l [IH1 IH2]]; [auto|]. split; [apply IH2|]. intros y. by apply H2.
Qed.

(** ** Properties *)


(** C32: the boxes that the helpers draw are sound and fit the page whatever they
    say.  For texts with well-formed markup and colours, two cards make a row that
    fits the width between the margins; figures make one if and only if there are
    four of them. *)
Theorem boxes_of_any_content {fs : Fonts} (known : string → bool) pad :
  known F = true → known FB = true → 0 <= pad <= pt 12 →
  (∀ x y, scenario_ok x = true → scenario_ok y = true →
    sound known (cards2 (scenario_card x) (scenario_card y)) = true ∧
    fits pad (W - 2 * M) (cards2 (scenario_card x) (scenario_card y)) = true) ∧
  (∀ items, Forall (λ i, stat_ok i = true) items →
    (sound known (stat4 items) = true ↔ length items = 4%nat) ∧
    (length items = 4%nat → fits pad (W - 2 * M) (stat4 items) = true)).
Proof.
  intros HF HFB Hpad. split.
  - intros x y Hx Hy. split.
    + apply sound_cards2. split; by apply sound_card.
    + apply fits_cards2; by apply fits_card.
  - intros items Hi. split; [|intros Hlen; by apply fits_stat4]. unfold stat4.
    rewrite sound_row, length_fmap. split; [by intros (_ & -> & _)|]. intros Hlen.
    split_and!; [by destruct items|done|by repeat constructor|done|].
    apply Forall_fmap. eapply Forall_impl; [exact Hi|]. intros x Hx. by apply (sound_stat known HF HFB).
Qed.

(** The loop over the scenarios draws every card once, in order, two to a row,
    each row followed by space; an odd number of scenarios is an [IndexError]. *)
Theorem scenario_rows_pairs {fs : Fonts} (sc : list scenario) :
  match scenario_rows sc with
  | Ok s => Nat.Even (length sc) ∧ length s = length sc ∧ laid_out s = scenario_card <$> sc
  | Raise e => Nat.Odd (length sc) ∧ e = IndexError
  end.
Proof.
  induction sc as [|x|x y sc IH] using list_ind2.
  - split; [by exists 0%nat|done].
  - split; [by exists 0%nat|done].
  - rewrite scenario_rows_SS. destruct (scenario_rows sc) as [s|e]; cbn [mbind result_bind mret result_ret].
    + destruct IH as ([k Hk] & Hlen & Hs). split; [exists (S k); cbn [length]; lia|].
      split; [cbn [length app]; by rewrite Hlen|]. by rewrite !fmap_cons, <-Hs.
    + destruct IH as ([k Hk] & He). split; [exists (S k); cbn [length]; lia|done].
Qed.

(** ** Witnesses *)

Module PresentationWitnesses.



Definition helvetica : Fonts := fonts None None.
Definition sample_card : scenario := ("*", "<b>Title</b>", "Subtitle", ["one"; "two"], LITE, ACC).
Lemma boxes_of_any_content_witness :
  sound (known []) (cards2 (scenario_card (fs:=helvetica) sample_card)
    (scenario_card (fs:=helvetica) sample_card)) = true ∧
  sound (known []) (stat4 (fs:=helvetica) [("1", "one", ACC)]) = false.
Proof.
  destruct (boxes_of_any_content (fs:=helvetica) (known []) (pt 6) eq_refl eq_refl
    ltac:(by vm_compute)) as [Hcards Hstats].
  split; [exact (proj1 (Hcards sample_card sample_card eq_refl eq_refl))|].
  destruct (sound _ _) eqn:Hs; [|done].
  apply Hstats in Hs; [done|by repeat constructor].
Defined.
End PresentationWitnesses.
